(** * node-marshal: a shallow embedding of the node serializer

    The development follows the C sources of the extension:
    - [base85r.c]  : the text transport codec (modified BASE85);
    - [nodeinfo.c] : the table of node kinds and its start-up check;
    - [nodedump.c] : the leaf tables, the graph walker, the binary node
                     encoder and the loader.

    C integers are kept as [Z] with their wrap-around written out, byte
    strings are [list byte], and [rb_raise] is an explicit error result. *)

From Stdlib Require Import String Ascii ZArith List Lia Bool.
From Stdlib.Strings Require Import Byte.
From Stdlib Require Import Zbitwise.
Import ListNotations.
Local Open Scope Z_scope.

(* ===================================================================== *)
(** * Part 0. C integers, bytes and raised errors                         *)
(* ===================================================================== *)

(** What a call can end with instead of a value: a Ruby exception raised
    by [rb_raise] (or by the interpreter itself), an access outside of a C
    object, for which C promises nothing, or a recursion that never
    returns. *)
Inductive error : Type :=
| ArgError (msg : string)
| RangeError (msg : string)
| TypeError (msg : string)
| OutOfBounds (what : string)
| Diverges.

Inductive result (A : Type) : Type :=
| Ok (a : A)
| Raise (e : error).
Arguments Ok {A} a.
Arguments Raise {A} e.

Definition bind {A B : Type} (r : result A) (k : A -> result B) : result B :=
  match r with
  | Ok a => k a
  | Raise e => Raise e
  end.

Declare Scope res_scope.
Delimit Scope res_scope with res.
Notation "x <- c1 ;; c2" := (bind c1 (fun x => c2))
  (at level 61, c1 at next level, right associativity) : res_scope.
Notation "' pat <- c1 ;; c2" := (bind c1 (fun x => let 'pat := x in c2))
  (at level 61, pat pattern, c1 at next level, right associativity) : res_scope.
Local Open Scope res_scope.

Definition is_ok {A : Type} (r : result A) : bool :=
  match r with Ok _ => true | Raise _ => false end.

(** [unsigned int] and [int] on the supported platforms: 32 bits. *)
Definition uint32 (z : Z) : Z := z mod 2 ^ 32.
Definition int32 (z : Z) : Z := (z + 2 ^ 31) mod 2 ^ 32 - 2 ^ 31.

Definition byte_to_Z (b : byte) : Z := Z.of_N (Byte.to_N b).
Definition byte_of_Z (z : Z) : byte :=
  match Byte.of_N (Z.to_N (z mod 256)) with
  | Some b => b
  | None => x00
  end.

(** [a[i]] for a C array of known extent. *)
Definition arr_get {A : Type} (what : string) (a : list A) (i : Z) : result A :=
  if i <? 0 then Raise (OutOfBounds what)
  else match nth_error a (Z.to_nat i) with
       | Some x => Ok x
       | None => Raise (OutOfBounds what)
       end.

(* ===================================================================== *)
(** * Part 1. base85r.c                                                   *)
(* ===================================================================== *)

Definition BASE85R_STR_WIDTH : Z := 14.

Definition D0_VAL : Z := 1.
Definition D1_VAL : Z := 85.
Definition D2_VAL : Z := 7225.
Definition D3_VAL : Z := 614125.
Definition D4_VAL : Z := 52200625.

Definition di_val : list Z := [D4_VAL; D3_VAL; D2_VAL; D1_VAL; D0_VAL].

(** [val_to_char[86]]: the 85 digits and the terminating zero of the C
    string literal. *)
Definition val_to_char : list byte :=
  list_byte_of_string
    ("ABCDEFGHIJKLMNOPQRSTUVWXYZ" ++
     "abcdefghijklmnopqrstuvwxyz" ++
     "0123456789" ++
     "!$%&()*-./" ++
     ":;<=>?@[]^" ++
     ",_|")%string
  ++ [x00].

Definition arr_set {A : Type} (a : list A) (i : nat) (x : A) : list A :=
  firstn i a ++ x :: skipn (S i) a.

(** [base85r_init_tables]: fills [char_to_val[128]]; the three loops. *)
Fixpoint init_fill (idxs : list nat) (tbl : list Z) : result (list Z) :=
  match idxs with
  | [] => Ok tbl
  | i :: idxs' =>
      let c := Z.to_nat (byte_to_Z (nth i val_to_char x00)) in
      if negb (nth c tbl 0 =? -1) then Raise (ArgError "Internal error")
      else init_fill idxs' (arr_set tbl c (Z.of_nat i))
  end.

Fixpoint init_check (idxs : list nat) (tbl : list Z) : result unit :=
  match idxs with
  | [] => Ok tt
  | i :: idxs' =>
      let c := Z.to_nat (byte_to_Z (nth i val_to_char x00)) in
      if negb (nth c tbl 0 =? Z.of_nat i) then Raise (ArgError "Internal error")
      else init_check idxs' tbl
  end.

Definition base85r_init_tables : result (list Z) :=
  tbl <- init_fill (seq 0 85) (repeat (-1) 128);;
  _ <- init_check (seq 0 85) tbl;;
  Ok tbl.

(** The table as [Init_nodemarshal] leaves it (see [base85r_init_ok]). *)
Definition char_to_val : list Z :=
  Eval vm_compute in
    match base85r_init_tables with Ok t => t | Raise _ => [] end.

(** [base85_encode_buf_len], in [int] arithmetic. *)
Definition base85_encode_buf_len (len : Z) : Z :=
  let buf_len := int32 (Z.shiftl (Z.shiftr len 2) 2) in
  let buf_len := if negb (Z.rem len 4 =? 0) then int32 (buf_len + 4) else buf_len in
  let buf_len := Z.quot (int32 (buf_len * 5)) 4 in
  let buf_len := Z.quot (int32 (buf_len * 105)) 100 in
  let buf_len := int32 (buf_len + 32) in
  buf_len.

(** [rb_str_new(NULL, len)]: the interpreter refuses a negative length. *)
Definition rb_str_new_check (len : Z) : result unit :=
  if len <? 0 then Raise (ArgError "negative string size (or size too big)")
  else Ok tt.

(** [rb_str_resize(str, len)] on a buffer whose written prefix is [buf]:
    a negative length is refused, a shorter one truncates. *)
Definition rb_str_resize (buf : list byte) (len : Z) : result (list byte) :=
  if len <? 0 then Raise (ArgError "negative string size (or size too big)")
  else Ok (firstn (Z.to_nat len) buf).

(** One step of [for (i = 24; i >= 0; i -= 8) if (pos < inp_len)
    val |= inptr[pos++] << i;].  The unread part of the input stands for
    [inptr + pos]. *)
Definition read_byte (inp_len i : Z) (st : Z * Z * list byte) : Z * Z * list byte :=
  let '(val, pos, rest) := st in
  if pos <? inp_len then
    match rest with
    | b :: rest' => (Z.lor val (uint32 (Z.shiftl (byte_to_Z b) i)), pos + 1, rest')
    | [] => (val, pos + 1, [])
    end
  else st.

Definition read_word (inp_len pos : Z) (rest : list byte) : Z * Z * list byte :=
  read_byte inp_len 0
    (read_byte inp_len 8
       (read_byte inp_len 16
          (read_byte inp_len 24 (0, pos, rest)))).

(** The five digits of one 32-bit group, most significant first. *)
Definition encode_digit (val d : Z) : byte :=
  nth (Z.to_nat ((val / d) mod 85)) val_to_char x00.

Definition encode_group (val : Z) : list byte :=
  map (encode_digit val) di_val.

(** The main loop of [base85r_encode]; every turn reads at least one byte,
    so the input length bounds the number of turns. *)
Fixpoint encode_loop (fuel : nat) (inp_len pos : Z) (rest : list byte)
    (out : list byte) : list byte :=
  match fuel with
  | O => out
  | S fuel' =>
      if pos <? inp_len then
        let '(val, pos', rest') := read_word inp_len pos rest in
        let out := out ++ encode_group val in
        let out :=
          if Z.rem pos' (4 * BASE85R_STR_WIDTH) =? 0
          then out ++ [byte_of_Z 10; byte_of_Z 32] else out in
        encode_loop fuel' inp_len pos' rest' out
      else out
  end.

Definition base85r_encode (input : list byte) : result (list byte) :=
  let inp_len := int32 (Z.of_nat (length input)) in
  let out_buf_len := base85_encode_buf_len inp_len in
  _ <- rb_str_new_check out_buf_len;;
  hd <- arr_get "val_to_char" val_to_char (Z.rem inp_len 4);;
  let out := encode_loop (length input) inp_len 0 input [byte_of_Z 32; hd] in
  if Z.of_nat (length out) >=? out_buf_len
  then Raise (ArgError "base85r_encode: internal memory error")
  else rb_str_resize out (Z.of_nat (length out)).

(** The state of the decoding loop: [tail_len], [shift], [val] and the
    bytes written through [outptr]. *)
Record dec_state : Type := {
  tail_len : Z;
  shift : Z;
  dval : Z;
  written : list byte
}.

Definition dec_init : dec_state :=
  {| tail_len := -1; shift := 0; dval := 0; written := [] |}.

Definition word_bytes (val : Z) : list byte :=
  map (fun i => byte_of_Z (Z.land (Z.shiftr val i) 255)) [24; 16; 8; 0].

(** The body of the [for (pos ...)] loop of [base85r_decode].
    [char_to_val] has 128 entries and is indexed by an [unsigned char]. *)
Definition decode_step (ctv : list Z) (st : dec_state) (c : byte) : result dec_state :=
  digit <- arr_get "char_to_val" ctv (byte_to_Z c);;
  if negb (digit =? -1) then
    if tail_len st =? -1 then
      if digit >? 4
      then Raise (ArgError "base85r_decode: input string is corrupted")
      else Ok {| tail_len := digit; shift := shift st;
                 dval := dval st; written := written st |}
    else
      d <- arr_get "di_val" di_val (shift st);;
      let val := uint32 (dval st + int32 (digit * d)) in
      let sh := shift st + 1 in
      if sh =? 5 then
        Ok {| tail_len := tail_len st; shift := 0; dval := 0;
              written := written st ++ word_bytes val |}
      else
        Ok {| tail_len := tail_len st; shift := sh; dval := val;
              written := written st |}
  else Ok st.

Fixpoint decode_loop (ctv : list Z) (st : dec_state) (inp : list byte) : result dec_state :=
  match inp with
  | [] => Ok st
  | c :: inp' =>
      st' <- decode_step ctv st c;;
      decode_loop ctv st' inp'
  end.

Definition base85r_decode_with (ctv : list Z) (input : list byte) : result (list byte) :=
  let inp_len := int32 (Z.of_nat (length input)) in
  if (inp_len <? 6) && negb (inp_len =? 2)
  then Raise (ArgError "base85r_decode: input string is too short")
  else
    _ <- rb_str_new_check inp_len;;
    st <- decode_loop ctv dec_init input;;
    if negb (shift st =? 0)
    then Raise (ArgError "base85r_decode: input string is corrupted")
    else
      let out_len := Z.of_nat (length (written st)) in
      let out_len :=
        if negb (tail_len st =? 0) then out_len - (4 - tail_len st) else out_len in
      rb_str_resize (written st) out_len.

Definition base85r_decode (input : list byte) : result (list byte) :=
  base85r_decode_with char_to_val input.

(* ===================================================================== *)
(** * Part 2. node220.h and nodeinfo.c                                    *)
(* ===================================================================== *)

(** [enum node_type] of node220.h; a C enumerator is an [int]. *)
Definition NODE_SCOPE : Z := 0.
Definition NODE_BLOCK : Z := 1.
Definition NODE_IF : Z := 2.
Definition NODE_CASE : Z := 3.
Definition NODE_WHEN : Z := 4.
Definition NODE_OPT_N : Z := 5.
Definition NODE_WHILE : Z := 6.
Definition NODE_UNTIL : Z := 7.
Definition NODE_ITER : Z := 8.
Definition NODE_FOR : Z := 9.
Definition NODE_BREAK : Z := 10.
Definition NODE_NEXT : Z := 11.
Definition NODE_REDO : Z := 12.
Definition NODE_RETRY : Z := 13.
Definition NODE_BEGIN : Z := 14.
Definition NODE_RESCUE : Z := 15.
Definition NODE_RESBODY : Z := 16.
Definition NODE_ENSURE : Z := 17.
Definition NODE_AND : Z := 18.
Definition NODE_OR : Z := 19.
Definition NODE_MASGN : Z := 20.
Definition NODE_LASGN : Z := 21.
Definition NODE_DASGN : Z := 22.
Definition NODE_DASGN_CURR : Z := 23.
Definition NODE_GASGN : Z := 24.
Definition NODE_IASGN : Z := 25.
Definition NODE_IASGN2 : Z := 26.
Definition NODE_CDECL : Z := 27.
Definition NODE_CVASGN : Z := 28.
Definition NODE_CVDECL : Z := 29.
Definition NODE_OP_ASGN1 : Z := 30.
Definition NODE_OP_ASGN2 : Z := 31.
Definition NODE_OP_ASGN_AND : Z := 32.
Definition NODE_OP_ASGN_OR : Z := 33.
Definition NODE_OP_CDECL : Z := 34.
Definition NODE_CALL : Z := 35.
Definition NODE_FCALL : Z := 36.
Definition NODE_VCALL : Z := 37.
Definition NODE_SUPER : Z := 38.
Definition NODE_ZSUPER : Z := 39.
Definition NODE_ARRAY : Z := 40.
Definition NODE_ZARRAY : Z := 41.
Definition NODE_VALUES : Z := 42.
Definition NODE_HASH : Z := 43.
Definition NODE_RETURN : Z := 44.
Definition NODE_YIELD : Z := 45.
Definition NODE_LVAR : Z := 46.
Definition NODE_DVAR : Z := 47.
Definition NODE_GVAR : Z := 48.
Definition NODE_IVAR : Z := 49.
Definition NODE_CONST : Z := 50.
Definition NODE_CVAR : Z := 51.
Definition NODE_NTH_REF : Z := 52.
Definition NODE_BACK_REF : Z := 53.
Definition NODE_MATCH : Z := 54.
Definition NODE_MATCH2 : Z := 55.
Definition NODE_MATCH3 : Z := 56.
Definition NODE_LIT : Z := 57.
Definition NODE_STR : Z := 58.
Definition NODE_DSTR : Z := 59.
Definition NODE_XSTR : Z := 60.
Definition NODE_DXSTR : Z := 61.
Definition NODE_EVSTR : Z := 62.
Definition NODE_DREGX : Z := 63.
Definition NODE_DREGX_ONCE : Z := 64.
Definition NODE_ARGS : Z := 65.
Definition NODE_ARGS_AUX : Z := 66.
Definition NODE_OPT_ARG : Z := 67.
Definition NODE_KW_ARG : Z := 68.
Definition NODE_POSTARG : Z := 69.
Definition NODE_ARGSCAT : Z := 70.
Definition NODE_ARGSPUSH : Z := 71.
Definition NODE_SPLAT : Z := 72.
Definition NODE_TO_ARY : Z := 73.
Definition NODE_BLOCK_ARG : Z := 74.
Definition NODE_BLOCK_PASS : Z := 75.
Definition NODE_DEFN : Z := 76.
Definition NODE_DEFS : Z := 77.
Definition NODE_ALIAS : Z := 78.
Definition NODE_VALIAS : Z := 79.
Definition NODE_UNDEF : Z := 80.
Definition NODE_CLASS : Z := 81.
Definition NODE_MODULE : Z := 82.
Definition NODE_SCLASS : Z := 83.
Definition NODE_COLON2 : Z := 84.
Definition NODE_COLON3 : Z := 85.
Definition NODE_CREF : Z := 86.
Definition NODE_DOT2 : Z := 87.
Definition NODE_DOT3 : Z := 88.
Definition NODE_FLIP2 : Z := 89.
Definition NODE_FLIP3 : Z := 90.
Definition NODE_SELF : Z := 91.
Definition NODE_NIL : Z := 92.
Definition NODE_TRUE : Z := 93.
Definition NODE_FALSE : Z := 94.
Definition NODE_ERRINFO : Z := 95.
Definition NODE_DEFINED : Z := 96.
Definition NODE_POSTEXE : Z := 97.
Definition NODE_ALLOCA : Z := 98.
Definition NODE_BMETHOD : Z := 99.
Definition NODE_MEMO : Z := 100.
Definition NODE_IFUNC : Z := 101.
Definition NODE_DSYM : Z := 102.
Definition NODE_ATTRASGN : Z := 103.
Definition NODE_PRELUDE : Z := 104.
Definition NODE_LAMBDA : Z := 105.
Definition NODE_LAST : Z := 106.

(** nodedump.h: type of a node child, and value locations. *)
Definition NT_NULL : Z := 0.
Definition NT_UNKNOWN : Z := 1.
Definition NT_NODE : Z := 2.
Definition NT_VALUE : Z := 3.
Definition NT_ID : Z := 4.
Definition NT_INTEGER : Z := 5.
Definition NT_LONG : Z := 5.
Definition NT_ARGS : Z := 6.
Definition NT_ENTRY : Z := 7.
Definition NT_IDTABLE : Z := 8.
Definition NT_MEMORY : Z := 9.

Definition VL_RAW : Z := 0.
Definition VL_NODE : Z := 1.
Definition VL_ID : Z := 2.
Definition VL_GVAR : Z := 3.
Definition VL_IDTABLE : Z := 4.
Definition VL_ARGS : Z := 5.
Definition VL_LIT : Z := 6.

Definition NODEMARSHAL_MAGIC : list byte := list_byte_of_string "NODEMARSHAL11".

(** One row of [nodes_child_info[][4]]. *)
Definition child_info : Type := (Z * Z * Z * Z)%type.

Definition ci_type (e : child_info) : Z := let '(t, _, _, _) := e in t.
Definition ci_child (e : child_info) (i : Z) : Z :=
  let '(_, c1, c2, c3) := e in
  if i =? 1 then c1 else if i =? 2 then c2 else c3.

(** [nodes_child_info], for the build with [USE_RB_ARGS_INFO] (Ruby 2.x,
    the one node220.h belongs to); the last row is the end marker. *)
Definition nodes_child_info : list child_info :=
  [ (NODE_BLOCK, NT_NODE, NT_NULL, NT_NODE);
    (NODE_IF, NT_NODE, NT_NODE, NT_NODE);
    (NODE_CASE, NT_NODE, NT_NODE, NT_NULL);
    (NODE_WHEN, NT_NODE, NT_NODE, NT_NODE);
    (NODE_OPT_N, NT_NULL, NT_NODE, NT_LONG);
    (NODE_WHILE, NT_NODE, NT_NODE, NT_LONG);
    (NODE_UNTIL, NT_NODE, NT_NODE, NT_LONG);
    (NODE_ITER, NT_VALUE, NT_NODE, NT_NODE);
    (NODE_FOR, NT_VALUE, NT_NODE, NT_NODE);
    (NODE_BREAK, NT_NODE, NT_NULL, NT_NULL);
    (NODE_NEXT, NT_NODE, NT_NULL, NT_NULL);
    (NODE_RETURN, NT_NODE, NT_NULL, NT_NULL);
    (NODE_REDO, NT_NULL, NT_NULL, NT_NULL);
    (NODE_RETRY, NT_NULL, NT_NULL, NT_NULL);
    (NODE_BEGIN, NT_NULL, NT_NODE, NT_NULL);
    (NODE_RESCUE, NT_NODE, NT_NODE, NT_NODE);
    (NODE_RESBODY, NT_NODE, NT_NODE, NT_NODE);
    (NODE_ENSURE, NT_NODE, NT_NULL, NT_NODE);
    (NODE_AND, NT_NODE, NT_NODE, NT_NULL);
    (NODE_OR, NT_NODE, NT_NODE, NT_NULL);
    (NODE_MASGN, NT_NODE, NT_NODE, NT_NODE);
    (NODE_LASGN, NT_ID, NT_NODE, NT_NULL);
    (NODE_DASGN, NT_ID, NT_NODE, NT_NULL);
    (NODE_DASGN_CURR, NT_ID, NT_NODE, NT_NULL);
    (NODE_IASGN, NT_ID, NT_NODE, NT_NULL);
    (NODE_CVASGN, NT_ID, NT_NODE, NT_NULL);
    (NODE_GASGN, NT_NULL, NT_NODE, NT_ENTRY);
    (NODE_CDECL, NT_ID, NT_NODE, NT_NODE);
    (NODE_OP_ASGN1, NT_NODE, NT_ID, NT_NODE);
    (NODE_OP_ASGN2, NT_NODE, NT_NODE, NT_NODE);
    (NODE_OP_ASGN_AND, NT_NODE, NT_NODE, NT_NULL);
    (NODE_OP_ASGN_OR, NT_NODE, NT_NODE, NT_NULL);
    (NODE_CALL, NT_NODE, NT_ID, NT_NODE);
    (NODE_FCALL, NT_NULL, NT_ID, NT_NODE);
    (NODE_VCALL, NT_NULL, NT_ID, NT_NULL);
    (NODE_SUPER, NT_NULL, NT_NULL, NT_NODE);
    (NODE_ZSUPER, NT_NULL, NT_NULL, NT_NULL);
    (NODE_ARRAY, NT_NODE, NT_LONG, NT_NODE);
    (NODE_VALUES, NT_NODE, NT_LONG, NT_NODE);
    (NODE_ZARRAY, NT_NULL, NT_NULL, NT_NULL);
    (NODE_HASH, NT_NODE, NT_NULL, NT_NULL);
    (NODE_YIELD, NT_NODE, NT_NULL, NT_NULL);
    (NODE_LVAR, NT_ID, NT_NULL, NT_NULL);
    (NODE_DVAR, NT_ID, NT_NULL, NT_NULL);
    (NODE_IVAR, NT_ID, NT_NULL, NT_NULL);
    (NODE_CONST, NT_ID, NT_NULL, NT_NULL);
    (NODE_CVAR, NT_ID, NT_NULL, NT_NULL);
    (NODE_GVAR, NT_NULL, NT_NULL, NT_ENTRY);
    (NODE_NTH_REF, NT_NULL, NT_LONG, NT_NULL);
    (NODE_BACK_REF, NT_NULL, NT_LONG, NT_LONG);
    (NODE_MATCH, NT_VALUE, NT_NULL, NT_NULL);
    (NODE_MATCH2, NT_NODE, NT_NODE, NT_NULL);
    (NODE_MATCH3, NT_NODE, NT_NODE, NT_NULL);
    (NODE_LIT, NT_VALUE, NT_NULL, NT_NULL);
    (NODE_STR, NT_VALUE, NT_NULL, NT_NULL);
    (NODE_XSTR, NT_VALUE, NT_NULL, NT_NULL);
    (NODE_DSTR, NT_VALUE, NT_NULL, NT_NODE);
    (NODE_DXSTR, NT_VALUE, NT_NULL, NT_NODE);
    (NODE_DREGX, NT_VALUE, NT_NULL, NT_NODE);
    (NODE_DREGX_ONCE, NT_VALUE, NT_NULL, NT_NODE);
    (NODE_DSYM, NT_VALUE, NT_NULL, NT_NODE);
    (NODE_EVSTR, NT_NULL, NT_NODE, NT_NULL);
    (NODE_ARGSCAT, NT_NODE, NT_NODE, NT_NULL);
    (NODE_ARGSPUSH, NT_NODE, NT_NODE, NT_NULL);
    (NODE_SPLAT, NT_NODE, NT_NULL, NT_NULL);
    (NODE_BLOCK_PASS, NT_NODE, NT_NODE, NT_NODE);
    (NODE_DEFN, NT_NULL, NT_ID, NT_NODE);
    (NODE_DEFS, NT_NODE, NT_ID, NT_NODE);
    (NODE_ALIAS, NT_NODE, NT_NODE, NT_NULL);
    (NODE_VALIAS, NT_ID, NT_ID, NT_NULL);
    (NODE_UNDEF, NT_NULL, NT_NODE, NT_NULL);
    (NODE_CLASS, NT_NODE, NT_NODE, NT_NODE);
    (NODE_MODULE, NT_NODE, NT_NODE, NT_NULL);
    (NODE_SCLASS, NT_NODE, NT_NODE, NT_NULL);
    (NODE_COLON2, NT_NODE, NT_ID, NT_NULL);
    (NODE_COLON3, NT_NULL, NT_ID, NT_NULL);
    (NODE_DOT2, NT_NODE, NT_NODE, NT_NULL);
    (NODE_DOT3, NT_NODE, NT_NODE, NT_NULL);
    (NODE_FLIP2, NT_NODE, NT_NODE, NT_NULL);
    (NODE_FLIP3, NT_NODE, NT_NODE, NT_NULL);
    (NODE_SELF, NT_NULL, NT_NULL, NT_NULL);
    (NODE_NIL, NT_NULL, NT_NULL, NT_NULL);
    (NODE_TRUE, NT_NULL, NT_NULL, NT_NULL);
    (NODE_FALSE, NT_NULL, NT_NULL, NT_NULL);
    (NODE_ERRINFO, NT_NULL, NT_NULL, NT_NULL);
    (NODE_DEFINED, NT_NODE, NT_NULL, NT_NULL);
    (NODE_POSTEXE, NT_NULL, NT_NODE, NT_NULL);
    (NODE_ATTRASGN, NT_NODE, NT_ID, NT_NODE);
    (NODE_PRELUDE, NT_NODE, NT_NODE, NT_NULL);
    (NODE_LAMBDA, NT_NULL, NT_NODE, NT_NULL);
    (NODE_OPT_ARG, NT_NULL, NT_NODE, NT_NODE);
    (NODE_POSTARG, NT_NODE, NT_NODE, NT_NULL);
    (NODE_ARGS, NT_NULL, NT_VALUE, NT_ARGS);
    (NODE_SCOPE, NT_IDTABLE, NT_NODE, NT_NODE);
    (NODE_ARGS_AUX, NT_LONG, NT_LONG, NT_NODE);
    (-1, 0, 0, 0) ].

(** The [switch (type)] of [check_nodes_child_info], Ruby 2.2.1 variant:
    the reference classification [isval], or [None] where the switch
    takes [default: return]. *)
Definition case_of (type : Z) (labels : list Z) : bool := existsb (Z.eqb type) labels.

Definition isval_of (type : Z) : option (Z * Z * Z) :=
  if case_of type
       [ NODE_IF; NODE_FOR; NODE_ITER; NODE_WHEN; NODE_MASGN; NODE_RESCUE;
         NODE_RESBODY; NODE_CLASS; NODE_BLOCK_PASS ]
  then Some (1, 1, 1)
  else if case_of type
       [ NODE_BLOCK; NODE_ARRAY; NODE_DSTR; NODE_DXSTR; NODE_DREGX;
         NODE_DREGX_ONCE; NODE_ENSURE; NODE_CALL; NODE_DEFS; NODE_OP_ASGN1 ]
  then Some (1, 0, 1)
  else if case_of type
       [ NODE_SUPER; NODE_FCALL; NODE_DEFN; NODE_ARGS_AUX ]
  then Some (0, 0, 1)
  else if case_of type
       [ NODE_WHILE; NODE_UNTIL; NODE_AND; NODE_OR; NODE_CASE; NODE_SCLASS;
         NODE_DOT2; NODE_DOT3; NODE_FLIP2; NODE_FLIP3; NODE_MATCH2;
         NODE_MATCH3; NODE_OP_ASGN_OR; NODE_OP_ASGN_AND; NODE_MODULE;
         NODE_ALIAS; NODE_ARGSCAT ]
  then Some (1, 1, 0)
  else if case_of type
       [ NODE_GASGN; NODE_LASGN; NODE_DASGN; NODE_DASGN_CURR; NODE_IASGN;
         NODE_IASGN2; NODE_CVASGN; NODE_OPT_N; NODE_EVSTR; NODE_UNDEF;
         NODE_POSTEXE ]
  then Some (0, 1, 0)
  else if case_of type
       [ NODE_HASH; NODE_LIT; NODE_STR; NODE_XSTR; NODE_DEFINED;
         NODE_MATCH; NODE_RETURN; NODE_BREAK; NODE_NEXT; NODE_YIELD;
         NODE_COLON2; NODE_SPLAT; NODE_TO_ARY ]
  then Some (1, 0, 0)
  else if case_of type
       [ NODE_SCOPE; NODE_CDECL; NODE_OPT_ARG ]
  then Some (0, 1, 1)
  else if case_of type
       [ NODE_ARGS ]
  then Some (0, 1, 0)
  else if case_of type
       [ NODE_ZARRAY; NODE_ZSUPER; NODE_VCALL; NODE_GVAR; NODE_LVAR;
         NODE_DVAR; NODE_IVAR; NODE_CVAR; NODE_NTH_REF; NODE_BACK_REF;
         NODE_REDO; NODE_RETRY; NODE_SELF; NODE_NIL; NODE_TRUE; NODE_FALSE;
         NODE_ERRINFO; NODE_BLOCK_ARG ]
  then Some (0, 0, 0)
  else None.

(** [strcmp] sees a [char *] up to its first zero byte. *)
Fixpoint cstr (s : list byte) : list byte :=
  match s with
  | [] => []
  | b :: s' => if Byte.eqb b x00 then [] else b :: cstr s'
  end.

Fixpoint bytes_eqb (a b : list byte) : bool :=
  match a, b with
  | [], [] => true
  | x :: a', y :: b' => Byte.eqb x y && bytes_eqb a' b'
  | _, _ => false
  end.

(** [strcmp(a, b) == 0]. *)
Definition strcmp_eq (a b : list byte) : bool := bytes_eqb (cstr a) (cstr b).

Definition isval_tbl_of (e : child_info) (i : Z) : Z :=
  if (ci_child e i =? NT_NODE) || (ci_child e i =? NT_VALUE) then 1 else 0.

(** [check_nodes_child_info(pos)] over the table [tbl]; [node_name] is the
    interpreter's [ruby_node_name]. *)
Definition check_nodes_child_info (node_name : Z -> list byte)
    (tbl : list child_info) (pos : Z) : result unit :=
  e <- arr_get "nodes_child_info" tbl pos;;
  let type := ci_type e in
  if negb (strcmp_eq (node_name NODE_LAMBDA) (list_byte_of_string "NODE_LAMBDA"))
  then Raise (ArgError "Invalid NODE_LAMBDA position")
  else
    match isval_of type with
    | None => Ok tt
    | Some (v0, v1, v2) =>
        if negb (v0 - isval_tbl_of e 1 =? 0)
           || negb (v1 - isval_tbl_of e 2 =? 0)
           || negb (v2 - isval_tbl_of e 3 =? 0)
        then Raise (ArgError
               "Bad node entry in the initial table (%s): %d%d%d instead of %d%d%d")
        else Ok tt
    end.

Definition arr_put {A : Type} (what : string) (a : list A) (i : Z) (x : A)
    : result (list A) :=
  if (i <? 0) || (Z.of_nat (length a) <=? i) then Raise (OutOfBounds what)
  else Ok (arr_set a (Z.to_nat i) x).

(** First loop of [init_nodes_table]: every row before the end marker is
    checked. *)
Fixpoint init_check_rows (fuel : nat) (node_name : Z -> list byte)
    (tbl : list child_info) (pos : Z) : result unit :=
  match fuel with
  | O => Raise (OutOfBounds "nodes_child_info")
  | S fuel' =>
      e <- arr_get "nodes_child_info" tbl pos;;
      if ci_type e =? -1 then Ok tt
      else
        _ <- check_nodes_child_info node_name tbl pos;;
        init_check_rows fuel' node_name tbl (pos + 1)
  end.

(** Third loop: the rows are copied to [nodes_ctbl]. *)
Fixpoint init_copy_rows (fuel : nat) (tbl : list child_info) (pos : Z)
    (ctbl : list Z) : result (list Z) :=
  match fuel with
  | O => Raise (OutOfBounds "nodes_child_info")
  | S fuel' =>
      e <- arr_get "nodes_child_info" tbl pos;;
      if ci_type e =? -1 then Ok ctbl
      else
        let offset := ci_type e * 3 in
        ctbl <- arr_put "nodes_ctbl" ctbl offset (ci_child e 1);;
        ctbl <- arr_put "nodes_ctbl" ctbl (offset + 1) (ci_child e 2);;
        ctbl <- arr_put "nodes_ctbl" ctbl (offset + 2) (ci_child e 3);;
        init_copy_rows fuel' tbl (pos + 1) ctbl
  end.

Definition init_nodes_table_of (node_name : Z -> list byte)
    (tbl : list child_info) (num_of_entries : Z) : result (list Z) :=
  _ <- init_check_rows (S (length tbl)) node_name tbl 0;;
  init_copy_rows (S (length tbl)) tbl 0
    (repeat NT_UNKNOWN (Z.to_nat (num_of_entries * 3))).

Definition NODES_CTBL_SIZE : Z := 256.

(** [init_nodes_table(nodes_ctbl, NODES_CTBL_SIZE)] as [Init_nodemarshal]
    calls it. *)
Definition init_nodes_table (node_name : Z -> list byte) : result (list Z) :=
  init_nodes_table_of node_name nodes_child_info NODES_CTBL_SIZE.

(* ===================================================================== *)
(** * Part 3. nodedump.c: values, nodes and the interpreter               *)
(* ===================================================================== *)

(** [VALUE] and [ID] are [unsigned long]: 64 bits on the platforms of the
    extension. *)
Definition VALUE : Type := Z.
Definition SIZEOF_VALUE : Z := 8.
Definition to_VALUE (z : Z) : VALUE := z mod 2 ^ 64.
Definition to_long (z : Z) : Z := (z + 2 ^ 63) mod 2 ^ 64 - 2 ^ 63.

(** [struct RNode] of node220.h. *)
Record RNode : Type := mkRNode {
  flags : VALUE;
  nd_reserved : VALUE;
  u1 : VALUE;
  u2 : VALUE;
  u3 : VALUE
}.

Definition NODE_TYPESHIFT : Z := 8.
Definition NODE_TYPEMASK : Z := Z.shiftl 127 NODE_TYPESHIFT.
Definition nd_type (n : RNode) : Z :=
  int32 (Z.shiftr (Z.land (flags n) NODE_TYPEMASK) NODE_TYPESHIFT).

(** [struct rb_global_entry] and [struct rb_args_info] of node220.h. *)
Record rb_global_entry_t : Type := {
  entry_var : VALUE;
  entry_id : Z
}.

Record rb_args_info : Type := {
  pre_init : VALUE;
  post_init : VALUE;
  pre_args_num : Z;
  post_args_num : Z;
  first_post_arg : Z;
  rest_arg : Z;
  block_arg : Z;
  kw_args : VALUE;
  kw_rest_arg : VALUE;
  opt_args : VALUE
}.

(** What an address of the process can hold: a node, another Ruby object
    (only its header word matters here), a table of identifiers ([ID *],
    the first word is the number of identifiers that follow), a global
    entry or an arguments record. *)
Inductive hobj : Type :=
| ONode (n : RNode)
| OBasic (header : VALUE)
| OIdTable (tbl : list Z)
| OEntry (e : rb_global_entry_t)
| OArgs (a : rb_args_info).

Definition memory : Type := VALUE -> option hobj.

Definition mem_put (m : memory) (a : VALUE) (o : hobj) : memory :=
  fun x => if x =? a then Some o else m x.

(** Ruby objects as the container holds them.  [RObj] is any object that
    the extension only passes around by its handle (the literals). *)
#[local] Unset Elimination Schemes.
Inductive rvalue : Type :=
| RNil
| RFix (n : Z)
| RStr (s : list byte)
| RAry (l : list rvalue)
| RHash (h : list (string * rvalue))
| RObj (v : VALUE).
#[local] Set Elimination Schemes.

(** The interpreter the extension is linked to: constants and macros of
    ruby.h, which are not part of these sources, and the services
    called. *)
Record Host : Type := {
  Qfalse : VALUE;
  Qtrue : VALUE;
  Qnil : VALUE;
  Qundef : VALUE;
  FIXNUM_FLAG : VALUE;
  (** [FLONUM_MASK] and [FLONUM_FLAG], where ruby.h defines them *)
  FLONUM : option (VALUE * VALUE);
  T_NODE : Z;
  T_MASK : Z;
  (** [rb_type] of a special constant, [None] for a pointer *)
  special_const_type : VALUE -> option Z;
  (** [rb_id2str]: the name, where the identifier has one *)
  rb_id2str : Z -> option (list byte);
  rb_intern : list byte -> Z;
  rb_global_entry : Z -> VALUE;
  ruby_node_name : Z -> list byte;
  RUBY_PLATFORM : list byte;
  RUBY_VERSION : list byte;
  (** the handle of a string, array or hash held by a container *)
  handle_of : rvalue -> VALUE;
  (** the address the allocator gives to the [k]-th block or object that a
      load asks for *)
  new_address : nat -> VALUE;
  (** what a read past the end of a string buffer finds *)
  beyond : Z -> byte;
  (** what a read of the first entry of an address table finds when the
      table was allocated for no entry *)
  beyond_table : VALUE;
  (** [Marshal.load], a service of the interpreter's core library; what it
      builds is a container value, not an object of the memory kept here *)
  Marshal_load : rvalue -> result rvalue;
  (** [RESET_GC_FLAGS], defined by the Ruby 1.9 builds only *)
  RESET_GC_FLAGS : bool
}.

Section Dump.

Variable H : Host.

(** The table [nodes_ctbl] as [init_nodes_table] filled it. *)
Variable nodes_ctbl : list Z.

Definition INT2FIX (i : Z) : VALUE := to_VALUE (2 * i + 1).

(** The handle of a container value. *)
Definition rvalue_VALUE (x : rvalue) : VALUE :=
  match x with
  | RNil => Qnil H
  | RFix n => INT2FIX n
  | RObj v => v
  | _ => handle_of H x
  end.

(** [FIX2LONG] is a bare shift; [FIX2INT] goes through [rb_fix2int], which
    checks its argument. *)
Definition FIX2LONG (x : rvalue) : Z := Z.shiftr (to_long (rvalue_VALUE x)) 1.

Definition FIX2INT (x : rvalue) : result Z :=
  match x with
  | RFix n =>
      if (n <? - 2 ^ 31) || (2 ^ 31 <=? n)
      then Raise (RangeError "integer too big to convert to `int'")
      else Ok n
  | _ => Raise (TypeError "no implicit conversion to integer")
  end.

(** The integer that the Fixnum [INT2FIX(i)] holds, for a 64-bit [i]: a
    Fixnum has 63 bits, and the shift of [INT2FIX] drops the top bit of
    [i]. *)
Definition fixnum (i : Z) : Z := Z.shiftr (to_long (INT2FIX i)) 1.

(** [BUILTIN_TYPE] reads the first word of what the pointer refers to. *)
Definition first_word (o : hobj) : VALUE :=
  match o with
  | ONode n => flags n
  | OBasic w => w
  | OIdTable t => to_VALUE (hd 0 t)
  | OEntry e => entry_var e
  | OArgs a => pre_init a
  end.

Definition TYPE (m : memory) (v : VALUE) : Z :=
  match special_const_type H v with
  | Some t => t
  | None =>
      match m v with
      | Some o => Z.land (first_word o) (T_MASK H)
      | None => 0
      end
  end.

Definition is_value_in_heap (val : VALUE) : bool :=
  if (val =? Qfalse H) || (val =? Qtrue H) || (val =? Qnil H) || (val =? Qundef H)
     || negb (Z.land val (FIXNUM_FLAG H) =? 0)
     || match FLONUM H with
        | Some (mask, flag) => Z.land val mask =? flag
        | None => false
        end
  then false else true.

(** [value_to_str]: [sprintf("%lx")] of the address.  (The C buffer has 16
    bytes, enough for the 15 digits of any address below 2^60.) *)
Definition hex_digit (d : Z) : byte :=
  nth (Z.to_nat d) (list_byte_of_string "0123456789abcdef") x00.

Fixpoint hex_loop (fuel : nat) (v : Z) (acc : list byte) : list byte :=
  match fuel with
  | O => acc
  | S fuel' =>
      let acc' := hex_digit (v mod 16) :: acc in
      if v / 16 =? 0 then acc' else hex_loop fuel' (v / 16) acc'
  end.

Definition value_to_str (val : VALUE) : list byte := hex_loop 16 val [].

(** [str_to_value]: [sscanf("%lx")] into a variable preset to [Qnil]. *)
Definition hex_val (b : byte) : option Z :=
  let c := byte_to_Z b in
  if (48 <=? c) && (c <=? 57) then Some (c - 48)
  else if (97 <=? c) && (c <=? 102) then Some (c - 87)
  else if (65 <=? c) && (c <=? 70) then Some (c - 55)
  else None.

Fixpoint scan_hex (s : list byte) (acc : Z) : Z :=
  match s with
  | [] => acc
  | b :: s' =>
      match hex_val b with
      | Some d => scan_hex s' (to_VALUE (acc * 16 + d))
      | None => acc
      end
  end.

Definition str_to_value (s : list byte) : VALUE :=
  match s with
  | b :: _ => match hex_val b with Some _ => scan_hex s 0 | None => Qnil H end
  | [] => Qnil H
  end.

(** [value_to_bin]: big-endian, leading zero bytes dropped; the bytes
    written to [buf], whose number is the C return value. *)
Fixpoint value_to_bin_loop (idxs : list Z) (val : VALUE) (buf : list byte) : list byte :=
  match idxs with
  | [] => buf
  | i :: idxs' =>
      let b := Z.land (Z.shiftr val (i * 8)) 255 in
      if (0 <? Z.of_nat (length buf)) || negb (b =? 0)
      then value_to_bin_loop idxs' val (buf ++ [byte_of_Z b])
      else value_to_bin_loop idxs' val buf
  end.

Definition value_to_bin (val : VALUE) : list byte :=
  value_to_bin_loop [7; 6; 5; 4; 3; 2; 1; 0] val [].

(** [bin_to_value] over the [len] bytes found at [buf].  (A byte shifted
    by 64 bits or more, which C leaves undefined, is lost.) *)
Fixpoint bin_to_value_loop (buf : list byte) (i : Z) (val : VALUE) : VALUE :=
  match buf with
  | [] => val
  | b :: buf' =>
      bin_to_value_loop buf' (i - 1)
        (Z.lor val (to_VALUE (Z.shiftl (byte_to_Z b) (i * 8))))
  end.

Definition bin_to_value (buf : list byte) : VALUE :=
  bin_to_value_loop buf (Z.of_nat (length buf) - 1) 0.

(** ** Leaf tables *)

(** The two kinds of objects used as keys: the strings of [value_to_str]
    and the Fixnums of identifiers.  A Ruby [Hash] keeps its keys in
    insertion order and compares these keys by content. *)
Inductive rkey : Type :=
| KStr (s : list byte)
| KFix (n : Z).

Definition rkey_eqb (a b : rkey) : bool :=
  match a, b with
  | KStr s, KStr t => bytes_eqb s t
  | KFix n, KFix k => n =? k
  | _, _ => false
  end.

Definition rkey_rvalue (k : rkey) : rvalue :=
  match k with KStr s => RStr s | KFix n => RFix n end.

Fixpoint rb_hash_aref {A : Type} (h : list (rkey * A)) (key : rkey) : option A :=
  match h with
  | [] => None
  | (k, v) :: h' => if rkey_eqb k key then Some v else rb_hash_aref h' key
  end.

Fixpoint rb_hash_aset {A : Type} (h : list (rkey * A)) (key : rkey) (v : A)
    : list (rkey * A) :=
  match h with
  | [] => [(key, v)]
  | (k, w) :: h' =>
      if rkey_eqb k key then (k, v) :: h' else (k, w) :: rb_hash_aset h' key v
  end.

(** [ids] holds the ordinals as Fixnums; [INT2FIX] and [FIX2INT] are
    inverse on an [int], so the integer itself is kept. *)
Record LeafTableInfo : Type := {
  vals : list (rkey * rvalue);
  ids : list (rkey * Z);
  pos : VALUE
}.

Definition LeafTableInfo_init : LeafTableInfo :=
  {| vals := []; ids := []; pos := 0 |}.

Definition LeafTableInfo_addEntry (lti : LeafTableInfo) (key : rkey) (value : rvalue)
    : Z * LeafTableInfo :=
  match rb_hash_aref (ids lti) key with
  | None =>
      let id := int32 (pos lti) in
      (id, {| vals := rb_hash_aset (vals lti) key value;
              ids := rb_hash_aset (ids lti) key id;
              pos := to_VALUE (pos lti + 1) |})
  | Some v_id => (v_id, lti)
  end.

Definition LeafTableInfo_addIDEntry (lti : LeafTableInfo) (id : Z) : Z * LeafTableInfo :=
  let r_idval :=
    match rb_id2str H id with
    | Some name => RStr name
    | None => RFix (fixnum id)
    end in
  LeafTableInfo_addEntry lti (KFix (fixnum id)) r_idval.

Definition LeafTableInfo_getLeavesTable (lti : LeafTableInfo) : list rvalue :=
  let keys := map fst (vals lti) in
  let n := Z.to_nat (pos lti) in
  map (fun key => match rb_hash_aref (vals lti) key with
                  | Some v => v
                  | None => RNil
                  end) (firstn n keys)
  ++ map rkey_rvalue (skipn n keys).

Definition LeafTableInfo_keyToID (lti : LeafTableInfo) (key : rkey) : Z :=
  match rb_hash_aref (ids lti) key with
  | None => -1
  | Some id => id
  end.

Record NODEInfo : Type := {
  syms : LeafTableInfo;
  lits : LeafTableInfo;
  idtabs : LeafTableInfo;
  args : LeafTableInfo;
  gentries : LeafTableInfo;
  nodes : LeafTableInfo
}.

Definition NODEInfo_init : NODEInfo :=
  {| syms := LeafTableInfo_init; lits := LeafTableInfo_init;
     idtabs := LeafTableInfo_init; args := LeafTableInfo_init;
     gentries := LeafTableInfo_init; nodes := LeafTableInfo_init |}.

Definition NODEInfo_getTableByID (info : NODEInfo) (id : Z) : option LeafTableInfo :=
  if id =? NT_ID then Some (syms info)
  else if id =? NT_VALUE then Some (lits info)
  else if id =? NT_IDTABLE then Some (idtabs info)
  else if id =? NT_ARGS then Some (args info)
  else if id =? NT_ENTRY then Some (gentries info)
  else if id =? NT_NODE then Some (nodes info)
  else None.

Definition set_syms (info : NODEInfo) (t : LeafTableInfo) : NODEInfo :=
  {| syms := t; lits := lits info; idtabs := idtabs info; args := args info;
     gentries := gentries info; nodes := nodes info |}.
Definition set_lits (info : NODEInfo) (t : LeafTableInfo) : NODEInfo :=
  {| syms := syms info; lits := t; idtabs := idtabs info; args := args info;
     gentries := gentries info; nodes := nodes info |}.
Definition set_idtabs (info : NODEInfo) (t : LeafTableInfo) : NODEInfo :=
  {| syms := syms info; lits := lits info; idtabs := t; args := args info;
     gentries := gentries info; nodes := nodes info |}.
Definition set_args (info : NODEInfo) (t : LeafTableInfo) : NODEInfo :=
  {| syms := syms info; lits := lits info; idtabs := idtabs info; args := t;
     gentries := gentries info; nodes := nodes info |}.
Definition set_gentries (info : NODEInfo) (t : LeafTableInfo) : NODEInfo :=
  {| syms := syms info; lits := lits info; idtabs := idtabs info; args := args info;
     gentries := t; nodes := nodes info |}.
Definition set_nodes (info : NODEInfo) (t : LeafTableInfo) : NODEInfo :=
  {| syms := syms info; lits := lits info; idtabs := idtabs info; args := args info;
     gentries := gentries info; nodes := t |}.


(** ** The binary node encoder *)

(** Reading C objects through a pointer. *)
Definition load_node (m : memory) (p : VALUE) : result RNode :=
  match m p with
  | Some (ONode n) => Ok n
  | _ => Raise (OutOfBounds "NODE *")
  end.

Definition load_entry (m : memory) (p : VALUE) : result rb_global_entry_t :=
  match m p with
  | Some (OEntry e) => Ok e
  | _ => Raise (OutOfBounds "struct rb_global_entry *")
  end.

Definition load_args (m : memory) (p : VALUE) : result rb_args_info :=
  match m p with
  | Some (OArgs a) => Ok a
  | _ => Raise (OutOfBounds "struct rb_args_info *")
  end.

(** [size = (node->u1.value) ? *idtbl++ : 0] and the [size] reads of
    [*idtbl++] that follow. *)
Definition load_idtable (m : memory) (p : VALUE) : result (list Z) :=
  if p =? 0 then Ok []
  else
    match m p with
    | Some (OIdTable (size :: tbl)) =>
        let n := Z.to_nat (int32 size) in
        if (length tbl <? n)%nat then Raise (OutOfBounds "ID *")
        else Ok (firstn n tbl)
    | _ => Raise (OutOfBounds "ID *")
    end.

(** [DUMP_RAW_VALUE(vl_ans, vl)]: the tag byte and the bytes put at [ptr]. *)
Definition DUMP_RAW_VALUE (vl_ans : Z) (vl : VALUE) : Z * list byte :=
  let buf := value_to_bin vl in
  (Z.lor vl_ans (Z.shiftl (Z.of_nat (length buf)) 4), buf).

Definition dump_node_value (m : memory) (info : NODEInfo) (node : RNode)
    (type : Z) (value : VALUE) (child_id : Z) : result (Z * list byte) :=
  if (type =? NT_NULL) || (type =? NT_LONG) then
    Ok (DUMP_RAW_VALUE VL_RAW value)
  else if type =? NT_NODE then
    if value =? 0 then
      Ok (DUMP_RAW_VALUE VL_RAW value)
    else if (nd_type node =? NODE_ATTRASGN) && (value =? 1) && (child_id =? 1) then
      Ok (DUMP_RAW_VALUE VL_RAW value)
    else if negb (TYPE m value =? T_NODE H) then
      Raise (ArgError "dump_node_value, parent node %s: child node %d (ADR 0x%s): is not a node")
    else
      let id := to_VALUE (LeafTableInfo_keyToID (nodes info) (KStr (value_to_str value))) in
      if id =? to_VALUE (-1) then
        Raise (ArgError "dump_node_value, parent node %s: child node %d (ADR 0x%s) not found")
      else Ok (DUMP_RAW_VALUE VL_NODE id)
  else if type =? NT_VALUE then
    if negb (is_value_in_heap value) then
      Ok (DUMP_RAW_VALUE VL_RAW value)
    else
      let id := to_VALUE (LeafTableInfo_keyToID (lits info) (KStr (value_to_str value))) in
      if id =? to_VALUE (-1) then Raise (ArgError "Cannot find literal")
      else Ok (DUMP_RAW_VALUE VL_LIT id)
  else if type =? NT_ID then
    let id := to_VALUE (LeafTableInfo_keyToID (syms info) (KFix (fixnum value))) in
    if id =? to_VALUE (-1) then
      Raise (ArgError "Cannot find symbol ID %d (%s) (parent node %s, line %d)")
    else Ok (DUMP_RAW_VALUE VL_ID id)
  else if (type =? NT_ENTRY) || (type =? NT_ARGS) || (type =? NT_IDTABLE) then
    let key := KStr (value_to_str value) in
    match NODEInfo_getTableByID info type with
    | None => Raise (OutOfBounds "LeafTableInfo *")
    | Some lti =>
        let id := to_VALUE (LeafTableInfo_keyToID lti key) in
        if id =? to_VALUE (-1) then Raise (ArgError "Cannot find some entry")
        else if type =? NT_ENTRY then Ok (DUMP_RAW_VALUE VL_GVAR id)
        else if type =? NT_IDTABLE then Ok (DUMP_RAW_VALUE VL_IDTABLE id)
        else if type =? NT_ARGS then Ok (DUMP_RAW_VALUE VL_ARGS id)
        else Raise (ArgError "Internal error")
    end
  else Raise (ArgError "Unknown child node type %d").

(** The child types [ut] that [dump_nodes] settles for a node. *)
Definition dump_child_types (info : NODEInfo) (node : RNode) : result (Z * Z * Z) :=
  let nt := nd_type node in
  ut0 <- arr_get "nodes_ctbl" nodes_ctbl (nt * 3);;
  ut1 <- arr_get "nodes_ctbl" nodes_ctbl (nt * 3 + 1);;
  ut2 <- arr_get "nodes_ctbl" nodes_ctbl (nt * 3 + 2);;
  let '(ut0, ut1, ut2) :=
    if (nt =? NODE_OP_ASGN2)
       && negb (LeafTableInfo_keyToID (syms info) (KFix (fixnum (u1 node))) =? -1)
    then (NT_ID, NT_ID, NT_ID) else (ut0, ut1, ut2) in
  if nt =? NODE_ARGS_AUX then
    let ut1 :=
      if negb (LeafTableInfo_keyToID (syms info) (KFix (fixnum (u2 node))) =? -1)
      then NT_ID else NT_LONG in
    Ok (if u1 node =? 0 then NT_NULL else NT_ID,
        if u2 node =? 0 then NT_NULL else ut1,
        if u3 node =? 0 then NT_NULL else NT_NODE)
  else Ok (ut0, ut1, ut2).

(** [RNODE(str_to_value(key))]: the node a key of the node table stands
    for. *)
Definition key_address (key : rkey) : VALUE :=
  match key with
  | KStr s => str_to_value s
  | KFix n => INT2FIX n
  end.

(** The body of the loop of [dump_nodes]: the record of one node, that is
    the four bytes [rtypes], the flags and the three values. *)
Definition dump_node_record (m : memory) (info : NODEInfo) (key : rkey)
    : result (list byte) :=
  node <- load_node m (key_address key);;
  let flags_bin := value_to_bin (Z.shiftr (flags node) 5) in
  '(ut0, ut1, ut2) <- dump_child_types info node;;
  '(rt0, b0) <- dump_node_value m info node ut0 (u1 node) 1;;
  '(rt1, b1) <- dump_node_value m info node ut1 (u2 node) 2;;
  '(rt2, b2) <- dump_node_value m info node ut2 (u3 node) 3;;
  Ok ([byte_of_Z rt0; byte_of_Z rt1; byte_of_Z rt2;
       byte_of_Z (Z.of_nat (length flags_bin))]
      ++ flags_bin ++ b0 ++ b1 ++ b2).

Fixpoint dump_nodes_loop (m : memory) (info : NODEInfo) (nodes_ary : list rkey)
    : result (list byte) :=
  match nodes_ary with
  | [] => Ok []
  | key :: rest =>
      r <- dump_node_record m info key;;
      bin <- dump_nodes_loop m info rest;;
      Ok (r ++ bin)
  end.

(** [dump_nodes]; the string is resized to one byte more than the records
    take, and that byte was never written. *)
Definition dump_nodes (m : memory) (info : NODEInfo) : result (list byte) :=
  let nodes_ary := map fst (vals (nodes info)) in
  bin <- dump_nodes_loop m info nodes_ary;;
  Ok (bin ++ [beyond H 0]).

(** ** The container *)

Fixpoint map_result {A B : Type} (f : A -> result B) (l : list A) : result (list B) :=
  match l with
  | [] => Ok []
  | x :: l' =>
      y <- f x;;
      ys <- map_result f l';;
      Ok (y :: ys)
  end.

Definition rvalue_key (x : rvalue) : rkey :=
  match x with
  | RStr s => KStr s
  | RFix n => KFix n
  | _ => KFix (-1)
  end.

(** "Replace RAM IDs to disk IDs in id_tables". *)
Definition toHash_idtbl (info : NODEInfo) (idtbl : rvalue) : result rvalue :=
  match idtbl with
  | RAry l =>
      l' <- map_result
              (fun x =>
                 let id := LeafTableInfo_keyToID (syms info) (rvalue_key x) in
                 if id =? -1 then Raise (ArgError "Cannot find the symbol ID %d")
                 else Ok (RFix id)) l;;
      Ok (RAry l')
  | _ => Raise (OutOfBounds "RARRAY_PTR")
  end.

(** "Replace RAM IDs to disk IDs in args tables": the entries 0, 1, 7, 8, 9
    are addresses of nodes, the entries 4, 5, 6 are identifiers. *)
Definition toHash_args_val (info : NODEInfo) (key : rvalue) : result rvalue :=
  match key with
  | RStr s =>
      if strcmp_eq s (list_byte_of_string "0") then Ok (RFix (-1))
      else
        let id := LeafTableInfo_keyToID (nodes info) (KStr s) in
        if id =? -1 then Raise (ArgError "Unknown NODE in args tables")
        else Ok (RFix id)
  | _ => Raise (OutOfBounds "RSTRING_PTR")
  end.

Definition toHash_args_id (info : NODEInfo) (key : rvalue) : result rvalue :=
  n <- FIX2INT key;;
  if negb (n =? 0) then
    let id := LeafTableInfo_keyToID (syms info) (rvalue_key key) in
    if id =? -1 then Raise (ArgError "Unknown symbolic ID in args tables")
    else Ok (RFix id)
  else Ok (RFix (-1)).

Definition toHash_args_entry (info : NODEInfo) (args_entry : rvalue) : result rvalue :=
  match args_entry with
  | RAry [e0; e1; e2; e3; e4; e5; e6; e7; e8; e9] =>
      e0 <- toHash_args_val info e0;;
      e1 <- toHash_args_val info e1;;
      e7 <- toHash_args_val info e7;;
      e8 <- toHash_args_val info e8;;
      e9 <- toHash_args_val info e9;;
      e4 <- toHash_args_id info e4;;
      e5 <- toHash_args_id info e5;;
      e6 <- toHash_args_id info e6;;
      Ok (RAry [e0; e1; e2; e3; e4; e5; e6; e7; e8; e9])
  | RAry _ => Raise (ArgError "Corrupted args entry")
  | _ => Raise (OutOfBounds "RARRAY_PTR")
  end.

Definition NODEInfo_toHash (m : memory) (info : NODEInfo)
    : result (list (string * rvalue)) :=
  let idtabs_l := LeafTableInfo_getLeavesTable (idtabs info) in
  let syms_l := LeafTableInfo_getLeavesTable (syms info) in
  let ans :=
    [ ("MAGIC"%string, RStr NODEMARSHAL_MAGIC);
      ("RUBY_PLATFORM"%string, RStr (RUBY_PLATFORM H));
      ("RUBY_VERSION"%string, RStr (RUBY_VERSION H));
      ("literals"%string, RAry (LeafTableInfo_getLeavesTable (lits info)));
      ("symbols"%string, RAry syms_l);
      ("global_entries"%string, RAry (LeafTableInfo_getLeavesTable (gentries info))) ] in
  idtabs_l <- map_result (toHash_idtbl info) idtabs_l;;
  let ans := ans ++ [("id_tables"%string, RAry idtabs_l)] in
  args_l <- map_result (toHash_args_entry info)
              (LeafTableInfo_getLeavesTable (args info));;
  let ans := ans ++ [("args"%string, RAry args_l)] in
  bin <- dump_nodes m info;;
  Ok (ans ++ [("nodes"%string, RStr bin)]).

(** ** The graph walker *)

Definition NODEInfo_addValue (info : NODEInfo) (value : VALUE) : NODEInfo :=
  if is_value_in_heap value then
    set_lits info
      (snd (LeafTableInfo_addEntry (lits info) (KStr (value_to_str value)) (RObj value)))
  else info.

Definition add_sym (info : NODEInfo) (id : Z) : NODEInfo :=
  set_syms info (snd (LeafTableInfo_addIDEntry (syms info) id)).

(** The child types [ut] that [count_num_of_nodes] settles for a node. *)
Definition count_child_types (node parent : RNode) : result (Z * Z * Z) :=
  let offset := nd_type node * 3 in
  ut0 <- arr_get "nodes_ctbl" nodes_ctbl offset;;
  ut1 <- arr_get "nodes_ctbl" nodes_ctbl (offset + 1);;
  ut2 <- arr_get "nodes_ctbl" nodes_ctbl (offset + 2);;
  let '(ut0, ut1, ut2) :=
    if (nd_type node =? NODE_OP_ASGN2) && (nd_type parent =? NODE_OP_ASGN2)
    then (NT_ID, NT_ID, NT_ID) else (ut0, ut1, ut2) in
  let '(ut0, ut1, ut2) :=
    if nd_type node =? NODE_ARGS_AUX then
      (if u1 node =? 0 then NT_NULL else NT_ID,
       if u2 node =? 0 then NT_NULL
       else if nd_type parent =? NODE_ARGS_AUX then NT_LONG else NT_ID,
       if u3 node =? 0 then NT_NULL else NT_NODE)
    else (ut0, ut1, ut2) in
  let ut0 :=
    if (nd_type node =? NODE_ATTRASGN) && (u1 node =? 1) then NT_LONG else ut0 in
  if (ut0 =? NT_UNKNOWN) || (ut1 =? NT_UNKNOWN) || (ut2 =? NT_UNKNOWN)
  then Raise (ArgError "Cannot interpret node %d (%s)")
  else Ok (ut0, ut1, ut2).

(** [count_num_of_nodes].  The C function recurses on the children without
    any bound; [fuel] bounds the depth, and running out of it stands for a
    recursion that does not return. *)
Fixpoint count_num_of_nodes (fuel : nat) (m : memory) (node parent : VALUE)
    (info : NODEInfo) : result (Z * NODEInfo) :=
  match fuel with
  | O => Raise Diverges
  | S fuel' =>
      if node =? 0 then Ok (0, info)
      else if negb (TYPE m node =? T_NODE H) then
        Raise (ArgError
          "count_num_of_nodes: parent node %s: child node (ADR 0x%s) is not a node; Type: %d")
      else
        n <- load_node m node;;
        p <- load_node m parent;;
        '(ut0, ut1, ut2) <- count_child_types n p;;
        let num := 1 in
        let info :=
          set_nodes info
            (snd (LeafTableInfo_addEntry (nodes info)
                    (KStr (value_to_str node)) (RStr (value_to_str node)))) in
        (* a) child 1 *)
        '(num, info) <-
          (if ut0 =? NT_NODE then
             '(k, info) <- count_num_of_nodes fuel' m (u1 n) node info;;
             Ok (int32 (num + k), info)
           else if ut0 =? NT_ID then Ok (num, add_sym info (u1 n))
           else if ut0 =? NT_VALUE then
             if TYPE m (u1 n) =? T_NODE H
             then Raise (ArgError "NODE instead of VALUE in child 1 of node %s")
             else Ok (num, NODEInfo_addValue info (u1 n))
           else if ut0 =? NT_IDTABLE then
             tbl <- load_idtable m (u1 n);;
             let info := fold_left add_sym tbl info in
             Ok (num,
                 set_idtabs info
                   (snd (LeafTableInfo_addEntry (idtabs info)
                           (KStr (value_to_str (u1 n)))
                           (RAry (map (fun sym => RFix (fixnum sym)) tbl)))))
           else if negb (ut0 =? NT_LONG) && negb (ut0 =? NT_NULL)
           then Raise (ArgError "1!")
           else Ok (num, info));;
        (* b) child 2 *)
        '(num, info) <-
          (if ut1 =? NT_NODE then
             '(k, info) <- count_num_of_nodes fuel' m (u2 n) node info;;
             Ok (int32 (num + k), info)
           else if ut1 =? NT_ID then Ok (num, add_sym info (u2 n))
           else if ut1 =? NT_VALUE then
             if TYPE m (u2 n) =? T_NODE H
             then Raise (ArgError "NODE instead of VALUE in child 2 of node %s")
             else Ok (num, NODEInfo_addValue info (u2 n))
           else if negb (ut1 =? NT_LONG) && negb (ut1 =? NT_NULL)
           then Raise (ArgError "2!")
           else Ok (num, info));;
        (* c) child 3 *)
        if ut2 =? NT_NODE then
          '(k, info) <- count_num_of_nodes fuel' m (u3 n) node info;;
          Ok (int32 (num + k), info)
        else if ut2 =? NT_ID then Ok (num, add_sym info (u3 n))
        else if ut2 =? NT_ARGS then
          ainfo <- load_args m (u3 n);;
          '(k, info) <- count_num_of_nodes fuel' m (pre_init ainfo) node info;;
          let num := int32 (num + k) in
          '(k, info) <- count_num_of_nodes fuel' m (post_init ainfo) node info;;
          let num := int32 (num + k) in
          '(k, info) <- count_num_of_nodes fuel' m (kw_args ainfo) node info;;
          let num := int32 (num + k) in
          '(k, info) <- count_num_of_nodes fuel' m (kw_rest_arg ainfo) node info;;
          let num := int32 (num + k) in
          '(k, info) <- count_num_of_nodes fuel' m (opt_args ainfo) node info;;
          let num := int32 (num + k) in
          let add_asym (info : NODEInfo) (asym : Z) :=
            if negb (asym =? 0) then add_sym info asym else info in
          let info := add_asym info (first_post_arg ainfo) in
          let info := add_asym info (rest_arg ainfo) in
          let info := add_asym info (block_arg ainfo) in
          let varg :=
            RAry [ RStr (value_to_str (pre_init ainfo));
                   RStr (value_to_str (post_init ainfo));
                   RFix (pre_args_num ainfo);
                   RFix (post_args_num ainfo);
                   RFix (fixnum (first_post_arg ainfo));
                   RFix (fixnum (rest_arg ainfo));
                   RFix (fixnum (block_arg ainfo));
                   RStr (value_to_str (kw_args ainfo));
                   RStr (value_to_str (kw_rest_arg ainfo));
                   RStr (value_to_str (opt_args ainfo)) ] in
          Ok (num,
              set_args info
                (snd (LeafTableInfo_addEntry (args info)
                        (KStr (value_to_str (u3 n))) varg)))
        else if ut2 =? NT_ENTRY then
          e <- load_entry m (u3 n);;
          let '(newid, t) := LeafTableInfo_addIDEntry (syms info) (entry_id e) in
          let info := set_syms info t in
          Ok (num,
              set_gentries info
                (snd (LeafTableInfo_addEntry (gentries info)
                        (KStr (value_to_str (u3 n))) (RFix newid))))
        else if negb (ut2 =? NT_LONG) && negb (ut2 =? NT_NULL)
        then Raise (ArgError "Invalid child node 3 of node %s: TYPE %d, VALUE %lx")
        else Ok (num, info)
  end.

End Dump.

(* ===================================================================== *)
(** * Part 4. nodedump.c: the object, and loading marshalled nodes        *)
(* ===================================================================== *)

(** [NODEObjAddresses]; each table is kept with the length the C code
    records next to its address. *)
Record NODEObjAddresses : Type := {
  syms_adr : list Z;
  syms_len : Z;
  lits_adr : list VALUE;
  lits_len : Z;
  idtbls_adr : list VALUE;
  idtbls_len : Z;
  gvars_adr : list VALUE;
  gvars_len : Z;
  nodes_adr : list VALUE;
  nodes_len : Z;
  args_adr : list VALUE;
  args_len : Z
}.

Definition relocs_init : NODEObjAddresses :=
  {| syms_adr := []; syms_len := 0; lits_adr := []; lits_len := 0;
     idtbls_adr := []; idtbls_len := 0; gvars_adr := []; gvars_len := 0;
     nodes_adr := []; nodes_len := 0; args_adr := []; args_len := 0 |}.

(** What a method asks the allocator for, in order. *)
Inductive alloc_event : Type :=
| AllocWrapper                       (* Data_Make_Struct of the NODEObjAddresses *)
| AllocInfo                          (* Data_Make_Struct of the NODEInfo *)
| AllocTable (what : string) (n : Z) (* ALLOC_N of one of the address tables *)
| AllocIdTable (adr : VALUE)         (* ALLOC_N(ID, idnum + 1) *)
| AllocArgs (adr : VALUE)            (* ALLOC(struct rb_args_info) *)
| AllocNode (adr : VALUE).           (* NEW_NODE *)

(** The instance variables of the [NodeMarshal] object; [None] is a
    variable that was never set, which [rb_iv_get] reads as [nil].
    [@nodeinfo] wraps the tables that [count_num_of_nodes] and
    [NODEInfo_toHash] fill and rewrite in place; [m_nodedump_to_hash] only
    tests it against [nil], and that is what [iv_nodeinfo] keeps of it. *)
Record NodeMarshal : Type := {
  iv_node : option VALUE;
  iv_nodename : option rvalue;
  iv_filename : option rvalue;
  iv_filepath : option rvalue;
  iv_num_of_nodes : option Z;
  iv_obj_addresses : option NODEObjAddresses;
  iv_nodeinfo : bool;
  iv_nodeinfo_num_of_nodes : option Z;
  iv_nodehash : option (list (string * rvalue))
}.

Definition NodeMarshal_new : NodeMarshal :=
  {| iv_node := None; iv_nodename := None; iv_filename := None;
     iv_filepath := None; iv_num_of_nodes := None; iv_obj_addresses := None;
     iv_nodeinfo := false; iv_nodeinfo_num_of_nodes := None;
     iv_nodehash := None |}.

(** [rb_iv_set] on each of them. *)
Definition set_nodename (v : rvalue) (self : NodeMarshal) : NodeMarshal :=
  {| iv_node := iv_node self; iv_nodename := Some v;
     iv_filename := iv_filename self; iv_filepath := iv_filepath self;
     iv_num_of_nodes := iv_num_of_nodes self;
     iv_obj_addresses := iv_obj_addresses self;
     iv_nodeinfo := iv_nodeinfo self;
     iv_nodeinfo_num_of_nodes := iv_nodeinfo_num_of_nodes self;
     iv_nodehash := iv_nodehash self |}.

Definition set_filename (v : rvalue) (self : NodeMarshal) : NodeMarshal :=
  {| iv_node := iv_node self; iv_nodename := iv_nodename self;
     iv_filename := Some v; iv_filepath := iv_filepath self;
     iv_num_of_nodes := iv_num_of_nodes self;
     iv_obj_addresses := iv_obj_addresses self;
     iv_nodeinfo := iv_nodeinfo self;
     iv_nodeinfo_num_of_nodes := iv_nodeinfo_num_of_nodes self;
     iv_nodehash := iv_nodehash self |}.

Definition set_filepath (v : rvalue) (self : NodeMarshal) : NodeMarshal :=
  {| iv_node := iv_node self; iv_nodename := iv_nodename self;
     iv_filename := iv_filename self; iv_filepath := Some v;
     iv_num_of_nodes := iv_num_of_nodes self;
     iv_obj_addresses := iv_obj_addresses self;
     iv_nodeinfo := iv_nodeinfo self;
     iv_nodeinfo_num_of_nodes := iv_nodeinfo_num_of_nodes self;
     iv_nodehash := iv_nodehash self |}.

(** [@node], [@num_of_nodes] and [@obj_addresses], which a load sets one
    after the other. *)
Definition set_loaded (root : VALUE) (num_of_nodes : Z) (relocs : NODEObjAddresses)
    (self : NodeMarshal) : NodeMarshal :=
  {| iv_node := Some root; iv_nodename := iv_nodename self;
     iv_filename := iv_filename self; iv_filepath := iv_filepath self;
     iv_num_of_nodes := Some num_of_nodes;
     iv_obj_addresses := Some relocs;
     iv_nodeinfo := iv_nodeinfo self;
     iv_nodeinfo_num_of_nodes := iv_nodeinfo_num_of_nodes self;
     iv_nodehash := iv_nodehash self |}.

Definition set_nodeinfo (self : NodeMarshal) : NodeMarshal :=
  {| iv_node := iv_node self; iv_nodename := iv_nodename self;
     iv_filename := iv_filename self; iv_filepath := iv_filepath self;
     iv_num_of_nodes := iv_num_of_nodes self;
     iv_obj_addresses := iv_obj_addresses self;
     iv_nodeinfo := true;
     iv_nodeinfo_num_of_nodes := iv_nodeinfo_num_of_nodes self;
     iv_nodehash := iv_nodehash self |}.

Definition set_nodeinfo_num_of_nodes (num : Z) (self : NodeMarshal) : NodeMarshal :=
  {| iv_node := iv_node self; iv_nodename := iv_nodename self;
     iv_filename := iv_filename self; iv_filepath := iv_filepath self;
     iv_num_of_nodes := iv_num_of_nodes self;
     iv_obj_addresses := iv_obj_addresses self;
     iv_nodeinfo := iv_nodeinfo self;
     iv_nodeinfo_num_of_nodes := Some num;
     iv_nodehash := iv_nodehash self |}.

Definition set_nodehash (ans : list (string * rvalue)) (self : NodeMarshal)
    : NodeMarshal :=
  {| iv_node := iv_node self; iv_nodename := iv_nodename self;
     iv_filename := iv_filename self; iv_filepath := iv_filepath self;
     iv_num_of_nodes := iv_num_of_nodes self;
     iv_obj_addresses := iv_obj_addresses self;
     iv_nodeinfo := iv_nodeinfo self;
     iv_nodeinfo_num_of_nodes := iv_nodeinfo_num_of_nodes self;
     iv_nodehash := Some ans |}.

(** [rb_iv_get]. *)
Definition iv_get (x : option rvalue) : rvalue :=
  match x with Some v => v | None => RNil end.

(** The calls made to the garbage collector. *)
Inductive gc_call : Type :=
| GcDisable   (* rb_gc_disable *)
| GcEnable    (* rb_gc_enable *)
| GcStart.    (* rb_gc_start *)

(** The state a method works on: the memory of the process, the requests
    made to the allocator so far, the object itself, and the calls made to
    the garbage collector so far.  It outlives a raised exception. *)
Record dstate : Type := {
  d_mem : memory;
  d_allocs : list alloc_event;
  d_self : NodeMarshal;
  d_gc : list gc_call
}.

Definition D (A : Type) : Type := dstate -> dstate * result A.

Definition dret {A : Type} (a : A) : D A := fun st => (st, Ok a).
Definition draise {A : Type} (e : error) : D A := fun st => (st, Raise e).
Definition dlift {A : Type} (r : result A) : D A := fun st => (st, r).
Definition dbind {A B : Type} (c : D A) (k : A -> D B) : D B :=
  fun st =>
    match c st with
    | (st', Ok a) => k a st'
    | (st', Raise e) => (st', Raise e)
    end.

Declare Scope dec_scope.
Delimit Scope dec_scope with dec.
Notation "x <- c1 ;; c2" := (dbind c1 (fun x => c2))
  (at level 61, c1 at next level, right associativity) : dec_scope.
Notation "' pat <- c1 ;; c2" := (dbind c1 (fun x => let 'pat := x in c2))
  (at level 61, pat pattern, c1 at next level, right associativity) : dec_scope.

Definition d_alloc (ev : nat -> alloc_event) : D unit :=
  fun st =>
    ({| d_mem := d_mem st;
        d_allocs := d_allocs st ++ [ev (length (d_allocs st))];
        d_self := d_self st;
        d_gc := d_gc st |}, Ok tt).

Definition d_store (a : VALUE) (o : hobj) : D unit :=
  fun st =>
    ({| d_mem := mem_put (d_mem st) a o;
        d_allocs := d_allocs st;
        d_self := d_self st;
        d_gc := d_gc st |}, Ok tt).

Definition d_memory : D memory := fun st => (st, Ok (d_mem st)).

Definition d_count : D nat := fun st => (st, Ok (length (d_allocs st))).

Definition d_set_self (f : NodeMarshal -> NodeMarshal) : D unit :=
  fun st =>
    ({| d_mem := d_mem st; d_allocs := d_allocs st; d_self := f (d_self st);
        d_gc := d_gc st |},
     Ok tt).

Definition d_get_self : D NodeMarshal := fun st => (st, Ok (d_self st)).

Definition d_gc_call (c : gc_call) : D unit :=
  fun st =>
    ({| d_mem := d_mem st; d_allocs := d_allocs st; d_self := d_self st;
        d_gc := d_gc st ++ [c] |},
     Ok tt).

Definition rb_gc_disable : D unit := d_gc_call GcDisable.
Definition rb_gc_enable : D unit := d_gc_call GcEnable.
Definition rb_gc_start : D unit := d_gc_call GcStart.

(** [ALLOC_N(type, n)]: [xmalloc2] refuses a count that went negative. *)
Definition ALLOC_N (what : string) (n : Z) : D unit :=
  if n <? 0 then draise (ArgError "malloc: possible integer overflow")
  else d_alloc (fun _ => AllocTable what n).

(** [rb_hash_aref(data, ID2SYM(rb_intern(key)))]. *)
Fixpoint data_aref (data : list (string * rvalue)) (key : string) : rvalue :=
  match data with
  | [] => RNil
  | (k, v) :: data' => if String.eqb k key then v else data_aref data' key
  end.

Section Load.

Variable H : Host.

Local Open Scope dec_scope.

Fixpoint d_map {A B : Type} (f : Z -> A -> D B) (i : Z) (l : list A) : D (list B) :=
  match l with
  | [] => dret []
  | x :: l' =>
      y <- f i x;;
      ys <- d_map f (i + 1) l';;
      dret (y :: ys)
  end.

Definition resolve_syms_ords (data : list (string * rvalue))
    (relocs : NODEObjAddresses) : D NODEObjAddresses :=
  match data_aref data "symbols" with
  | RNil => draise (ArgError "Cannot find symbols table")
  | RAry tbl =>
      let len := int32 (Z.of_nat (length tbl)) in
      _ <- ALLOC_N "syms_adr" len;;
      adr <- d_map (fun _ r_sym =>
                      match r_sym with
                      | RStr s => dret (rb_intern H (cstr s))
                      | RFix _ =>
                          n <- dlift (FIX2INT r_sym);;
                          dret (to_VALUE n)
                      | _ => draise (ArgError "Symbols table is corrupted")
                      end) 0 tbl;;
      dret {| syms_adr := adr; syms_len := len;
              lits_adr := lits_adr relocs; lits_len := lits_len relocs;
              idtbls_adr := idtbls_adr relocs; idtbls_len := idtbls_len relocs;
              gvars_adr := gvars_adr relocs; gvars_len := gvars_len relocs;
              nodes_adr := nodes_adr relocs; nodes_len := nodes_len relocs;
              args_adr := args_adr relocs; args_len := args_len relocs |}
  | _ => draise (ArgError "Symbols table is not an array")
  end.

Definition resolve_lits_ords (data : list (string * rvalue))
    (relocs : NODEObjAddresses) : D NODEObjAddresses :=
  match data_aref data "literals" with
  | RNil => draise (ArgError "Cannot find literals table")
  | RAry tbl =>
      dret {| syms_adr := syms_adr relocs; syms_len := syms_len relocs;
              lits_adr := map (rvalue_VALUE H) tbl;
              lits_len := int32 (Z.of_nat (length tbl));
              idtbls_adr := idtbls_adr relocs; idtbls_len := idtbls_len relocs;
              gvars_adr := gvars_adr relocs; gvars_len := gvars_len relocs;
              nodes_adr := nodes_adr relocs; nodes_len := nodes_len relocs;
              args_adr := args_adr relocs; args_len := args_len relocs |}
  | _ => draise (ArgError "Literals table is not an array")
  end.

Definition resolve_gvars_ords (data : list (string * rvalue))
    (relocs : NODEObjAddresses) : D NODEObjAddresses :=
  match data_aref data "global_entries" with
  | RNil => draise (ArgError "Cannot find global entries table")
  | RAry tbl =>
      let len := int32 (Z.of_nat (length tbl)) in
      _ <- ALLOC_N "gvars_adr" len;;
      adr <- d_map (fun _ x =>
                      ind <- dlift (FIX2INT x);;
                      sym <- dlift (arr_get "syms_adr" (syms_adr relocs) ind);;
                      dret (rb_global_entry H sym)) 0 tbl;;
      dret {| syms_adr := syms_adr relocs; syms_len := syms_len relocs;
              lits_adr := lits_adr relocs; lits_len := lits_len relocs;
              idtbls_adr := idtbls_adr relocs; idtbls_len := idtbls_len relocs;
              gvars_adr := adr; gvars_len := len;
              nodes_adr := nodes_adr relocs; nodes_len := nodes_len relocs;
              args_adr := args_adr relocs; args_len := args_len relocs |}
  | _ => draise (ArgError "Global entries table should be an array")
  end.

Definition resolve_idtbl (relocs : NODEObjAddresses) (idtbl : rvalue) : D VALUE :=
  match idtbl with
  | RAry l =>
      let idnum := int32 (Z.of_nat (length l)) in
      if idnum =? 0 then dret 0
      else
        k <- d_count;;
        let adr := new_address H k in
        _ <- (if idnum + 1 <? 0
              then draise (ArgError "malloc: possible integer overflow")
              else d_alloc (fun _ => AllocIdTable adr));;
        ids <- d_map (fun _ x =>
                        ind <- dlift (FIX2INT x);;
                        dlift (arr_get "syms_adr" (syms_adr relocs) ind)) 0 l;;
        _ <- d_store adr (OIdTable (idnum :: ids));;
        dret adr
  | _ => draise (OutOfBounds "RARRAY_LEN")
  end.

Definition resolve_idtbls_ords (data : list (string * rvalue))
    (relocs : NODEObjAddresses) : D NODEObjAddresses :=
  match data_aref data "id_tables" with
  | RNil => draise (ArgError "Cannot find id_tables entries")
  | RAry tbl =>
      let len := int32 (Z.of_nat (length tbl)) in
      _ <- ALLOC_N "idtbls_adr" len;;
      adr <- d_map (fun _ idtbl => resolve_idtbl relocs idtbl) 0 tbl;;
      dret {| syms_adr := syms_adr relocs; syms_len := syms_len relocs;
              lits_adr := lits_adr relocs; lits_len := lits_len relocs;
              idtbls_adr := adr; idtbls_len := len;
              gvars_adr := gvars_adr relocs; gvars_len := gvars_len relocs;
              nodes_adr := nodes_adr relocs; nodes_len := nodes_len relocs;
              args_adr := args_adr relocs; args_len := args_len relocs |}
  | _ => draise (OutOfBounds "RARRAY_LEN")
  end.

(** [NEW_NODE((enum node_type) 0, 0, 0, 0)]: a fresh object of type
    [T_NODE] and node type 0. *)
Definition NEW_NODE_0 : D VALUE :=
  k <- d_count;;
  let adr := new_address H k in
  _ <- d_alloc (fun _ => AllocNode adr);;
  _ <- d_store adr (ONode (mkRNode (T_NODE H) 0 0 0 0));;
  dret adr.

Fixpoint new_nodes (n : nat) : D (list VALUE) :=
  match n with
  | O => dret []
  | S n' =>
      a <- NEW_NODE_0;;
      l <- new_nodes n';;
      dret (a :: l)
  end.

Definition resolve_nodes_ords (data : list (string * rvalue)) (num_of_nodes : Z)
    (relocs : NODEObjAddresses) : D NODEObjAddresses :=
  match data_aref data "nodes" with
  | RNil => draise (ArgError "Cannot find nodes entries")
  | RStr _ =>
      _ <- ALLOC_N "nodes_adr" num_of_nodes;;
      adr <- new_nodes (Z.to_nat num_of_nodes);;
      dret {| syms_adr := syms_adr relocs; syms_len := syms_len relocs;
              lits_adr := lits_adr relocs; lits_len := lits_len relocs;
              idtbls_adr := idtbls_adr relocs; idtbls_len := idtbls_len relocs;
              gvars_adr := gvars_adr relocs; gvars_len := gvars_len relocs;
              nodes_adr := adr; nodes_len := num_of_nodes;
              args_adr := args_adr relocs; args_len := args_len relocs |}
  | _ => draise (ArgError "Nodes description must be a string")
  end.

(** "Resolve nodes" and "Resolve symbolic ordinals" of [resolve_args_ords]. *)
Definition resolve_args_node (relocs : NODEObjAddresses) (x : rvalue) : D VALUE :=
  let ord := int32 (Z.land (to_VALUE (FIX2LONG H x)) 4294967295) in
  if (ord <? -1) || (ord >=? nodes_len relocs)
  then draise (ArgError "Invalid node ordinal %d")
  else if ord =? -1 then dret 0
  else dlift (arr_get "nodes_adr" (nodes_adr relocs) ord).

Definition resolve_args_sym (msg : string) (relocs : NODEObjAddresses) (ord : Z) : D Z :=
  if (ord <? -1) || (ord >=? syms_len relocs)
  then draise (ArgError msg)
  else if ord =? -1 then dret 0
  else dlift (arr_get "syms_adr" (syms_adr relocs) ord).

Definition resolve_args_entry (relocs : NODEObjAddresses) (ainfo_val : rvalue) : D VALUE :=
  k <- d_count;;
  let adr := new_address H k in
  _ <- d_alloc (fun _ => AllocArgs adr);;
  match ainfo_val with
  | RAry [a0; a1; a2; a3; a4; a5; a6; a7; a8; a9] =>
      n2 <- dlift (FIX2INT a2);;
      n3 <- dlift (FIX2INT a3);;
      n4 <- dlift (FIX2INT a4);;
      n5 <- dlift (FIX2INT a5);;
      n6 <- dlift (FIX2INT a6);;
      p0 <- resolve_args_node relocs a0;;
      p1 <- resolve_args_node relocs a1;;
      p7 <- resolve_args_node relocs a7;;
      p8 <- resolve_args_node relocs a8;;
      p9 <- resolve_args_node relocs a9;;
      s4 <- resolve_args_sym "1- Invalid symbol ID ordinal %d" relocs n4;;
      s5 <- resolve_args_sym "2- Invalid symbol ID ordinal %d" relocs n5;;
      s6 <- resolve_args_sym "3- Invalid symbol ID ordinal %d" relocs n6;;
      _ <- d_store adr
             (OArgs {| pre_init := p0; post_init := p1;
                       pre_args_num := n2; post_args_num := n3;
                       first_post_arg := s4; rest_arg := s5; block_arg := s6;
                       kw_args := p7; kw_rest_arg := p8; opt_args := p9 |});;
      dret adr
  | _ => draise (ArgError "args entry %d is corrupted")
  end.

Definition resolve_args_ords (data : list (string * rvalue))
    (relocs : NODEObjAddresses) : D NODEObjAddresses :=
  match data_aref data "args" with
  | RNil => draise (ArgError "Cannot find args entries table")
  | RAry tbl =>
      let len := int32 (Z.of_nat (length tbl)) in
      _ <- ALLOC_N "args_adr" len;;
      adr <- d_map (fun _ e => resolve_args_entry relocs e) 0 tbl;;
      dret {| syms_adr := syms_adr relocs; syms_len := syms_len relocs;
              lits_adr := lits_adr relocs; lits_len := lits_len relocs;
              idtbls_adr := idtbls_adr relocs; idtbls_len := idtbls_len relocs;
              gvars_adr := gvars_adr relocs; gvars_len := gvars_len relocs;
              nodes_adr := nodes_adr relocs; nodes_len := nodes_len relocs;
              args_adr := adr; args_len := len |}
  | _ => draise (ArgError "args description must be an array")
  end.

(** ** The node records *)

(** [n] bytes read through [bin] at offset [off] of the string [s]. *)
Definition bin_byte (s : list byte) (off : Z) : byte :=
  if off <? 0 then beyond H off
  else match nth_error s (Z.to_nat off) with
       | Some b => b
       | None => beyond H (off - Z.of_nat (length s))
       end.

Fixpoint bin_bytes (s : list byte) (off : Z) (n : nat) : list byte :=
  match n with
  | O => []
  | S n' => bin_byte s off :: bin_bytes s (off + 1) n'
  end.

(** What the first half of the loop body reads: the location codes
    [rtypes[0..2]] (low half-bytes), the flags, the three stored values,
    and the offset reached. *)
Record node_record : Type := {
  nr_rtypes : Z * Z * Z;
  nr_flags : VALUE;
  nr_u : VALUE * VALUE * VALUE;
  nr_end : Z
}.

Definition read_node_record (s : list byte) (bin : Z) : node_record :=
  let rt0 := byte_to_Z (bin_byte s bin) in
  let rt1 := byte_to_Z (bin_byte s (bin + 1)) in
  let rt2 := byte_to_Z (bin_byte s (bin + 2)) in
  let rt3 := byte_to_Z (bin_byte s (bin + 3)) in
  let bin := bin + 4 in
  let flags := bin_to_value (bin_bytes s bin (Z.to_nat rt3)) in
  let bin := bin + rt3 in
  let len0 := Z.shiftr (Z.land rt0 240) 4 in
  let v0 := bin_to_value (bin_bytes s bin (Z.to_nat len0)) in
  let bin := bin + len0 in
  let len1 := Z.shiftr (Z.land rt1 240) 4 in
  let v1 := bin_to_value (bin_bytes s bin (Z.to_nat len1)) in
  let bin := bin + len1 in
  let len2 := Z.shiftr (Z.land rt2 240) 4 in
  let v2 := bin_to_value (bin_bytes s bin (Z.to_nat len2)) in
  let bin := bin + len2 in
  {| nr_rtypes := (Z.land rt0 15, Z.land rt1 15, Z.land rt2 15);
     nr_flags := flags;
     nr_u := (v0, v1, v2);
     nr_end := bin |}.

(** One turn of "Resolving all addresses": the [switch (rtypes[j])]. *)
Definition resolve_slot (m : memory) (relocs : NODEObjAddresses) (rtype : Z) (u : VALUE)
    : result VALUE :=
  if rtype =? VL_RAW then Ok u
  else if rtype =? VL_NODE then
    if u >=? uint32 (nodes_len relocs)
    then Raise (ArgError "Cannot resolve VL_NODE entry %d")
    else
      (a <- arr_get "nodes_adr" (nodes_adr relocs) u;;
       if negb (TYPE H m a =? T_NODE H)
       then Raise (ArgError "load_nodes_from_str: nodes memory corrupted")
       else Ok a)%res
  else if rtype =? VL_ID then
    if u >=? uint32 (syms_len relocs)
    then Raise (ArgError "Cannot resolve VL_ID entry %d")
    else arr_get "syms_adr" (syms_adr relocs) u
  else if rtype =? VL_GVAR then
    if u >=? uint32 (gvars_len relocs)
    then Raise (ArgError "Cannot resolve VL_GVAR entry %d")
    else arr_get "gvars_adr" (gvars_adr relocs) u
  else if rtype =? VL_IDTABLE then
    if u >=? uint32 (idtbls_len relocs)
    then Raise (ArgError "Cannot resolve VL_IDTABLE entry %d")
    else arr_get "idtbls_adr" (idtbls_adr relocs) u
  else if rtype =? VL_ARGS then
    if u >=? uint32 (args_len relocs)
    then Raise (ArgError "Cannot resolve VL_ARGS entry %d")
    else arr_get "args_adr" (args_adr relocs) u
  else if rtype =? VL_LIT then
    if u >=? uint32 (lits_len relocs)
    then Raise (ArgError "Cannot resolve VL_LIT entry %d")
    else arr_get "lits_adr" (lits_adr relocs) u
  else Raise (ArgError "Unknown RTYPE %d").

(** The flags word given to the node. *)
Definition restored_flags (stored : VALUE) : VALUE :=
  let fl := if RESET_GC_FLAGS H then Z.land stored (to_VALUE (-4)) else stored in
  Z.lor (to_VALUE (Z.shiftl fl 5)) (T_NODE H).

(** The body of the loop of [load_nodes_from_str] for the node [i], the
    read pointer being at offset [bin]; the new offset is returned. *)
Definition load_node_from_str (s : list byte) (relocs : NODEObjAddresses)
    (i : Z) (bin : Z) : D Z :=
  let r := read_node_record s bin in
  let '(rt0, rt1, rt2) := nr_rtypes r in
  let '(v0, v1, v2) := nr_u r in
  if nr_end r >? Z.of_nat (length s)
  then draise (ArgError "Nodes binary dump is too short")
  else
    m <- d_memory;;
    w0 <- dlift (resolve_slot m relocs rt0 v0);;
    w1 <- dlift (resolve_slot m relocs rt1 v1);;
    w2 <- dlift (resolve_slot m relocs rt2 v2);;
    node <- dlift (arr_get "nodes_adr" (nodes_adr relocs) i);;
    _ <- d_store node (ONode (mkRNode (restored_flags (nr_flags r)) 0 w0 w1 w2));;
    dret (nr_end r).

Fixpoint load_nodes_loop (n : nat) (s : list byte) (relocs : NODEObjAddresses)
    (i : Z) (bin : Z) : D unit :=
  match n with
  | O => dret tt
  | S n' =>
      bin' <- load_node_from_str s relocs i bin;;
      load_nodes_loop n' s relocs (i + 1) bin'
  end.

Definition load_nodes_from_str (data : list (string * rvalue))
    (relocs : NODEObjAddresses) : D unit :=
  match data_aref data "nodes" with
  | RStr s => load_nodes_loop (Z.to_nat (nodes_len relocs)) s relocs 0 0
  | _ => draise (OutOfBounds "RSTRING_PTR")
  end.

(** ** The signatures *)

Definition get_hash_strfield (data : list (string * rvalue)) (idtxt : string)
    : result (list byte) :=
  match data_aref data idtxt with
  | RStr s => Ok s
  | _ => Raise (ArgError "Hash field %s is not a string")
  end.

Definition check_hash_magic (data : list (string * rvalue)) : result unit :=
  (val <- get_hash_strfield data "MAGIC";;
   if negb (strcmp_eq NODEMARSHAL_MAGIC val)
   then Raise (ArgError "Bad value of MAGIC signature")
   else
     val <- get_hash_strfield data "RUBY_PLATFORM";;
     if negb (strcmp_eq (RUBY_PLATFORM H) val)
     then Raise (ArgError "Incompatible RUBY_PLATFORM value %s")
     else
       val <- get_hash_strfield data "RUBY_VERSION";;
       if negb (strcmp_eq (RUBY_VERSION H) val)
       then Raise (ArgError "Incompatible RUBY_VERSION value %s")
       else Ok tt)%res.

(** ** [m_nodedump_from_memory] *)

Definition set_name (data : list (string * rvalue)) (key msg : string)
    (set : rvalue -> NodeMarshal -> NodeMarshal) : D unit :=
  match data_aref data key with
  | RNil => d_set_self (set RNil)
  | RStr s => d_set_self (set (RStr s))
  | _ => draise (ArgError msg)
  end.

(** [relocs->nodes_adr[0]], read without a test of [nodes_len]: the table
    of a container of no node was allocated for no entry, and the read
    finds what lies behind it. *)
Definition first_node (relocs : NODEObjAddresses) : VALUE :=
  match nodes_adr relocs with
  | a :: _ => a
  | [] => beyond_table H
  end.

(** [m_nodedump_from_memory(self, dump)].  The garbage collector is switched
    off first and on again last, so it stays off when the method raises. *)
Definition m_nodedump_from_memory (dump : rvalue) : D unit :=
  _ <- rb_gc_disable;;
  _ <- d_alloc (fun _ => AllocWrapper);;
  loaded <- dlift (Marshal_load H dump);;
  match loaded with
  | RHash data =>
      num_of_nodes <-
        match data_aref data "num_of_nodes" with
        | RNil => draise (ArgError "num_of_nodes not found")
        | val => dlift (FIX2INT val)
        end;;
      _ <- dlift (check_hash_magic data);;
      _ <- set_name data "nodename" "nodename value is corrupted" set_nodename;;
      _ <- set_name data "filename" "filename value is corrupted" set_filename;;
      _ <- set_name data "filepath" "filepath value is corrupted" set_filepath;;
      relocs <- resolve_syms_ords data relocs_init;;
      relocs <- resolve_lits_ords data relocs;;
      relocs <- resolve_gvars_ords data relocs;;
      relocs <- resolve_idtbls_ords data relocs;;
      relocs <- resolve_nodes_ords data num_of_nodes relocs;;
      relocs <- resolve_args_ords data relocs;;
      _ <- load_nodes_from_str data relocs;;
      _ <- d_set_self (set_loaded (first_node relocs) num_of_nodes relocs);;
      _ <- rb_gc_enable;;
      rb_gc_start
  | _ => draise (ArgError "Input dump is corrupted")
  end.

(** ** [m_nodedump_to_hash] *)

(** [m_nodedump_to_hash(self)], with the table [nodes_ctbl] as
    [init_nodes_table] filled it.  The container is built on the first call
    only, when [@nodeinfo] is [nil]; [@nodeinfo] is set before the graph is
    walked, and a later call answers with [@nodehash] as it stands.  The
    garbage collector stays off when the method raises. *)
Definition m_nodedump_to_hash (nodes_ctbl : list Z) (fuel : nat) : D rvalue :=
  self <- d_get_self;;
  let node := match iv_node self with Some v => v | None => Qnil H end in
  _ <- rb_gc_disable;;
  ans <-
    (if negb (iv_nodeinfo self) then
       _ <- d_alloc (fun _ => AllocInfo);;
       _ <- d_set_self set_nodeinfo;;
       m <- d_memory;;
       '(num, info) <- dlift (count_num_of_nodes H nodes_ctbl fuel m node node
                                NODEInfo_init);;
       _ <- d_set_self (set_nodeinfo_num_of_nodes num);;
       ans <- dlift (NODEInfo_toHash H nodes_ctbl m info);;
       self <- d_get_self;;
       let ans := ans ++ [ ("num_of_nodes"%string, RFix num);
                           ("nodename"%string, iv_get (iv_nodename self));
                           ("filename"%string, iv_get (iv_filename self));
                           ("filepath"%string, iv_get (iv_filepath self)) ] in
       _ <- d_set_self (set_nodehash ans);;
       dret (RHash ans)
     else
       dret (match iv_nodehash self with
             | Some ans => RHash ans
             | None => RNil
             end));;
  _ <- rb_gc_enable;;
  dret ans.

End Load.

(* ===================================================================== *)
(** * Part 5. A host and sample graphs                                    *)
(* ===================================================================== *)

(** The constants of ruby.h for Ruby 2.2 on a 64-bit platform, and a small
    interpreter state: two named identifiers, objects allocated 40 bytes
    apart, zero bytes past the end of a string and of a table, and no
    string that [Marshal.load] knows for a dump. *)
Definition ruby22_special_const_type (v : VALUE) : option Z :=
  if negb (Z.land v 7 =? 0) then
    if negb (Z.land v 1 =? 0) then Some 21          (* T_FIXNUM *)
    else if Z.land v 3 =? 2 then Some 4             (* T_FLOAT *)
    else if v =? 20 then Some 19                    (* T_TRUE *)
    else if Z.land v 255 =? 12 then Some 20         (* T_SYMBOL *)
    else if v =? 52 then Some 27                    (* T_UNDEF *)
    else None
  else if Z.land v (Z.lnot 8) =? 0 then
    if v =? 8 then Some 17 else Some 18             (* T_NIL, T_FALSE *)
  else None.

Definition ruby22_x64 : Host :=
  {| Qfalse := 0; Qtrue := 20; Qnil := 8; Qundef := 52;
     FIXNUM_FLAG := 1; FLONUM := Some (3, 2);
     T_NODE := 28; T_MASK := 31;
     special_const_type := ruby22_special_const_type;
     rb_id2str := fun id =>
       if id =? 3001 then Some (list_byte_of_string "a")
       else if id =? 3002 then Some (list_byte_of_string "b")
       else None;
     rb_intern := fun s =>
       if bytes_eqb s (list_byte_of_string "a") then 3001
       else if bytes_eqb s (list_byte_of_string "b") then 3002
       else 0;
     rb_global_entry := fun id => 6291456 + 16 * id;
     ruby_node_name := fun t =>
       if t =? NODE_LAMBDA then list_byte_of_string "NODE_LAMBDA"
       else list_byte_of_string "NODE_OTHER";
     RUBY_PLATFORM := list_byte_of_string "x86_64-linux";
     RUBY_VERSION := list_byte_of_string "2.2.1";
     handle_of := fun _ => 0;
     new_address := fun k => 8388608 + 40 * Z.of_nat k;
     beyond := fun _ => x00;
     beyond_table := 0;
     Marshal_load := fun dump =>
       match dump with
       | RStr _ => Raise (ArgError "marshal data too short")
       | _ => Raise (TypeError "instance of IO needed")
       end;
     RESET_GC_FLAGS := false |}.

Definition ruby22_ctbl : list Z :=
  Eval vm_compute in
    match init_nodes_table (ruby_node_name ruby22_x64) with
    | Ok t => t
    | Raise _ => []
    end.

(** The flags word of a node of the given type on the given line. *)
Definition node_flags (type line : Z) : VALUE :=
  Z.lor 28 (Z.lor (Z.shiftl type NODE_TYPESHIFT) (Z.shiftl line 15)).

(** A tree: a [NODE_BLOCK] whose two children are distinct [NODE_NIL]
    nodes. *)
Definition tree_mem : memory :=
  mem_put (mem_put (mem_put (fun _ => None)
    4096 (ONode (mkRNode (node_flags NODE_BLOCK 1) 0 4136 0 4176)))
    4136 (ONode (mkRNode (node_flags NODE_NIL 1) 0 0 0 0)))
    4176 (ONode (mkRNode (node_flags NODE_NIL 2) 0 0 0 0)).

(** Shared substructure: a [NODE_BLOCK] whose first and third slots refer
    to one and the same [NODE_NIL] node. *)
Definition dag_mem : memory :=
  mem_put (mem_put (fun _ => None)
    4096 (ONode (mkRNode (node_flags NODE_BLOCK 1) 0 4136 0 4136)))
    4136 (ONode (mkRNode (node_flags NODE_NIL 1) 0 0 0 0)).

Definition dstate_init (m : memory) : dstate :=
  {| d_mem := m; d_allocs := []; d_self := NodeMarshal_new; d_gc := [] |}.

(** An object that holds a graph: the root in [@node], the name "<main>",
    and [nil] for the name and the path of the file. *)
Definition compiled (m : memory) (root : VALUE) : dstate :=
  {| d_mem := m; d_allocs := [];
     d_self := {| iv_node := Some root;
                  iv_nodename := Some (RStr (list_byte_of_string "<main>"));
                  iv_filename := Some RNil; iv_filepath := Some RNil;
                  iv_num_of_nodes := None; iv_obj_addresses := None;
                  iv_nodeinfo := false; iv_nodeinfo_num_of_nodes := None;
                  iv_nodehash := None |};
     d_gc := [] |}.

(** The interpreter [H] at a moment when the string [dump] is the marshalled
    form of [data]. *)
Definition unmarshalling (H : Host) (dump : list byte) (data : rvalue) : Host :=
  {| Qfalse := Qfalse H; Qtrue := Qtrue H; Qnil := Qnil H; Qundef := Qundef H;
     FIXNUM_FLAG := FIXNUM_FLAG H; FLONUM := FLONUM H;
     T_NODE := T_NODE H; T_MASK := T_MASK H;
     special_const_type := special_const_type H;
     rb_id2str := rb_id2str H; rb_intern := rb_intern H;
     rb_global_entry := rb_global_entry H;
     ruby_node_name := ruby_node_name H;
     RUBY_PLATFORM := RUBY_PLATFORM H; RUBY_VERSION := RUBY_VERSION H;
     handle_of := handle_of H; new_address := new_address H;
     beyond := beyond H; beyond_table := beyond_table H;
     Marshal_load := fun x =>
       match x with
       | RStr s => if bytes_eqb s dump then Ok data else Marshal_load H x
       | _ => Marshal_load H x
       end;
     RESET_GC_FLAGS := RESET_GC_FLAGS H |}.

(** The name under which the samples keep a dump. *)
Definition sample_dump : list byte := list_byte_of_string "dump".

(** The container that [m_nodedump_to_hash] builds for an object whose
    [@node] is the null pointer: no node, no record. *)
Definition empty_container : list (string * rvalue) :=
  match snd (m_nodedump_to_hash ruby22_x64 ruby22_ctbl 100 (compiled (fun _ => None) 0)) with
  | Ok (RHash h) => h
  | _ => []
  end.

(** An attribute assignment to [self]: a [NODE_ATTRASGN] whose receiver
    slot holds 1, whose second slot is the identifier [a] and whose
    arguments slot is empty. *)
Definition attr_mem : memory :=
  mem_put (fun _ => None)
    4096 (ONode (mkRNode (node_flags NODE_ATTRASGN 1) 0 1 3001 0)).

(** What [count_num_of_nodes] leaves in the [NODEInfo] of a graph. *)
Definition info_of (m : memory) (root : VALUE) : NODEInfo :=
  match count_num_of_nodes ruby22_x64 ruby22_ctbl 100 m root root NODEInfo_init with
  | Ok (_, info) => info
  | Raise _ => NODEInfo_init
  end.

(** The container of a graph, and the address tables that a load of a
    container leaves in the object. *)
Definition container_of (m : memory) (root : VALUE) : list (string * rvalue) :=
  match snd (m_nodedump_to_hash ruby22_x64 ruby22_ctbl 100 (compiled m root)) with
  | Ok (RHash h) => h
  | _ => []
  end.

Definition relocs_of (data : list (string * rvalue)) : NODEObjAddresses :=
  match iv_obj_addresses
          (d_self (fst (m_nodedump_from_memory
                          (unmarshalling ruby22_x64 sample_dump (RHash data))
                          (RStr sample_dump)
                          (dstate_init (fun _ => None))))) with
  | Some relocs => relocs
  | None => relocs_init
  end.

(** A table of one node, and a record whose first slot names the node
    table with the ordinal 5. *)
Definition one_node_relocs : NODEObjAddresses :=
  {| syms_adr := []; syms_len := 0; lits_adr := []; lits_len := 0;
     idtbls_adr := []; idtbls_len := 0; gvars_adr := []; gvars_len := 0;
     nodes_adr := [8388808]; nodes_len := 1; args_adr := []; args_len := 0 |}.

Definition bad_record : list byte := [x11; x00; x00; x00; x05; x00].

(* ===================================================================== *)
(** * Part 6. Notions the statements are written with                     *)
(* ===================================================================== *)

(** ** The text codec *)

(** The 32-bit group made of four bytes, and an input padded with zero
    bytes to a whole number of groups. *)
Definition word_of (a b c d : byte) : Z :=
  byte_to_Z a * 2 ^ 24 + byte_to_Z b * 2 ^ 16 + byte_to_Z c * 2 ^ 8 + byte_to_Z d.

Definition pad4 (l : list byte) : list byte :=
  l ++ repeat x00 (Z.to_nat ((- Z.of_nat (length l)) mod 4)).

(** The line break that [base85r_encode] puts after the group ending at
    [pos]. *)
Definition newline_after (pos : Z) : list byte :=
  if Z.rem pos (4 * BASE85R_STR_WIDTH) =? 0 then [byte_of_Z 10; byte_of_Z 32] else [].

(** The longest input for which [base85_encode_buf_len] stays within
    [int]: with one more group, [buf_len * 105] exceeds 2^31 - 1. *)
Definition BASE85R_MAX_LEN : Z := 16361780.

(** The 85 digits. *)
Definition in_alphabet (c : byte) : bool :=
  existsb (Byte.eqb c) (firstn 85 val_to_char).

(** [inserted P s s']: the string [s'] is [s] with bytes satisfying [P]
    inserted at any places. *)
Inductive inserted (P : byte -> Prop) : list byte -> list byte -> Prop :=
| ins_nil : inserted P [] []
| ins_keep (c : byte) (l l' : list byte) :
    inserted P l l' -> inserted P (c :: l) (c :: l')
| ins_add (c : byte) (l l' : list byte) :
    P c -> inserted P l l' -> inserted P l (c :: l').

Definition base85r_roundtrip (b : list byte) : Prop :=
  exists enc, base85r_encode b = Ok enc /\ base85r_decode enc = Ok b.

(** The bytes that [char_to_val] maps to -1: no digit, and below 128, the
    extent of the table. *)
Definition skipped (c : byte) : Prop :=
  in_alphabet c = false /\ byte_to_Z c < 128.

(** ** Leaf tables *)

(** A sequence of [LeafTableInfo_addEntry] calls: the ordinals returned
    and the table left. *)
Fixpoint addEntries (lti : LeafTableInfo) (kvs : list (rkey * rvalue))
    : list Z * LeafTableInfo :=
  match kvs with
  | [] => ([], lti)
  | (k, v) :: kvs' =>
      let '(id, lti') := LeafTableInfo_addEntry lti k v in
      let '(ords, lti'') := addEntries lti' kvs' in
      (id :: ords, lti'')
  end.

(** The distinct keys of a sequence, in the order of their first
    occurrence, and the place of a key among them. *)
Definition add_key (dk : list rkey) (k : rkey) : list rkey :=
  if existsb (rkey_eqb k) dk then dk else dk ++ [k].

Definition distinct_keys (ks : list rkey) : list rkey :=
  fold_left add_key ks [].

Fixpoint index_of (k : rkey) (dk : list rkey) : Z :=
  match dk with
  | [] => -1
  | k' :: dk' =>
      if rkey_eqb k' k then 0
      else let i := index_of k dk' in if i <? 0 then -1 else i + 1
  end.

(** What holds of a table whose keys, in insertion order, are [dk]. *)
Definition table_inv (t : LeafTableInfo) (dk : list rkey) : Prop :=
  pos t = Z.of_nat (length dk)
  /\ ids t = combine dk (map Z.of_nat (seq 0 (length dk)))
  /\ map fst (vals t) = dk
  /\ NoDup dk.

(** ** The table of node kinds *)

(** The classification [isval_tbl] that [check_nodes_child_info] derives
    from a row. *)
Definition row_classes (e : child_info) : Z * Z * Z :=
  (isval_tbl_of e 1, isval_tbl_of e 2, isval_tbl_of e 3).

(** The first two statements of [Init_nodemarshal]; the class and its
    methods are defined after them. *)
Definition Init_nodemarshal (node_name : Z -> list byte) : result (list Z * list Z) :=
  ctbl <- init_nodes_table node_name;;
  c2v <- base85r_init_tables;;
  Ok (ctbl, c2v).

(** [nodes_child_info] with another row for [NODE_LAMBDA]. *)
Definition drifted_child_info : list child_info :=
  map (fun e => if ci_type e =? NODE_LAMBDA
                then (NODE_LAMBDA, NT_NODE, NT_NODE, NT_NODE) else e)
      nodes_child_info.

(** Whether a row agrees with the reference classification, where there
    is one for its kind. *)
Definition row_agrees (e : child_info) : bool :=
  match isval_of (ci_type e) with
  | None => true
  | Some (v0, v1, v2) =>
      (v0 =? isval_tbl_of e 1) && (v1 =? isval_tbl_of e 2) && (v2 =? isval_tbl_of e 3)
  end.

(** ** The loader *)

(** Whether the three signatures of a container are strings that [strcmp]
    finds equal to those of the running interpreter. *)
Definition fingerprint_matches (H : Host) (data : list (string * rvalue)) : bool :=
  match data_aref data "MAGIC", data_aref data "RUBY_PLATFORM",
        data_aref data "RUBY_VERSION" with
  | RStr m, RStr p, RStr v =>
      strcmp_eq NODEMARSHAL_MAGIC m
      && strcmp_eq (RUBY_PLATFORM H) p
      && strcmp_eq (RUBY_VERSION H) v
  | _, _, _ => false
  end.

(** The container of [tree_mem], and the same with bytes added to its
    format tag after a zero byte. *)
Definition tree_container : list (string * rvalue) :=
  match snd (m_nodedump_to_hash ruby22_x64 ruby22_ctbl 100 (compiled tree_mem 4096)) with
  | Ok (RHash h) => h
  | _ => []
  end.

Definition longer_magic : list byte :=
  NODEMARSHAL_MAGIC ++ x00 :: list_byte_of_string "junk".

Definition longer_magic_container : list (string * rvalue) :=
  ("MAGIC"%string, RStr longer_magic) :: tl tree_container.

(** The container of [tree_mem] with the format tag of another version of
    the format, and with the Ruby version of another interpreter. *)
Definition older_magic_container : list (string * rvalue) :=
  ("MAGIC"%string, RStr (list_byte_of_string "NODEMARSHAL10")) :: tl tree_container.

Definition other_version_container : list (string * rvalue) :=
  map (fun kv => if String.eqb (fst kv) "RUBY_VERSION"
                 then (fst kv, RStr (list_byte_of_string "2.3.0")) else kv)
    tree_container.

(** The offset of the [k]-th node record of the string [s], as the loop of
    [load_nodes_from_str] reaches it. *)
Definition record_offset (H : Host) (s : list byte) (k : nat) (bin : Z) : Z :=
  Nat.iter k (fun off => nr_end (read_node_record H s off)) bin.

(** The location code and the stored value of the slot [j] (0, 1, 2) of a
    record. *)
Definition nr_slot (r : node_record) (j : nat) : Z * VALUE :=
  let '(rt0, rt1, rt2) := nr_rtypes r in
  let '(v0, v1, v2) := nr_u r in
  match j with
  | O => (rt0, v0)
  | S O => (rt1, v1)
  | _ => (rt2, v2)
  end.

(** The recorded length of the table that a location code names. *)
Definition table_len (relocs : NODEObjAddresses) (rtype : Z) : option Z :=
  if rtype =? VL_NODE then Some (nodes_len relocs)
  else if rtype =? VL_ID then Some (syms_len relocs)
  else if rtype =? VL_GVAR then Some (gvars_len relocs)
  else if rtype =? VL_IDTABLE then Some (idtbls_len relocs)
  else if rtype =? VL_ARGS then Some (args_len relocs)
  else if rtype =? VL_LIT then Some (lits_len relocs)
  else None.

(** A stored ordinal that lies beyond the table its location code names. *)
Definition out_of_range (relocs : NODEObjAddresses) (rtype : Z) (u : VALUE) : Prop :=
  exists len, table_len relocs rtype = Some len /\ 0 <= len < 2 ^ 31 /\ len <= u.

(** A node ordinal in range whose table entry is not of type [T_NODE]. *)
Definition not_a_node (H : Host) (m : memory) (relocs : NODEObjAddresses)
    (rtype : Z) (u : VALUE) : Prop :=
  rtype = VL_NODE
  /\ exists a, arr_get "nodes_adr" (nodes_adr relocs) u = Ok a
               /\ TYPE H m a <> T_NODE H.

(** ** The node records *)

(** The indices [k - 1, ..., 0] that the loop of [value_to_bin] goes
    through when a [VALUE] has [k] bytes. *)
Definition desc (k : nat) : list Z := map Z.of_nat (rev (seq 0 k)).

(** What [dump_node_value] answered for a slot: the location code [vl] and
    the number [x] whose bytes follow, the slot itself for [VL_RAW] and an
    ordinal otherwise. *)
Definition slot_dumped (H : Host) (m : memory) (info : NODEInfo) (node : RNode)
    (type : Z) (value : VALUE) (child_id : Z) (vl : Z) (x : VALUE) : Prop :=
  dump_node_value H m info node type value child_id = Ok (DUMP_RAW_VALUE vl x)
  /\ 0 <= vl <= 6
  /\ (vl = VL_RAW -> x = value)
  /\ (vl <> VL_RAW -> 0 <= x < 2 ^ 64).

(** The three slots of a node, by the number [dump_node_value] is given. *)
Definition nd_slot (n : RNode) (j : Z) : VALUE :=
  if j =? 1 then u1 n else if j =? 2 then u2 n else u3 n.

(** The node [n'] that [load_nodes_from_str] builds from the record that
    [dump_nodes] wrote for the node [n]: the flags, and the slots that
    were written as they are. *)
Definition restored (H : Host) (nodes_ctbl : list Z) (m : memory) (info : NODEInfo)
    (n n' : RNode) : Prop :=
  nd_reserved n' = 0
  /\ (0 <= flags n < 2 ^ 64 -> flags n' = restored_flags H (Z.shiftr (flags n) 5))
  /\ exists ut0 ut1 ut2 vl0 x0 vl1 x1 vl2 x2,
       dump_child_types nodes_ctbl info n = Ok (ut0, ut1, ut2)
       /\ slot_dumped H m info n ut0 (u1 n) 1 vl0 x0
       /\ slot_dumped H m info n ut1 (u2 n) 2 vl1 x1
       /\ slot_dumped H m info n ut2 (u3 n) 3 vl2 x2
       /\ (vl0 = VL_RAW -> 0 <= u1 n < 2 ^ 64 -> u1 n' = u1 n)
       /\ (vl1 = VL_RAW -> 0 <= u2 n < 2 ^ 64 -> u2 n' = u2 n)
       /\ (vl2 = VL_RAW -> 0 <= u3 n < 2 ^ 64 -> u3 n' = u3 n).

(** ** Further functions of nodedump.c, and notions for their properties *)

(** The value given with the first occurrence of a key in a sequence of
    insertions. *)
Fixpoint first_value (k : rkey) (kvs : list (rkey * rvalue)) : option rvalue :=
  match kvs with
  | [] => None
  | (k', v) :: kvs' => if rkey_eqb k' k then Some v else first_value k kvs'
  end.

(** The instance variables that [m_nodedump_from_memory] sets last:
    [@node], [@num_of_nodes] and [@obj_addresses] are the same in two
    states, and no call was made to the garbage collector in between. *)
Definition ivs_kept (st st' : dstate) : Prop :=
  iv_node (d_self st') = iv_node (d_self st)
  /\ iv_num_of_nodes (d_self st') = iv_num_of_nodes (d_self st)
  /\ iv_obj_addresses (d_self st') = iv_obj_addresses (d_self st)
  /\ d_gc st' = d_gc st.

(** A step that leaves them as they are, whether it returns or raises. *)
Definition keeps_ivs {A : Type} (c : D A) : Prop :=
  forall st, ivs_kept st (fst (c st)).

(** A step that leaves them as they are when it raises. *)
Definition raise_keeps_ivs {A : Type} (c : D A) : Prop :=
  forall st e, snd (c st) = Raise e -> ivs_kept st (fst (c st)).

(** A [NODE_BLOCK] whose first slot refers to the node itself. *)
Definition loop_mem : memory :=
  mem_put (fun _ => None)
    4096 (ONode (mkRNode (node_flags NODE_BLOCK 1) 0 4096 0 0)).

(** [node_size] of [dump_nodes]: [sizeof(int) + sizeof(VALUE) * 4], the
    bytes that the buffer has for each node. *)
Definition node_size : Z := 4 + SIZEOF_VALUE * 4.

(** A node of kind 26, which [nodes_child_info] has no row for. *)
Definition unknown_mem : memory :=
  mem_put (fun _ => None) 4096 (ONode (mkRNode (node_flags 26 1) 0 0 0 0)).

(** The bytes that [base85r_encode] writes: the digits, the line feed and
    the space; and the characters that the alphabet was chosen to avoid
    (backslash, double quote, hash, braces and single quote). *)
Definition text_byte (c : byte) : bool :=
  in_alphabet c || Byte.eqb c x0a || Byte.eqb c x20.

Definition ruby_special : list byte := [x5c; x22; x23; x7b; x7d; x27].

(** ** [m_nodedump_change_symbol] *)

(** [ary.find_index(str)] for a String [str]: the first index that holds
    a String with the same bytes.  (An element that is no String is not
    equal to a String.) *)
Fixpoint find_index (l : list rvalue) (s : list byte) : option nat :=
  match l with
  | [] => None
  | x :: l' =>
      if match x with RStr t => bytes_eqb t s | _ => false end
      then Some O
      else match find_index l' s with
           | Some i => Some (S i)
           | None => None
           end
  end.

(** The container after the object held under [key] was changed. *)
Fixpoint data_store (data : list (string * rvalue)) (key : string) (v : rvalue)
    : list (string * rvalue) :=
  match data with
  | [] => []
  | (k, w) :: data' =>
      if String.eqb k key then (k, v) :: data'
      else (k, w) :: data_store data' key v
  end.

(** [m_nodedump_change_symbol(self, old_sym, new_sym)] on an object whose
    [@nodehash] is [nodehash] ([None] for [nil]): [Ok None] when it
    returns [nil], [Ok (Some h)] when it returns [self], [h] being
    [@nodehash] with the array of symbols as the assignment
    [RARRAY_PTR(syms)[key] = new_sym] leaves it.  ([find_index] sent to an
    object that is no array raises a [NoMethodError], given here as a
    [TypeError].) *)
Definition m_nodedump_change_symbol (nodehash : option (list (string * rvalue)))
    (old_sym new_sym : rvalue) : result (option (list (string * rvalue))) :=
  match nodehash with
  | None => Raise (ArgError "This node is not preparsed into Hash")
  | Some h =>
      match old_sym with
      | RStr old =>
          match new_sym with
          | RStr new =>
              match data_aref h "symbols" with
              | RNil => Raise (ArgError "Preparsed hash has no :symbols field")
              | RAry syms =>
                  match find_index syms new with
                  | Some _ =>
                      Raise (ArgError
                               "new_sym value must be absent in table of symbols")
                  | None =>
                      match find_index syms old with
                      | None => Ok None
                      | Some key =>
                          Ok (Some (data_store h "symbols"
                                      (RAry (arr_set syms key new_sym))))
                      end
                  end
              | _ => Raise (TypeError "undefined method find_index")
              end
          | _ => Raise (ArgError "new_sym argument must be a string")
          end
      | _ => Raise (ArgError "old_sym argument must be a string")
      end
  end.
(** A container whose table of symbols holds [a] and [b]. *)
Definition two_syms_container : list (string * rvalue) :=
  [ ("MAGIC"%string, RStr NODEMARSHAL_MAGIC);
    ("symbols"%string, RAry [RStr (list_byte_of_string "a");
                             RStr (list_byte_of_string "b")]);
    ("num_of_nodes"%string, RFix 0) ].

(** The table of symbols after [LeafTableInfo_addIDEntry] was called for
    each of [ids] in turn, and the object it keeps for an identifier. *)
Definition syms_of_ids (H : Host) (ids : list Z) : LeafTableInfo :=
  fold_left (fun t id => snd (LeafTableInfo_addIDEntry H t id)) ids
    LeafTableInfo_init.

Definition id_leaf (H : Host) (id : Z) : rvalue :=
  match rb_id2str H id with
  | Some name => RStr name
  | None => RFix (fixnum id)
  end.

(** The slots that [dump_node_value] writes as they are: those of type
    [NT_NULL] or [NT_LONG], and those of type [NT_VALUE] holding a special
    constant ([nil], [true], [false], [undef], a Fixnum or a flonum). *)
Definition inline_slot (H : Host) (type : Z) (value : VALUE) : Prop :=
  type = NT_NULL \/ type = NT_LONG
  \/ (type = NT_VALUE /\ is_value_in_heap H value = false).

(** A [NODE_LIT] whose literal is the Fixnum 5. *)
Definition lit_mem : memory :=
  mem_put (fun _ => None) 4096 (ONode (mkRNode (node_flags NODE_LIT 1) 0 11 0 0)).

(** A step that raises in whatever state it is run. *)
Definition always_raises {A : Type} (c : D A) : Prop :=
  forall st, exists st' e, c st = (st', Raise e).

(** The ordinal that [resolve_args_ords] reads from a node field of an
    args entry: [(int) (((VALUE) FIX2LONG(x)) & 0xFFFFFFFF)]. *)
Definition args_node_ord (H : Host) (x : rvalue) : Z :=
  int32 (Z.land (to_VALUE (FIX2LONG H x)) 4294967295).

(** An args entry one of whose node ordinals (fields 0, 1, 7, 8, 9) or
    symbol ordinals (fields 4, 5, 6) is below -1 or not below the length of
    its table. *)
Definition bad_args_entry (H : Host) (relocs : NODEObjAddresses) (l : list rvalue)
    : Prop :=
  exists j x,
    nth_error l j = Some x
    /\ ((In j [0; 1; 7; 8; 9]%nat
         /\ (args_node_ord H x < -1 \/ nodes_len relocs <= args_node_ord H x))
        \/ (In j [4; 5; 6]%nat
            /\ exists n, FIX2INT x = Ok n /\ (n < -1 \/ syms_len relocs <= n))).

(** The slots of the node [n'] that [load_nodes_from_str] builds from the
    record that [dump_nodes] wrote for the node [n]: each is what
    [resolve_slot] answers, in the memory [m0] of that moment, for the
    location code and the number written for the slot. *)
Definition resolved (H : Host) (nodes_ctbl : list Z) (m : memory) (info : NODEInfo)
    (relocs : NODEObjAddresses) (n n' : RNode) : Prop :=
  exists ut0 ut1 ut2 vl0 x0 vl1 x1 vl2 x2 m0,
    dump_child_types nodes_ctbl info n = Ok (ut0, ut1, ut2)
    /\ slot_dumped H m info n ut0 (u1 n) 1 vl0 x0
    /\ slot_dumped H m info n ut1 (u2 n) 2 vl1 x1
    /\ slot_dumped H m info n ut2 (u3 n) 3 vl2 x2
    /\ (0 <= x0 < 2 ^ 64 -> resolve_slot H m0 relocs vl0 x0 = Ok (u1 n'))
    /\ (0 <= x1 < 2 ^ 64 -> resolve_slot H m0 relocs vl1 x1 = Ok (u2 n'))
    /\ (0 <= x2 < 2 ^ 64 -> resolve_slot H m0 relocs vl2 x2 = Ok (u3 n')).
(** The state and the address tables of a load of the container of
    [tree_mem] once [resolve_nodes_ords] has allocated the three nodes. *)
Definition tree_loading : dstate :=
  fst (resolve_nodes_ords ruby22_x64 (container_of tree_mem 4096) 3 relocs_init
         (dstate_init (fun _ => None))).

Definition tree_relocs : NODEObjAddresses :=
  match snd (resolve_nodes_ords ruby22_x64 (container_of tree_mem 4096) 3
               relocs_init (dstate_init (fun _ => None))) with
  | Ok relocs => relocs
  | Raise _ => relocs_init
  end.

(* ===================================================================== *)
(** * Part 7. Theorems                                                    *)
(* ===================================================================== *)

Lemma byte_to_Z_range (b : byte) : 0 <= byte_to_Z b < 256.
Proof.
  unfold byte_to_Z. pose proof (Byte.to_N_bounded b). lia.
Qed.

Lemma byte_of_to_Z (b : byte) : byte_of_Z (byte_to_Z b) = b.
Proof.
  unfold byte_of_Z. pose proof (byte_to_Z_range b) as Hr.
  rewrite Z.mod_small by lia. unfold byte_to_Z.
  rewrite N2Z.id, Byte.of_to_N. reflexivity.
Qed.

Lemma byte_to_of_Z (z : Z) : byte_to_Z (byte_of_Z z) = z mod 256.
Proof.
  unfold byte_of_Z, byte_to_Z.
  pose proof (Z.mod_pos_bound z 256 ltac:(lia)) as Hr.
  destruct (Byte.of_N (Z.to_N (z mod 256))) as [b|] eqn:E.
  - apply Byte.to_of_N in E. rewrite E. lia.
  - exfalso. pose proof (Byte.to_of_N_option_map (Z.to_N (z mod 256))) as Hm.
    rewrite E in Hm. simpl in Hm.
    destruct (N.leb_spec (Z.to_N (z mod 256)) 255); [discriminate | lia].
Qed.

Lemma int32_small z : - 2 ^ 31 <= z < 2 ^ 31 -> int32 z = z.
Proof. intros Hz. unfold int32. rewrite Z.mod_small; lia. Qed.

Lemma uint32_small z : 0 <= z < 2 ^ 32 -> uint32 z = z.
Proof. intros Hz. unfold uint32. apply Z.mod_small; lia. Qed.

Lemma uint32_add_int32 a b : uint32 (a + int32 b) = uint32 (a + b).
Proof.
  unfold uint32, int32.
  rewrite (Z.mod_eq (b + 2 ^ 31) (2 ^ 32)) by lia.
  replace (a + (b + 2 ^ 31 - 2 ^ 32 * ((b + 2 ^ 31) / 2 ^ 32) - 2 ^ 31))
    with (a + b + (- ((b + 2 ^ 31) / 2 ^ 32)) * 2 ^ 32) by ring.
  apply Z_mod_plus_full.
Qed.

Lemma lor_shifted x y k :
  0 <= k -> 0 <= y < 2 ^ k -> Z.lor (x * 2 ^ k) y = x * 2 ^ k + y.
Proof.
  intros Hk Hy. rewrite <- Z.add_lor_land.
  assert (E : Z.land (x * 2 ^ k) y = 0).
  { apply Z.bits_inj'. intros n Hn. rewrite Z.land_spec, Z.bits_0.
    destruct (Z.lt_ge_cases n k) as [Hlt | Hge].
    - rewrite Z.mul_pow2_bits_low by lia. reflexivity.
    - assert (Hb : Z.testbit y n = false).
      { destruct (Z.eq_dec y 0) as [-> | Hne]; [apply Z.bits_0 |].
        apply Z.bits_above_log2; [lia |].
        apply Z.log2_lt_pow2; [lia |].
        apply Z.lt_le_trans with (2 ^ k); [lia |].
        apply Z.pow_le_mono_r; lia. }
      rewrite Hb. apply andb_false_r. }
  rewrite E. lia.
Qed.

(** ** The digits *)

Lemma char_to_val_digit_nat (n : nat) :
  (n < 85)%nat ->
  arr_get "char_to_val" char_to_val (byte_to_Z (nth n val_to_char x00))
  = Ok (Z.of_nat n).
Proof.
  intros Hn.
  do 85 (destruct n as [|n]; [vm_compute; reflexivity |]).
  lia.
Qed.

Lemma char_to_val_digit (k : Z) :
  0 <= k < 85 ->
  arr_get "char_to_val" char_to_val (byte_to_Z (nth (Z.to_nat k) val_to_char x00))
  = Ok k.
Proof.
  intros Hk. rewrite char_to_val_digit_nat by lia. f_equal. lia.
Qed.

Lemma decode_loop_app ctv st a b :
  decode_loop ctv st (a ++ b)
  = bind (decode_loop ctv st a) (fun st' => decode_loop ctv st' b).
Proof.
  revert st. induction a as [|c a IH]; intros st; simpl; [reflexivity |].
  destruct (decode_step ctv st c) as [st' | e]; simpl; [apply IH | reflexivity].
Qed.

(** A digit met while the tail length is known. *)
Lemma decode_step_digit st val d sh dv :
  0 <= (val / d) mod 85 < 85 ->
  tail_len st <> -1 ->
  shift st = sh ->
  arr_get "di_val" di_val sh = Ok dv ->
  decode_step char_to_val st (encode_digit val d)
  = if sh + 1 =? 5 then
      Ok {| tail_len := tail_len st; shift := 0; dval := 0;
            written := written st
                       ++ word_bytes (uint32 (dval st + int32 ((val / d) mod 85 * dv))) |}
    else
      Ok {| tail_len := tail_len st; shift := sh + 1;
            dval := uint32 (dval st + int32 ((val / d) mod 85 * dv));
            written := written st |}.
Proof.
  intros Hd Ht Hs Hdv. unfold decode_step, encode_digit.
  rewrite char_to_val_digit by exact Hd. unfold bind at 1.
  replace ((val / d) mod 85 =? -1) with false by (symmetry; apply Z.eqb_neq; lia).
  replace (tail_len st =? -1) with false by (symmetry; apply Z.eqb_neq; exact Ht).
  rewrite Hs, Hdv. reflexivity.
Qed.

Lemma base85_digits_sum (val : Z) :
  0 <= val < 2 ^ 32 ->
  (val / D4_VAL) mod 85 * D4_VAL + (val / D3_VAL) mod 85 * D3_VAL
  + (val / D2_VAL) mod 85 * D2_VAL + (val / D1_VAL) mod 85 * D1_VAL
  + (val / D0_VAL) mod 85 * D0_VAL = val.
Proof.
  intros Hv. unfold D4_VAL, D3_VAL, D2_VAL, D1_VAL, D0_VAL.
  rewrite Z.div_1_r.
  assert (E2 : val / 7225 = val / 85 / 85) by (rewrite Z.div_div by lia; reflexivity).
  assert (E3 : val / 614125 = val / 85 / 85 / 85)
    by (rewrite !Z.div_div by lia; reflexivity).
  assert (E4 : val / 52200625 = val / 85 / 85 / 85 / 85)
    by (rewrite !Z.div_div by lia; reflexivity).
  rewrite E2, E3, E4. clear E2 E3 E4.
  change (2 ^ 32) with 4294967296 in Hv.
  set (q1 := val / 85). set (q2 := q1 / 85). set (q3 := q2 / 85). set (q4 := q3 / 85).
  pose proof (Z.div_mod val 85 ltac:(lia)) as H0. fold q1 in H0.
  pose proof (Z.div_mod q1 85 ltac:(lia)) as H1. fold q2 in H1.
  pose proof (Z.div_mod q2 85 ltac:(lia)) as H2. fold q3 in H2.
  pose proof (Z.div_mod q3 85 ltac:(lia)) as H3. fold q4 in H3.
  pose proof (Z.mod_pos_bound val 85 ltac:(lia)).
  pose proof (Z.mod_pos_bound q1 85 ltac:(lia)).
  pose proof (Z.mod_pos_bound q2 85 ltac:(lia)).
  pose proof (Z.mod_pos_bound q3 85 ltac:(lia)).
  assert (Hq4 : q4 mod 85 = q4).
  { apply Z.mod_small.
    generalize dependent (val mod 85). generalize dependent (q1 mod 85).
    generalize dependent (q2 mod 85). generalize dependent (q3 mod 85).
    intros. lia. }
  rewrite Hq4.
  generalize dependent (val mod 85). generalize dependent (q1 mod 85).
  generalize dependent (q2 mod 85). generalize dependent (q3 mod 85).
  intros. lia.
Qed.

Lemma uint32_uint32_add a b : uint32 (uint32 a + b) = uint32 (a + b).
Proof. unfold uint32. apply Zplus_mod_idemp_l. Qed.

Lemma decode_group (val : Z) (st : dec_state) :
  0 <= val < 2 ^ 32 ->
  tail_len st <> -1 -> shift st = 0 -> dval st = 0 ->
  decode_loop char_to_val st (encode_group val)
  = Ok {| tail_len := tail_len st; shift := 0; dval := 0;
          written := written st ++ word_bytes val |}.
Proof.
  intros Hv Ht Hs Hd.
  assert (Hm : forall d, 0 <= (val / d) mod 85 < 85)
    by (intros d; apply Z.mod_pos_bound; lia).
  unfold encode_group, di_val.
  change (map (encode_digit val) [D4_VAL; D3_VAL; D2_VAL; D1_VAL; D0_VAL])
    with [encode_digit val D4_VAL; encode_digit val D3_VAL; encode_digit val D2_VAL;
          encode_digit val D1_VAL; encode_digit val D0_VAL].
  unfold decode_loop.
  rewrite (decode_step_digit st val D4_VAL 0 D4_VAL (Hm _) Ht Hs eq_refl).
  change (0 + 1 =? 5) with false. cbv iota. unfold bind at 1.
  rewrite decode_step_digit with (sh := 1) (dv := D3_VAL);
    [ | apply Hm | exact Ht | reflexivity | reflexivity ].
  change (1 + 1 =? 5) with false. cbv iota. unfold bind at 1.
  rewrite decode_step_digit with (sh := 2) (dv := D2_VAL);
    [ | apply Hm | exact Ht | reflexivity | reflexivity ].
  change (2 + 1 =? 5) with false. cbv iota. unfold bind at 1.
  rewrite decode_step_digit with (sh := 3) (dv := D1_VAL);
    [ | apply Hm | exact Ht | reflexivity | reflexivity ].
  change (3 + 1 =? 5) with false. cbv iota. unfold bind at 1.
  rewrite decode_step_digit with (sh := 4) (dv := D0_VAL);
    [ | apply Hm | exact Ht | reflexivity | reflexivity ].
  change (4 + 1 =? 5) with true. cbv iota. unfold bind at 1.
  cbn [dval tail_len written shift].
  do 3 f_equal.
  rewrite Hd, !uint32_add_int32.
  repeat (rewrite uint32_uint32_add || rewrite <- Z.add_assoc).
  match goal with
  | |- word_bytes (uint32 ?x) = _ =>
      replace x with val by (rewrite <- (base85_digits_sum val Hv) at 1; ring)
  end.
  rewrite uint32_small by exact Hv. reflexivity.
Qed.

(** ** Words of four bytes *)

Lemma word_of_range a b c d : 0 <= word_of a b c d < 2 ^ 32.
Proof.
  unfold word_of.
  pose proof (byte_to_Z_range a). pose proof (byte_to_Z_range b).
  pose proof (byte_to_Z_range c). pose proof (byte_to_Z_range d).
  change (2 ^ 24) with 16777216. change (2 ^ 16) with 65536.
  change (2 ^ 8) with 256. change (2 ^ 32) with 4294967296. lia.
Qed.

Lemma land_255 z : Z.land z 255 = z mod 256.
Proof. change 255 with (Z.ones 8). rewrite Z.land_ones by lia. reflexivity. Qed.

Lemma word_bytes_word_of a b c d : word_bytes (word_of a b c d) = [a; b; c; d].
Proof.
  unfold word_bytes. cbn [map].
  rewrite !land_255, !Z.shiftr_div_pow2 by lia.
  pose proof (byte_to_Z_range a). pose proof (byte_to_Z_range b).
  pose proof (byte_to_Z_range c). pose proof (byte_to_Z_range d).
  assert (Ea : (word_of a b c d / 2 ^ 24) mod 256 = byte_to_Z a).
  { unfold word_of. change (2 ^ 24) with 16777216. change (2 ^ 16) with 65536.
    change (2 ^ 8) with 256. Z.to_euclidean_division_equations. lia. }
  assert (Eb : (word_of a b c d / 2 ^ 16) mod 256 = byte_to_Z b).
  { unfold word_of. change (2 ^ 24) with 16777216. change (2 ^ 16) with 65536.
    change (2 ^ 8) with 256. Z.to_euclidean_division_equations. lia. }
  assert (Ec : (word_of a b c d / 2 ^ 8) mod 256 = byte_to_Z c).
  { unfold word_of. change (2 ^ 24) with 16777216. change (2 ^ 16) with 65536.
    change (2 ^ 8) with 256. Z.to_euclidean_division_equations. lia. }
  assert (Ed : (word_of a b c d / 2 ^ 0) mod 256 = byte_to_Z d).
  { unfold word_of. change (2 ^ 24) with 16777216. change (2 ^ 16) with 65536.
    change (2 ^ 8) with 256. change (2 ^ 0) with 1.
    Z.to_euclidean_division_equations. lia. }
  rewrite Ea, Eb, Ec, Ed, !byte_of_to_Z. reflexivity.
Qed.

Lemma byte_to_Z_x00 : byte_to_Z x00 = 0.
Proof. reflexivity. Qed.

(** Or-ing the next byte below a value whose low bits are still clear. *)
Lemma lor_next_byte (x : Z) (b : byte) (k : Z) :
  0 <= k -> k + 8 <= 32 -> 0 <= x -> x * 2 ^ (k + 8) < 2 ^ 32 ->
  Z.lor (x * 2 ^ (k + 8)) (uint32 (Z.shiftl (byte_to_Z b) k))
  = (x * 2 ^ 8 + byte_to_Z b) * 2 ^ k.
Proof.
  intros Hk Hk8 Hx Hlt. pose proof (byte_to_Z_range b) as Hb.
  rewrite Z.shiftl_mul_pow2 by lia.
  assert (Hp : 0 < 2 ^ k) by (apply Z.pow_pos_nonneg; lia).
  assert (Hs : byte_to_Z b * 2 ^ k < 2 ^ (k + 8)).
  { rewrite Z.pow_add_r by lia. change (2 ^ 8) with 256. nia. }
  assert (Hle : 2 ^ (k + 8) <= 2 ^ 32) by (apply Z.pow_le_mono_r; lia).
  rewrite uint32_small by nia.
  rewrite lor_shifted by nia.
  rewrite Z.pow_add_r by lia. ring.
Qed.

Lemma read_byte_some inp_len i val pos b rest :
  pos < inp_len ->
  read_byte inp_len i (val, pos, b :: rest)
  = (Z.lor val (uint32 (Z.shiftl (byte_to_Z b) i)), pos + 1, rest).
Proof.
  intros Hp. unfold read_byte.
  destruct (Z.ltb_spec pos inp_len); [reflexivity | lia].
Qed.

Lemma read_byte_end inp_len i st :
  inp_len <= snd (fst st) -> read_byte inp_len i st = st.
Proof.
  destruct st as [[val pos] rest]. simpl. intros Hp. unfold read_byte.
  destruct (Z.ltb_spec pos inp_len); [lia | reflexivity].
Qed.

Lemma read_word_4 inp_len pos a b c d rest :
  pos + 4 <= inp_len ->
  read_word inp_len pos (a :: b :: c :: d :: rest)
  = (word_of a b c d, pos + 4, rest).
Proof.
  intros Hp. unfold read_word.
  rewrite !read_byte_some by lia.
  pose proof (byte_to_Z_range a). pose proof (byte_to_Z_range b).
  pose proof (byte_to_Z_range c). pose proof (byte_to_Z_range d).
  replace 0 with (0 * 2 ^ (24 + 8)) at 1 by reflexivity.
  rewrite (lor_next_byte 0 a 24) by (change (2 ^ (24 + 8)) with 4294967296; lia).
  rewrite (lor_next_byte _ b 16) by (change (2 ^ (16 + 8)) with 16777216;
    change (2 ^ 8) with 256; change (2 ^ 32) with 4294967296; lia).
  rewrite (lor_next_byte _ c 8) by (change (2 ^ (8 + 8)) with 65536;
    change (2 ^ 8) with 256; change (2 ^ 32) with 4294967296; lia).
  rewrite (lor_next_byte _ d 0) by (change (2 ^ (0 + 8)) with 256;
    change (2 ^ 8) with 256; change (2 ^ 32) with 4294967296; lia).
  replace (pos + 1 + 1 + 1 + 1) with (pos + 4) by lia.
  replace (pos + 1 + 1 + 1) with (pos + 3) by lia.
  replace (pos + 1 + 1) with (pos + 2) by lia.
  do 2 f_equal.
  unfold word_of. change (2 ^ 24) with 16777216. change (2 ^ 16) with 65536.
  change (2 ^ 8) with 256. change (2 ^ 0) with 1. lia.
Qed.

Lemma read_word_3 inp_len pos a b c :
  inp_len = pos + 3 ->
  read_word inp_len pos [a; b; c] = (word_of a b c x00, pos + 3, []).
Proof.
  intros Hp. unfold read_word.
  rewrite !read_byte_some by lia.
  rewrite (read_byte_end inp_len 0) by (simpl; lia).
  pose proof (byte_to_Z_range a). pose proof (byte_to_Z_range b).
  pose proof (byte_to_Z_range c).
  replace 0 with (0 * 2 ^ (24 + 8)) at 1 by reflexivity.
  rewrite (lor_next_byte 0 a 24) by (change (2 ^ (24 + 8)) with 4294967296; lia).
  rewrite (lor_next_byte _ b 16) by (change (2 ^ (16 + 8)) with 16777216;
    change (2 ^ 8) with 256; change (2 ^ 32) with 4294967296; lia).
  rewrite (lor_next_byte _ c 8) by (change (2 ^ (8 + 8)) with 65536;
    change (2 ^ 8) with 256; change (2 ^ 32) with 4294967296; lia).
  replace (pos + 1 + 1 + 1 + 1) with (pos + 4) by lia.
  replace (pos + 1 + 1 + 1) with (pos + 3) by lia.
  replace (pos + 1 + 1) with (pos + 2) by lia.
  do 2 f_equal.
  unfold word_of. rewrite byte_to_Z_x00. change (2 ^ 24) with 16777216.
  change (2 ^ 16) with 65536. change (2 ^ 8) with 256. lia.
Qed.

Lemma read_word_2 inp_len pos a b :
  inp_len = pos + 2 ->
  read_word inp_len pos [a; b] = (word_of a b x00 x00, pos + 2, []).
Proof.
  intros Hp. unfold read_word.
  rewrite !read_byte_some by lia.
  rewrite (read_byte_end inp_len 8) by (simpl; lia).
  rewrite (read_byte_end inp_len 0) by (simpl; lia).
  pose proof (byte_to_Z_range a). pose proof (byte_to_Z_range b).
  replace 0 with (0 * 2 ^ (24 + 8)) at 1 by reflexivity.
  rewrite (lor_next_byte 0 a 24) by (change (2 ^ (24 + 8)) with 4294967296; lia).
  rewrite (lor_next_byte _ b 16) by (change (2 ^ (16 + 8)) with 16777216;
    change (2 ^ 8) with 256; change (2 ^ 32) with 4294967296; lia).
  replace (pos + 1 + 1 + 1 + 1) with (pos + 4) by lia.
  replace (pos + 1 + 1 + 1) with (pos + 3) by lia.
  replace (pos + 1 + 1) with (pos + 2) by lia.
  do 2 f_equal.
  unfold word_of. rewrite byte_to_Z_x00. change (2 ^ 24) with 16777216.
  change (2 ^ 16) with 65536. change (2 ^ 8) with 256. lia.
Qed.

Lemma read_word_1 inp_len pos a :
  inp_len = pos + 1 ->
  read_word inp_len pos [a] = (word_of a x00 x00 x00, pos + 1, []).
Proof.
  intros Hp. unfold read_word.
  rewrite !read_byte_some by lia.
  rewrite (read_byte_end inp_len 16) by (simpl; lia).
  rewrite (read_byte_end inp_len 8) by (simpl; lia).
  rewrite (read_byte_end inp_len 0) by (simpl; lia).
  pose proof (byte_to_Z_range a).
  replace 0 with (0 * 2 ^ (24 + 8)) at 1 by reflexivity.
  rewrite (lor_next_byte 0 a 24) by (change (2 ^ (24 + 8)) with 4294967296; lia).
  do 2 f_equal.
  unfold word_of. rewrite byte_to_Z_x00. change (2 ^ 24) with 16777216.
  change (2 ^ 16) with 65536. change (2 ^ 8) with 256. lia.
Qed.

(** ** The loops *)

Lemma pad4_cons4 a b c d (r : list byte) :
  pad4 (a :: b :: c :: d :: r) = a :: b :: c :: d :: pad4 r.
Proof.
  unfold pad4. cbn [length app].
  replace ((- Z.of_nat (S (S (S (S (length r))))))  mod 4)
    with ((- Z.of_nat (length r)) mod 4); [reflexivity |].
  replace (- Z.of_nat (S (S (S (S (length r))))))
    with (- Z.of_nat (length r) + (-1) * 4) by lia.
  symmetry. apply Z_mod_plus_full.
Qed.

Lemma pad4_length (l : list byte) :
  Z.of_nat (length (pad4 l))
  = Z.of_nat (length l) + (- Z.of_nat (length l)) mod 4.
Proof.
  unfold pad4. rewrite length_app, repeat_length.
  pose proof (Z.mod_pos_bound (- Z.of_nat (length l)) 4 ltac:(lia)). lia.
Qed.

Lemma firstn_pad4 (l : list byte) : firstn (length l) (pad4 l) = l.
Proof.
  unfold pad4. rewrite firstn_app, Nat.sub_diag, firstn_all. simpl.
  apply app_nil_r.
Qed.

Lemma encode_loop_step fuel inp_len pos rest out val pos' rest' :
  pos < inp_len ->
  read_word inp_len pos rest = (val, pos', rest') ->
  encode_loop (S fuel) inp_len pos rest out
  = encode_loop fuel inp_len pos' rest' (out ++ encode_group val ++ newline_after pos').
Proof.
  intros Hp Hr. cbn [encode_loop].
  destruct (Z.ltb_spec pos inp_len); [| lia].
  rewrite Hr. unfold newline_after.
  destruct (Z.rem pos' (4 * BASE85R_STR_WIDTH) =? 0).
  - rewrite <- app_assoc. reflexivity.
  - rewrite app_nil_r. reflexivity.
Qed.

Lemma encode_loop_done fuel inp_len pos out :
  inp_len <= pos -> encode_loop fuel inp_len pos [] out = out.
Proof.
  intros Hp. destruct fuel; cbn [encode_loop]; [reflexivity |].
  destruct (Z.ltb_spec pos inp_len); [lia | reflexivity].
Qed.

Lemma decode_step_skip ctv st c :
  arr_get "char_to_val" ctv (byte_to_Z c) = Ok (-1) -> decode_step ctv st c = Ok st.
Proof. intros Hc. unfold decode_step. rewrite Hc. reflexivity. Qed.

Lemma decode_newline st p : decode_loop char_to_val st (newline_after p) = Ok st.
Proof.
  unfold newline_after. destruct (Z.rem p (4 * BASE85R_STR_WIDTH) =? 0);
    [| reflexivity].
  cbn [decode_loop].
  rewrite !decode_step_skip by (vm_compute; reflexivity). reflexivity.
Qed.

Lemma decode_after_group out st val p :
  0 <= val < 2 ^ 32 ->
  decode_loop char_to_val dec_init out = Ok st ->
  tail_len st <> -1 -> shift st = 0 -> dval st = 0 ->
  decode_loop char_to_val dec_init (out ++ encode_group val ++ newline_after p)
  = Ok {| tail_len := tail_len st; shift := 0; dval := 0;
          written := written st ++ word_bytes val |}.
Proof.
  intros Hv Ho Ht Hs Hd.
  rewrite decode_loop_app, Ho. cbn [bind].
  rewrite decode_loop_app, decode_group by assumption. cbn [bind].
  apply decode_newline.
Qed.

(** Decoding what the encoding loop appends to a well-begun output gives
    the input bytes, padded with zero bytes to a multiple of four. *)
Lemma decode_encode_loop (fuel : nat) :
  forall (rest : list byte) (pos : Z) (out : list byte) (st : dec_state),
    (length rest <= fuel)%nat ->
    decode_loop char_to_val dec_init out = Ok st ->
    tail_len st <> -1 -> shift st = 0 -> dval st = 0 ->
    decode_loop char_to_val dec_init
      (encode_loop fuel (pos + Z.of_nat (length rest)) pos rest out)
    = Ok {| tail_len := tail_len st; shift := 0; dval := 0;
            written := written st ++ pad4 rest |}.
Proof.
  induction fuel as [|fuel IH]; intros rest pos out st Hf Ho Ht Hs Hd.
  - destruct rest; [| simpl in Hf; lia].
    cbn [encode_loop]. rewrite Ho. destruct st; cbn in *. subst.
    rewrite app_nil_r. reflexivity.
  - destruct rest as [|a [|b [|c [|d r]]]].
    + rewrite encode_loop_done by (simpl; lia). rewrite Ho.
      destruct st; cbn in *. subst. rewrite app_nil_r. reflexivity.
    + assert (Hlt : pos < pos + Z.of_nat (length [a])) by (simpl length; lia).
      rewrite (encode_loop_step _ _ _ _ _ _ _ _ Hlt
                 (read_word_1 (pos + Z.of_nat (length [a])) pos a ltac:(simpl length; lia))).
      rewrite encode_loop_done by (simpl; lia).
      rewrite (decode_after_group _ st) by (try apply word_of_range; assumption).
      rewrite word_bytes_word_of. reflexivity.
    + assert (Hlt : pos < pos + Z.of_nat (length [a; b])) by (simpl length; lia).
      rewrite (encode_loop_step _ _ _ _ _ _ _ _ Hlt
                 (read_word_2 (pos + Z.of_nat (length [a; b])) pos a b ltac:(simpl length; lia))).
      rewrite encode_loop_done by (simpl; lia).
      rewrite (decode_after_group _ st) by (try apply word_of_range; assumption).
      rewrite word_bytes_word_of. reflexivity.
    + assert (Hlt : pos < pos + Z.of_nat (length [a; b; c])) by (simpl length; lia).
      rewrite (encode_loop_step _ _ _ _ _ _ _ _ Hlt
                 (read_word_3 (pos + Z.of_nat (length [a; b; c])) pos a b c ltac:(simpl length; lia))).
      rewrite encode_loop_done by (simpl; lia).
      rewrite (decode_after_group _ st) by (try apply word_of_range; assumption).
      rewrite word_bytes_word_of. reflexivity.
    + assert (Hlt : pos < pos + Z.of_nat (length (a :: b :: c :: d :: r))) by (simpl length; lia).
      rewrite (encode_loop_step _ _ _ _ _ _ _ _ Hlt
                 (read_word_4 (pos + Z.of_nat (length (a :: b :: c :: d :: r))) pos a b c d r ltac:(simpl length; lia))).
      replace (pos + Z.of_nat (length (a :: b :: c :: d :: r)))
        with (pos + 4 + Z.of_nat (length r)) by (simpl length; lia).
      rewrite (IH r (pos + 4) _
                 {| tail_len := tail_len st; shift := 0; dval := 0;
                    written := written st ++ word_bytes (word_of a b c d) |});
        [ | simpl in Hf; lia
          | apply decode_after_group; (try apply word_of_range; assumption)
          | exact Ht | reflexivity | reflexivity ].
      cbn [tail_len written]. rewrite word_bytes_word_of, pad4_cons4.
      rewrite <- app_assoc. reflexivity.
Qed.

(** The length of what the loop appends: five bytes a group, two more
    after every fourteenth group. *)
Lemma encode_loop_length (fuel : nat) :
  forall (rest : list byte) (pos : Z) (out : list byte),
    (length rest <= fuel)%nat -> 0 <= pos ->
    let res := encode_loop fuel (pos + Z.of_nat (length rest)) pos rest out in
    Z.of_nat (length res) + 2 * (pos / 56)
    <= Z.of_nat (length out) + 5 * ((Z.of_nat (length rest) + 3) / 4)
       + 2 * ((pos + Z.of_nat (length rest)) / 56)
    /\ Z.of_nat (length out) + 5 * ((Z.of_nat (length rest) + 3) / 4)
       <= Z.of_nat (length res).
Proof.
  assert (Hg : forall v, length (encode_group v) = 5%nat) by reflexivity.
  assert (Hn : forall p, 0 <= p ->
             Z.of_nat (length (newline_after p))
             = if p mod 56 =? 0 then 2 else 0).
  { intros p Hp. unfold newline_after. change (4 * BASE85R_STR_WIDTH) with 56.
    rewrite Z.rem_mod_nonneg by lia.
    destruct (p mod 56 =? 0); reflexivity. }
  induction fuel as [|fuel IH]; intros rest pos out Hf Hp; cbv zeta.
  - destruct rest; [| simpl in Hf; lia]. cbn [encode_loop length].
    change (Z.of_nat 0) with 0.
    change ((0 + 3) / 4) with 0.
      Z.to_euclidean_division_equations; lia.
  - destruct rest as [|a [|b [|c [|d r]]]].
    + rewrite encode_loop_done by (simpl; lia). cbn [length].
      change (Z.of_nat 0) with 0.
      change ((0 + 3) / 4) with 0.
      Z.to_euclidean_division_equations; lia.
    + assert (Hlt : pos < pos + Z.of_nat (length [a])) by (simpl length; lia).
      rewrite (encode_loop_step _ _ _ _ _ _ _ _ Hlt
                 (read_word_1 (pos + Z.of_nat (length [a])) pos a ltac:(simpl length; lia))).
      rewrite encode_loop_done by (simpl; lia).
      rewrite !length_app, !Nat2Z.inj_add, Hg, Hn by lia.
      change (Z.of_nat (length [a])) with 1. change ((1 + 3) / 4) with 1.
      destruct (Z.eqb_spec ((pos + 1) mod 56) 0);
        Z.to_euclidean_division_equations; lia.
    + assert (Hlt : pos < pos + Z.of_nat (length [a; b])) by (simpl length; lia).
      rewrite (encode_loop_step _ _ _ _ _ _ _ _ Hlt
                 (read_word_2 (pos + Z.of_nat (length [a; b])) pos a b ltac:(simpl length; lia))).
      rewrite encode_loop_done by (simpl; lia).
      rewrite !length_app, !Nat2Z.inj_add, Hg, Hn by lia.
      change (Z.of_nat (length [a; b])) with 2. change ((2 + 3) / 4) with 1.
      destruct (Z.eqb_spec ((pos + 2) mod 56) 0);
        Z.to_euclidean_division_equations; lia.
    + assert (Hlt : pos < pos + Z.of_nat (length [a; b; c])) by (simpl length; lia).
      rewrite (encode_loop_step _ _ _ _ _ _ _ _ Hlt
                 (read_word_3 (pos + Z.of_nat (length [a; b; c])) pos a b c ltac:(simpl length; lia))).
      rewrite encode_loop_done by (simpl; lia).
      rewrite !length_app, !Nat2Z.inj_add, Hg, Hn by lia.
      change (Z.of_nat (length [a; b; c])) with 3. change ((3 + 3) / 4) with 1.
      destruct (Z.eqb_spec ((pos + 3) mod 56) 0);
        Z.to_euclidean_division_equations; lia.
    + assert (Hlt : pos < pos + Z.of_nat (length (a :: b :: c :: d :: r))) by (simpl length; lia).
      rewrite (encode_loop_step _ _ _ _ _ _ _ _ Hlt
                 (read_word_4 (pos + Z.of_nat (length (a :: b :: c :: d :: r))) pos a b c d r ltac:(simpl length; lia))).
      replace (pos + Z.of_nat (length (a :: b :: c :: d :: r)))
        with (pos + 4 + Z.of_nat (length r)) by (simpl length; lia).
      specialize (IH r (pos + 4)
                    (out ++ encode_group (word_of a b c d) ++ newline_after (pos + 4))
                    ltac:(simpl in Hf; lia) ltac:(lia)).
      cbv zeta in IH. revert IH.
      rewrite !length_app, !Nat2Z.inj_add, Hg, Hn by lia.
      replace (Z.of_nat (length (a :: b :: c :: d :: r)))
        with (Z.of_nat (length r) + 4) by (simpl length; lia).
      set (L := Z.of_nat (length (encode_loop _ _ _ _ _))).
      set (n := Z.of_nat (length r)).
      assert (0 <= n) by (subst n; lia).
      destruct (Z.eqb_spec ((pos + 4) mod 56) 0);
        intros IH; Z.to_euclidean_division_equations; lia.
Qed.

(** ** The codec as a whole *)

Lemma buf_len_value (n : Z) :
  0 <= n <= BASE85R_MAX_LEN ->
  base85_encode_buf_len n = (5 * ((n + 3) / 4) * 105) / 100 + 32.
Proof.
  unfold BASE85R_MAX_LEN. intros Hn. unfold base85_encode_buf_len.
  rewrite Z.shiftr_div_pow2, Z.shiftl_mul_pow2 by lia.
  change (2 ^ 2) with 4.
  rewrite Z.rem_mod_nonneg by lia.
  rewrite (int32_small (n / 4 * 4))
    by (change (2 ^ 31) with 2147483648; Z.to_euclidean_division_equations; lia).
  assert (Ea : (if negb (n mod 4 =? 0) then int32 (n / 4 * 4 + 4) else n / 4 * 4)
               = 4 * ((n + 3) / 4)).
  { destruct (Z.eqb_spec (n mod 4) 0); cbn [negb].
    - Z.to_euclidean_division_equations; lia.
    - rewrite int32_small
        by (change (2 ^ 31) with 2147483648; Z.to_euclidean_division_equations; lia).
      Z.to_euclidean_division_equations; lia. }
  rewrite Ea. set (g := (n + 3) / 4).
  assert (Hg : 0 <= g <= 4090445) by (subst g; Z.to_euclidean_division_equations; lia).
  rewrite (int32_small (4 * g * 5)) by (change (2 ^ 31) with 2147483648; lia).
  rewrite (Z.quot_div_nonneg (4 * g * 5) 4) by lia.
  replace (4 * g * 5 / 4) with (5 * g)
    by (Z.to_euclidean_division_equations; lia).
  rewrite (int32_small (5 * g * 105)) by (change (2 ^ 31) with 2147483648; lia).
  rewrite (Z.quot_div_nonneg (5 * g * 105) 100) by lia.
  apply int32_small. change (2 ^ 31) with 2147483648.
  Z.to_euclidean_division_equations; lia.
Qed.

Lemma header_char (k : Z) :
  0 <= k < 4 ->
  arr_get "val_to_char" val_to_char k = Ok (nth (Z.to_nat k) val_to_char x00).
Proof.
  intros Hk.
  assert (E : k = 0 \/ k = 1 \/ k = 2 \/ k = 3) by lia.
  destruct E as [-> | [-> | [-> | ->]]]; reflexivity.
Qed.

Lemma decode_header (k : Z) :
  0 <= k < 4 ->
  decode_loop char_to_val dec_init [byte_of_Z 32; nth (Z.to_nat k) val_to_char x00]
  = Ok {| tail_len := k; shift := 0; dval := 0; written := [] |}.
Proof.
  intros Hk. cbn [decode_loop].
  rewrite decode_step_skip by (vm_compute; reflexivity). cbn [bind].
  unfold decode_step. rewrite char_to_val_digit by lia. cbn [bind].
  replace (k =? -1) with false by (symmetry; apply Z.eqb_neq; lia).
  cbn [negb tail_len dec_init]. change (-1 =? -1) with true. cbv iota.
  replace (k >? 4) with false by (symmetry; rewrite Z.gtb_ltb; apply Z.ltb_ge; lia).
  reflexivity.
Qed.

(** What encoding gives, and how the decoding loop reads it back. *)
Lemma encode_decode_loop (b : list byte) :
  Z.of_nat (length b) <= BASE85R_MAX_LEN ->
  exists enc,
    base85r_encode b = Ok enc
    /\ decode_loop char_to_val dec_init enc
       = Ok {| tail_len := Z.of_nat (length b) mod 4; shift := 0; dval := 0;
               written := pad4 b |}
    /\ 2 + 5 * ((Z.of_nat (length b) + 3) / 4) <= Z.of_nat (length enc)
    /\ Z.of_nat (length enc) < 2 ^ 31.
Proof.
  intros Hn. set (n := Z.of_nat (length b)) in *.
  assert (Hn0 : 0 <= n) by (subst n; lia).
  pose proof (Z.mod_pos_bound n 4 ltac:(lia)) as Hm.
  unfold base85r_encode. fold n.
  rewrite (int32_small n)
    by (unfold BASE85R_MAX_LEN in Hn; change (2 ^ 31) with 2147483648; lia).
  rewrite buf_len_value by lia.
  set (g := (n + 3) / 4).
  assert (Hg : 0 <= g <= 4090445)
    by (subst g; unfold BASE85R_MAX_LEN in Hn; Z.to_euclidean_division_equations; lia).
  unfold rb_str_new_check.
  destruct (Z.ltb_spec (5 * g * 105 / 100 + 32) 0) as [Hneg | _];
    [Z.to_euclidean_division_equations; lia |].
  cbn [bind]. rewrite Z.rem_mod_nonneg by lia.
  rewrite header_char by lia. cbn [bind].
  set (hd := nth (Z.to_nat (n mod 4)) val_to_char x00).
  pose proof (encode_loop_length (length b) b 0 [byte_of_Z 32; hd]
                (Nat.le_refl _) (Z.le_refl 0)) as Hlen.
  cbv zeta in Hlen. fold n in Hlen. rewrite Z.add_0_l in Hlen.
  pose proof (decode_encode_loop (length b) b 0 [byte_of_Z 32; hd] _
                (Nat.le_refl _) (decode_header (n mod 4) Hm)
                ltac:(cbn [tail_len]; lia) eq_refl eq_refl) as Hdec.
  fold n in Hdec. rewrite Z.add_0_l in Hdec. cbn [tail_len written app] in Hdec.
  set (out := encode_loop (length b) n 0 b [byte_of_Z 32; hd]) in *.
  change (Z.of_nat (length [byte_of_Z 32; hd])) with 2 in Hlen.
  fold g in Hlen. change (0 / 56) with 0 in Hlen.
  destruct Hlen as [Hup Hlow].
  assert (Hgn : n <= 4 * g) by (subst g; Z.to_euclidean_division_equations; lia).
  clearbody g.
  assert (Hfit : Z.of_nat (length out) < 5 * g * 105 / 100 + 32)
    by (Z.to_euclidean_division_equations; lia).
  destruct (Z.geb_spec (Z.of_nat (length out)) (5 * g * 105 / 100 + 32)); [lia |].
  exists out. unfold rb_str_resize.
  destruct (Z.ltb_spec (Z.of_nat (length out)) 0); [lia |].
  rewrite Nat2Z.id, firstn_all.
  repeat split; [exact Hdec | lia |].
  change (2 ^ 31) with 2147483648. Z.to_euclidean_division_equations; lia.
Qed.

(** The end of [base85r_decode], once the loop has read a well-formed
    stream. *)
Lemma decode_finish (s b : list byte) :
  decode_loop char_to_val dec_init s
  = Ok {| tail_len := Z.of_nat (length b) mod 4; shift := 0; dval := 0;
          written := pad4 b |} ->
  Z.of_nat (length s) < 2 ^ 31 ->
  ~ (Z.of_nat (length s) < 6 /\ Z.of_nat (length s) <> 2) ->
  base85r_decode s = Ok b.
Proof.
  intros Hdec Hlt Hguard. unfold base85r_decode, base85r_decode_with.
  rewrite int32_small by lia.
  destruct (Z.ltb_spec (Z.of_nat (length s)) 6) as [H6 | H6];
    destruct (Z.eqb_spec (Z.of_nat (length s)) 2) as [H2 | H2];
    cbn [andb negb]; try (exfalso; apply Hguard; split; assumption).
  all: unfold rb_str_new_check;
    destruct (Z.ltb_spec (Z.of_nat (length s)) 0); [lia |];
    cbn [bind]; rewrite Hdec; cbn [bind shift tail_len written];
    change (negb (0 =? 0)) with false; cbv iota;
    rewrite pad4_length;
    set (n := Z.of_nat (length b));
    assert (Hn0 : 0 <= n) by (subst n; lia);
    assert (Hout : (if negb (n mod 4 =? 0)
                    then n + (- n) mod 4 - (4 - n mod 4)
                    else n + (- n) mod 4) = n)
      by (destruct (Z.eqb_spec (n mod 4) 0); cbn [negb];
          Z.to_euclidean_division_equations; lia);
    rewrite Hout; unfold rb_str_resize;
    destruct (Z.ltb_spec n 0); [lia |];
    subst n; rewrite Nat2Z.id, firstn_pad4; reflexivity.
Qed.

Lemma skipped_step (c : byte) (st : dec_state) :
  skipped c -> decode_step char_to_val st c = Ok st.
Proof.
  intros [Ha Hc]. apply decode_step_skip. revert Ha Hc.
  destruct c; intros Ha Hc; vm_compute in Ha, Hc;
    first [ reflexivity | discriminate ].
Qed.

Lemma decode_loop_inserted (s s' : list byte) :
  inserted skipped s s' ->
  forall st, decode_loop char_to_val st s' = decode_loop char_to_val st s.
Proof.
  induction 1 as [| c l l' _ IH | c l l' Hc _ IH]; intros st.
  - reflexivity.
  - cbn [decode_loop]. destruct (decode_step char_to_val st c); cbn [bind];
      [apply IH | reflexivity].
  - cbn [decode_loop]. rewrite skipped_step by exact Hc. cbn [bind]. apply IH.
Qed.

Lemma inserted_length P (s s' : list byte) :
  inserted P s s' -> (length s <= length s')%nat.
Proof. induction 1; simpl; lia. Qed.

Lemma base85r_init_ok : base85r_init_tables = Ok char_to_val.
Proof. vm_compute. reflexivity. Qed.

(** For every byte string of at most [BASE85R_MAX_LEN] (16361780) bytes,
    [base85r_encode] returns a string that [base85r_decode] turns back
    into the input; for the empty string the encoded string has two
    bytes. *)
Theorem base85r_roundtrip_bounded (b : list byte) :
  Z.of_nat (length b) <= BASE85R_MAX_LEN ->
  exists enc,
    base85r_encode b = Ok enc
    /\ base85r_decode enc = Ok b
    /\ (b = [] -> length enc = 2%nat).
Proof.
  intros Hn.
  destruct (encode_decode_loop b Hn) as (enc & Henc & Hdec & Hlow & Hup).
  exists enc. split; [exact Henc |]. split.
  - apply decode_finish; [exact Hdec | exact Hup |].
    intros [H6 H2].
    destruct b as [|c b']; [| cbn [length] in Hlow;
      Z.to_euclidean_division_equations; lia].
    vm_compute in Henc. injection Henc as <-.
    apply H2. reflexivity.
  - intros ->. vm_compute in Henc. injection Henc as <-. reflexivity.
Qed.

Lemma base85r_roundtrip_bounded_witness :
  Z.of_nat (length (list_byte_of_string "abc")) <= BASE85R_MAX_LEN
  /\ exists enc,
       base85r_encode (list_byte_of_string "abc") = Ok enc
       /\ base85r_decode enc = Ok (list_byte_of_string "abc")
       /\ (list_byte_of_string "abc" = [] -> length enc = 2%nat).
Proof.
  split.
  - vm_compute. discriminate.
  - apply (base85r_roundtrip_bounded (list_byte_of_string "abc")).
    vm_compute. discriminate.
Defined.

(** An input of 17000000 bytes: the buffer length computed in [int]
    arithmetic comes out negative, and [rb_str_new] refuses it. *)
Lemma base85r_encode_17000000 (b : list byte) :
  Z.of_nat (length b) = 17000000 ->
  base85r_encode b = Raise (ArgError "negative string size (or size too big)").
Proof.
  intros Hn. unfold base85r_encode. rewrite Hn.
  assert (E : rb_str_new_check (base85_encode_buf_len (int32 17000000))
              = Raise (ArgError "negative string size (or size too big)"))
    by (vm_compute; reflexivity).
  rewrite E. reflexivity.
Qed.

(** C7.  Every byte string is to be encoded and read back.  For a string
    of seventeen million zero bytes [base85_encode_buf_len] multiplies
    21250000 by 105 in [int] arithmetic, which overflows: the length of the
    buffer comes out negative, [base85r_encode] raises instead of returning
    a string, and nothing is read back. *)
Theorem base85r_roundtrip_fails_17000000 :
  base85_encode_buf_len 17000000 = -20637140
  /\ base85r_encode (repeat x00 (Z.to_nat 17000000))
     = Raise (ArgError "negative string size (or size too big)")
  /\ ~ base85r_roundtrip (repeat x00 (Z.to_nat 17000000)).
Proof.
  assert (Hlen : Z.of_nat (length (repeat x00 (Z.to_nat 17000000))) = 17000000)
    by (rewrite repeat_length; apply Z2Nat.id; discriminate).
  split; [vm_compute; reflexivity |].
  split; [exact (base85r_encode_17000000 _ Hlen) |].
  intros (enc & Henc & _).
  rewrite (base85r_encode_17000000 _ Hlen) in Henc. discriminate Henc.
Qed.

(** C8.  Bytes below 128 that are not digits, inserted
    anywhere into the encoding of a byte string of at most
    [BASE85R_MAX_LEN] bytes, do not change what [base85r_decode] returns,
    as long as the string decoded is not 3, 4 or 5 bytes long (lengths
    that [base85r_decode] refuses) and its length fits an [int]. *)
Theorem base85r_decode_skips_noise (b enc noisy : list byte) :
  Z.of_nat (length b) <= BASE85R_MAX_LEN ->
  base85r_encode b = Ok enc ->
  inserted skipped enc noisy ->
  Z.of_nat (length noisy) < 2 ^ 31 ->
  ~ (3 <= Z.of_nat (length noisy) <= 5) ->
  base85r_decode noisy = Ok b.
Proof.
  intros Hn Henc Hins Hlt Hguard.
  destruct (encode_decode_loop b Hn) as (enc' & Henc' & Hdec & Hlow & _).
  rewrite Henc in Henc'. injection Henc' as <-.
  pose proof (inserted_length _ _ _ Hins) as Hlen.
  apply decode_finish; [| exact Hlt |].
  - rewrite (decode_loop_inserted _ _ Hins). exact Hdec.
  - intros [H6 H2]. apply Hguard.
    assert (0 <= (Z.of_nat (length b) + 3) / 4)
      by (Z.to_euclidean_division_equations; lia).
    lia.
Qed.

Lemma base85r_decode_skips_noise_witness :
  Z.of_nat (length (list_byte_of_string "abc")) <= BASE85R_MAX_LEN
  /\ base85r_encode (list_byte_of_string "abc") = Ok (list_byte_of_string " DfZk9n")
  /\ Z.of_nat (length [x20; x0a; x20; "D"; "f"; "Z"; "k"; x09; "9"; "n"; x0a]%byte) < 2 ^ 31
  /\ ~ (3 <= Z.of_nat (length [x20; x0a; x20; "D"; "f"; "Z"; "k"; x09; "9"; "n"; x0a]%byte) <= 5)
  /\ base85r_decode [x20; x0a; x20; "D"; "f"; "Z"; "k"; x09; "9"; "n"; x0a]%byte
     = Ok (list_byte_of_string "abc").
Proof.
  assert (Hsk : forall c, in_alphabet c = false -> byte_to_Z c < 128 -> skipped c)
    by (intros c H1 H2; split; assumption).
  assert (Hn : Z.of_nat (length (list_byte_of_string "abc")) <= BASE85R_MAX_LEN)
    by (vm_compute; discriminate).
  assert (Henc : base85r_encode (list_byte_of_string "abc")
                 = Ok (list_byte_of_string " DfZk9n"))
    by (vm_compute; reflexivity).
  assert (Hlt : Z.of_nat (length [x20; x0a; x20; "D"; "f"; "Z"; "k"; x09; "9"; "n"; x0a]%byte)
                < 2 ^ 31) by (vm_compute; reflexivity).
  assert (Hg : ~ (3 <= Z.of_nat (length [x20; x0a; x20; "D"; "f"; "Z"; "k"; x09; "9"; "n"; x0a]%byte) <= 5))
    by (cbn [length]; lia).
  split; [exact Hn |]. split; [exact Henc |].
  split; [exact Hlt |]. split; [exact Hg |].
  apply (base85r_decode_skips_noise _ _ _ Hn Henc); [| exact Hlt | exact Hg].
  apply ins_keep.
  apply ins_add; [apply Hsk; reflexivity |].
  apply ins_add; [apply Hsk; reflexivity |].
  do 4 apply ins_keep.
  apply ins_add; [apply Hsk; reflexivity |].
  do 2 apply ins_keep.
  apply ins_add; [apply Hsk; reflexivity |].
  apply ins_nil.
Defined.

(** C8, counterexample.  The encoding of the empty string, two bytes, is
    decoded to the empty string; with one line feed after it, a byte
    outside of the alphabet, the string has three bytes and
    [base85r_decode] raises. *)
Lemma base85r_decode_noise_counterexample :
  base85r_encode [] = Ok [x20; "A"]%byte
  /\ in_alphabet x0a = false
  /\ inserted (fun c => in_alphabet c = false) [x20; "A"]%byte [x20; "A"; x0a]%byte
  /\ base85r_decode [x20; "A"]%byte = Ok []
  /\ base85r_decode [x20; "A"; x0a]%byte
     = Raise (ArgError "base85r_decode: input string is too short").
Proof.
  split; [vm_compute; reflexivity |]. split; [reflexivity |].
  split; [| split; vm_compute; reflexivity].
  do 2 apply ins_keep. apply ins_add; [reflexivity | apply ins_nil].
Qed.

(** A byte of 128 or more indexes [char_to_val] past its 128 entries. *)
Lemma base85r_decode_high_byte :
  base85r_encode (list_byte_of_string "abc") = Ok (list_byte_of_string " DfZk9n")
  /\ in_alphabet xa0 = false
  /\ base85r_decode [x20; "D"; xa0; "f"; "Z"; "k"; "9"; "n"]%byte
     = Raise (OutOfBounds "char_to_val").
Proof. split; [| split]; vm_compute; reflexivity. Qed.


Lemma Ok_inj {A : Type} (a b : A) : Ok a = Ok b -> a = b.
Proof. intros E. inversion E. reflexivity. Qed.

(** ** Keys and hashes *)

Lemma bytes_eqb_eq (a b : list byte) : bytes_eqb a b = true <-> a = b.
Proof.
  revert b. induction a as [|x a IH]; intros [|y b]; cbn [bytes_eqb];
    try (split; [discriminate | discriminate]); [tauto | ].
  rewrite andb_true_iff, IH. split.
  - intros [Hxy ->]. apply Byte.byte_dec_bl in Hxy. subst. reflexivity.
  - intros E. injection E as -> ->. split; [apply Byte.byte_dec_lb |]; reflexivity.
Qed.

Lemma rkey_eqb_eq (a b : rkey) : rkey_eqb a b = true <-> a = b.
Proof.
  destruct a as [s | n], b as [t | k]; cbn [rkey_eqb];
    try (split; [discriminate | discriminate]).
  - rewrite bytes_eqb_eq. split; [intros -> | intros [= ->]]; reflexivity.
  - rewrite Z.eqb_eq. split; [intros -> | intros [= ->]]; reflexivity.
Qed.

Lemma rkey_eqb_refl (a : rkey) : rkey_eqb a a = true.
Proof. apply rkey_eqb_eq. reflexivity. Qed.

Lemma rkey_eqb_sym (a b : rkey) : rkey_eqb a b = rkey_eqb b a.
Proof.
  destruct (rkey_eqb a b) eqn:E1, (rkey_eqb b a) eqn:E2; try reflexivity.
  - apply rkey_eqb_eq in E1. subst. rewrite rkey_eqb_refl in E2. discriminate.
  - apply rkey_eqb_eq in E2. subst. rewrite rkey_eqb_refl in E1. discriminate.
Qed.

Lemma rb_hash_aset_new {A : Type} (h : list (rkey * A)) (k : rkey) (v : A) :
  rb_hash_aref h k = None -> rb_hash_aset h k v = h ++ [(k, v)].
Proof.
  induction h as [|[k' w] h IH]; cbn [rb_hash_aref rb_hash_aset app];
    [reflexivity |].
  destruct (rkey_eqb k' k); [discriminate |].
  intros Hn. rewrite IH by exact Hn. reflexivity.
Qed.

Lemma index_of_found (k : rkey) (dk : list rkey) :
  existsb (rkey_eqb k) dk = true <-> 0 <= index_of k dk.
Proof.
  induction dk as [|k' dk IH]; cbn [existsb index_of].
  - split; [discriminate | lia].
  - rewrite (rkey_eqb_sym k k'). destruct (rkey_eqb k' k); cbn [orb].
    + split; [lia | reflexivity].
    + rewrite IH. destruct (Z.ltb_spec (index_of k dk) 0); lia.
Qed.

Lemma index_of_bound (k : rkey) (dk : list rkey) :
  -1 <= index_of k dk < Z.of_nat (length dk).
Proof.
  induction dk as [|k' dk IH]; cbn [index_of length]; [lia |].
  destruct (rkey_eqb k' k); [lia |].
  destruct (Z.ltb_spec (index_of k dk) 0); lia.
Qed.

Lemma index_of_app_found (k : rkey) (dk l : list rkey) :
  0 <= index_of k dk -> index_of k (dk ++ l) = index_of k dk.
Proof.
  induction dk as [|k' dk IH]; cbn [index_of app]; [lia |].
  destruct (rkey_eqb k' k); [reflexivity |].
  destruct (Z.ltb_spec (index_of k dk) 0); [lia |].
  intros _. rewrite IH by lia.
  destruct (Z.ltb_spec (index_of k dk) 0); [lia | reflexivity].
Qed.

Lemma index_of_app_new (k : rkey) (dk : list rkey) :
  index_of k dk < 0 -> index_of k (dk ++ [k]) = Z.of_nat (length dk).
Proof.
  induction dk as [|k' dk IH]; cbn [index_of app length].
  - rewrite rkey_eqb_refl. reflexivity.
  - destruct (rkey_eqb k' k); [lia |].
    destruct (Z.ltb_spec (index_of k dk) 0); [| lia].
    intros _. rewrite IH by lia.
    destruct (Z.ltb_spec (Z.of_nat (length dk)) 0); lia.
Qed.

Lemma index_of_In (k : rkey) (dk : list rkey) :
  In k dk -> 0 <= index_of k dk.
Proof.
  intros Hin. apply index_of_found, existsb_exists.
  exists k. split; [exact Hin | apply rkey_eqb_refl].
Qed.

Lemma index_of_not_In (k : rkey) (dk : list rkey) :
  index_of k dk < 0 -> ~ In k dk.
Proof. intros Hlt Hin. apply index_of_In in Hin. lia. Qed.

(** The ordinals stored for the keys [dk], the first of them being [s]. *)
Lemma aref_ordinals (dk : list rkey) (s : nat) (k : rkey) :
  rb_hash_aref (combine dk (map Z.of_nat (seq s (length dk)))) k
  = if index_of k dk <? 0 then None else Some (Z.of_nat s + index_of k dk).
Proof.
  revert s. induction dk as [|k' dk IH]; intros s;
    cbn [length seq map combine rb_hash_aref index_of]; [reflexivity |].
  destruct (rkey_eqb k' k).
  - cbn. f_equal. lia.
  - rewrite IH. destruct (Z.ltb_spec (index_of k dk) 0) as [Hlt | Hge].
    + reflexivity.
    + destruct (Z.ltb_spec (index_of k dk + 1) 0); [lia |]. f_equal. lia.
Qed.

Lemma combine_app_eq {A B : Type} (a b : list A) (c d : list B) :
  length a = length c -> combine (a ++ b) (c ++ d) = combine a c ++ combine b d.
Proof.
  revert c. induction a as [|x a IH]; intros [|y c] Hl; cbn in *;
    try discriminate; [reflexivity |].
  f_equal. apply IH. lia.
Qed.

Lemma ordinals_snoc (dk : list rkey) (k : rkey) :
  combine (dk ++ [k]) (map Z.of_nat (seq 0 (length (dk ++ [k]))))
  = combine dk (map Z.of_nat (seq 0 (length dk))) ++ [(k, Z.of_nat (length dk))].
Proof.
  rewrite length_app. cbn [length]. rewrite seq_app, map_app. cbn [seq map].
  rewrite combine_app_eq by (rewrite length_map, length_seq; reflexivity).
  reflexivity.
Qed.


(** ** One insertion *)

Lemma table_inv_init : table_inv LeafTableInfo_init [].
Proof. repeat split. constructor. Qed.

Lemma map_fst_aset_new (h : list (rkey * rvalue)) (k : rkey) (v : rvalue) :
  ~ In k (map fst h) -> map fst (rb_hash_aset h k v) = map fst h ++ [k].
Proof.
  induction h as [|[k' w] h IH]; cbn [map fst rb_hash_aset app In];
    [reflexivity |].
  intros Hn. destruct (rkey_eqb k' k) eqn:E.
  - apply rkey_eqb_eq in E. subst. tauto.
  - cbn [map fst]. rewrite IH by tauto. reflexivity.
Qed.

Lemma addEntry_step (t : LeafTableInfo) (dk : list rkey) (k : rkey) (v : rvalue) :
  table_inv t dk -> Z.of_nat (length dk) < 2 ^ 31 ->
  exists t',
    LeafTableInfo_addEntry t k v = (index_of k (add_key dk k), t')
    /\ table_inv t' (add_key dk k)
    /\ (0 <= index_of k dk -> t' = t).
Proof.
  intros (Hpos & Hids & Hvals & Hnd) Hlt.
  unfold LeafTableInfo_addEntry, add_key. rewrite Hids, aref_ordinals.
  destruct (Z.ltb_spec (index_of k dk) 0) as [Hnew | Hold].
  - assert (Hex : existsb (rkey_eqb k) dk = false).
    { destruct (existsb (rkey_eqb k) dk) eqn:E; [| reflexivity].
      apply index_of_found in E. lia. }
    rewrite Hex. eexists. split; [| split].
    + rewrite index_of_app_new by exact Hnew.
      rewrite Hpos, int32_small by (change (2 ^ 31) with 2147483648 in *; lia).
      reflexivity.
    + unfold table_inv. cbn [pos ids vals].
      repeat split.
      * unfold to_VALUE. rewrite Z.mod_small
          by (change (2 ^ 31) with 2147483648 in *;
              change (2 ^ 64) with 18446744073709551616; lia).
        rewrite length_app. cbn [length]. lia.
      * rewrite rb_hash_aset_new
          by (rewrite aref_ordinals;
              destruct (Z.ltb_spec (index_of k dk) 0); [reflexivity | lia]).
        symmetry. apply ordinals_snoc.
      * rewrite map_fst_aset_new by (rewrite Hvals; apply index_of_not_In; exact Hnew).
        rewrite Hvals. reflexivity.
      * apply NoDup_app; [exact Hnd | constructor; [intros [] | constructor] |].
        intros x Hx [<- | []]. apply (index_of_not_In _ _ Hnew Hx).
    + intros Hge. lia.
  - assert (Hex : existsb (rkey_eqb k) dk = true) by (apply index_of_found; lia).
    rewrite Hex. exists t. split; [| split].
    + rewrite Z.add_0_l. reflexivity.
    + repeat split; assumption.
    + reflexivity.
Qed.

Lemma add_key_keeps (dk : list rkey) (k k' : rkey) :
  0 <= index_of k dk -> index_of k (add_key dk k') = index_of k dk.
Proof.
  intros Hk. unfold add_key. destruct (existsb (rkey_eqb k') dk); [reflexivity |].
  apply index_of_app_found. exact Hk.
Qed.

Lemma add_key_length (dk : list rkey) (k : rkey) :
  (length (add_key dk k) <= S (length dk))%nat.
Proof.
  unfold add_key. destruct (existsb (rkey_eqb k) dk); [lia |].
  rewrite length_app. cbn [length]. lia.
Qed.

Lemma add_key_found (dk : list rkey) (k : rkey) : 0 <= index_of k (add_key dk k).
Proof.
  unfold add_key. destruct (existsb (rkey_eqb k) dk) eqn:E.
  - apply index_of_found. exact E.
  - apply index_of_In, in_or_app. right. left. reflexivity.
Qed.

Lemma fold_add_key_keeps (ks dk : list rkey) (k : rkey) :
  0 <= index_of k dk -> index_of k (fold_left add_key ks dk) = index_of k dk.
Proof.
  revert dk. induction ks as [|k' ks IH]; intros dk Hk; cbn [fold_left];
    [reflexivity |].
  rewrite IH by (rewrite add_key_keeps; assumption).
  apply add_key_keeps. exact Hk.
Qed.

Lemma fold_add_key_In (ks dk : list rkey) (k : rkey) :
  In k ks \/ 0 <= index_of k dk -> 0 <= index_of k (fold_left add_key ks dk).
Proof.
  revert dk. induction ks as [|k' ks IH]; intros dk [Hin | Hk]; cbn [fold_left].
  - destruct Hin.
  - exact Hk.
  - apply IH. destruct Hin as [-> | Hin]; [right; apply add_key_found | left; exact Hin].
  - apply IH. right. rewrite add_key_keeps; assumption.
Qed.

(** ** A sequence of insertions *)

Lemma addEntries_spec (kvs : list (rkey * rvalue)) :
  forall (t : LeafTableInfo) (dk : list rkey),
    table_inv t dk ->
    Z.of_nat (length dk) + Z.of_nat (length kvs) < 2 ^ 31 ->
    exists ords t',
      addEntries t kvs = (ords, t')
      /\ table_inv t' (fold_left add_key (map fst kvs) dk)
      /\ ords = map (fun kv => index_of (fst kv) (fold_left add_key (map fst kvs) dk)) kvs.
Proof.
  induction kvs as [|[k v] kvs IH]; intros t dk Hinv Hlt.
  - exists [], t. split; [reflexivity |]. split; [exact Hinv | reflexivity].
  - cbn [length] in Hlt.
    destruct (addEntry_step t dk k v Hinv ltac:(lia)) as (t1 & H1 & Hinv1 & _).
    pose proof (add_key_length dk k) as Hlen.
    destruct (IH t1 (add_key dk k) Hinv1 ltac:(lia)) as (ords & t' & H2 & Hinv' & Hords).
    exists (index_of k (add_key dk k) :: ords), t'.
    cbn [addEntries map fst fold_left]. rewrite H1, H2.
    split; [reflexivity |]. split; [exact Hinv' |].
    rewrite fold_add_key_keeps by apply add_key_found.
    rewrite Hords. reflexivity.
Qed.

Lemma ordinals_of_distinct (dk : list rkey) :
  NoDup dk ->
  forall pre, NoDup (pre ++ dk) ->
    map (fun k => index_of k (pre ++ dk)) dk
    = map Z.of_nat (seq (length pre) (length dk)).
Proof.
  induction dk as [|k dk IH]; intros Hnd pre Hall; cbn [map length seq];
    [reflexivity |].
  f_equal.
  - assert (Hnot : index_of k pre < 0).
    { destruct (Z.ltb_spec (index_of k pre) 0) as [|Hge]; [assumption |].
      exfalso. apply NoDup_remove_2 in Hall. apply Hall.
      apply in_or_app. left.
      assert (E : existsb (rkey_eqb k) pre = true) by (apply index_of_found; lia).
      apply existsb_exists in E. destruct E as (x & Hx & Ex).
      apply rkey_eqb_eq in Ex. subst. exact Hx. }
    change (k :: dk) with ([k] ++ dk). rewrite app_assoc.
    rewrite index_of_app_found; rewrite index_of_app_new by exact Hnot; lia.
  - inversion Hnd; subst.
    specialize (IH ltac:(assumption) (pre ++ [k])).
    rewrite <- app_assoc in IH. cbn [app] in IH. rewrite IH by exact Hall.
    rewrite length_app. cbn [length]. rewrite Nat.add_1_r. reflexivity.
Qed.

(** C2.  Starting from an empty table, whatever the sequence of
    insertions (fewer than 2^31 of them, ordinals being C [int]s):
    every insertion returns the rank of its key among the distinct keys
    in order of first insertion; these ranks are 0, 1, 2, ...;
    afterwards [LeafTableInfo_keyToID] gives the same ordinal, and
    inserting a key again, with any value, returns that ordinal and
    leaves the table as it is.  Identifiers "a" then "b" get 0 and 1, and
    "a" again gets 0. *)
Theorem LeafTableInfo_addEntry_ordinals (kvs : list (rkey * rvalue)) :
  Z.of_nat (length kvs) < 2 ^ 31 ->
  let dk := distinct_keys (map fst kvs) in
  let ords := fst (addEntries LeafTableInfo_init kvs) in
  let t := snd (addEntries LeafTableInfo_init kvs) in
  ords = map (fun kv => index_of (fst kv) dk) kvs
  /\ map (fun k => index_of k dk) dk = map Z.of_nat (seq 0 (length dk))
  /\ (forall k, In k (map fst kvs) ->
        LeafTableInfo_keyToID t k = index_of k dk
        /\ forall v, LeafTableInfo_addEntry t k v = (index_of k dk, t))
  /\ (forall v1 v2 v3,
        fst (addEntries LeafTableInfo_init
               [ (KStr (list_byte_of_string "a"), v1);
                 (KStr (list_byte_of_string "b"), v2);
                 (KStr (list_byte_of_string "a"), v3) ]) = [0; 1; 0]).
Proof.
  intros Hlt dk ords t.
  destruct (addEntries_spec kvs LeafTableInfo_init [] table_inv_init
              ltac:(cbn [length]; lia)) as (ords' & t' & Hrun & Hinv & Hords).
  fold (distinct_keys (map fst kvs)) in Hinv, Hords. fold dk in Hinv, Hords.
  subst ords t. rewrite Hrun. cbn [fst snd].
  split; [exact Hords |]. split; [| split].
  - destruct Hinv as (_ & _ & _ & Hnd).
    apply (ordinals_of_distinct dk Hnd []). exact Hnd.
  - intros k Hin.
    assert (Hk : 0 <= index_of k dk).
    { unfold dk, distinct_keys. apply fold_add_key_In. left. exact Hin. }
    assert (Hlen : Z.of_nat (length dk) < 2 ^ 31).
    { assert (Hle : forall ks l, (length (fold_left add_key ks l)
                                  <= length l + length ks)%nat).
      { induction ks as [|x ks IH]; intros l; cbn [fold_left length]; [lia |].
        specialize (IH (add_key l x)). pose proof (add_key_length l x). lia. }
      specialize (Hle (map fst kvs) []). rewrite length_map in Hle.
      fold (distinct_keys (map fst kvs)) in Hle. fold dk in Hle.
      cbn [length] in Hle. lia. }
    split.
    + unfold LeafTableInfo_keyToID. destruct Hinv as (_ & Hids & _).
      rewrite Hids, aref_ordinals.
      destruct (Z.ltb_spec (index_of k dk) 0); [lia | reflexivity].
    + intros v.
      destruct (addEntry_step t' dk k v Hinv Hlen) as (t'' & Hadd & _ & Hsame).
      rewrite Hadd, (Hsame Hk), add_key_keeps by exact Hk. reflexivity.
  - intros v1 v2 v3. reflexivity.
Qed.

Lemma LeafTableInfo_addEntry_ordinals_witness :
  Z.of_nat (length [ (KFix 3001, RNil); (KFix 3002, RNil); (KFix 3001, RNil) ]) < 2 ^ 31
  /\ fst (addEntries LeafTableInfo_init
            [ (KFix 3001, RNil); (KFix 3002, RNil); (KFix 3001, RNil) ])
     = [0; 1; 0].
Proof.
  split; [reflexivity |].
  assert (Hlt : Z.of_nat (length [ (KFix 3001, RNil); (KFix 3002, RNil);
                                   (KFix 3001, RNil) ]) < 2 ^ 31) by reflexivity.
  exact (proj1 (LeafTableInfo_addEntry_ordinals _ Hlt)).
Defined.

(** The same through [LeafTableInfo_addIDEntry], with the identifiers that
    the sample interpreter names "a" and "b"; the exported table lists the
    two names in the order of their ordinals. *)
Lemma addIDEntry_a_b_a :
  let '(i1, t1) := LeafTableInfo_addIDEntry ruby22_x64 LeafTableInfo_init 3001 in
  let '(i2, t2) := LeafTableInfo_addIDEntry ruby22_x64 t1 3002 in
  let '(i3, t3) := LeafTableInfo_addIDEntry ruby22_x64 t2 3001 in
  (i1, i2, i3) = (0, 1, 0)
  /\ t3 = t2
  /\ LeafTableInfo_getLeavesTable t3
     = [RStr (list_byte_of_string "a"); RStr (list_byte_of_string "b")].
Proof. vm_compute. repeat split. Qed.

(** ** The start-up check *)

Section SelfCheck.

Variable node_name : Z -> list byte.
Hypothesis lambda_name :
  strcmp_eq (node_name NODE_LAMBDA) (list_byte_of_string "NODE_LAMBDA") = true.

Lemma check_row_ok (tbl : list child_info) (p : Z) (e : child_info) :
  arr_get "nodes_child_info" tbl p = Ok e ->
  (forall c, isval_of (ci_type e) = Some c -> c = row_classes e) ->
  check_nodes_child_info node_name tbl p = Ok tt.
Proof.
  intros He Hc. unfold check_nodes_child_info. rewrite He. cbn [bind].
  rewrite lambda_name. cbn [negb].
  destruct (isval_of (ci_type e)) as [[[v0 v1] v2] |]; [| reflexivity].
  specialize (Hc _ eq_refl). unfold row_classes in Hc. injection Hc as -> -> ->.
  rewrite !Z.sub_diag. reflexivity.
Qed.

Lemma check_row_bad (tbl : list child_info) (p : Z) (e : child_info) (c : Z * Z * Z) :
  arr_get "nodes_child_info" tbl p = Ok e ->
  isval_of (ci_type e) = Some c -> c <> row_classes e ->
  exists msg, check_nodes_child_info node_name tbl p = Raise (ArgError msg).
Proof.
  intros He Hc Hne. unfold check_nodes_child_info. rewrite He. cbn [bind].
  rewrite lambda_name. cbn [negb]. rewrite Hc.
  destruct c as [[v0 v1] v2]. unfold row_classes in Hne.
  destruct (Z.eqb_spec (v0 - isval_tbl_of e 1) 0) as [E0 | E0];
  destruct (Z.eqb_spec (v1 - isval_tbl_of e 2) 0) as [E1 | E1];
  destruct (Z.eqb_spec (v2 - isval_tbl_of e 3) 0) as [E2 | E2];
    cbn [negb orb]; try (eexists; reflexivity).
  exfalso. apply Hne. f_equal; [f_equal |]; lia.
Qed.

Lemma check_row_result (tbl : list child_info) (p : Z) :
  check_nodes_child_info node_name tbl p = Ok tt
  \/ exists e, check_nodes_child_info node_name tbl p = Raise e.
Proof.
  destruct (check_nodes_child_info node_name tbl p) as [[] | e];
    [left; reflexivity | right; exists e; reflexivity].
Qed.

Lemma arr_get_nth {A : Type} (what : string) (a : list A) (k : nat) (x : A) :
  nth_error a k = Some x -> arr_get what a (Z.of_nat k) = Ok x.
Proof.
  intros Hk. unfold arr_get.
  destruct (Z.ltb_spec (Z.of_nat k) 0); [lia |].
  rewrite Nat2Z.id, Hk. reflexivity.
Qed.

(** A row that disagrees with the reference classification stops the
    first loop of [init_nodes_table], whatever the rows before it. *)
Lemma init_check_rows_bad (tbl : list child_info) (k : nat) (e : child_info)
    (c : Z * Z * Z) :
  (forall j, (j < k)%nat ->
     exists e', nth_error tbl j = Some e' /\ ci_type e' <> -1) ->
  nth_error tbl k = Some e -> ci_type e <> -1 ->
  isval_of (ci_type e) = Some c -> c <> row_classes e ->
  forall (d : nat) (fuel : nat), (d <= k)%nat -> (d < fuel)%nat ->
    exists err, init_check_rows fuel node_name tbl (Z.of_nat (k - d)) = Raise err.
Proof.
  intros Hbefore Hk Hne Hc Hbad.
  induction d as [|d IH]; intros fuel Hd Hf.
  - destruct fuel as [|fuel]; [lia |]. cbn [init_check_rows].
    rewrite Nat.sub_0_r, (arr_get_nth _ _ _ _ Hk). cbn [bind].
    destruct (Z.eqb_spec (ci_type e) (-1)); [contradiction |].
    destruct (check_row_bad tbl (Z.of_nat k) e c (arr_get_nth _ _ _ _ Hk) Hc Hbad)
      as (msg & Hmsg).
    rewrite Hmsg. eexists. reflexivity.
  - destruct fuel as [|fuel]; [lia |]. cbn [init_check_rows].
    destruct (Hbefore (k - S d)%nat ltac:(lia)) as (e' & He' & Hne').
    rewrite (arr_get_nth _ _ _ _ He'). cbn [bind].
    destruct (Z.eqb_spec (ci_type e') (-1)); [contradiction |].
    destruct (check_row_result tbl (Z.of_nat (k - S d))) as [Hok | (err & Herr)].
    + rewrite Hok. cbn [bind].
      replace (Z.of_nat (k - S d) + 1) with (Z.of_nat (k - d)) by lia.
      apply IH; lia.
    + rewrite Herr. eexists. reflexivity.
Qed.

(** The first loop on a table all of whose rows agree. *)
Lemma init_check_rows_ok (tbl : list child_info) :
  forall (rows : list child_info) (p : nat) (fuel : nat),
    skipn p tbl = rows ->
    (exists q, nth_error rows q = Some (-1, 0, 0, 0)) ->
    Forall (fun e => forall c, isval_of (ci_type e) = Some c -> c = row_classes e) rows ->
    (length rows <= fuel)%nat ->
    init_check_rows fuel node_name tbl (Z.of_nat p) = Ok tt.
Proof.
  induction rows as [|e rows IH]; intros p fuel Hs (q & Hq) Hall Hf.
  - destruct q; discriminate.
  - destruct fuel as [|fuel]; [cbn [length] in Hf; lia |].
    assert (He : nth_error tbl p = Some e).
    { rewrite <- (firstn_skipn p tbl) at 1. rewrite Hs.
      assert (Hp : (p <= length tbl)%nat).
      { destruct (Nat.le_gt_cases p (length tbl)); [assumption |].
        rewrite skipn_all2 in Hs by lia. discriminate. }
      rewrite nth_error_app2 by (rewrite length_firstn; lia).
      rewrite length_firstn, Nat.min_l, Nat.sub_diag by lia. reflexivity. }
    cbn [init_check_rows]. rewrite (arr_get_nth _ _ _ _ He). cbn [bind].
    destruct (Z.eqb_spec (ci_type e) (-1)); [reflexivity |].
    inversion Hall as [| ? ? Hhd Htl]; subst.
    rewrite (check_row_ok tbl (Z.of_nat p) e (arr_get_nth _ _ _ _ He) Hhd).
    cbn [bind]. replace (Z.of_nat p + 1) with (Z.of_nat (S p)) by lia.
    apply IH; [| | exact Htl | cbn [length] in Hf; lia].
    + rewrite <- (Nat.add_1_l p), <- skipn_skipn, Hs. reflexivity.
    + destruct q as [|q]; [| exists q; exact Hq].
      cbn in Hq. injection Hq as ->. contradiction n. reflexivity.
Qed.

End SelfCheck.

Lemma row_agrees_spec (e : child_info) :
  row_agrees e = true ->
  forall c, isval_of (ci_type e) = Some c -> c = row_classes e.
Proof.
  unfold row_agrees. intros Ha c Hc. rewrite Hc in Ha.
  destruct c as [[v0 v1] v2].
  apply andb_true_iff in Ha. destruct Ha as [Ha H2].
  apply andb_true_iff in Ha. destruct Ha as [H0 H1].
  apply Z.eqb_eq in H0, H1, H2. subst. reflexivity.
Qed.

Lemma nodes_child_info_agrees :
  Forall (fun e => forall c, isval_of (ci_type e) = Some c -> c = row_classes e)
    nodes_child_info.
Proof.
  apply Forall_forall. intros e He. apply row_agrees_spec.
  assert (Hall : forallb row_agrees nodes_child_info = true)
    by (vm_compute; reflexivity).
  rewrite forallb_forall in Hall. apply Hall. exact He.
Qed.

Lemma init_copy_rows_ok :
  exists ctbl,
    init_copy_rows (S (length nodes_child_info)) nodes_child_info 0
      (repeat NT_UNKNOWN (Z.to_nat (NODES_CTBL_SIZE * 3))) = Ok ctbl.
Proof. vm_compute. eexists. reflexivity. Qed.

(** C9.  When the interpreter names [NODE_LAMBDA]
    "NODE_LAMBDA": every row of [nodes_child_info] whose kind the reference
    classification lists has exactly the slots of type [NT_NODE] or
    [NT_VALUE] that the classification gives; the self-check raises for no
    row and [init_nodes_table] and [Init_nodemarshal] complete; and for any
    table, a row before the end marker whose kind is listed and whose
    classification differs makes [init_nodes_table] raise, so that
    [Init_nodemarshal] stops before it defines any method. *)
Theorem nodes_child_info_self_check (node_name : Z -> list byte) :
  strcmp_eq (node_name NODE_LAMBDA) (list_byte_of_string "NODE_LAMBDA") = true ->
  (forall e c, In e nodes_child_info ->
     isval_of (ci_type e) = Some c -> c = row_classes e)
  /\ (exists ctbl c2v,
        init_nodes_table node_name = Ok ctbl
        /\ Init_nodemarshal node_name = Ok (ctbl, c2v))
  /\ (forall (tbl : list child_info) (n : Z) (k : nat) (e : child_info) (c : Z * Z * Z),
        (forall j, (j < k)%nat ->
           exists e', nth_error tbl j = Some e' /\ ci_type e' <> -1) ->
        nth_error tbl k = Some e -> ci_type e <> -1 ->
        isval_of (ci_type e) = Some c -> c <> row_classes e ->
        exists err, init_nodes_table_of node_name tbl n = Raise err).
Proof.
  intros Hname. split; [| split].
  - intros e c He. revert c.
    apply (proj1 (Forall_forall _ _) nodes_child_info_agrees e He).
  - destruct init_copy_rows_ok as (ctbl & Hcopy).
    exists ctbl, char_to_val.
    assert (Hinit : init_nodes_table node_name = Ok ctbl).
    { unfold init_nodes_table, init_nodes_table_of.
      rewrite (init_check_rows_ok node_name Hname nodes_child_info
                 nodes_child_info 0 _ eq_refl);
        [ cbn [bind]; exact Hcopy
        | exists 95%nat; reflexivity
        | exact nodes_child_info_agrees
        | lia ]. }
    split; [exact Hinit |].
    unfold Init_nodemarshal. rewrite Hinit. reflexivity.
  - intros tbl n k e c Hbefore Hk Hne Hc Hbad.
    destruct (init_check_rows_bad node_name Hname tbl k e c Hbefore Hk Hne Hc Hbad
                k (S (length tbl)) (Nat.le_refl _)) as (err & Herr).
    { assert (Hlt : (k < length tbl)%nat)
        by (apply nth_error_Some; rewrite Hk; discriminate).
      lia. }
    rewrite Nat.sub_diag in Herr. exists err.
    unfold init_nodes_table_of. change (Z.of_nat 0) with 0 in Herr.
    rewrite Herr. reflexivity.
Qed.

Lemma nodes_child_info_self_check_witness :
  strcmp_eq (ruby_node_name ruby22_x64 NODE_LAMBDA)
    (list_byte_of_string "NODE_LAMBDA") = true
  /\ exists ctbl c2v,
       init_nodes_table (ruby_node_name ruby22_x64) = Ok ctbl
       /\ Init_nodemarshal (ruby_node_name ruby22_x64) = Ok (ctbl, c2v).
Proof.
  split; [reflexivity |].
  exact (proj1 (proj2 (nodes_child_info_self_check
                         (ruby_node_name ruby22_x64) eq_refl))).
Defined.

(** C9, counterexample.  The row of [NODE_LAMBDA] marks its second slot as
    a node, but the reference classification has no case for
    [NODE_LAMBDA]: the check returns before it compares anything.  A table
    whose row for [NODE_LAMBDA] marks all three slots as nodes passes the
    start-up check as well. *)
Lemma nodes_child_info_unlisted_kind :
  In (NODE_LAMBDA, NT_NULL, NT_NODE, NT_NULL) nodes_child_info
  /\ row_classes (NODE_LAMBDA, NT_NULL, NT_NODE, NT_NULL) = (0, 1, 0)
  /\ isval_of NODE_LAMBDA = None
  /\ In (NODE_LAMBDA, NT_NODE, NT_NODE, NT_NODE) drifted_child_info
  /\ is_ok (init_nodes_table_of (ruby_node_name ruby22_x64)
              drifted_child_info NODES_CTBL_SIZE) = true.
Proof.
  split; [| split; [| split; [| split]]]; try reflexivity.
  - apply (nth_error_In _ 89). reflexivity.
  - apply (nth_error_In _ 89). reflexivity.
Qed.

(** The kinds of [nodes_child_info] that the start-up check passes over. *)
Lemma nodes_child_info_unlisted_kinds :
  map ci_type (filter (fun e => match isval_of (ci_type e) with
                                | None => negb (ci_type e =? -1)
                                | Some _ => false
                                end) nodes_child_info)
  = [ NODE_BEGIN; NODE_OP_ASGN2; NODE_VALUES; NODE_CONST; NODE_DSYM;
      NODE_ARGSPUSH; NODE_VALIAS; NODE_COLON3; NODE_ATTRASGN; NODE_PRELUDE;
      NODE_LAMBDA; NODE_POSTARG ].
Proof. vm_compute. reflexivity. Qed.

(** ** The signatures *)

Lemma check_hash_magic_mismatch (H : Host) (data : list (string * rvalue)) :
  fingerprint_matches H data = false ->
  exists e, check_hash_magic H data = Raise e.
Proof.
  unfold fingerprint_matches, check_hash_magic, get_hash_strfield.
  destruct (data_aref data "MAGIC") as [| | m | | |]; cbn [bind];
    try (intros _; eexists; reflexivity).
  destruct (strcmp_eq NODEMARSHAL_MAGIC m); cbn [negb andb];
    [| intros _; destruct (data_aref data "RUBY_PLATFORM");
       destruct (data_aref data "RUBY_VERSION"); eexists; reflexivity].
  destruct (data_aref data "RUBY_PLATFORM") as [| | p | | |]; cbn [bind];
    try (intros _; eexists; reflexivity).
  destruct (strcmp_eq (RUBY_PLATFORM H) p); cbn [negb andb];
    [| intros _; destruct (data_aref data "RUBY_VERSION"); eexists; reflexivity].
  destruct (data_aref data "RUBY_VERSION") as [| | v | | |]; cbn [bind];
    try (intros _; eexists; reflexivity).
  destruct (strcmp_eq (RUBY_VERSION H) v); cbn [negb];
    [discriminate | intros _; eexists; reflexivity].
Qed.

(** When one of the signatures MAGIC, RUBY_PLATFORM and RUBY_VERSION of
    the container that [Marshal.load] returned is not a string, or differs,
    read as a C string, from that of the running interpreter,
    [m_nodedump_from_memory] raises, and it is the error of
    [check_hash_magic] when the container has a [num_of_nodes] that fits an
    [int]; it has then asked the allocator for the wrapper of the address
    tables only (no table, no node), has changed neither the memory nor the
    instance variables of the object, and has left the garbage collector
    switched off. *)
Theorem m_nodedump_from_memory_gate (H : Host) (dump : rvalue)
    (data : list (string * rvalue)) (st : dstate) :
  Marshal_load H dump = Ok (RHash data) ->
  fingerprint_matches H data = false ->
  exists e,
    snd (m_nodedump_from_memory H dump st) = Raise e
    /\ (forall num, FIX2INT (data_aref data "num_of_nodes") = Ok num ->
          check_hash_magic H data = Raise e)
    /\ d_allocs (fst (m_nodedump_from_memory H dump st))
       = d_allocs st ++ [AllocWrapper]
    /\ d_mem (fst (m_nodedump_from_memory H dump st)) = d_mem st
    /\ d_self (fst (m_nodedump_from_memory H dump st)) = d_self st
    /\ d_gc (fst (m_nodedump_from_memory H dump st)) = d_gc st ++ [GcDisable].
Proof.
  intros HM Hf. destruct (check_hash_magic_mismatch H data Hf) as (e & He).
  unfold m_nodedump_from_memory, dbind, rb_gc_disable, d_gc_call, d_alloc, dlift,
    draise.
  rewrite HM.
  destruct (data_aref data "num_of_nodes") as [| n | s | l | h | v];
    cbn [FIX2INT];
    try (eexists; repeat split; try reflexivity; intros num E; discriminate E).
  destruct ((n <? - 2 ^ 31) || (2 ^ 31 <=? n));
    [eexists; repeat split; try reflexivity; intros num E; discriminate E |].
  rewrite He. eexists. repeat split; reflexivity.
Qed.

Lemma m_nodedump_from_memory_gate_witness :
  fingerprint_matches ruby22_x64 other_version_container = false
  /\ (let H := unmarshalling ruby22_x64 sample_dump (RHash other_version_container) in
      let r := m_nodedump_from_memory H (RStr sample_dump) (dstate_init tree_mem) in
      snd r = Raise (ArgError "Incompatible RUBY_VERSION value %s")
      /\ d_allocs (fst r) = [AllocWrapper]
      /\ d_gc (fst r) = [GcDisable]).
Proof.
  split; [reflexivity |].
  destruct (m_nodedump_from_memory_gate
              (unmarshalling ruby22_x64 sample_dump (RHash other_version_container))
              (RStr sample_dump) other_version_container (dstate_init tree_mem))
    as (e & Hr & He & Ha & _ & _ & Hg).
  - reflexivity.
  - reflexivity.
  - cbv zeta. rewrite Hr, Ha, Hg.
    specialize (He 3 ltac:(reflexivity)).
    vm_compute in He. rewrite <- He. repeat split; reflexivity.
Defined.

(** C4.  A container whose fingerprint differs from that of the running
    interpreter is to be refused before anything is allocated for its
    tables and nodes, and [check_hash_magic] says so ("MAGIC signature must
    be valid").  It compares with [strcmp], though, which stops at a zero
    byte: the container of [tree_mem] with the format tag "NODEMARSHAL11",
    a zero byte and "junk" is loaded, tables and nodes are allocated for it
    and [@node] is set; the same container with the format tag
    "NODEMARSHAL10" is refused with the wrapper allocated only. *)
Theorem fingerprint_gate_embedded_zero :
  (let H := unmarshalling ruby22_x64 sample_dump (RHash longer_magic_container) in
   let loaded := m_nodedump_from_memory H (RStr sample_dump)
                   (dstate_init (fun _ => None)) in
   Marshal_load H (RStr sample_dump) = Ok (RHash longer_magic_container)
   /\ data_aref longer_magic_container "MAGIC" = RStr longer_magic
   /\ longer_magic <> NODEMARSHAL_MAGIC
   /\ snd loaded = Ok tt
   /\ d_allocs (fst loaded)
      = [ AllocWrapper; AllocTable "syms_adr" 0; AllocTable "gvars_adr" 0;
          AllocTable "idtbls_adr" 0; AllocTable "nodes_adr" 3;
          AllocNode 8388808; AllocNode 8388848; AllocNode 8388888;
          AllocTable "args_adr" 0 ]
   /\ iv_node (d_self (fst loaded)) = Some 8388808
   /\ d_mem (fst loaded) 8388808
      = Some (ONode (mkRNode (node_flags NODE_BLOCK 1) 0 8388848 0 8388888)))
  /\ (let H := unmarshalling ruby22_x64 sample_dump (RHash older_magic_container) in
      let loaded := m_nodedump_from_memory H (RStr sample_dump)
                      (dstate_init (fun _ => None)) in
      data_aref older_magic_container "MAGIC"
      = RStr (list_byte_of_string "NODEMARSHAL10")
      /\ snd loaded = Raise (ArgError "Bad value of MAGIC signature")
      /\ d_allocs (fst loaded) = [AllocWrapper]
      /\ iv_node (d_self (fst loaded)) = None).
Proof.
  split.
  - cbv zeta. split; [reflexivity |]. split; [reflexivity |].
    split; [discriminate |]. vm_compute. repeat split; reflexivity.
  - vm_compute. repeat split; reflexivity.
Qed.

(** ** Resolving the slots of a record *)

Section Resolve.

Variable H : Host.

Lemma resolve_slot_out_of_range (m : memory) (relocs : NODEObjAddresses)
    (rtype : Z) (u : VALUE) :
  out_of_range relocs rtype u ->
  exists msg, resolve_slot H m relocs rtype u = Raise (ArgError msg).
Proof.
  intros (len & Ht & Hlen & Hu).
  assert (Hge : (u >=? uint32 len) = true).
  { rewrite uint32_small by (change (2 ^ 32) with 4294967296;
                             change (2 ^ 31) with 2147483648 in Hlen; lia).
    apply Z.geb_le. exact Hu. }
  unfold table_len in Ht. unfold resolve_slot.
  destruct (Z.eqb_spec rtype VL_RAW) as [-> | _]; [discriminate Ht |].
  destruct (rtype =? VL_NODE);
    [injection Ht as <-; rewrite Hge; eexists; reflexivity |].
  destruct (rtype =? VL_ID);
    [injection Ht as <-; rewrite Hge; eexists; reflexivity |].
  destruct (rtype =? VL_GVAR);
    [injection Ht as <-; rewrite Hge; eexists; reflexivity |].
  destruct (rtype =? VL_IDTABLE);
    [injection Ht as <-; rewrite Hge; eexists; reflexivity |].
  destruct (rtype =? VL_ARGS);
    [injection Ht as <-; rewrite Hge; eexists; reflexivity |].
  destruct (rtype =? VL_LIT);
    [injection Ht as <-; rewrite Hge; eexists; reflexivity |].
  discriminate Ht.
Qed.

Lemma resolve_slot_not_a_node (m : memory) (relocs : NODEObjAddresses)
    (rtype : Z) (u : VALUE) :
  not_a_node H m relocs rtype u ->
  exists msg, resolve_slot H m relocs rtype u = Raise (ArgError msg).
Proof.
  intros (-> & a & Ha & Hty). unfold resolve_slot.
  change (VL_NODE =? VL_RAW) with false. change (VL_NODE =? VL_NODE) with true.
  cbv iota. destruct (u >=? uint32 (nodes_len relocs)); [eexists; reflexivity |].
  rewrite Ha. cbn [bind].
  destruct (Z.eqb_spec (TYPE H m a) (T_NODE H)); [contradiction |].
  eexists. reflexivity.
Qed.

(** The loop body either raises, leaving the state as it was, or returns
    the offset at which the record ends. *)
Lemma load_node_from_str_result (s : list byte) (relocs : NODEObjAddresses)
    (i bin : Z) (st : dstate) :
  (exists e, load_node_from_str H s relocs i bin st = (st, Raise e))
  \/ (exists st',
        load_node_from_str H s relocs i bin st
        = (st', Ok (nr_end (read_node_record H s bin)))).
Proof.
  unfold load_node_from_str.
  destruct (nr_rtypes (read_node_record H s bin)) as [[rt0 rt1] rt2].
  destruct (nr_u (read_node_record H s bin)) as [[v0 v1] v2].
  destruct (nr_end (read_node_record H s bin) >? Z.of_nat (length s));
    [left; eexists; reflexivity |].
  unfold dbind, d_memory, dlift, d_store, dret.
  destruct (resolve_slot H (d_mem st) relocs rt0 v0); [| left; eexists; reflexivity].
  destruct (resolve_slot H (d_mem st) relocs rt1 v1); [| left; eexists; reflexivity].
  destruct (resolve_slot H (d_mem st) relocs rt2 v2); [| left; eexists; reflexivity].
  destruct (arr_get "nodes_adr" (nodes_adr relocs) i); [| left; eexists; reflexivity].
  right. eexists. reflexivity.
Qed.

(** When the loop body returns, each of the three slots was resolved. *)
Lemma load_node_from_str_ok_slots (s : list byte) (relocs : NODEObjAddresses)
    (i bin : Z) (st st' : dstate) (b : Z) :
  load_node_from_str H s relocs i bin st = (st', Ok b) ->
  forall (j : nat) (rtype : Z) (u : VALUE),
    nr_slot (read_node_record H s bin) j = (rtype, u) ->
    exists w, resolve_slot H (d_mem st) relocs rtype u = Ok w.
Proof.
  unfold nr_slot, load_node_from_str.
  destruct (nr_rtypes (read_node_record H s bin)) as [[rt0 rt1] rt2].
  destruct (nr_u (read_node_record H s bin)) as [[v0 v1] v2].
  destruct (nr_end (read_node_record H s bin) >? Z.of_nat (length s));
    [discriminate |].
  unfold dbind, d_memory, dlift, d_store, dret.
  destruct (resolve_slot H (d_mem st) relocs rt0 v0) as [w0 |] eqn:E0;
    [| discriminate].
  destruct (resolve_slot H (d_mem st) relocs rt1 v1) as [w1 |] eqn:E1;
    [| discriminate].
  destruct (resolve_slot H (d_mem st) relocs rt2 v2) as [w2 |] eqn:E2;
    [| discriminate].
  intros _ j rtype u Hslot.
  destruct j as [|[|j]]; injection Hslot as <- <-; eexists; eassumption.
Qed.

(** A slot that is not resolved makes the loop body raise, and the node is
    not written. *)
Lemma load_node_from_str_bad (s : list byte) (relocs : NODEObjAddresses)
    (i bin : Z) (st : dstate) (j : nat) (rtype : Z) (u : VALUE) :
  nr_slot (read_node_record H s bin) j = (rtype, u) ->
  (exists e, resolve_slot H (d_mem st) relocs rtype u = Raise e) ->
  exists e, load_node_from_str H s relocs i bin st = (st, Raise e).
Proof.
  intros Hslot (e & Hbad).
  destruct (load_node_from_str_result s relocs i bin st) as [Hr | (st' & Hok)];
    [exact Hr |].
  destruct (load_node_from_str_ok_slots s relocs i bin st st' _ Hok j rtype u Hslot)
    as (w & Hw).
  rewrite Hbad in Hw. discriminate.
Qed.

(** The loop raises when it reaches a record with an ordinal out of
    range. *)
Lemma load_nodes_loop_out_of_range (s : list byte) (relocs : NODEObjAddresses)
    (j : nat) (rtype : Z) (u : VALUE) :
  out_of_range relocs rtype u ->
  forall (k n : nat) (i bin : Z) (st : dstate),
    (k < n)%nat ->
    nr_slot (read_node_record H s (record_offset H s k bin)) j = (rtype, u) ->
    exists st' e, load_nodes_loop H n s relocs i bin st = (st', Raise e).
Proof.
  intros Hout. induction k as [|k IH]; intros n i bin st Hk Hslot;
    (destruct n as [|n]; [lia |]); cbn [load_nodes_loop]; unfold dbind.
  - cbn [record_offset Nat.iter] in Hslot.
    destruct (load_node_from_str_bad s relocs i bin st j rtype u Hslot) as (e & He).
    { destruct (resolve_slot_out_of_range (d_mem st) relocs rtype u Hout)
        as (msg & Hmsg). eexists. exact Hmsg. }
    rewrite He. eexists. eexists. reflexivity.
  - destruct (load_node_from_str_result s relocs i bin st)
      as [(e & He) | (st1 & Hok)].
    + rewrite He. eexists. eexists. reflexivity.
    + rewrite Hok. apply IH; [lia |].
      unfold record_offset in *. rewrite Nat.iter_succ_r in Hslot. exact Hslot.
Qed.

End Resolve.

(** C5.  In [load_nodes_from_str]: a record one of whose slots has a
    location code naming a table (nodes, identifiers, global entries,
    identifier tables, arguments, literals) and a stored ordinal at or
    beyond the length of that table, or names the node table with an
    ordinal whose entry is not of type [T_NODE], makes the loop body raise
    an [ArgumentError]-class error without writing the node; and when the
    [k]-th record of the string has such an ordinal out of range, the whole
    of [load_nodes_from_str] raises.  No result is returned in these
    cases. *)
Theorem load_nodes_rejects_bad_ordinals (H : Host) (s : list byte)
    (relocs : NODEObjAddresses) (j : nat) (rtype : Z) (u : VALUE) :
  (forall m, out_of_range relocs rtype u ->
     exists msg, resolve_slot H m relocs rtype u = Raise (ArgError msg))
  /\ (forall m, not_a_node H m relocs rtype u ->
        exists msg, resolve_slot H m relocs rtype u = Raise (ArgError msg))
  /\ (forall (i bin : Z) (st : dstate),
        nr_slot (read_node_record H s bin) j = (rtype, u) ->
        out_of_range relocs rtype u \/ not_a_node H (d_mem st) relocs rtype u ->
        exists e, load_node_from_str H s relocs i bin st = (st, Raise e))
  /\ (forall (data : list (string * rvalue)) (k : nat) (st : dstate),
        data_aref data "nodes" = RStr s ->
        (k < Z.to_nat (nodes_len relocs))%nat ->
        nr_slot (read_node_record H s (record_offset H s k 0)) j = (rtype, u) ->
        out_of_range relocs rtype u ->
        exists st' e, load_nodes_from_str H data relocs st = (st', Raise e)).
Proof.
  split; [| split; [| split]].
  - intros m. apply resolve_slot_out_of_range.
  - intros m. apply resolve_slot_not_a_node.
  - intros i bin st Hslot Hbad.
    apply (load_node_from_str_bad H s relocs i bin st j rtype u Hslot).
    destruct Hbad as [Hout | Hnode].
    + destruct (resolve_slot_out_of_range H (d_mem st) relocs rtype u Hout)
        as (msg & Hmsg). eexists. exact Hmsg.
    + destruct (resolve_slot_not_a_node H (d_mem st) relocs rtype u Hnode)
        as (msg & Hmsg). eexists. exact Hmsg.
  - intros data k st Hdata Hk Hslot Hout.
    unfold load_nodes_from_str. rewrite Hdata.
    apply (load_nodes_loop_out_of_range H s relocs j rtype u Hout k _ 0 0 st Hk Hslot).
Qed.

(** ** Big-endian values *)

Lemma be_value_app (l : list byte) (b : byte) (hi : Z) :
  fold_left (fun a c => a * 256 + byte_to_Z c) (l ++ [b]) hi
  = fold_left (fun a c => a * 256 + byte_to_Z c) l hi * 256 + byte_to_Z b.
Proof. rewrite fold_left_app. reflexivity. Qed.

Lemma pow256_succ (k : nat) : 256 ^ Z.of_nat (S k) = 256 * 256 ^ Z.of_nat k.
Proof. rewrite Nat2Z.inj_succ, Z.pow_succ_r by lia. reflexivity. Qed.

Lemma pow256_pos (k : nat) : 0 < 256 ^ Z.of_nat k.
Proof. apply Z.pow_pos_nonneg; lia. Qed.

Lemma byte_at (val : Z) (k : nat) :
  Z.land (Z.shiftr val (Z.of_nat k * 8)) 255 = (val / 256 ^ Z.of_nat k) mod 256.
Proof.
  rewrite land_255, Z.shiftr_div_pow2 by lia.
  replace (2 ^ (Z.of_nat k * 8)) with (256 ^ Z.of_nat k); [reflexivity |].
  rewrite Z.mul_comm, Z.pow_mul_r by lia. reflexivity.
Qed.

Lemma mod_pow256_succ (val : Z) (k : nat) :
  0 <= val ->
  val mod 256 ^ Z.of_nat (S k)
  = (val / 256 ^ Z.of_nat k) mod 256 * 256 ^ Z.of_nat k + val mod 256 ^ Z.of_nat k.
Proof.
  intros Hv. rewrite pow256_succ. pose proof (pow256_pos k) as Hp.
  rewrite (Z.mul_comm 256), Z.rem_mul_r by lia. ring.
Qed.

Lemma desc_succ (k : nat) : desc (S k) = Z.of_nat k :: desc k.
Proof.
  unfold desc. rewrite seq_S, rev_app_distr. reflexivity.
Qed.

Lemma value_to_bin_loop_value (k : nat) :
  forall (val : Z) (buf : list byte),
    0 <= val ->
    (buf = [] -> val < 256 ^ Z.of_nat k) ->
    fold_left (fun a c => a * 256 + byte_to_Z c) (value_to_bin_loop (desc k) val buf) 0
    = fold_left (fun a c => a * 256 + byte_to_Z c) buf 0 * 256 ^ Z.of_nat k
      + val mod 256 ^ Z.of_nat k.
Proof.
  induction k as [|k IH]; intros val buf Hv Hb.
  - cbn [desc seq rev map value_to_bin_loop]. change (256 ^ Z.of_nat 0) with 1.
    rewrite Z.mod_1_r. lia.
  - rewrite desc_succ. cbn [value_to_bin_loop].
    rewrite byte_at. pose proof (pow256_pos k) as Hp.
    set (b := (val / 256 ^ Z.of_nat k) mod 256).
    assert (Hbr : 0 <= b < 256) by (apply Z.mod_pos_bound; lia).
    destruct ((0 <? Z.of_nat (length buf)) || negb (b =? 0)) eqn:E.
    + rewrite IH; [| exact Hv | intros Hnil; destruct buf; discriminate].
      rewrite be_value_app, byte_to_of_Z, (Z.mod_small b) by lia.
      rewrite (mod_pow256_succ val k Hv), pow256_succ. fold b. ring.
    + apply orb_false_iff in E. destruct E as [E1 E2].
      assert (Hnil : buf = []).
      { destruct buf; [reflexivity |]. cbn [length] in E1.
        apply Z.ltb_ge in E1. lia. }
      apply negb_false_iff, Z.eqb_eq in E2.
      specialize (Hb Hnil). rewrite pow256_succ in Hb.
      assert (Hsmall : val < 256 ^ Z.of_nat k).
      { assert (Hq : val / 256 ^ Z.of_nat k < 256)
          by (apply Z.div_lt_upper_bound; lia).
        assert (Hq0 : 0 <= val / 256 ^ Z.of_nat k) by (apply Z.div_pos; lia).
        unfold b in E2. rewrite Z.mod_small in E2 by lia.
        pose proof (Z.div_mod val (256 ^ Z.of_nat k) ltac:(lia)) as Hdm.
        pose proof (Z.mod_pos_bound val (256 ^ Z.of_nat k) ltac:(lia)).
        rewrite E2 in Hdm. lia. }
      rewrite IH; [| exact Hv | intros _; exact Hsmall].
      subst buf. cbn [fold_left].
      rewrite (mod_pow256_succ val k Hv). fold b. rewrite E2. lia.
Qed.

Lemma value_to_bin_loop_length (idxs : list Z) :
  forall (val : Z) (buf : list byte),
    (length (value_to_bin_loop idxs val buf) <= length buf + length idxs)%nat.
Proof.
  induction idxs as [|i idxs IH]; intros val buf; cbn [value_to_bin_loop length];
    [lia |].
  destruct ((0 <? Z.of_nat (length buf)) || negb (_ =? 0)).
  - specialize (IH val (buf ++ [byte_of_Z (Z.land (Z.shiftr val (i * 8)) 255)])).
    rewrite length_app in IH. cbn [length] in IH. lia.
  - specialize (IH val buf). lia.
Qed.

Lemma value_to_bin_length (val : Z) : (length (value_to_bin val) <= 8)%nat.
Proof.
  unfold value_to_bin.
  pose proof (value_to_bin_loop_length [7; 6; 5; 4; 3; 2; 1; 0] val []) as Hl.
  cbn [length] in Hl. lia.
Qed.

Lemma value_to_bin_value (val : Z) :
  0 <= val < 2 ^ 64 ->
  fold_left (fun a c => a * 256 + byte_to_Z c) (value_to_bin val) 0 = val.
Proof.
  intros Hv. unfold value_to_bin.
  change [7; 6; 5; 4; 3; 2; 1; 0] with (desc 8).
  rewrite value_to_bin_loop_value by (change (256 ^ Z.of_nat 8) with (2 ^ 64); lia).
  cbn [fold_left]. change (256 ^ Z.of_nat 8) with (2 ^ 64).
  rewrite Z.mod_small by lia. lia.
Qed.

(** [bin_to_value] reads a big-endian number, as long as it has no more
    bytes than a [VALUE]. *)
Lemma bin_to_value_loop_value (buf : list byte) :
  forall (hi : Z),
    0 <= hi ->
    (hi + 1) * 256 ^ Z.of_nat (length buf) <= 2 ^ 64 ->
    bin_to_value_loop buf (Z.of_nat (length buf) - 1)
      (hi * 256 ^ Z.of_nat (length buf))
    = fold_left (fun a c => a * 256 + byte_to_Z c) buf hi.
Proof.
  induction buf as [|b buf IH]; intros hi Hhi Hlt.
  - cbn [bin_to_value_loop fold_left length]. change (Z.of_nat 0) with 0.
    rewrite Z.pow_0_r. lia.
  - cbn [bin_to_value_loop fold_left]. cbn [length] in *.
    rewrite pow256_succ in *. pose proof (pow256_pos (length buf)) as Hp.
    pose proof (byte_to_Z_range b) as Hb.
    replace (Z.of_nat (S (length buf)) - 1) with (Z.of_nat (length buf)) by lia.
    rewrite Z.shiftl_mul_pow2 by lia.
    replace (2 ^ (Z.of_nat (length buf) * 8)) with (256 ^ Z.of_nat (length buf))
      by (rewrite Z.mul_comm, Z.pow_mul_r by lia; reflexivity).
    set (P := 256 ^ Z.of_nat (length buf)) in *.
    unfold to_VALUE. rewrite (Z.mod_small (byte_to_Z b * P)) by nia.
    replace (hi * (256 * P)) with (hi * 2 ^ (8 * Z.of_nat (length buf) + 8)).
    2:{ rewrite Z.pow_add_r by lia. change (2 ^ 8) with 256.
        rewrite Z.pow_mul_r by lia. change (2 ^ 8) with 256. fold P. ring. }
    rewrite lor_shifted.
    + replace (hi * 2 ^ (8 * Z.of_nat (length buf) + 8) + byte_to_Z b * P)
        with ((hi * 256 + byte_to_Z b) * P).
      2:{ rewrite Z.pow_add_r by lia. change (2 ^ 8) with 256.
          rewrite Z.pow_mul_r by lia. change (2 ^ 8) with 256. fold P. ring. }
      replace (Z.of_nat (length buf) - 1 + 1 - 1) with (Z.of_nat (length buf) - 1)
        by lia.
      apply IH; [lia | nia].
    + lia.
    + rewrite Z.pow_add_r by lia. change (2 ^ 8) with 256.
      rewrite Z.pow_mul_r by lia. change (2 ^ 8) with 256. fold P. nia.
Qed.

Lemma bin_to_value_to_bin (val : Z) :
  0 <= val < 2 ^ 64 -> bin_to_value (value_to_bin val) = val.
Proof.
  intros Hv. unfold bin_to_value.
  pose proof (bin_to_value_loop_value (value_to_bin val) 0 (Z.le_refl 0)) as Hl.
  rewrite Z.mul_0_l in Hl. rewrite Hl.
  - apply value_to_bin_value. exact Hv.
  - pose proof (value_to_bin_length val) as Hlen.
    rewrite Z.add_0_l, Z.mul_1_l. change (2 ^ 64) with (256 ^ 8).
    apply Z.pow_le_mono_r; lia.
Qed.

(** ** The layout of a node record *)

Section Layout.

Variable H : Host.

Lemma bin_byte_inside (pre post : list byte) (b : byte) :
  bin_byte H (pre ++ b :: post) (Z.of_nat (length pre)) = b.
Proof.
  unfold bin_byte. destruct (Z.ltb_spec (Z.of_nat (length pre)) 0); [lia |].
  rewrite Nat2Z.id, nth_error_app2, Nat.sub_diag by lia. reflexivity.
Qed.

Lemma bin_bytes_inside (mid : list byte) :
  forall (pre post : list byte),
    bin_bytes H (pre ++ mid ++ post) (Z.of_nat (length pre)) (length mid) = mid.
Proof.
  induction mid as [|b mid IH]; intros pre post; cbn [bin_bytes length];
    [reflexivity |].
  cbn [app]. rewrite bin_byte_inside. f_equal.
  specialize (IH (pre ++ [b]) post).
  rewrite <- app_assoc, length_app in IH. cbn [app length] in IH.
  replace (Z.of_nat (length pre) + 1) with (Z.of_nat (length pre + 1)) by lia.
  exact IH.
Qed.

(** The tag byte: location code in the low half, length in the high
    half. *)
Lemma tag_byte (vl : Z) (len : nat) :
  0 <= vl <= 6 -> (len <= 8)%nat ->
  let t := byte_to_Z (byte_of_Z (Z.lor vl (Z.shiftl (Z.of_nat len) 4))) in
  Z.land t 15 = vl /\ Z.shiftr (Z.land t 240) 4 = Z.of_nat len.
Proof.
  intros Hvl Hlen.
  assert (Ev : vl = 0 \/ vl = 1 \/ vl = 2 \/ vl = 3 \/ vl = 4 \/ vl = 5 \/ vl = 6)
    by lia.
  do 9 (destruct len as [|len];
        [destruct Ev as [-> | [-> | [-> | [-> | [-> | [-> | ->]]]]]];
         split; reflexivity |]).
  lia.
Qed.

Lemma len_byte (len : nat) :
  (len <= 8)%nat -> byte_to_Z (byte_of_Z (Z.of_nat len)) = Z.of_nat len.
Proof. intros Hlen. rewrite byte_to_of_Z. apply Z.mod_small. lia. Qed.

(** What [dump_node_value] returns when it returns: a location code and
    the minimal big-endian bytes of a number, which is the slot itself for
    [VL_RAW] and an ordinal otherwise. *)
Lemma dump_node_value_form (m : memory) (info : NODEInfo) (node : RNode)
    (type : Z) (value : VALUE) (child_id : Z) (r : Z * list byte) :
  dump_node_value H m info node type value child_id = Ok r ->
  exists vl x,
    r = DUMP_RAW_VALUE vl x
    /\ 0 <= vl <= 6
    /\ (vl = VL_RAW -> x = value)
    /\ (vl <> VL_RAW -> 0 <= x < 2 ^ 64).
Proof.
  assert (Hto : forall z, 0 <= to_VALUE z < 2 ^ 64)
    by (intros z; unfold to_VALUE; apply Z.mod_pos_bound; lia).
  assert (Hraw : exists vl x,
             DUMP_RAW_VALUE VL_RAW value = DUMP_RAW_VALUE vl x
             /\ 0 <= vl <= 6 /\ (vl = VL_RAW -> x = value)
             /\ (vl <> VL_RAW -> 0 <= x < 2 ^ 64)).
  { exists VL_RAW, value. unfold VL_RAW. repeat split; try lia. }
  assert (Hord : forall vl z, 1 <= vl <= 6 ->
             exists vl' x,
               DUMP_RAW_VALUE vl (to_VALUE z) = DUMP_RAW_VALUE vl' x
               /\ 0 <= vl' <= 6 /\ (vl' = VL_RAW -> x = value)
               /\ (vl' <> VL_RAW -> 0 <= x < 2 ^ 64)).
  { intros vl z Hvl. exists vl, (to_VALUE z). unfold VL_RAW.
    repeat split; try lia; try apply Hto. }
  unfold dump_node_value. cbv zeta.
  repeat match goal with
         | |- (if ?c then _ else _) = Ok _ -> _ => destruct c
         | |- match ?c with Some _ => _ | None => _ end = Ok _ -> _ => destruct c
         | |- Raise _ = Ok _ -> _ => discriminate
         end;
    (intros E; injection E as <-);
    match goal with
    | |- exists _ _, DUMP_RAW_VALUE VL_RAW _ = _ /\ _ => exact Hraw
    | |- exists _ _, DUMP_RAW_VALUE ?v (to_VALUE ?z) = _ /\ _ =>
        apply (Hord v z);
        unfold VL_NODE, VL_ID, VL_GVAR, VL_IDTABLE, VL_ARGS, VL_LIT; lia
    end.
Qed.

(** Reading back one slot: its tag byte and its bytes. *)
Lemma slot_read (vl : Z) (x : VALUE) (pre post : list byte) :
  0 <= vl <= 6 ->
  let '(rt, b) := DUMP_RAW_VALUE vl x in
  let len := Z.shiftr (Z.land (byte_to_Z (byte_of_Z rt)) 240) 4 in
  Z.land (byte_to_Z (byte_of_Z rt)) 15 = vl
  /\ len = Z.of_nat (length b)
  /\ bin_bytes H (pre ++ b ++ post) (Z.of_nat (length pre)) (Z.to_nat len) = b
  /\ (0 <= x < 2 ^ 64 -> bin_to_value b = x).
Proof.
  intros Hvl. unfold DUMP_RAW_VALUE.
  pose proof (value_to_bin_length x) as Hlen.
  destruct (tag_byte vl (length (value_to_bin x)) Hvl Hlen) as [E1 E2].
  cbv zeta in E1, E2. rewrite E1, E2, Nat2Z.id, bin_bytes_inside.
  repeat split. apply bin_to_value_to_bin.
Qed.

End Layout.

Section Record.

Variable H : Host.
Variable ctbl : list Z.

Lemma bin_bytes_at (s pre mid post : list byte) (off : Z) (n : nat) :
  s = pre ++ mid ++ post -> off = Z.of_nat (length pre) -> n = length mid ->
  bin_bytes H s off n = mid.
Proof. intros -> -> ->. apply bin_bytes_inside. Qed.

Lemma bin_byte_at (s pre post : list byte) (b : byte) (off : Z) :
  s = pre ++ b :: post -> off = Z.of_nat (length pre) -> bin_byte H s off = b.
Proof. intros -> ->. apply bin_byte_inside. Qed.

Lemma slot_dumped_of (m : memory) (info : NODEInfo) (node : RNode)
    (type : Z) (value : VALUE) (child_id : Z) (rt : Z) (b : list byte) :
  dump_node_value H m info node type value child_id = Ok (rt, b) ->
  exists vl x, (rt, b) = DUMP_RAW_VALUE vl x
               /\ slot_dumped H m info node type value child_id vl x.
Proof.
  intros E. destruct (dump_node_value_form H _ _ _ _ _ _ _ E)
    as (vl & x & E1 & Hvl & Hraw & Hord).
  exists vl, x. split; [exact E1 |]. unfold slot_dumped. rewrite E, E1. auto.
Qed.

(** A record that [dump_nodes] wrote is read back by the loader as it was
    written, wherever it lies in the string. *)
Lemma record_read (m : memory) (info : NODEInfo) (key : rkey) (n : RNode)
    (rec pre post : list byte) :
  load_node m (key_address H key) = Ok n ->
  dump_node_record H ctbl m info key = Ok rec ->
  exists ut0 ut1 ut2 vl0 x0 vl1 x1 vl2 x2,
    dump_child_types ctbl info n = Ok (ut0, ut1, ut2)
    /\ slot_dumped H m info n ut0 (u1 n) 1 vl0 x0
    /\ slot_dumped H m info n ut1 (u2 n) 2 vl1 x1
    /\ slot_dumped H m info n ut2 (u3 n) 3 vl2 x2
    /\ let r := read_node_record H (pre ++ rec ++ post) (Z.of_nat (length pre)) in
       nr_end r = Z.of_nat (length pre) + Z.of_nat (length rec)
       /\ nr_rtypes r = (vl0, vl1, vl2)
       /\ (0 <= flags n < 2 ^ 64 -> nr_flags r = Z.shiftr (flags n) 5)
       /\ (0 <= x0 < 2 ^ 64 -> fst (fst (nr_u r)) = x0)
       /\ (0 <= x1 < 2 ^ 64 -> snd (fst (nr_u r)) = x1)
       /\ (0 <= x2 < 2 ^ 64 -> snd (nr_u r) = x2).
Proof.
  intros Hn. unfold dump_node_record. rewrite Hn. cbn [bind].
  destruct (dump_child_types ctbl info n) as [[[ut0 ut1] ut2]|e] eqn:Et;
    cbn [bind]; [| discriminate].
  destruct (dump_node_value H m info n ut0 (u1 n) 1) as [[rt0 b0]|e] eqn:E0;
    cbn [bind]; [| discriminate].
  destruct (dump_node_value H m info n ut1 (u2 n) 2) as [[rt1 b1]|e] eqn:E1;
    cbn [bind]; [| discriminate].
  destruct (dump_node_value H m info n ut2 (u3 n) 3) as [[rt2 b2]|e] eqn:E2;
    cbn [bind]; [| discriminate].
  intros E. apply Ok_inj in E. subst rec.
  destruct (slot_dumped_of _ _ _ _ _ _ _ _ E0) as (vl0 & x0 & F0 & S0).
  destruct (slot_dumped_of _ _ _ _ _ _ _ _ E1) as (vl1 & x1 & F1 & S1).
  destruct (slot_dumped_of _ _ _ _ _ _ _ _ E2) as (vl2 & x2 & F2 & S2).
  exists ut0, ut1, ut2, vl0, x0, vl1, x1, vl2, x2.
  split; [reflexivity |]. split; [exact S0 |]. split; [exact S1 |].
  split; [exact S2 |].
  set (fb := value_to_bin (Z.shiftr (flags n) 5)).
  set (s := pre ++ _ ++ post).
  assert (V0 : 0 <= vl0 <= 6) by apply S0.
  assert (V1 : 0 <= vl1 <= 6) by apply S1.
  assert (V2 : 0 <= vl2 <= 6) by apply S2.
  pose proof (slot_read H vl0 x0 [] [] V0) as R0.
  pose proof (slot_read H vl1 x1 [] [] V1) as R1.
  pose proof (slot_read H vl2 x2 [] [] V2) as R2.
  rewrite <- F0 in R0. rewrite <- F1 in R1. rewrite <- F2 in R2.
  destruct R0 as (T0 & L0 & _ & X0), R1 as (T1 & L1 & _ & X1),
           R2 as (T2 & L2 & _ & X2).
  pose proof (value_to_bin_length (Z.shiftr (flags n) 5)) as Hfl.
  fold fb in Hfl.
  set (p := Z.of_nat (length pre)).
  assert (B0 : bin_byte H s p = byte_of_Z rt0).
  { apply bin_byte_at with (pre := pre)
      (post := [byte_of_Z rt1; byte_of_Z rt2; byte_of_Z (Z.of_nat (length fb))]
               ++ fb ++ b0 ++ b1 ++ b2 ++ post);
      [subst s; cbn [app]; rewrite <- ?app_assoc; reflexivity | reflexivity]. }
  assert (B1 : bin_byte H s (p + 1) = byte_of_Z rt1).
  { apply bin_byte_at with (pre := pre ++ [byte_of_Z rt0])
      (post := [byte_of_Z rt2; byte_of_Z (Z.of_nat (length fb))]
               ++ fb ++ b0 ++ b1 ++ b2 ++ post);
      [subst s; cbn [app]; rewrite <- ?app_assoc; reflexivity
      | rewrite length_app; cbn [length]; lia]. }
  assert (B2 : bin_byte H s (p + 2) = byte_of_Z rt2).
  { apply bin_byte_at with (pre := pre ++ [byte_of_Z rt0; byte_of_Z rt1])
      (post := [byte_of_Z (Z.of_nat (length fb))]
               ++ fb ++ b0 ++ b1 ++ b2 ++ post);
      [subst s; cbn [app]; rewrite <- ?app_assoc; reflexivity
      | rewrite length_app; cbn [length]; lia]. }
  assert (B3 : bin_byte H s (p + 3) = byte_of_Z (Z.of_nat (length fb))).
  { apply bin_byte_at
      with (pre := pre ++ [byte_of_Z rt0; byte_of_Z rt1; byte_of_Z rt2])
           (post := fb ++ b0 ++ b1 ++ b2 ++ post);
      [subst s; cbn [app]; rewrite <- ?app_assoc; reflexivity
      | rewrite length_app; cbn [length]; lia]. }
  set (hd4 := [byte_of_Z rt0; byte_of_Z rt1; byte_of_Z rt2;
               byte_of_Z (Z.of_nat (length fb))]).
  assert (Es : s = pre ++ hd4 ++ fb ++ b0 ++ b1 ++ b2 ++ post).
  { subst s hd4. cbn [app]. rewrite <- ?app_assoc. reflexivity. }
  assert (C3 : bin_bytes H s (p + 4) (length fb) = fb).
  { apply bin_bytes_at with (pre := pre ++ hd4) (post := b0 ++ b1 ++ b2 ++ post);
      [rewrite Es, <- ?app_assoc; reflexivity
      | rewrite length_app; subst hd4; cbn [length]; lia | reflexivity]. }
  assert (C0 : bin_bytes H s (p + 4 + Z.of_nat (length fb)) (length b0) = b0).
  { apply bin_bytes_at with (pre := pre ++ hd4 ++ fb) (post := b1 ++ b2 ++ post);
      [rewrite Es, <- ?app_assoc; reflexivity
      | rewrite !length_app; subst hd4; cbn [length]; lia | reflexivity]. }
  assert (C1 : bin_bytes H s (p + 4 + Z.of_nat (length fb) + Z.of_nat (length b0))
                 (length b1) = b1).
  { apply bin_bytes_at with (pre := pre ++ hd4 ++ fb ++ b0) (post := b2 ++ post);
      [rewrite Es, <- ?app_assoc; reflexivity
      | rewrite !length_app; subst hd4; cbn [length]; lia | reflexivity]. }
  assert (C2 : bin_bytes H s (p + 4 + Z.of_nat (length fb) + Z.of_nat (length b0)
                              + Z.of_nat (length b1)) (length b2) = b2).
  { apply bin_bytes_at with (pre := pre ++ hd4 ++ fb ++ b0 ++ b1) (post := post);
      [rewrite Es, <- ?app_assoc; reflexivity
      | rewrite !length_app; subst hd4; cbn [length]; lia | reflexivity]. }
  cbv zeta. unfold read_node_record. cbv zeta.
  cbn [nr_end nr_rtypes nr_flags nr_u fst snd].
  rewrite B0, B1, B2, B3, (len_byte (length fb) Hfl), Nat2Z.id, C3.
  rewrite T0, T1, T2, L0, L1, L2, !Nat2Z.id, C0, C1, C2.
  split.
  { rewrite !length_app. subst hd4. cbn [length]. lia. }
  split; [reflexivity |].
  split.
  { intros Hf. subst fb. apply bin_to_value_to_bin.
    rewrite Z.shiftr_div_pow2 by lia. split.
    - apply Z.div_pos; lia.
    - apply Z.div_lt_upper_bound; lia. }
  auto.
Qed.

End Record.

(** ** From the records written to the nodes built *)

Section Pipeline.

Variable H : Host.
Variable ctbl : list Z.

(** What the loop body did when it returned. *)
Lemma load_node_from_str_ok (s : list byte) (relocs : NODEObjAddresses)
    (i bin : Z) (st st1 : dstate) (off : Z) :
  load_node_from_str H s relocs i bin st = (st1, Ok off) ->
  let r := read_node_record H s bin in
  exists a w0 w1 w2,
    off = nr_end r
    /\ arr_get "nodes_adr" (nodes_adr relocs) i = Ok a
    /\ resolve_slot H (d_mem st) relocs (fst (fst (nr_rtypes r))) (fst (fst (nr_u r)))
       = Ok w0
    /\ resolve_slot H (d_mem st) relocs (snd (fst (nr_rtypes r))) (snd (fst (nr_u r)))
       = Ok w1
    /\ resolve_slot H (d_mem st) relocs (snd (nr_rtypes r)) (snd (nr_u r)) = Ok w2
    /\ d_mem st1
       = mem_put (d_mem st) a
           (ONode (mkRNode (restored_flags H (nr_flags r)) 0 w0 w1 w2)).
Proof.
  cbv zeta. unfold load_node_from_str.
  destruct (nr_rtypes (read_node_record H s bin)) as [[rt0 rt1] rt2].
  destruct (nr_u (read_node_record H s bin)) as [[v0 v1] v2].
  destruct (nr_end (read_node_record H s bin) >? Z.of_nat (length s));
    [discriminate |].
  unfold dbind, d_memory, dlift, d_store, dret. cbn [fst snd].
  destruct (resolve_slot H (d_mem st) relocs rt0 v0) as [w0 |]; [| discriminate].
  destruct (resolve_slot H (d_mem st) relocs rt1 v1) as [w1 |]; [| discriminate].
  destruct (resolve_slot H (d_mem st) relocs rt2 v2) as [w2 |]; [| discriminate].
  destruct (arr_get "nodes_adr" (nodes_adr relocs) i) as [a |]; [| discriminate].
  intros E. injection E as <- <-. exists a, w0, w1, w2.
  repeat split; reflexivity.
Qed.

(** The loop writes only to the entries of [nodes_adr] it has yet to
    go through. *)
Lemma load_nodes_loop_other (s : list byte) (relocs : NODEObjAddresses) (a : VALUE) :
  forall (n : nat) (i bin : Z) (st : dstate),
    0 <= i ->
    (forall k, (Z.to_nat i <= k)%nat -> nth_error (nodes_adr relocs) k <> Some a) ->
    d_mem (fst (load_nodes_loop H n s relocs i bin st)) a = d_mem st a.
Proof.
  induction n as [|n IH]; intros i bin st Hi Hfree; [reflexivity |].
  cbn [load_nodes_loop]. unfold dbind.
  destruct (load_node_from_str H s relocs i bin st) as [st1 [off | e]] eqn:E.
  - destruct (load_node_from_str_ok s relocs i bin st st1 off E)
      as (a' & w0 & w1 & w2 & _ & Ha' & _ & _ & _ & Hm).
    rewrite IH; [| lia | intros k Hk; apply Hfree; lia].
    rewrite Hm. unfold mem_put.
    destruct (Z.eqb_spec a a') as [<- |]; [| reflexivity].
    exfalso. unfold arr_get in Ha'.
    destruct (i <? 0); [discriminate |].
    destruct (nth_error (nodes_adr relocs) (Z.to_nat i)) as [x |] eqn:Ex;
      [| discriminate].
    injection Ha' as ->. apply (Hfree (Z.to_nat i)); [lia | exact Ex].
  - destruct (load_node_from_str_result H s relocs i bin st)
      as [(e' & He') | (st' & Hok)].
    + rewrite He' in E. injection E as <- _. reflexivity.
    + rewrite Hok in E. discriminate.
Qed.

Lemma NoDup_nth_error_later {A : Type} (l : list A) (i k : nat) (a : A) :
  NoDup l -> nth_error l i = Some a -> (i < k)%nat -> nth_error l k <> Some a.
Proof.
  intros Hnd Hi Hk Hk'.
  assert (Hlen : (i < length l)%nat)
    by (apply nth_error_Some; rewrite Hi; discriminate).
  pose proof (proj1 (NoDup_nth_error l) Hnd i k Hlen) as Heq.
  rewrite Hi, Hk' in Heq. specialize (Heq eq_refl). lia.
Qed.

Lemma resolve_slot_raw (m : memory) (relocs : NODEObjAddresses) (u : VALUE) :
  resolve_slot H m relocs VL_RAW u = Ok u.
Proof. reflexivity. Qed.

Lemma load_nodes_loop_restored (m : memory) (info : NODEInfo)
    (relocs : NODEObjAddresses) (post : list byte) :
  NoDup (nodes_adr relocs) ->
  forall (keys : list rkey) (bin pre : list byte) (extra : nat) (i0 : Z)
         (st : dstate),
    dump_nodes_loop H ctbl m info keys = Ok bin ->
    0 <= i0 ->
    snd (load_nodes_loop H (length keys + extra) (pre ++ bin ++ post) relocs i0
           (Z.of_nat (length pre)) st) = Ok tt ->
    forall (k : nat) (key : rkey) (n : RNode) (a : VALUE),
      nth_error keys k = Some key ->
      load_node m (key_address H key) = Ok n ->
      nth_error (nodes_adr relocs) (Z.to_nat i0 + k) = Some a ->
      exists n',
        d_mem (fst (load_nodes_loop H (length keys + extra) (pre ++ bin ++ post)
                      relocs i0 (Z.of_nat (length pre)) st)) a = Some (ONode n')
        /\ restored H ctbl m info n n'.
Proof.
  intros Hnd. induction keys as [|key0 keys IH];
    intros bin pre extra i0 st Hdump Hi0 Hok k key n a Hk Hn Ha;
    [destruct k; discriminate Hk |].
  cbn [dump_nodes_loop] in Hdump.
  destruct (dump_node_record H ctbl m info key0) as [rec |] eqn:Erec;
    cbn [bind] in Hdump; [| discriminate].
  destruct (dump_nodes_loop H ctbl m info keys) as [bin' |] eqn:Ebin;
    cbn [bind] in Hdump; [| discriminate].
  apply Ok_inj in Hdump. subst bin.
  cbn [length Nat.add load_nodes_loop] in Hok |- *. unfold dbind in Hok |- *.
  set (s := pre ++ (rec ++ bin') ++ post) in *.
  destruct (load_node_from_str H s relocs i0 (Z.of_nat (length pre)) st)
    as [st1 [off | e]] eqn:E; [| discriminate Hok].
  destruct (load_node_from_str_ok s relocs i0 _ st st1 off E)
    as (a0 & w0 & w1 & w2 & Hoff & Ha0 & R0 & R1 & R2 & Hm).
  assert (Es : s = pre ++ rec ++ (bin' ++ post))
    by (subst s; rewrite <- !app_assoc; reflexivity).
  assert (Es' : s = (pre ++ rec) ++ bin' ++ post)
    by (subst s; rewrite <- !app_assoc; reflexivity).
  assert (Eoff : off = Z.of_nat (length (pre ++ rec))).
  { unfold dump_node_record in Erec.
    destruct (load_node m (key_address H key0)) as [n0 |] eqn:En0;
      [| discriminate Erec].
    assert (Erec' : dump_node_record H ctbl m info key0 = Ok rec)
      by (unfold dump_node_record; rewrite En0; exact Erec).
    destruct (record_read H ctbl m info key0 n0 rec pre (bin' ++ post) En0 Erec')
      as (_ & _ & _ & _ & _ & _ & _ & _ & _ & _ & _ & _ & _ & Hend & _).
    rewrite <- Es in Hend. rewrite Hoff, Hend, length_app. lia. }
  rewrite Eoff, Es' in Hok |- *.
  destruct k as [|k].
  - (* the node of this turn *)
    injection Hk as ->.
    rewrite Nat.add_0_r in Ha.
    assert (Eaa : a0 = a).
    { unfold arr_get in Ha0. destruct (i0 <? 0); [discriminate |].
      rewrite Ha in Ha0. injection Ha0 as ->. reflexivity. }
    subst a0.
    rewrite load_nodes_loop_other;
      [| lia | intros j Hj; apply (NoDup_nth_error_later _ (Z.to_nat i0)); [exact Hnd | exact Ha | lia]].
    rewrite Hm. unfold mem_put. rewrite Z.eqb_refl.
    eexists. split; [reflexivity |].
    destruct (record_read H ctbl m info key n rec pre (bin' ++ post) Hn Erec)
      as (ut0 & ut1 & ut2 & vl0 & x0 & vl1 & x1 & vl2 & x2 & Hut & S0 & S1 & S2
          & _ & Hrt & Hfl & X0 & X1 & X2).
    rewrite <- Es in Hrt, Hfl, X0, X1, X2.
    unfold restored. cbn [nd_reserved flags u1 u2 u3].
    split; [reflexivity |].
    split; [intros Hf; rewrite (Hfl Hf); reflexivity |].
    exists ut0, ut1, ut2, vl0, x0, vl1, x1, vl2, x2.
    rewrite Hrt in R0, R1, R2. cbn [fst snd] in R0, R1, R2.
    split; [exact Hut |]. split; [exact S0 |]. split; [exact S1 |].
    split; [exact S2 |].
    destruct S0 as (_ & _ & Hr0 & _), S1 as (_ & _ & Hr1 & _),
             S2 as (_ & _ & Hr2 & _).
    split; [| split].
    + intros -> Hu. rewrite (Hr0 eq_refl) in X0. rewrite (X0 Hu) in R0.
      rewrite resolve_slot_raw in R0. injection R0 as <-. reflexivity.
    + intros -> Hu. rewrite (Hr1 eq_refl) in X1. rewrite (X1 Hu) in R1.
      rewrite resolve_slot_raw in R1. injection R1 as <-. reflexivity.
    + intros -> Hu. rewrite (Hr2 eq_refl) in X2. rewrite (X2 Hu) in R2.
      rewrite resolve_slot_raw in R2. injection R2 as <-. reflexivity.
  - (* a later node *)
    cbn [nth_error] in Hk.
    apply (IH bin' (pre ++ rec) extra (i0 + 1) st1 eq_refl ltac:(lia) Hok
             k key n a Hk Hn).
    replace (Z.to_nat (i0 + 1) + k)%nat with (Z.to_nat i0 + S k)%nat by lia.
    exact Ha.
Qed.

End Pipeline.

Section Restored.

Variable H : Host.
Variable ctbl : list Z.

(** [load_nodes_from_str] after [dump_nodes]: the node built at the
    [i]-th address is the one restored from the [i]-th node written. *)
Lemma load_nodes_from_str_restored (m : memory) (info : NODEInfo)
    (data : list (string * rvalue)) (relocs : NODEObjAddresses) (st : dstate)
    (s : list byte) (i : nat) (key : rkey) (n : RNode) (a : VALUE) :
  dump_nodes H ctbl m info = Ok s ->
  data_aref data "nodes" = RStr s ->
  Z.of_nat (length (vals (nodes info))) <= nodes_len relocs ->
  NoDup (nodes_adr relocs) ->
  snd (load_nodes_from_str H data relocs st) = Ok tt ->
  nth_error (map fst (vals (nodes info))) i = Some key ->
  load_node m (key_address H key) = Ok n ->
  nth_error (nodes_adr relocs) i = Some a ->
  exists n',
    d_mem (fst (load_nodes_from_str H data relocs st)) a = Some (ONode n')
    /\ restored H ctbl m info n n'.
Proof.
  intros Hdump Hdata Hlen Hnd Hok Hkey Hn Ha.
  unfold dump_nodes in Hdump.
  destruct (dump_nodes_loop H ctbl m info (map fst (vals (nodes info))))
    as [bin |] eqn:Ebin; cbn [bind] in Hdump; [| discriminate].
  apply Ok_inj in Hdump. subst s.
  unfold load_nodes_from_str in Hok |- *. rewrite Hdata in Hok |- *.
  set (keys := map fst (vals (nodes info))) in *.
  assert (Hn' : Z.to_nat (nodes_len relocs)
                = (length keys + (Z.to_nat (nodes_len relocs) - length keys))%nat).
  { subst keys. rewrite length_map. lia. }
  rewrite Hn' in Hok |- *.
  apply (load_nodes_loop_restored H ctbl m info relocs [beyond H 0] Hnd keys bin []
           _ 0 st Ebin ltac:(lia) Hok i key n a Hkey Hn Ha).
Qed.

(** The location code of a slot is settled by what was written. *)
Lemma DUMP_RAW_VALUE_code (vl vl' : Z) (x x' : VALUE) :
  DUMP_RAW_VALUE vl x = DUMP_RAW_VALUE vl' x' ->
  0 <= vl <= 6 -> 0 <= vl' <= 6 -> vl = vl'.
Proof.
  intros E Hvl Hvl'. assert (Et := f_equal fst E).
  unfold DUMP_RAW_VALUE in Et. cbv zeta in Et. cbn [fst] in Et.
  destruct (tag_byte vl (length (value_to_bin x)) Hvl (value_to_bin_length x))
    as [T _].
  destruct (tag_byte vl' (length (value_to_bin x')) Hvl' (value_to_bin_length x'))
    as [T' _].
  cbv zeta in T, T'.
  etransitivity; [symmetry; exact T |]. etransitivity; [| exact T'].
  rewrite Et. reflexivity.
Qed.

Lemma slot_dumped_raw (m : memory) (info : NODEInfo) (node : RNode)
    (type : Z) (value : VALUE) (child_id : Z) (vl : Z) (x : VALUE) :
  slot_dumped H m info node type value child_id vl x ->
  dump_node_value H m info node type value child_id
  = Ok (DUMP_RAW_VALUE VL_RAW value) ->
  vl = VL_RAW.
Proof.
  intros (E & Hvl & _) E'. rewrite E in E'. apply Ok_inj in E'.
  apply (DUMP_RAW_VALUE_code _ _ _ _ E' Hvl). unfold VL_RAW. lia.
Qed.

Lemma dump_node_value_null (m : memory) (info : NODEInfo) (node : RNode) (j : Z) :
  dump_node_value H m info node NT_NODE 0 j = Ok (DUMP_RAW_VALUE VL_RAW 0).
Proof. reflexivity. Qed.

Lemma dump_node_value_self (m : memory) (info : NODEInfo) (node : RNode) :
  nd_type node = NODE_ATTRASGN ->
  dump_node_value H m info node NT_NODE 1 1 = Ok (DUMP_RAW_VALUE VL_RAW 1).
Proof. intros Hnd. unfold dump_node_value. rewrite Hnd. reflexivity. Qed.

(** The flags word of a restored node. *)
Lemma restored_flags_value (f : VALUE) :
  0 <= f < 2 ^ 64 ->
  restored_flags H (Z.shiftr f 5)
  = Z.lor (Z.ldiff f (if RESET_GC_FLAGS H then 127 else 31)) (T_NODE H).
Proof.
  intros Hf. unfold restored_flags. f_equal.
  assert (Hsmall : forall k, 0 <= k ->
            to_VALUE (Z.ldiff f (Z.ones k)) = Z.ldiff f (Z.ones k)).
  { intros k Hk. unfold to_VALUE. apply Z.mod_small.
    rewrite Z.ldiff_ones_r, Z.shiftl_mul_pow2, Z.shiftr_div_pow2 by lia.
    assert (Hp : 0 < 2 ^ k) by (apply Z.pow_pos_nonneg; lia).
    pose proof (Z.mul_div_le f (2 ^ k) Hp).
    pose proof (Z.div_pos f (2 ^ k) ltac:(lia) Hp). nia. }
  destruct (RESET_GC_FLAGS H).
  - change 127 with (Z.ones 7). rewrite <- (Hsmall 7) by lia. f_equal.
    change (Z.ones 7) with 127.
    apply Z.bits_inj'. intros n Hn.
    rewrite Z.ldiff_spec.
    destruct (Z.ltb_spec n 5) as [Hlt | Hge].
    + rewrite Z.shiftl_spec_low by lia.
      change 127 with (Z.ones 7). rewrite Z.ones_spec_low by lia.
      cbn [negb]. rewrite ?andb_false_r. reflexivity.
    + rewrite Z.shiftl_spec, Z.land_spec, Z.shiftr_spec by lia.
      replace (n - 5 + 5) with n by lia.
      change (to_VALUE (-4)) with (Z.shiftl (Z.ones 62) 2).
      destruct (Z.ltb_spec n 7) as [Hlt7 | Hge7].
      * rewrite Z.shiftl_spec_low by lia.
        change 127 with (Z.ones 7). rewrite Z.ones_spec_low by lia.
        cbn [negb]. rewrite ?andb_false_r. reflexivity.
      * rewrite Z.shiftl_spec by lia.
        change 127 with (Z.ones 7). rewrite (Z.ones_spec_high 7 n) by lia.
        rewrite andb_true_r.
        destruct (Z.ltb_spec n 69) as [Hlt69 | Hge69].
        -- rewrite Z.ones_spec_low by lia. apply andb_true_r.
        -- rewrite Z.ones_spec_high by lia. rewrite andb_false_r.
           symmetry.
           destruct (Z.eq_dec f 0) as [-> | Hnz]; [apply Z.bits_0 |].
           apply Z.bits_above_log2; [lia |].
           apply Z.log2_lt_pow2; [lia |].
           apply Z.lt_le_trans with (2 ^ 64); [lia |].
           apply Z.pow_le_mono_r; lia.
  - change 31 with (Z.ones 5). rewrite <- (Hsmall 5) by lia. f_equal.
    rewrite Z.ldiff_ones_r by lia. reflexivity.
Qed.

End Restored.

(** C6.  In [dump_node_value] a slot of type [NT_NODE] holding 0 is
    written as a raw value (location code [VL_RAW], no bytes), and the
    first slot of a [NODE_ATTRASGN] holding 1 is written as a raw value
    (location code [VL_RAW], the one byte 1) with no look-up in the node
    table; [load_nodes_from_str] passes a [VL_RAW] value on as it is.  So
    when [load_nodes_from_str] returns on the string that [dump_nodes]
    wrote, in the node built for the [i]-th node written each [NT_NODE]
    slot that held 0 holds 0 and the first slot of a [NODE_ATTRASGN] that
    held 1 holds 1; in the table of Ruby 2.2 that slot is of type
    [NT_NODE]. *)
Theorem sentinel_slots_roundtrip (H : Host) (ctbl : list Z) (m : memory)
    (info : NODEInfo) (data : list (string * rvalue)) (relocs : NODEObjAddresses)
    (st : dstate) (s : list byte) (i : nat) (key : rkey) (n : RNode) (a : VALUE)
    (ut0 ut1 ut2 : Z) :
  dump_nodes H ctbl m info = Ok s ->
  data_aref data "nodes" = RStr s ->
  Z.of_nat (length (vals (nodes info))) <= nodes_len relocs ->
  NoDup (nodes_adr relocs) ->
  snd (load_nodes_from_str H data relocs st) = Ok tt ->
  nth_error (map fst (vals (nodes info))) i = Some key ->
  load_node m (key_address H key) = Ok n ->
  nth_error (nodes_adr relocs) i = Some a ->
  dump_child_types ctbl info n = Ok (ut0, ut1, ut2) ->
  (forall node j, dump_node_value H m info node NT_NODE 0 j = Ok (VL_RAW, []))
  /\ (forall node, nd_type node = NODE_ATTRASGN ->
        dump_node_value H m info node NT_NODE 1 1 = Ok (Z.lor VL_RAW 16, [x01]))
  /\ (forall m' u, resolve_slot H m' relocs VL_RAW u = Ok u)
  /\ (forall info' node, nd_type node = NODE_ATTRASGN ->
        dump_child_types ruby22_ctbl info' node = Ok (NT_NODE, NT_ID, NT_NODE))
  /\ exists n',
       d_mem (fst (load_nodes_from_str H data relocs st)) a = Some (ONode n')
       /\ (ut0 = NT_NODE -> u1 n = 0 -> u1 n' = 0)
       /\ (ut1 = NT_NODE -> u2 n = 0 -> u2 n' = 0)
       /\ (ut2 = NT_NODE -> u3 n = 0 -> u3 n' = 0)
       /\ (nd_type n = NODE_ATTRASGN -> ut0 = NT_NODE -> u1 n = 1 -> u1 n' = 1).
Proof.
  intros Hdump Hdata Hlen Hnd Hok Hkey Hn Ha Hut.
  split; [intros node j; apply dump_node_value_null |].
  split; [intros node Hty; apply (dump_node_value_self H m info node Hty) |].
  split; [intros m' u; reflexivity |].
  split.
  { intros info' node Hty. unfold dump_child_types. rewrite Hty. reflexivity. }
  destruct (load_nodes_from_str_restored H ctbl m info data relocs st s i key n a
              Hdump Hdata Hlen Hnd Hok Hkey Hn Ha)
    as (n' & Hmem & _ & _ & vt0 & vt1 & vt2 & vl0 & x0 & vl1 & x1 & vl2 & x2
        & Hut' & S0 & S1 & S2 & P0 & P1 & P2).
  rewrite Hut in Hut'. apply Ok_inj in Hut'.
  assert (E0 : vt0 = ut0) by congruence.
  assert (E1 : vt1 = ut1) by congruence.
  assert (E2 : vt2 = ut2) by congruence.
  subst vt0 vt1 vt2. clear Hut'.
  exists n'. split; [exact Hmem |].
  split; [| split; [| split]].
  - intros -> Hu. rewrite Hu in *. apply P0; [| lia].
    apply (slot_dumped_raw H _ _ _ _ _ _ _ _ S0). apply dump_node_value_null.
  - intros -> Hu. rewrite Hu in *. apply P1; [| lia].
    apply (slot_dumped_raw H _ _ _ _ _ _ _ _ S1). apply dump_node_value_null.
  - intros -> Hu. rewrite Hu in *. apply P2; [| lia].
    apply (slot_dumped_raw H _ _ _ _ _ _ _ _ S2). apply dump_node_value_null.
  - intros Hty -> Hu. rewrite Hu in *. apply P0; [| lia].
    apply (slot_dumped_raw H _ _ _ _ _ _ _ _ S0).
    apply dump_node_value_self. exact Hty.
Qed.

(** An attribute assignment to [self] with no arguments: both marks are
    found again in the node that is built. *)
Lemma sentinel_slots_roundtrip_witness :
  exists n',
    d_mem (fst (load_nodes_from_str ruby22_x64 (container_of attr_mem 4096)
                  (relocs_of (container_of attr_mem 4096))
                  (dstate_init (fun _ => None)))) 8388808 = Some (ONode n')
    /\ u1 n' = 1 /\ u3 n' = 0.
Proof.
  destruct (sentinel_slots_roundtrip ruby22_x64 ruby22_ctbl attr_mem
              (info_of attr_mem 4096) (container_of attr_mem 4096)
              (relocs_of (container_of attr_mem 4096))
              (dstate_init (fun _ => None))
              [x10; x02; x00; x02; x07; x38; x01; x00] 0%nat
              (KStr (list_byte_of_string "1000"))
              (mkRNode (node_flags NODE_ATTRASGN 1) 0 1 3001 0) 8388808
              NT_NODE NT_ID NT_NODE)
    as (_ & _ & _ & _ & n' & Hmem & _ & _ & H3 & H1).
  - vm_compute. reflexivity.
  - vm_compute. reflexivity.
  - vm_compute. discriminate.
  - vm_compute. constructor; [intros [] | constructor].
  - vm_compute. reflexivity.
  - vm_compute. reflexivity.
  - vm_compute. reflexivity.
  - vm_compute. reflexivity.
  - vm_compute. reflexivity.
  - exists n'. split; [exact Hmem |]. split.
    + apply H1; reflexivity.
    + apply H3; reflexivity.
Defined.

(** C10.  When [load_nodes_from_str] returns on the string that
    [dump_nodes] wrote, the flags word of the node built for the [i]-th
    node written is the flags word of that node with its five lowest bits
    cleared (its seven lowest bits where [RESET_GC_FLAGS] is defined, the
    two lowest bits of the stored value being cleared too), or-ed with
    [T_NODE]: [dump_nodes] stores [flags >> 5] and the loader sets
    [(stored << 5) | T_NODE].  The five lowest bits of the result are
    those of [T_NODE]. *)
Theorem flags_roundtrip (H : Host) (ctbl : list Z) (m : memory)
    (info : NODEInfo) (data : list (string * rvalue)) (relocs : NODEObjAddresses)
    (st : dstate) (s : list byte) (i : nat) (key : rkey) (n : RNode) (a : VALUE) :
  dump_nodes H ctbl m info = Ok s ->
  data_aref data "nodes" = RStr s ->
  Z.of_nat (length (vals (nodes info))) <= nodes_len relocs ->
  NoDup (nodes_adr relocs) ->
  snd (load_nodes_from_str H data relocs st) = Ok tt ->
  nth_error (map fst (vals (nodes info))) i = Some key ->
  load_node m (key_address H key) = Ok n ->
  nth_error (nodes_adr relocs) i = Some a ->
  0 <= flags n < 2 ^ 64 ->
  exists n',
    d_mem (fst (load_nodes_from_str H data relocs st)) a = Some (ONode n')
    /\ flags n' = restored_flags H (Z.shiftr (flags n) 5)
    /\ flags n'
       = Z.lor (Z.ldiff (flags n) (if RESET_GC_FLAGS H then 127 else 31)) (T_NODE H)
    /\ Z.land (flags n') 31 = Z.land (T_NODE H) 31.
Proof.
  intros Hdump Hdata Hlen Hnd Hok Hkey Hn Ha Hf.
  destruct (load_nodes_from_str_restored H ctbl m info data relocs st s i key n a
              Hdump Hdata Hlen Hnd Hok Hkey Hn Ha)
    as (n' & Hmem & _ & Hfl & _).
  exists n'. split; [exact Hmem |]. split; [exact (Hfl Hf) |].
  assert (E : flags n'
              = Z.lor (Z.ldiff (flags n) (if RESET_GC_FLAGS H then 127 else 31))
                  (T_NODE H))
    by (rewrite (Hfl Hf); apply restored_flags_value; exact Hf).
  split; [exact E |].
  rewrite E, Z.land_lor_distr_l.
  replace (Z.land (Z.ldiff (flags n) (if RESET_GC_FLAGS H then 127 else 31)) 31)
    with 0; [reflexivity |].
  symmetry. apply Z.bits_inj'. intros k Hk.
  rewrite Z.land_spec, Z.ldiff_spec, Z.bits_0.
  destruct (Z.ltb_spec k 5) as [Hlt | Hge].
  - replace (Z.testbit (if RESET_GC_FLAGS H then 127 else 31) k) with true.
    + cbn [negb]. rewrite andb_false_r. reflexivity.
    + symmetry. destruct (RESET_GC_FLAGS H).
      * change 127 with (Z.ones 7). apply Z.ones_spec_low. lia.
      * change 31 with (Z.ones 5). apply Z.ones_spec_low. lia.
  - change 31 with (Z.ones 5) at 2. rewrite Z.ones_spec_high by lia.
    apply andb_false_r.
Qed.

Lemma flags_roundtrip_witness :
  exists n',
    d_mem (fst (load_nodes_from_str ruby22_x64 (container_of attr_mem 4096)
                  (relocs_of (container_of attr_mem 4096))
                  (dstate_init (fun _ => None)))) 8388808 = Some (ONode n')
    /\ flags n' = Z.lor (Z.ldiff (node_flags NODE_ATTRASGN 1) 31) 28.
Proof.
  destruct (flags_roundtrip ruby22_x64 ruby22_ctbl attr_mem
              (info_of attr_mem 4096) (container_of attr_mem 4096)
              (relocs_of (container_of attr_mem 4096))
              (dstate_init (fun _ => None))
              [x10; x02; x00; x02; x07; x38; x01; x00] 0%nat
              (KStr (list_byte_of_string "1000"))
              (mkRNode (node_flags NODE_ATTRASGN 1) 0 1 3001 0) 8388808)
    as (n' & Hmem & _ & Hfl & _).
  - vm_compute. reflexivity.
  - vm_compute. reflexivity.
  - vm_compute. discriminate.
  - vm_compute. constructor; [intros [] | constructor].
  - vm_compute. reflexivity.
  - vm_compute. reflexivity.
  - vm_compute. reflexivity.
  - vm_compute. reflexivity.
  - vm_compute. split; [discriminate | reflexivity].
  - exists n'. split; [exact Hmem | exact Hfl].
Defined.

Lemma load_nodes_rejects_bad_ordinals_witness :
  exists st' e,
    load_nodes_from_str ruby22_x64 [("nodes"%string, RStr bad_record)]
      one_node_relocs (dstate_init (fun _ => None)) = (st', Raise e).
Proof.
  apply (proj2 (proj2 (proj2
           (load_nodes_rejects_bad_ordinals ruby22_x64 bad_record one_node_relocs
              0%nat VL_NODE 5)))
           [("nodes"%string, RStr bad_record)] 0%nat (dstate_init (fun _ => None))).
  - reflexivity.
  - vm_compute. lia.
  - reflexivity.
  - exists 1. split; [reflexivity |]. vm_compute.
    repeat split; discriminate.
Defined.

(** C1.  A tree is restored: loading the container of [tree_mem] builds a
    [NODE_BLOCK] whose first and third slots refer to the two [NODE_NIL]
    nodes built.  A graph with a shared node is not: [dag_mem] is a
    [NODE_BLOCK] whose first and third slots refer to one [NODE_NIL];
    [m_nodedump_to_hash] accepts it and writes the records of its two
    nodes, and [m_nodedump_from_memory], given a dump that [Marshal.load]
    turns into that container, raises instead of building a graph. *)
Theorem shared_node_roundtrip_fails :
  (let loaded := m_nodedump_from_memory
                   (unmarshalling ruby22_x64 sample_dump
                      (RHash (container_of tree_mem 4096)))
                   (RStr sample_dump) (dstate_init (fun _ => None)) in
   snd (m_nodedump_to_hash ruby22_x64 ruby22_ctbl 100 (compiled tree_mem 4096))
   = Ok (RHash (container_of tree_mem 4096))
   /\ snd loaded = Ok tt
   /\ iv_node (d_self (fst loaded)) = Some 8388808
   /\ d_mem (fst loaded) 8388808
      = Some (ONode (mkRNode (node_flags NODE_BLOCK 1) 0 8388848 0 8388888))
   /\ d_mem (fst loaded) 8388848
      = Some (ONode (mkRNode (node_flags NODE_NIL 1) 0 0 0 0))
   /\ d_mem (fst loaded) 8388888
      = Some (ONode (mkRNode (node_flags NODE_NIL 2) 0 0 0 0)))
  /\ (let loaded := m_nodedump_from_memory
                      (unmarshalling ruby22_x64 sample_dump
                         (RHash (container_of dag_mem 4096)))
                      (RStr sample_dump) (dstate_init (fun _ => None)) in
      snd (m_nodedump_to_hash ruby22_x64 ruby22_ctbl 100 (compiled dag_mem 4096))
      = Ok (RHash (container_of dag_mem 4096))
      /\ data_aref (container_of dag_mem 4096) "nodes"
         = RStr [x11; x00; x11; x02; x04; x08; x01; x01;
                 x00; x00; x00; x02; x06; xe0; x00]
      /\ snd loaded = Raise (ArgError "Nodes binary dump is too short")
      /\ iv_node (d_self (fst loaded)) = None).
Proof. vm_compute. repeat split; reflexivity. Qed.

(** C3.  On [dag_mem], whose two nodes are reached through three slots
    (the root, and one [NODE_NIL] through the first and the third slot of
    the root): the node table has the two nodes, each with one ordinal, and
    [dump_nodes] writes two records; [count_num_of_nodes] returns 3, one
    for each visit, and 3 is the [num_of_nodes] of the container. *)
Theorem num_of_nodes_counts_visits :
  count_num_of_nodes ruby22_x64 ruby22_ctbl 100 dag_mem 4096 4096 NODEInfo_init
  = Ok (3, info_of dag_mem 4096)
  /\ ids (nodes (info_of dag_mem 4096))
     = [(KStr (value_to_str 4096), 0); (KStr (value_to_str 4136), 1)]
  /\ dump_nodes ruby22_x64 ruby22_ctbl dag_mem (info_of dag_mem 4096)
     = Ok ([x11; x00; x11; x02; x04; x08; x01; x01]
           ++ [x00; x00; x00; x02; x06; xe0] ++ [x00])
  /\ snd (m_nodedump_to_hash ruby22_x64 ruby22_ctbl 100 (compiled dag_mem 4096))
     = Ok (RHash (container_of dag_mem 4096))
  /\ data_aref (container_of dag_mem 4096) "num_of_nodes" = RFix 3.
Proof. vm_compute. repeat split; reflexivity. Qed.

(* ===================================================================== *)
(** * Part 8. Further properties                                          *)
(* ===================================================================== *)

(** ** Numbers as bytes and as hexadecimal strings *)

Lemma byte_of_Z_nonzero (b : Z) :
  0 <= b < 256 -> b <> 0 -> byte_of_Z b <> x00.
Proof.
  intros Hb Hnz E. apply (f_equal byte_to_Z) in E.
  rewrite byte_to_of_Z, Z.mod_small in E by lia. exact (Hnz E).
Qed.

(** The loop of [value_to_bin] never starts the buffer with a zero
    byte. *)
Lemma value_to_bin_loop_head (idxs : list Z) (val : VALUE) :
  forall buf, hd_error buf <> Some x00 ->
    hd_error (value_to_bin_loop idxs val buf) <> Some x00.
Proof.
  induction idxs as [|i idxs IH]; intros buf Hbuf; cbn [value_to_bin_loop];
    [exact Hbuf |].
  set (b := Z.land (Z.shiftr val (i * 8)) 255).
  assert (Hb : 0 <= b < 256).
  { subst b. rewrite land_255. apply Z.mod_pos_bound. lia. }
  destruct buf as [|c buf].
  - cbn [length Z.of_nat Z.ltb Z.compare orb].
    destruct (Z.eqb_spec b 0) as [E | Hnz]; cbn [negb].
    + apply IH. exact Hbuf.
    + apply IH. cbn [app hd_error]. intros [= E].
      exact (byte_of_Z_nonzero b Hb Hnz E).
  - replace (0 <? Z.of_nat (length (c :: buf))) with true
      by (symmetry; apply Z.ltb_lt; cbn [length]; lia).
    cbn [orb]. apply IH. exact Hbuf.
Qed.

(** [value_to_bin] and [bin_to_value]: a [VALUE] is written with at most
    [sizeof(VALUE)] bytes, the first of which is not zero, zero being
    written with no byte at all, and [bin_to_value] reads the [VALUE]
    back. *)
Theorem value_to_bin_roundtrip (val : VALUE) :
  0 <= val < 2 ^ 64 ->
  bin_to_value (value_to_bin val) = val
  /\ Z.of_nat (length (value_to_bin val)) <= SIZEOF_VALUE
  /\ hd_error (value_to_bin val) <> Some x00
  /\ (value_to_bin val = [] <-> val = 0).
Proof.
  intros Hval. pose proof (bin_to_value_to_bin val Hval) as Hrt.
  split; [exact Hrt |]. split.
  { pose proof (value_to_bin_length val). unfold SIZEOF_VALUE. lia. }
  split.
  { apply value_to_bin_loop_head. discriminate. }
  split.
  - intros E. rewrite E in Hrt. rewrite <- Hrt. reflexivity.
  - intros ->. reflexivity.
Qed.

Lemma value_to_bin_roundtrip_witness :
  bin_to_value (value_to_bin 4136) = 4136
  /\ value_to_bin 4136 = [x10; x28].
Proof.
  split.
  - apply (proj1 (value_to_bin_roundtrip 4136 ltac:(lia))).
  - reflexivity.
Defined.

(** *** Hexadecimal *)

Lemma hex_val_digit (d : Z) : 0 <= d < 16 -> hex_val (hex_digit d) = Some d.
Proof.
  intros Hd.
  assert (E : d = 0 \/ d = 1 \/ d = 2 \/ d = 3 \/ d = 4 \/ d = 5 \/ d = 6 \/ d = 7
              \/ d = 8 \/ d = 9 \/ d = 10 \/ d = 11 \/ d = 12 \/ d = 13 \/ d = 14
              \/ d = 15) by lia.
  repeat (destruct E as [-> | E]; [reflexivity |]). subst d. reflexivity.
Qed.

Lemma to_VALUE_small (z : Z) : 0 <= z < 2 ^ 64 -> to_VALUE z = z.
Proof. intros Hz. unfold to_VALUE. apply Z.mod_small. exact Hz. Qed.

(** The digits that [hex_loop] puts before [acc] are read by [scan_hex] as
    the number printed. *)
Lemma scan_hex_loop (fuel : nat) :
  forall (v : Z) (acc : list byte),
    0 <= v < 16 ^ Z.of_nat fuel -> v < 2 ^ 64 ->
    scan_hex (hex_loop fuel v acc) 0 = scan_hex acc v.
Proof.
  induction fuel as [|fuel IH]; intros v acc Hv Hv64.
  - change (16 ^ Z.of_nat 0) with 1 in Hv. assert (v = 0) by lia. subst v.
    reflexivity.
  - cbn [hex_loop].
    assert (Hd : 0 <= v mod 16 < 16) by (apply Z.mod_pos_bound; lia).
    assert (Hq : 0 <= v / 16) by (apply Z.div_pos; lia).
    pose proof (Z.div_mod v 16 ltac:(lia)) as Hdm.
    destruct (Z.eqb_spec (v / 16) 0) as [E | Hnz].
    + cbn [scan_hex]. rewrite hex_val_digit by exact Hd.
      replace (0 * 16 + v mod 16) with v by lia.
      rewrite to_VALUE_small by lia. reflexivity.
    + rewrite IH.
      * cbn [scan_hex]. rewrite hex_val_digit by exact Hd.
        replace (v / 16 * 16 + v mod 16) with v by lia.
        rewrite to_VALUE_small by lia. reflexivity.
      * split; [exact Hq |]. rewrite Nat2Z.inj_succ, Z.pow_succ_r in Hv by lia.
        apply Z.div_lt_upper_bound; lia.
      * lia.
Qed.

Lemma hex_loop_head (fuel : nat) :
  forall (v : Z) (acc : list byte),
    0 <= v ->
    exists d rest, 0 <= d < 16 /\ hex_loop (S fuel) v acc = hex_digit d :: rest.
Proof.
  induction fuel as [|fuel IH]; intros v acc Hv.
  - cbn [hex_loop]. exists (v mod 16), acc. split.
    + apply Z.mod_pos_bound. lia.
    + destruct (v / 16 =? 0); reflexivity.
  - change (hex_loop (S (S fuel)) v acc)
      with (let acc' := hex_digit (v mod 16) :: acc in
            if v / 16 =? 0 then acc' else hex_loop (S fuel) (v / 16) acc').
    cbv zeta. destruct (v / 16 =? 0).
    + exists (v mod 16), acc. split; [apply Z.mod_pos_bound; lia | reflexivity].
    + apply IH. apply Z.div_pos; lia.
Qed.

Lemma hex_loop_length (fuel : nat) :
  forall (k : nat) (v : Z) (acc : list byte),
    0 <= v < 16 ^ Z.of_nat (S k) ->
    (length (hex_loop fuel v acc) <= S k + length acc)%nat.
Proof.
  induction fuel as [|fuel IH]; intros k v acc Hv; cbn [hex_loop]; [lia |].
  destruct (Z.eqb_spec (v / 16) 0) as [E | Hnz]; [cbn [length]; lia |].
  destruct k as [|k].
  - change (16 ^ Z.of_nat 1) with 16 in Hv.
    exfalso. apply Hnz. apply Z.div_small. lia.
  - specialize (IH k (v / 16) (hex_digit (v mod 16) :: acc)).
    cbn [length] in IH. 
    assert (Hq : 0 <= v / 16 < 16 ^ Z.of_nat (S k)).
    { split; [apply Z.div_pos; lia |].
      rewrite (Nat2Z.inj_succ (S k)), Z.pow_succ_r in Hv by lia.
      apply Z.div_lt_upper_bound; lia. }
    specialize (IH Hq). lia.
Qed.

Lemma str_to_value_to_str (H : Host) (val : VALUE) :
  0 <= val < 2 ^ 64 -> str_to_value H (value_to_str val) = val.
Proof.
  intros Hval. unfold value_to_str, str_to_value.
  destruct (hex_loop_head 15 val [] ltac:(lia)) as (d & rest & Hd & E).
  rewrite E, hex_val_digit by exact Hd. rewrite <- E.
  rewrite scan_hex_loop; [reflexivity | | lia].
  change (16 ^ Z.of_nat 16) with (2 ^ 64). exact Hval.
Qed.

(** [value_to_str] and [str_to_value]: an address below 2^60 is printed
    with at most 15 digits, which with the final zero byte fill the
    16 bytes of the buffer, and [str_to_value] reads the address back from
    them; so two addresses with the same string are the same address. *)
Theorem value_to_str_roundtrip (H : Host) (val : VALUE) :
  0 <= val < 2 ^ 60 ->
  str_to_value H (value_to_str val) = val
  /\ (0 < length (value_to_str val) <= 15)%nat
  /\ (forall val', 0 <= val' < 2 ^ 60 ->
        value_to_str val' = value_to_str val -> val' = val).
Proof.
  intros Hval. split; [apply str_to_value_to_str; lia |]. split; [split |].
  - unfold value_to_str.
    destruct (hex_loop_head 15 val [] ltac:(lia)) as (d & rest & _ & E).
    rewrite E. cbn [length]. lia.
  - assert (Hv : 0 <= val < 16 ^ Z.of_nat 15)
      by (change (16 ^ Z.of_nat 15) with (2 ^ 60); lia).
    pose proof (hex_loop_length 16 14 val [] Hv) as Hl.
    cbn [length] in Hl. unfold value_to_str. lia.
  - intros val' Hval' E.
    rewrite <- (str_to_value_to_str H val') by lia.
    rewrite E. apply str_to_value_to_str. lia.
Qed.

Lemma value_to_str_roundtrip_witness :
  str_to_value ruby22_x64 (value_to_str 4136) = 4136
  /\ value_to_str 4136 = list_byte_of_string "1028".
Proof.
  split.
  - apply (proj1 (value_to_str_roundtrip ruby22_x64 4136 ltac:(lia))).
  - reflexivity.
Defined.

(** ** What a leaf table holds *)

Lemma rb_hash_aref_aset {A : Type} (h : list (rkey * A)) (k k' : rkey) (v : A) :
  rb_hash_aref (rb_hash_aset h k v) k'
  = if rkey_eqb k k' then Some v else rb_hash_aref h k'.
Proof.
  induction h as [|[k0 w] h IH]; cbn [rb_hash_aset rb_hash_aref]; [reflexivity |].
  destruct (rkey_eqb k0 k) eqn:E0; cbn [rb_hash_aref].
  - apply rkey_eqb_eq in E0. subst k0.
    destruct (rkey_eqb k k'); reflexivity.
  - destruct (rkey_eqb k0 k') eqn:E1.
    + apply rkey_eqb_eq in E1. subst k'.
      rewrite rkey_eqb_sym, E0. reflexivity.
    + exact IH.
Qed.

Lemma rb_hash_aref_None {A : Type} (h : list (rkey * A)) (k : rkey) :
  rb_hash_aref h k = None <-> ~ In k (map fst h).
Proof.
  induction h as [|[k0 w] h IH]; cbn [rb_hash_aref map fst In].
  - split; [intros _ [] | reflexivity].
  - destruct (rkey_eqb k0 k) eqn:E.
    + apply rkey_eqb_eq in E. subst k0. split; [discriminate | intros Hn].
      exfalso. apply Hn. left. reflexivity.
    + rewrite IH. split.
      * intros Hn [-> | Hin]; [rewrite rkey_eqb_refl in E; discriminate | exact (Hn Hin)].
      * intros Hn Hin. apply Hn. right. exact Hin.
Qed.

Lemma index_of_neg_not_In (k : rkey) (dk : list rkey) :
  index_of k dk < 0 <-> ~ In k dk.
Proof.
  split; [apply index_of_not_In |]. intros Hn.
  induction dk as [|k0 dk IH]; cbn [index_of]; [lia |].
  destruct (rkey_eqb k0 k) eqn:E.
  - apply rkey_eqb_eq in E. subst k0. exfalso. apply Hn. left. reflexivity.
  - assert (IH' : index_of k dk < 0) by (apply IH; intros Hin; apply Hn; right; exact Hin).
    destruct (Z.ltb_spec (index_of k dk) 0); lia.
Qed.

Lemma index_of_nonneg_In (k : rkey) (dk : list rkey) :
  0 <= index_of k dk -> In k dk.
Proof.
  induction dk as [|k0 dk IH]; cbn [index_of In]; [lia |].
  destruct (rkey_eqb k0 k) eqn:E.
  - intros _. left. apply rkey_eqb_eq. exact E.
  - intros Hi. right. apply IH.
    destruct (Z.ltb_spec (index_of k dk) 0); lia.
Qed.

Lemma In_add_key (dk : list rkey) (k k' : rkey) :
  In k (add_key dk k') <-> In k dk \/ k = k'.
Proof.
  unfold add_key. destruct (existsb (rkey_eqb k') dk) eqn:E.
  - split; [auto |]. intros [Hin | ->]; [exact Hin |].
    apply existsb_exists in E. destruct E as (x & Hx & Ex).
    apply rkey_eqb_eq in Ex. subst x. exact Hx.
  - rewrite in_app_iff. cbn [In]. split.
    + intros [Hin | [-> | []]]; auto.
    + intros [Hin | ->]; auto.
Qed.

Lemma In_fold_add_key (ks dk : list rkey) (k : rkey) :
  In k (fold_left add_key ks dk) <-> In k dk \/ In k ks.
Proof.
  revert dk. induction ks as [|k0 ks IH]; intros dk; cbn [fold_left In].
  - tauto.
  - rewrite IH, In_add_key. split.
    + intros [[Hin | ->] | Hin]; auto.
    + intros [Hin | [-> | Hin]]; auto.
Qed.

Lemma keyToID_of_table (t : LeafTableInfo) (dk : list rkey) (k : rkey) :
  table_inv t dk ->
  LeafTableInfo_keyToID t k = index_of k dk.
Proof.
  intros (_ & Hids & _ & _). unfold LeafTableInfo_keyToID.
  rewrite Hids, aref_ordinals.
  pose proof (index_of_bound k dk).
  destruct (Z.ltb_spec (index_of k dk) 0); lia.
Qed.

(** The values kept are those of the first insertions. *)
Lemma addEntries_vals (kvs : list (rkey * rvalue)) :
  forall (t : LeafTableInfo) (dk : list rkey),
    table_inv t dk ->
    Z.of_nat (length dk) + Z.of_nat (length kvs) < 2 ^ 31 ->
    forall k,
      rb_hash_aref (vals (snd (addEntries t kvs))) k
      = match rb_hash_aref (vals t) k with
        | Some v => Some v
        | None => first_value k kvs
        end.
Proof.
  induction kvs as [|[k0 v0] kvs IH]; intros t dk Hinv Hlen k.
  - cbn [addEntries snd first_value]. destruct (rb_hash_aref (vals t) k); reflexivity.
  - cbn [addEntries].
    destruct (addEntry_step t dk k0 v0 Hinv ltac:(lia)) as (t1 & E1 & Hinv1 & Hsame).
    assert (Hvals1 : forall k', rb_hash_aref (vals t1) k'
              = match rb_hash_aref (vals t) k' with
                | Some v => Some v
                | None => if rkey_eqb k0 k' then Some v0 else None
                end).
    { intros k'. destruct (Z.ltb_spec (index_of k0 dk) 0) as [Hnew | Hold].
      - assert (Et1 : vals t1 = rb_hash_aset (vals t) k0 v0).
        { unfold LeafTableInfo_addEntry in E1.
          destruct Hinv as (_ & Hids & _ & _). rewrite Hids, aref_ordinals in E1.
          destruct (Z.ltb_spec (index_of k0 dk) 0); [| lia].
          injection E1 as _ <-. reflexivity. }
        rewrite Et1, rb_hash_aref_aset.
        destruct (rkey_eqb k0 k') eqn:E.
        + apply rkey_eqb_eq in E. subst k'.
          assert (Hnone : rb_hash_aref (vals t) k0 = None).
          { apply rb_hash_aref_None. destruct Hinv as (_ & _ & Hk & _).
            rewrite Hk. apply index_of_neg_not_In. exact Hnew. }
          rewrite Hnone. reflexivity.
        + destruct (rb_hash_aref (vals t) k'); reflexivity.
      - rewrite (Hsame Hold).
        destruct (rb_hash_aref (vals t) k') eqn:Ek'; [reflexivity |].
        destruct (rkey_eqb k0 k') eqn:E; [| reflexivity].
        apply rkey_eqb_eq in E. subst k'. exfalso.
        apply rb_hash_aref_None in Ek'. apply Ek'.
        destruct Hinv as (_ & _ & Hk & _). rewrite Hk.
        apply index_of_nonneg_In. exact Hold. }
    rewrite E1.
    assert (Hlen1 : Z.of_nat (length (add_key dk k0)) + Z.of_nat (length kvs) < 2 ^ 31).
    { pose proof (add_key_length dk k0). cbn [length] in Hlen. lia. }
    specialize (IH t1 (add_key dk k0) Hinv1 Hlen1 k).
    destruct (addEntries t1 kvs) as [ords t2] eqn:E2. cbn [snd] in IH |- *.
    rewrite IH, Hvals1. cbn [first_value].
    destruct (rb_hash_aref (vals t) k); [reflexivity |].
    destruct (rkey_eqb k0 k); reflexivity.
Qed.

Lemma first_value_In (k : rkey) (kvs : list (rkey * rvalue)) (v : rvalue) :
  first_value k kvs = Some v -> In k (map fst kvs).
Proof.
  induction kvs as [|[k0 v0] kvs IH]; cbn [first_value map fst In]; [discriminate |].
  destruct (rkey_eqb k0 k) eqn:E.
  - intros _. left. apply rkey_eqb_eq. exact E.
  - intros Hfv. right. exact (IH Hfv).
Qed.

Lemma getLeavesTable_of_table (t : LeafTableInfo) (dk : list rkey) :
  table_inv t dk ->
  LeafTableInfo_getLeavesTable t
  = map (fun key => match rb_hash_aref (vals t) key with
                    | Some v => v
                    | None => RNil
                    end) dk.
Proof.
  intros (Hpos & _ & Hk & _). unfold LeafTableInfo_getLeavesTable.
  rewrite Hk, Hpos, Nat2Z.id, firstn_all, skipn_all. apply app_nil_r.
Qed.

(** [LeafTableInfo_keyToID] answers -1 exactly for the keys that were
    never given to [LeafTableInfo_addEntry], whatever was inserted. *)
Theorem LeafTableInfo_keyToID_missing (kvs : list (rkey * rvalue)) (k : rkey) :
  Z.of_nat (length kvs) < 2 ^ 31 ->
  let t := snd (addEntries LeafTableInfo_init kvs) in
  (LeafTableInfo_keyToID t k = -1 <-> ~ In k (map fst kvs))
  /\ (In k (map fst kvs) ->
        0 <= LeafTableInfo_keyToID t k < Z.of_nat (length (vals t))).
Proof.
  intros Hlen t.
  destruct (addEntries_spec kvs LeafTableInfo_init [] table_inv_init
              ltac:(cbn [length]; lia)) as (ords & t' & E & Hinv & _).
  assert (Et : t = t') by (subst t; rewrite E; reflexivity).
  rewrite Et. rewrite (keyToID_of_table t' _ k Hinv).
  set (dk := fold_left add_key (map fst kvs) []) in *.
  assert (Hin : In k dk <-> In k (map fst kvs)).
  { subst dk. rewrite In_fold_add_key. cbn [In]. tauto. }
  pose proof (index_of_bound k dk) as Hb.
  split.
  - rewrite <- Hin, <- index_of_neg_not_In. lia.
  - intros Hk. apply Hin in Hk. apply index_of_In in Hk.
    destruct Hinv as (_ & _ & Hkeys & _).
    rewrite <- (length_map fst), Hkeys. lia.
Qed.

Lemma LeafTableInfo_keyToID_missing_witness :
  LeafTableInfo_keyToID
    (snd (addEntries LeafTableInfo_init [(KFix 3001, RNil); (KFix 3002, RNil)]))
    (KFix 3003) = -1.
Proof.
  apply (proj1 (LeafTableInfo_keyToID_missing
                  [(KFix 3001, RNil); (KFix 3002, RNil)] (KFix 3003)
                  ltac:(cbn [length]; lia))).
  cbn [map fst In]. intros [E | [E | []]]; discriminate E.
Defined.

Lemma getLeavesTable_first_values (kvs : list (rkey * rvalue)) :
  Z.of_nat (length kvs) < 2 ^ 31 ->
  let t := snd (addEntries LeafTableInfo_init kvs) in
  let dk := distinct_keys (map fst kvs) in
  LeafTableInfo_getLeavesTable t
  = map (fun k => match first_value k kvs with Some v => v | None => RNil end) dk
  /\ (forall k v,
        first_value k kvs = Some v ->
        nth_error (LeafTableInfo_getLeavesTable t)
          (Z.to_nat (LeafTableInfo_keyToID t k)) = Some v).
Proof.
  intros Hlen t dk.
  destruct (addEntries_spec kvs LeafTableInfo_init [] table_inv_init
              ltac:(cbn [length]; lia)) as (ords & t' & E & Hinv & _).
  assert (Et : t = t') by (subst t; rewrite E; reflexivity).
  fold (distinct_keys (map fst kvs)) in Hinv. fold dk in Hinv.
  assert (Hvals : forall k, rb_hash_aref (vals t) k = first_value k kvs).
  { intros k. subst t.
    rewrite (addEntries_vals kvs LeafTableInfo_init [] table_inv_init
               ltac:(cbn [length]; lia) k). reflexivity. }
  rewrite <- Et in Hinv.
  assert (Hleaves : LeafTableInfo_getLeavesTable t
            = map (fun k => match first_value k kvs with
                            | Some v => v
                            | None => RNil
                            end) dk).
  { rewrite (getLeavesTable_of_table t dk Hinv).
    apply map_ext. intros k. rewrite Hvals. reflexivity. }
  split; [exact Hleaves |].
  intros k v Hfv. rewrite Hleaves, (keyToID_of_table t dk k Hinv).
  assert (Hin : In k dk).
  { subst dk. unfold distinct_keys. apply In_fold_add_key. right.
    apply (first_value_In k kvs v Hfv). }
  clear - Hin Hfv.
  induction dk as [|k0 dk IH]; [destruct Hin |].
  cbn [index_of].
  destruct (rkey_eqb k0 k) eqn:E0.
  - apply rkey_eqb_eq in E0. subst k0. cbn [map nth_error Z.to_nat].
    rewrite Hfv. reflexivity.
  - destruct Hin as [-> | Hin]; [rewrite rkey_eqb_refl in E0; discriminate |].
    specialize (IH Hin). pose proof (index_of_In k dk Hin) as Hi.
    destruct (Z.ltb_spec (index_of k dk) 0); [lia |].
    replace (Z.to_nat (index_of k dk + 1)) with (S (Z.to_nat (index_of k dk))) by lia.
    cbn [map nth_error]. exact IH.
Qed.

(** [LeafTableInfo_getLeavesTable] after any insertions: one leaf for each
    distinct key, in the order of the ordinals, and the leaf at the
    ordinal of a key is the value given when the key was first inserted;
    the values given with later insertions of the key are dropped. *)
Theorem LeafTableInfo_getLeavesTable_first_values (kvs : list (rkey * rvalue)) :
  Z.of_nat (length kvs) < 2 ^ 31 ->
  let t := snd (addEntries LeafTableInfo_init kvs) in
  let dk := distinct_keys (map fst kvs) in
  LeafTableInfo_getLeavesTable t
  = map (fun k => match first_value k kvs with Some v => v | None => RNil end) dk
  /\ (forall k v,
        first_value k kvs = Some v ->
        nth_error (LeafTableInfo_getLeavesTable t)
          (Z.to_nat (LeafTableInfo_keyToID t k)) = Some v).
Proof. apply getLeavesTable_first_values. Qed.

Lemma LeafTableInfo_getLeavesTable_first_values_witness :
  LeafTableInfo_getLeavesTable
    (snd (addEntries LeafTableInfo_init
            [(KFix 3001, RFix 1); (KFix 3002, RFix 2); (KFix 3001, RFix 3)]))
  = [RFix 1; RFix 2].
Proof.
  apply (proj1 (LeafTableInfo_getLeavesTable_first_values
                  [(KFix 3001, RFix 1); (KFix 3002, RFix 2); (KFix 3001, RFix 3)]
                  ltac:(cbn [length]; lia))).
Defined.

(** ** Strings too short for the nodes announced *)

Section Short.

Variable H : Host.

Lemma len_nibble_nonneg (rt : Z) : 0 <= rt -> 0 <= Z.shiftr (Z.land rt 240) 4.
Proof.
  intros Hrt. apply Z.shiftr_nonneg. apply Z.land_nonneg. left. exact Hrt.
Qed.

(** A record takes four bytes at least. *)
Lemma nr_end_ge (s : list byte) (bin : Z) :
  bin + 4 <= nr_end (read_node_record H s bin).
Proof.
  unfold read_node_record. cbv zeta. cbn [nr_end].
  pose proof (byte_to_Z_range (bin_byte H s bin)).
  pose proof (byte_to_Z_range (bin_byte H s (bin + 1))).
  pose proof (byte_to_Z_range (bin_byte H s (bin + 2))).
  pose proof (byte_to_Z_range (bin_byte H s (bin + 3))).
  pose proof (len_nibble_nonneg (byte_to_Z (bin_byte H s bin)) ltac:(lia)).
  pose proof (len_nibble_nonneg (byte_to_Z (bin_byte H s (bin + 1))) ltac:(lia)).
  pose proof (len_nibble_nonneg (byte_to_Z (bin_byte H s (bin + 2))) ltac:(lia)).
  lia.
Qed.

(** When the loop body returns, the record read lies within the string. *)
Lemma load_node_from_str_within (s : list byte) (relocs : NODEObjAddresses)
    (i bin : Z) (st st' : dstate) (off : Z) :
  load_node_from_str H s relocs i bin st = (st', Ok off) ->
  off = nr_end (read_node_record H s bin) /\ off <= Z.of_nat (length s).
Proof.
  intros E.
  destruct (load_node_from_str_result H s relocs i bin st)
    as [(e & He) | (st1 & Hok)]; [rewrite He in E; discriminate E |].
  rewrite Hok in E. injection E as _ <-. split; [reflexivity |].
  unfold load_node_from_str in Hok.
  destruct (nr_rtypes (read_node_record H s bin)) as [[rt0 rt1] rt2].
  destruct (nr_u (read_node_record H s bin)) as [[v0 v1] v2].
  destruct (Z.gtb_spec (nr_end (read_node_record H s bin)) (Z.of_nat (length s)))
    as [Hgt | Hle]; [discriminate Hok | exact Hle].
Qed.

Lemma load_nodes_loop_short (s : list byte) (relocs : NODEObjAddresses) :
  forall (n : nat) (i bin : Z) (st : dstate),
    (0 < n)%nat ->
    Z.of_nat (length s) < bin + 4 * Z.of_nat n ->
    exists st' e, load_nodes_loop H n s relocs i bin st = (st', Raise e).
Proof.
  induction n as [|n IH]; intros i bin st Hn Hlen; [lia |].
  cbn [load_nodes_loop]. unfold dbind.
  destruct (load_node_from_str H s relocs i bin st) as [st1 [off | e]] eqn:E;
    [| eexists; eexists; reflexivity].
  destruct (load_node_from_str_within s relocs i bin st st1 off E) as [Hoff Hin].
  pose proof (nr_end_ge s bin) as Hge. rewrite <- Hoff in Hge.
  apply IH; lia.
Qed.

End Short.

(** [load_nodes_from_str] raises on every string that has fewer than four
    bytes for each of the [nodes_len] nodes announced: a record has the
    four bytes [rtypes] at least, and the loop checks after each record
    that it did not read beyond the end of the string. *)
Theorem load_nodes_from_str_short (H : Host) (data : list (string * rvalue))
    (relocs : NODEObjAddresses) (s : list byte) (st : dstate) :
  data_aref data "nodes" = RStr s ->
  0 < nodes_len relocs ->
  Z.of_nat (length s) < 4 * nodes_len relocs ->
  exists st' e, load_nodes_from_str H data relocs st = (st', Raise e).
Proof.
  intros Hdata Hn Hlen. unfold load_nodes_from_str. rewrite Hdata.
  apply load_nodes_loop_short; lia.
Qed.

Lemma load_nodes_from_str_short_witness :
  exists st' e,
    load_nodes_from_str ruby22_x64 [("nodes"%string, RStr [x00; x00; x00])]
      one_node_relocs (dstate_init (fun _ => None)) = (st', Raise e).
Proof.
  apply (load_nodes_from_str_short ruby22_x64
           [("nodes"%string, RStr [x00; x00; x00])] one_node_relocs
           [x00; x00; x00] (dstate_init (fun _ => None))).
  - reflexivity.
  - vm_compute. reflexivity.
  - vm_compute. reflexivity.
Defined.

(** ** What a failed load leaves behind *)

Lemma ivs_kept_refl (st : dstate) : ivs_kept st st.
Proof. repeat split. Qed.

Lemma ivs_kept_trans (st1 st2 st3 : dstate) :
  ivs_kept st1 st2 -> ivs_kept st2 st3 -> ivs_kept st1 st3.
Proof.
  intros (A1 & A2 & A3 & A4) (B1 & B2 & B3 & B4). repeat split; congruence.
Qed.

Lemma keeps_dret {A : Type} (a : A) : keeps_ivs (dret a).
Proof. intros st. apply ivs_kept_refl. Qed.

Lemma keeps_draise {A : Type} (e : error) : keeps_ivs (@draise A e).
Proof. intros st. apply ivs_kept_refl. Qed.

Lemma keeps_dlift {A : Type} (r : result A) : keeps_ivs (dlift r).
Proof. intros st. apply ivs_kept_refl. Qed.

Lemma keeps_d_alloc (ev : nat -> alloc_event) : keeps_ivs (d_alloc ev).
Proof. intros st. repeat split. Qed.

Lemma keeps_d_store (a : VALUE) (o : hobj) : keeps_ivs (d_store a o).
Proof. intros st. repeat split. Qed.

Lemma keeps_d_memory : keeps_ivs d_memory.
Proof. intros st. apply ivs_kept_refl. Qed.

Lemma keeps_d_count : keeps_ivs d_count.
Proof. intros st. apply ivs_kept_refl. Qed.

Lemma keeps_dbind {A B : Type} (c : D A) (k : A -> D B) :
  keeps_ivs c -> (forall a, keeps_ivs (k a)) -> keeps_ivs (dbind c k).
Proof.
  intros Hc Hk st. unfold dbind. specialize (Hc st).
  destruct (c st) as [st1 [a | e]]; cbn [fst] in *; [| exact Hc].
  apply (ivs_kept_trans st st1); [exact Hc | apply Hk].
Qed.

Lemma keeps_ALLOC_N (what : string) (n : Z) : keeps_ivs (ALLOC_N what n).
Proof.
  unfold ALLOC_N. destruct (n <? 0); [apply keeps_draise | apply keeps_d_alloc].
Qed.

Lemma keeps_d_map {A B : Type} (f : Z -> A -> D B) (l : list A) :
  (forall i x, keeps_ivs (f i x)) -> forall i, keeps_ivs (d_map f i l).
Proof.
  intros Hf. induction l as [|x l IH]; intros i; cbn [d_map];
    [apply keeps_dret |].
  apply keeps_dbind; [apply Hf |]. intros y.
  apply keeps_dbind; [apply IH |]. intros ys. apply keeps_dret.
Qed.

Ltac keeps_step :=
  lazymatch goal with
  | |- keeps_ivs (dbind _ _) => apply keeps_dbind; [| intros ?]
  | |- keeps_ivs (d_map _ _ _) => apply keeps_d_map; intros ? ?
  | |- keeps_ivs (dret _) => apply keeps_dret
  | |- keeps_ivs (draise _) => apply keeps_draise
  | |- keeps_ivs (dlift _) => apply keeps_dlift
  | |- keeps_ivs (d_alloc _) => apply keeps_d_alloc
  | |- keeps_ivs (d_store _ _) => apply keeps_d_store
  | |- keeps_ivs d_memory => apply keeps_d_memory
  | |- keeps_ivs d_count => apply keeps_d_count
  | |- keeps_ivs (ALLOC_N _ _) => apply keeps_ALLOC_N
  | |- keeps_ivs (if ?c then _ else _) => destruct c
  end.

Section Keeps.

Variable H : Host.

Lemma keeps_resolve_syms_ords data relocs : keeps_ivs (resolve_syms_ords H data relocs).
Proof.
  unfold resolve_syms_ords. destruct (data_aref data "symbols"); repeat keeps_step.
  match goal with |- keeps_ivs (match ?x with _ => _ end) => destruct x end;
    repeat keeps_step.
Qed.

Lemma keeps_resolve_lits_ords data relocs : keeps_ivs (resolve_lits_ords H data relocs).
Proof.
  unfold resolve_lits_ords. destruct (data_aref data "literals"); repeat keeps_step.
Qed.

Lemma keeps_resolve_gvars_ords data relocs : keeps_ivs (resolve_gvars_ords H data relocs).
Proof.
  unfold resolve_gvars_ords. destruct (data_aref data "global_entries");
    repeat keeps_step.
Qed.

Lemma keeps_resolve_idtbl relocs idtbl : keeps_ivs (resolve_idtbl H relocs idtbl).
Proof.
  unfold resolve_idtbl. destruct idtbl; cbv zeta; repeat keeps_step.
Qed.

Lemma keeps_resolve_idtbls_ords data relocs :
  keeps_ivs (resolve_idtbls_ords H data relocs).
Proof.
  unfold resolve_idtbls_ords. destruct (data_aref data "id_tables");
    repeat keeps_step; apply keeps_resolve_idtbl.
Qed.

Lemma keeps_NEW_NODE_0 : keeps_ivs (NEW_NODE_0 H).
Proof. unfold NEW_NODE_0. repeat keeps_step. Qed.

Lemma keeps_new_nodes (n : nat) : keeps_ivs (new_nodes H n).
Proof.
  induction n as [|n IH]; cbn [new_nodes]; [apply keeps_dret |].
  apply keeps_dbind; [apply keeps_NEW_NODE_0 |]. intros a.
  apply keeps_dbind; [apply IH |]. intros l. apply keeps_dret.
Qed.

Lemma keeps_resolve_nodes_ords data n relocs :
  keeps_ivs (resolve_nodes_ords H data n relocs).
Proof.
  unfold resolve_nodes_ords. destruct (data_aref data "nodes");
    repeat keeps_step; apply keeps_new_nodes.
Qed.

Lemma keeps_resolve_args_node relocs x : keeps_ivs (resolve_args_node H relocs x).
Proof. unfold resolve_args_node. cbv zeta. repeat keeps_step. Qed.

Lemma keeps_resolve_args_sym msg relocs ord : keeps_ivs (resolve_args_sym msg relocs ord).
Proof. unfold resolve_args_sym. repeat keeps_step. Qed.

Lemma keeps_resolve_args_entry relocs e : keeps_ivs (resolve_args_entry H relocs e).
Proof.
  unfold resolve_args_entry.
  apply keeps_dbind; [apply keeps_d_count |]. intros k.
  apply keeps_dbind; [apply keeps_d_alloc |]. intros _.
  destruct e; try apply keeps_draise.
  do 11 (destruct l as [|? l]; try apply keeps_draise).
  repeat first [ apply keeps_resolve_args_node | apply keeps_resolve_args_sym
               | keeps_step ].
Qed.

Lemma keeps_resolve_args_ords data relocs : keeps_ivs (resolve_args_ords H data relocs).
Proof.
  unfold resolve_args_ords. destruct (data_aref data "args");
    repeat keeps_step; apply keeps_resolve_args_entry.
Qed.

Lemma keeps_load_node_from_str s relocs i bin :
  keeps_ivs (load_node_from_str H s relocs i bin).
Proof.
  unfold load_node_from_str.
  destruct (nr_rtypes (read_node_record H s bin)) as [[rt0 rt1] rt2].
  destruct (nr_u (read_node_record H s bin)) as [[v0 v1] v2].
  repeat keeps_step.
Qed.

Lemma keeps_load_nodes_loop s relocs :
  forall n i bin, keeps_ivs (load_nodes_loop H n s relocs i bin).
Proof.
  induction n as [|n IH]; intros i bin; cbn [load_nodes_loop];
    [apply keeps_dret |].
  apply keeps_dbind; [apply keeps_load_node_from_str |]. intros bin'. apply IH.
Qed.

Lemma keeps_load_nodes_from_str data relocs :
  keeps_ivs (load_nodes_from_str H data relocs).
Proof.
  unfold load_nodes_from_str. destruct (data_aref data "nodes");
    repeat keeps_step; apply keeps_load_nodes_loop.
Qed.

End Keeps.

Lemma raise_keeps_dbind {A B : Type} (c : D A) (k : A -> D B) :
  keeps_ivs c -> (forall a, raise_keeps_ivs (k a)) -> raise_keeps_ivs (dbind c k).
Proof.
  intros Hc Hk st e. unfold dbind. specialize (Hc st).
  destruct (c st) as [st1 [a | e1]]; cbn [fst snd] in *.
  - intros E. apply (ivs_kept_trans st st1); [exact Hc | exact (Hk a st1 e E)].
  - intros _. exact Hc.
Qed.

Lemma dbind_ok {A B : Type} (c : D A) (k : A -> D B) (st st' : dstate) (b : B) :
  dbind c k st = (st', Ok b) ->
  exists st1 a, c st = (st1, Ok a) /\ k a st1 = (st', Ok b).
Proof.
  unfold dbind. destruct (c st) as [st1 [a | e]]; [| discriminate].
  intros E. exists st1, a. split; [reflexivity | exact E].
Qed.

Lemma keeps_set_name (data : list (string * rvalue)) (key msg : string)
    (set : rvalue -> NodeMarshal -> NodeMarshal) :
  (forall v self,
     iv_node (set v self) = iv_node self
     /\ iv_num_of_nodes (set v self) = iv_num_of_nodes self
     /\ iv_obj_addresses (set v self) = iv_obj_addresses self) ->
  keeps_ivs (set_name data key msg set).
Proof.
  intros Hset st. unfold set_name.
  destruct (data_aref data key); try apply ivs_kept_refl;
    unfold d_set_self, ivs_kept; cbn [fst d_self d_gc];
    match goal with
    | |- context [set ?v (d_self st)] =>
        destruct (Hset v (d_self st)) as (A1 & A2 & A3)
    end; repeat split; assumption.
Qed.

Lemma dbind_ok_keeps {A B : Type} (c : D A) (k : A -> D B) (st st' : dstate) (b : B) :
  keeps_ivs c ->
  dbind c k st = (st', Ok b) ->
  exists st1 a, c st = (st1, Ok a) /\ ivs_kept st st1 /\ k a st1 = (st', Ok b).
Proof.
  intros Hc E. destruct (dbind_ok c k st st' b E) as (st1 & a & Ec & Ek).
  exists st1, a. split; [exact Ec |]. split; [| exact Ek].
  specialize (Hc st). rewrite Ec in Hc. exact Hc.
Qed.

(** ** The nodes allocated for a load *)

Section NewNodes.

Variable H : Host.

Lemma new_nodes_spec (n : nat) :
  forall st,
    exists st',
      new_nodes H n st
      = (st', Ok (map (fun j => new_address H (length (d_allocs st) + j)) (seq 0 n)))
      /\ length (d_allocs st') = (length (d_allocs st) + n)%nat
      /\ d_self st' = d_self st
      /\ (forall a,
            d_mem st' a
            = if existsb (Z.eqb a)
                   (map (fun j => new_address H (length (d_allocs st) + j)) (seq 0 n))
              then Some (ONode (mkRNode (T_NODE H) 0 0 0 0))
              else d_mem st a).
Proof.
  induction n as [|n IH]; intros st.
  - exists st. cbn [new_nodes seq map existsb]. unfold dret.
    repeat split. lia.
  - cbn [new_nodes]. unfold NEW_NODE_0, dbind, d_count, d_alloc, d_store, dret.
    cbn [fst snd d_allocs d_mem d_self d_gc].
    set (st1 := {| d_mem := mem_put (d_mem st) (new_address H (length (d_allocs st)))
                               (ONode (mkRNode (T_NODE H) 0 0 0 0));
                   d_allocs := d_allocs st
                               ++ [AllocNode (new_address H (length (d_allocs st)))];
                   d_self := d_self st;
                   d_gc := d_gc st |}).
    destruct (IH st1) as (st' & E & Hlen & Hself & Hmem).
    rewrite E. exists st'.
    assert (Hl1 : length (d_allocs st1) = S (length (d_allocs st))).
    { subst st1. cbn [d_allocs]. rewrite length_app. cbn [length]. lia. }
    assert (Hmap : map (fun j => new_address H (length (d_allocs st1) + j)) (seq 0 n)
                   = map (fun j => new_address H (length (d_allocs st) + j)) (seq 1 n)).
    { rewrite <- seq_shift, map_map. apply map_ext. intros j. rewrite Hl1.
      f_equal. lia. }
    rewrite Hmap in *.
    split.
    { cbn [seq map]. rewrite Nat.add_0_r. reflexivity. }
    split; [lia |]. split; [rewrite Hself; reflexivity |].
    intros a. rewrite Hmem. cbn [seq map existsb]. rewrite Nat.add_0_r.
    subst st1. cbn [d_mem]. unfold mem_put.
    destruct (existsb (Z.eqb a)
                (map (fun j => new_address H (length (d_allocs st) + j)) (seq 1 n)));
      [rewrite orb_true_r; reflexivity |].
    rewrite orb_false_r. destruct (a =? new_address H (length (d_allocs st)));
      reflexivity.
Qed.

Lemma NoDup_map_injective {A B : Type} (f : A -> B) (l : list A) :
  (forall x y, f x = f y -> x = y) -> NoDup l -> NoDup (map f l).
Proof.
  intros Hinj Hnd. induction Hnd as [|x l Hx Hnd IH]; cbn [map]; constructor.
  - intros Hin. apply in_map_iff in Hin. destruct Hin as (y & Ey & Hy).
    apply Hinj in Ey. subst y. exact (Hx Hy).
  - exact IH.
Qed.

Lemma resolve_nodes_ords_ok (data : list (string * rvalue)) (num_of_nodes : Z)
    (relocs relocs' : NODEObjAddresses) (st st' : dstate) :
  resolve_nodes_ords H data num_of_nodes relocs st = (st', Ok relocs') ->
  0 <= num_of_nodes
  /\ nodes_len relocs' = num_of_nodes
  /\ Z.of_nat (length (nodes_adr relocs')) = num_of_nodes.
Proof.
  unfold resolve_nodes_ords.
  destruct (data_aref data "nodes"); try (intros E; discriminate E).
  unfold ALLOC_N. destruct (Z.ltb_spec num_of_nodes 0) as [Hneg | Hpos];
    [intros E; discriminate E |].
  unfold dbind, d_alloc. cbn [fst snd].
  set (st1 := {| d_mem := d_mem st;
                 d_allocs := d_allocs st ++ [AllocTable "nodes_adr" num_of_nodes];
                 d_self := d_self st;
                 d_gc := d_gc st |}).
  destruct (new_nodes_spec (Z.to_nat num_of_nodes) st1) as (st2 & E & _).
  rewrite E. unfold dret. intros E'. apply (f_equal snd) in E'. cbn [snd] in E'.
  apply Ok_inj in E'. subst relocs'. cbn [nodes_len nodes_adr].
  split; [exact Hpos |]. split; [reflexivity |].
  rewrite length_map, length_seq. lia.
Qed.

Lemma resolve_args_ords_nodes (data : list (string * rvalue))
    (relocs relocs' : NODEObjAddresses) (st st' : dstate) :
  resolve_args_ords H data relocs st = (st', Ok relocs') ->
  nodes_adr relocs' = nodes_adr relocs /\ nodes_len relocs' = nodes_len relocs.
Proof.
  unfold resolve_args_ords.
  destruct (data_aref data "args"); try (intros E; discriminate E).
  cbv zeta. intros E.
  apply dbind_ok in E. destruct E as (st1 & [] & _ & E).
  apply dbind_ok in E. destruct E as (st2 & adr & _ & E).
  unfold dret in E. apply (f_equal snd) in E. cbn [snd] in E.
  apply Ok_inj in E. subst relocs'. split; reflexivity.
Qed.

End NewNodes.

(** [resolve_nodes_ords] on a container whose [nodes] field is a string:
    a negative number of nodes is refused by the allocator; otherwise the
    table gets [num_of_nodes] addresses, each holding a blank node of type
    [T_NODE], the rest of the memory and the other tables are as they
    were, and the addresses are pairwise distinct when the allocator
    never hands out an address twice. *)
Theorem resolve_nodes_ords_fresh (H : Host) (data : list (string * rvalue))
    (s : list byte) (num_of_nodes : Z) (relocs : NODEObjAddresses) (st : dstate) :
  data_aref data "nodes" = RStr s ->
  (num_of_nodes < 0 ->
     resolve_nodes_ords H data num_of_nodes relocs st
     = (st, Raise (ArgError "malloc: possible integer overflow")))
  /\ (0 <= num_of_nodes ->
      exists st' relocs',
        resolve_nodes_ords H data num_of_nodes relocs st = (st', Ok relocs')
        /\ nodes_len relocs' = num_of_nodes
        /\ Z.of_nat (length (nodes_adr relocs')) = num_of_nodes
        /\ (forall a, In a (nodes_adr relocs') ->
              d_mem st' a = Some (ONode (mkRNode (T_NODE H) 0 0 0 0)))
        /\ (forall a, ~ In a (nodes_adr relocs') -> d_mem st' a = d_mem st a)
        /\ syms_adr relocs' = syms_adr relocs
        /\ lits_adr relocs' = lits_adr relocs
        /\ ((forall j k, new_address H j = new_address H k -> j = k) ->
            NoDup (nodes_adr relocs'))).
Proof.
  intros Hdata. unfold resolve_nodes_ords. rewrite Hdata. unfold ALLOC_N. split.
  - intros Hneg. destruct (Z.ltb_spec num_of_nodes 0); [| lia]. reflexivity.
  - intros Hpos. destruct (Z.ltb_spec num_of_nodes 0); [lia |].
    unfold dbind, d_alloc. cbn [fst snd].
    set (st1 := {| d_mem := d_mem st;
                   d_allocs := d_allocs st
                               ++ [AllocTable "nodes_adr" num_of_nodes];
                   d_self := d_self st;
                   d_gc := d_gc st |}).
    destruct (new_nodes_spec H (Z.to_nat num_of_nodes) st1)
      as (st' & E & _ & _ & Hmem).
    rewrite E. unfold dret. eexists. eexists. split; [reflexivity |].
    cbn [nodes_len nodes_adr syms_adr lits_adr].
    set (l := map (fun j => new_address H (length (d_allocs st1) + j))
                (seq 0 (Z.to_nat num_of_nodes))) in *.
    assert (Hex : forall a, existsb (Z.eqb a) l = true <-> In a l).
    { intros a. rewrite existsb_exists. split.
      - intros (x & Hx & Ex). apply Z.eqb_eq in Ex. subst x. exact Hx.
      - intros Hin. exists a. split; [exact Hin | apply Z.eqb_refl]. }
    split; [reflexivity |].
    split; [subst l; rewrite length_map, length_seq; lia |].
    split.
    { intros a Hin. rewrite Hmem. apply Hex in Hin. rewrite Hin. reflexivity. }
    split.
    { intros a Hnin. rewrite Hmem.
      destruct (existsb (Z.eqb a) l) eqn:Eb; [| reflexivity].
      exfalso. apply Hnin. apply Hex. exact Eb. }
    split; [reflexivity |]. split; [reflexivity |].
    intros Hinj. subst l. apply NoDup_map_injective; [| apply seq_NoDup].
    intros x y Exy. apply Hinj in Exy. lia.
Qed.

Lemma resolve_nodes_ords_fresh_witness :
  exists st' relocs',
    resolve_nodes_ords ruby22_x64 (container_of tree_mem 4096) 3 relocs_init
      (dstate_init (fun _ => None)) = (st', Ok relocs')
    /\ nodes_len relocs' = 3
    /\ NoDup (nodes_adr relocs').
Proof.
  destruct (proj2 (resolve_nodes_ords_fresh ruby22_x64 (container_of tree_mem 4096)
                     [x11; x00; x11; x02; x04; x08; x01; x02;
                      x00; x00; x00; x02; x06; xe0;
                      x00; x00; x00; x02; x0a; xe0; x00]
                     3 relocs_init (dstate_init (fun _ => None))
                     ltac:(vm_compute; reflexivity)) ltac:(lia))
    as (st' & relocs' & E & Hlen & _ & _ & _ & _ & _ & Hnd).
  exists st', relocs'. split; [exact E |]. split; [exact Hlen |].
  apply Hnd. intros j k Ejk.
  change (8388608 + 40 * Z.of_nat j = 8388608 + 40 * Z.of_nat k) in Ejk. lia.
Defined.

(** ** What a load leaves in the object *)

(** [m_nodedump_from_memory] sets [@node], [@num_of_nodes] and
    [@obj_addresses] last.  When it raises, at whatever step, the three are
    as they were before the call, and the garbage collector is left
    switched off.  When it returns, [Marshal.load] gave a container,
    [@num_of_nodes] is its [num_of_nodes], which is not negative,
    [@obj_addresses] holds the tables with as many nodes, the garbage
    collector is on again and was run, and [@node] is the first of the
    nodes built, or, when the container has no node, what lies behind the
    empty table. *)
Theorem m_nodedump_from_memory_all_or_nothing (H : Host) (dump : rvalue)
    (st : dstate) :
  let r := m_nodedump_from_memory H dump st in
  (forall e, snd r = Raise e ->
     iv_node (d_self (fst r)) = iv_node (d_self st)
     /\ iv_num_of_nodes (d_self (fst r)) = iv_num_of_nodes (d_self st)
     /\ iv_obj_addresses (d_self (fst r)) = iv_obj_addresses (d_self st)
     /\ d_gc (fst r) = d_gc st ++ [GcDisable])
  /\ (snd r = Ok tt ->
      exists data relocs num,
        Marshal_load H dump = Ok (RHash data)
        /\ FIX2INT (data_aref data "num_of_nodes") = Ok num
        /\ 0 <= num
        /\ nodes_len relocs = num
        /\ Z.of_nat (length (nodes_adr relocs)) = num
        /\ iv_node (d_self (fst r)) = Some (first_node H relocs)
        /\ (0 < num -> nth_error (nodes_adr relocs) 0 = Some (first_node H relocs))
        /\ (num = 0 -> first_node H relocs = beyond_table H)
        /\ iv_num_of_nodes (d_self (fst r)) = Some num
        /\ iv_obj_addresses (d_self (fst r)) = Some relocs
        /\ d_gc (fst r) = d_gc st ++ [GcDisable; GcEnable; GcStart]).
Proof.
  cbv zeta. unfold m_nodedump_from_memory.
  set (st0 := {| d_mem := d_mem st; d_allocs := d_allocs st; d_self := d_self st;
                 d_gc := d_gc st ++ [GcDisable] |}).
  match goal with
  | |- context [dbind rb_gc_disable ?k st] =>
      change (dbind rb_gc_disable k st) with (k tt st0); cbv beta
  end.
  split.
  - assert (Hrest : forall (c : D unit) e,
              raise_keeps_ivs c -> snd (c st0) = Raise e ->
              iv_node (d_self (fst (c st0))) = iv_node (d_self st)
              /\ iv_num_of_nodes (d_self (fst (c st0))) = iv_num_of_nodes (d_self st)
              /\ iv_obj_addresses (d_self (fst (c st0))) = iv_obj_addresses (d_self st)
              /\ d_gc (fst (c st0)) = d_gc st ++ [GcDisable]).
    { intros c e Hc E. exact (Hc st0 e E). }
    intros e. apply Hrest.
    apply raise_keeps_dbind; [apply keeps_d_alloc |]. intros _.
    apply raise_keeps_dbind; [apply keeps_dlift |]. intros loaded.
    destruct loaded as [| | | |data|];
      try (intros st1 e1 _; apply ivs_kept_refl).
    apply raise_keeps_dbind.
    { destruct (data_aref data "num_of_nodes");
        first [apply keeps_draise | apply keeps_dlift]. }
    intros num.
    apply raise_keeps_dbind; [apply keeps_dlift |]. intros _.
    do 3 (apply raise_keeps_dbind;
          [apply keeps_set_name; intros v self; repeat split |]; intros _).
    apply raise_keeps_dbind; [apply keeps_resolve_syms_ords |]. intros r1.
    apply raise_keeps_dbind; [apply keeps_resolve_lits_ords |]. intros r2.
    apply raise_keeps_dbind; [apply keeps_resolve_gvars_ords |]. intros r3.
    apply raise_keeps_dbind; [apply keeps_resolve_idtbls_ords |]. intros r4.
    apply raise_keeps_dbind; [apply keeps_resolve_nodes_ords |]. intros r5.
    apply raise_keeps_dbind; [apply keeps_resolve_args_ords |]. intros r6.
    apply raise_keeps_dbind; [apply keeps_load_nodes_from_str |]. intros _.
    intros st1 e1 E. discriminate E.
  - match goal with
    | |- snd (?c st0) = Ok tt -> _ => destruct (c st0) as [st' r] eqn:E
    end.
    cbn [fst snd]. intros ->.
    apply dbind_ok_keeps in E; [| apply keeps_d_alloc].
    destruct E as (s1 & [] & _ & K1 & E).
    apply dbind_ok_keeps in E; [| apply keeps_dlift].
    destruct E as (s2 & loaded & El & K2 & E).
    unfold dlift in El. apply (f_equal snd) in El. cbn [snd] in El.
    destruct loaded as [| | | |data|]; try discriminate E.
    apply dbind_ok_keeps in E;
      [| destruct (data_aref data "num_of_nodes");
         first [apply keeps_draise | apply keeps_dlift]].
    destruct E as (s3 & num & Enum & K3 & E).
    assert (Hnum : FIX2INT (data_aref data "num_of_nodes") = Ok num).
    { apply (f_equal snd) in Enum.
      destruct (data_aref data "num_of_nodes"); unfold draise, dlift in Enum;
        cbn [snd] in Enum; first [discriminate Enum | exact Enum]. }
    apply dbind_ok_keeps in E; [| apply keeps_dlift].
    destruct E as (s4 & [] & _ & K4 & E).
    apply dbind_ok_keeps in E;
      [| apply keeps_set_name; intros v self; repeat split].
    destruct E as (s5 & [] & _ & K5 & E).
    apply dbind_ok_keeps in E;
      [| apply keeps_set_name; intros v self; repeat split].
    destruct E as (s6 & [] & _ & K6 & E).
    apply dbind_ok_keeps in E;
      [| apply keeps_set_name; intros v self; repeat split].
    destruct E as (s7 & [] & _ & K7 & E).
    apply dbind_ok_keeps in E; [| apply keeps_resolve_syms_ords].
    destruct E as (s8 & r1 & _ & K8 & E).
    apply dbind_ok_keeps in E; [| apply keeps_resolve_lits_ords].
    destruct E as (s9 & r2 & _ & K9 & E).
    apply dbind_ok_keeps in E; [| apply keeps_resolve_gvars_ords].
    destruct E as (s10 & r3 & _ & K10 & E).
    apply dbind_ok_keeps in E; [| apply keeps_resolve_idtbls_ords].
    destruct E as (s11 & r4 & _ & K11 & E).
    apply dbind_ok_keeps in E; [| apply keeps_resolve_nodes_ords].
    destruct E as (s12 & r5 & En & K12 & E).
    apply dbind_ok_keeps in E; [| apply keeps_resolve_args_ords].
    destruct E as (s13 & r6 & Ea & K13 & E).
    apply dbind_ok_keeps in E; [| apply keeps_load_nodes_from_str].
    destruct E as (s14 & [] & _ & K14 & E).
    destruct (resolve_nodes_ords_ok H data num r4 r5 s11 s12 En)
      as (Hpos & Hlen & Hadr).
    destruct (resolve_args_ords_nodes H data r5 r6 s12 s13 Ea) as (Hadr6 & Hlen6).
    assert (K : ivs_kept st0 s14).
    { repeat (eapply ivs_kept_trans; [eassumption |]). apply ivs_kept_refl. }
    destruct K as (_ & _ & _ & Kgc).
    unfold dbind, d_set_self, rb_gc_enable, rb_gc_start, d_gc_call in E.
    cbn [fst snd d_mem d_allocs d_self d_gc] in E.
    apply (f_equal fst) in E. cbn [fst] in E. subst st'.
    cbn [d_self d_gc iv_node iv_num_of_nodes iv_obj_addresses set_loaded].
    exists data, r6, num.
    split; [exact El |]. split; [exact Hnum |]. split; [exact Hpos |].
    split; [rewrite Hlen6; exact Hlen |].
    split; [rewrite Hadr6; exact Hadr |].
    split; [reflexivity |].
    split.
    { intros Hnz. unfold first_node. rewrite Hadr6 in *.
      destruct (nodes_adr r5) as [|a l]; [cbn [length] in Hadr; lia |]. reflexivity. }
    split.
    { intros Hz. unfold first_node. rewrite Hadr6 in *.
      destruct (nodes_adr r5) as [|a l]; [reflexivity |].
      cbn [length] in Hadr. lia. }
    split; [reflexivity |]. split; [reflexivity |].
    rewrite Kgc. subst st0. cbn [d_gc]. rewrite <- !app_assoc. reflexivity.
Qed.

Lemma m_nodedump_from_memory_all_or_nothing_witness :
  (let r := m_nodedump_from_memory
              (unmarshalling ruby22_x64 sample_dump (RHash (container_of dag_mem 4096)))
              (RStr sample_dump) (dstate_init (fun _ => None)) in
   snd r = Raise (ArgError "Nodes binary dump is too short")
   /\ iv_node (d_self (fst r)) = None
   /\ d_gc (fst r) = [GcDisable])
  /\ (let r := m_nodedump_from_memory
                 (unmarshalling ruby22_x64 sample_dump (RHash empty_container))
                 (RStr sample_dump) (dstate_init (fun _ => None)) in
      snd r = Ok tt
      /\ iv_node (d_self (fst r)) = Some (beyond_table ruby22_x64)
      /\ iv_num_of_nodes (d_self (fst r)) = Some 0
      /\ d_gc (fst r) = [GcDisable; GcEnable; GcStart]).
Proof.
  split.
  - cbv zeta. split; [vm_compute; reflexivity |].
    destruct (proj1 (m_nodedump_from_memory_all_or_nothing
                       (unmarshalling ruby22_x64 sample_dump
                          (RHash (container_of dag_mem 4096)))
                       (RStr sample_dump) (dstate_init (fun _ => None)))
                (ArgError "Nodes binary dump is too short")
                ltac:(vm_compute; reflexivity))
      as (Hn & _ & _ & Hg).
    split; [exact Hn | exact Hg].
  - cbv zeta. split; [vm_compute; reflexivity |].
    destruct (proj2 (m_nodedump_from_memory_all_or_nothing
                       (unmarshalling ruby22_x64 sample_dump (RHash empty_container))
                       (RStr sample_dump) (dstate_init (fun _ => None)))
                ltac:(vm_compute; reflexivity))
      as (data & relocs & num & El & Enum & _ & _ & _ & Hn & _ & Hz & Hnum & _ & Hg).
    vm_compute in El. apply Ok_inj in El.
    assert (Hd : data = empty_container).
    { apply (f_equal (fun x => match x with RHash d => d | _ => [] end)) in El.
      symmetry. exact El. }
    subst data. vm_compute in Enum. apply Ok_inj in Enum. subst num.
    rewrite Hn, Hnum, Hg, (Hz eq_refl). repeat split; reflexivity.
Defined.

(** ** Graphs with a cycle *)

(** [count_num_of_nodes] has no bound on its depth and keeps no record of
    the nodes it is in: on a set of nodes that is closed under "the node in
    the first slot" (a cycle through first slots), whatever the depth
    allowed, the walk does not come to an end. *)
Theorem count_num_of_nodes_cycle (H : Host) (ctbl : list Z) (m : memory)
    (P : VALUE -> Prop) :
  (forall a, P a ->
     a <> 0 /\ TYPE H m a = T_NODE H
     /\ exists n, m a = Some (ONode n) /\ P (u1 n)
                  /\ forall p, exists ut1 ut2,
                       count_child_types ctbl n p = Ok (NT_NODE, ut1, ut2)) ->
  forall (fuel : nat) (node parent : VALUE) (info : NODEInfo),
    P node -> P parent ->
    count_num_of_nodes H ctbl fuel m node parent info = Raise Diverges.
Proof.
  intros Hclosed. induction fuel as [|fuel IH]; intros node parent info Hn Hp;
    [reflexivity |].
  destruct (Hclosed node Hn) as (Hnz & Hty & n & Hm & Hnext & Hut).
  destruct (Hclosed parent Hp) as (_ & _ & p & Hmp & _ & _).
  destruct (Hut p) as (ut1 & ut2 & Ect).
  cbn [count_num_of_nodes].
  destruct (Z.eqb_spec node 0) as [E0 | _]; [contradiction |].
  rewrite Hty, Z.eqb_refl. cbn [negb].
  unfold load_node at 1. rewrite Hm. cbn [bind].
  unfold load_node at 1. rewrite Hmp. cbn [bind].
  rewrite Ect. cbn [bind]. change (NT_NODE =? NT_NODE) with true. cbv iota.
  rewrite (IH (u1 n) node _ Hnext Hn). reflexivity.
Qed.

Lemma count_num_of_nodes_cycle_witness :
  count_num_of_nodes ruby22_x64 ruby22_ctbl 1000 loop_mem 4096 4096 NODEInfo_init
  = Raise Diverges.
Proof.
  apply (count_num_of_nodes_cycle ruby22_x64 ruby22_ctbl loop_mem
           (fun a => a = 4096)); [| reflexivity | reflexivity].
  intros a ->. split; [discriminate |]. split; [reflexivity |].
  exists (mkRNode (node_flags NODE_BLOCK 1) 0 4096 0 0).
  split; [reflexivity |]. split; [reflexivity |].
  intros p. exists NT_NULL, NT_NODE. reflexivity.
Defined.

(** ** The size of the node records *)

Section RecordSize.

Variable H : Host.
Variable ctbl : list Z.

Lemma dump_node_value_length (m : memory) (info : NODEInfo) (node : RNode)
    (type : Z) (value : VALUE) (child_id : Z) (rt : Z) (b : list byte) :
  dump_node_value H m info node type value child_id = Ok (rt, b) ->
  (length b <= 8)%nat.
Proof.
  intros E.
  destruct (dump_node_value_form H _ _ _ _ _ _ _ E) as (vl & x & Er & _).
  apply (f_equal snd) in Er. unfold DUMP_RAW_VALUE in Er. cbv zeta in Er.
  cbn [snd] in Er. rewrite Er. apply value_to_bin_length.
Qed.

Lemma dump_node_record_length (m : memory) (info : NODEInfo) (key : rkey)
    (rec : list byte) :
  dump_node_record H ctbl m info key = Ok rec ->
  4 <= Z.of_nat (length rec) <= node_size.
Proof.
  unfold dump_node_record.
  destruct (load_node m (key_address H key)) as [n |]; cbn [bind]; [| discriminate].
  destruct (dump_child_types ctbl info n) as [[[ut0 ut1] ut2]|e];
    cbn [bind]; [| discriminate].
  destruct (dump_node_value H m info n ut0 (u1 n) 1) as [[rt0 b0]|e] eqn:E0;
    cbn [bind]; [| discriminate].
  destruct (dump_node_value H m info n ut1 (u2 n) 2) as [[rt1 b1]|e] eqn:E1;
    cbn [bind]; [| discriminate].
  destruct (dump_node_value H m info n ut2 (u3 n) 3) as [[rt2 b2]|e] eqn:E2;
    cbn [bind]; [| discriminate].
  intros E. apply Ok_inj in E. subst rec.
  pose proof (dump_node_value_length _ _ _ _ _ _ _ _ E0).
  pose proof (dump_node_value_length _ _ _ _ _ _ _ _ E1).
  pose proof (dump_node_value_length _ _ _ _ _ _ _ _ E2).
  pose proof (value_to_bin_length (Z.shiftr (flags n) 5)).
  rewrite !length_app. cbn [length]. unfold node_size, SIZEOF_VALUE. lia.
Qed.

Lemma dump_nodes_loop_length (m : memory) (info : NODEInfo) :
  forall (keys : list rkey) (bin : list byte),
    dump_nodes_loop H ctbl m info keys = Ok bin ->
    4 * Z.of_nat (length keys) <= Z.of_nat (length bin)
    <= node_size * Z.of_nat (length keys).
Proof.
  induction keys as [|key keys IH]; intros bin; cbn [dump_nodes_loop].
  - intros E. apply Ok_inj in E. subst bin. cbn [length]. lia.
  - destruct (dump_node_record H ctbl m info key) as [rec |] eqn:Erec;
      cbn [bind]; [| discriminate].
    destruct (dump_nodes_loop H ctbl m info keys) as [bin' |];
      cbn [bind]; [| discriminate].
    intros E. apply Ok_inj in E. subst bin.
    pose proof (dump_node_record_length m info key rec Erec).
    specialize (IH bin' eq_refl). rewrite length_app. cbn [length]. lia.
Qed.

End RecordSize.

(** [dump_nodes] allocates [node_size] = 36 bytes for each node of the
    node table and writes the records one after the other: a record has 4
    to 36 bytes, so the records never go beyond the buffer, and the string
    returned has one byte more than the records. *)
Theorem dump_nodes_within_buffer (H : Host) (ctbl : list Z) (m : memory)
    (info : NODEInfo) (s : list byte) :
  dump_nodes H ctbl m info = Ok s ->
  let n := Z.of_nat (length (vals (nodes info))) in
  exists bin,
    dump_nodes_loop H ctbl m info (map fst (vals (nodes info))) = Ok bin
    /\ s = bin ++ [beyond H 0]
    /\ 4 * n <= Z.of_nat (length bin) <= node_size * n
    /\ (forall key rec, dump_node_record H ctbl m info key = Ok rec ->
          4 <= Z.of_nat (length rec) <= node_size).
Proof.
  intros E. cbv zeta. unfold dump_nodes in E.
  destruct (dump_nodes_loop H ctbl m info (map fst (vals (nodes info))))
    as [bin |] eqn:Ebin; cbn [bind] in E; [| discriminate].
  apply Ok_inj in E. exists bin. split; [reflexivity |].
  split; [symmetry; exact E |]. split.
  - pose proof (dump_nodes_loop_length H ctbl m info _ bin Ebin) as Hl.
    rewrite length_map in Hl. exact Hl.
  - intros key rec. apply dump_node_record_length.
Qed.

Lemma dump_nodes_within_buffer_witness :
  exists bin,
    dump_nodes_loop ruby22_x64 ruby22_ctbl tree_mem (info_of tree_mem 4096)
      (map fst (vals (nodes (info_of tree_mem 4096)))) = Ok bin
    /\ 12 <= Z.of_nat (length bin) <= 108.
Proof.
  destruct (dump_nodes_within_buffer ruby22_x64 ruby22_ctbl tree_mem
              (info_of tree_mem 4096)
              [x11; x00; x11; x02; x04; x08; x01; x02;
               x00; x00; x00; x02; x06; xe0;
               x00; x00; x00; x02; x0a; xe0; x00]
              ltac:(vm_compute; reflexivity))
    as (bin & E & _ & Hlen & _).
  exists bin. split; [exact E | exact Hlen].
Defined.

(** ** The container that [m_nodedump_to_hash] returns *)

Lemma strcmp_eq_refl (s : list byte) : strcmp_eq s s = true.
Proof.
  unfold strcmp_eq. apply bytes_eqb_eq. reflexivity.
Qed.

(** The first call of [m_nodedump_to_hash], on an object whose [@nodeinfo]
    is [nil]: whatever graph it accepts, the container it returns has the
    three signatures of the running interpreter, so that [check_hash_magic]
    of the same interpreter accepts it; its [num_of_nodes] is the Fixnum
    that [count_num_of_nodes] returned for [@node], its [nodes] the string
    of [dump_nodes], its names those of the object; the container is kept
    in [@nodehash], and the garbage collector is on again. *)
Theorem m_nodedump_to_hash_signed (H : Host) (ctbl : list Z) (fuel : nat)
    (st : dstate) (v : rvalue) :
  iv_nodeinfo (d_self st) = false ->
  snd (m_nodedump_to_hash H ctbl fuel st) = Ok v ->
  exists h num info,
    v = RHash h
    /\ data_aref h "MAGIC" = RStr NODEMARSHAL_MAGIC
    /\ data_aref h "RUBY_PLATFORM" = RStr (RUBY_PLATFORM H)
    /\ data_aref h "RUBY_VERSION" = RStr (RUBY_VERSION H)
    /\ fingerprint_matches H h = true
    /\ check_hash_magic H h = Ok tt
    /\ count_num_of_nodes H ctbl fuel (d_mem st)
         (match iv_node (d_self st) with Some a => a | None => Qnil H end)
         (match iv_node (d_self st) with Some a => a | None => Qnil H end)
         NODEInfo_init = Ok (num, info)
    /\ data_aref h "num_of_nodes" = RFix num
    /\ data_aref h "nodename" = iv_get (iv_nodename (d_self st))
    /\ data_aref h "filename" = iv_get (iv_filename (d_self st))
    /\ data_aref h "filepath" = iv_get (iv_filepath (d_self st))
    /\ (exists s, dump_nodes H ctbl (d_mem st) info = Ok s
                  /\ data_aref h "nodes" = RStr s)
    /\ iv_nodehash (d_self (fst (m_nodedump_to_hash H ctbl fuel st))) = Some h
    /\ iv_nodeinfo (d_self (fst (m_nodedump_to_hash H ctbl fuel st))) = true
    /\ d_gc (fst (m_nodedump_to_hash H ctbl fuel st))
       = d_gc st ++ [GcDisable; GcEnable].
Proof.
  intros Hinfo.
  unfold m_nodedump_to_hash, dbind, d_get_self, rb_gc_disable, rb_gc_enable,
    d_gc_call, d_alloc, d_set_self, d_memory, dlift, dret.
  cbn [fst snd d_self d_mem d_allocs d_gc].
  rewrite Hinfo. cbn [negb].
  cbn [fst snd d_self d_mem d_allocs d_gc].
  set (node := match iv_node (d_self st) with Some a => a | None => Qnil H end).
  destruct (count_num_of_nodes H ctbl fuel (d_mem st) node node NODEInfo_init)
    as [[num info] |]; cbn [fst snd]; [| intros E; discriminate E].
  cbn [fst snd d_self d_mem d_allocs d_gc].
  unfold NODEInfo_toHash. cbv zeta.
  destruct (map_result (toHash_idtbl info)
              (LeafTableInfo_getLeavesTable (idtabs info))) as [idt |];
    cbn [bind fst snd]; [| intros E; discriminate E].
  destruct (map_result (toHash_args_entry info)
              (LeafTableInfo_getLeavesTable (args info))) as [argl |];
    cbn [bind fst snd]; [| intros E; discriminate E].
  destruct (dump_nodes H ctbl (d_mem st) info) as [s |] eqn:Es;
    cbn [bind fst snd]; [| intros E; discriminate E].
  cbn [fst snd d_self d_mem d_allocs d_gc set_nodehash set_nodeinfo
       set_nodeinfo_num_of_nodes iv_nodename iv_filename iv_filepath
       iv_nodehash iv_nodeinfo].
  intros E. apply Ok_inj in E. subst v.
  eexists. exists num, info.
  split; [reflexivity |].
  cbn [app].
  split; [reflexivity |]. split; [reflexivity |]. split; [reflexivity |].
  split.
  { unfold fingerprint_matches. cbn [data_aref String.eqb Ascii.eqb Bool.eqb].
    rewrite !strcmp_eq_refl. reflexivity. }
  split.
  { unfold check_hash_magic, get_hash_strfield.
    cbn [data_aref String.eqb Ascii.eqb Bool.eqb bind].
    rewrite !strcmp_eq_refl. reflexivity. }
  split; [reflexivity |].
  repeat (split; [reflexivity |]).
  split; [exists s; split; [exact Es | reflexivity] |].
  split; [reflexivity |]. split; [reflexivity |].
  rewrite <- app_assoc. reflexivity.
Qed.

Lemma m_nodedump_to_hash_signed_witness :
  check_hash_magic ruby22_x64 (container_of tree_mem 4096) = Ok tt
  /\ iv_nodehash (d_self (fst (m_nodedump_to_hash ruby22_x64 ruby22_ctbl 100
                                 (compiled tree_mem 4096))))
     = Some (container_of tree_mem 4096).
Proof.
  destruct (m_nodedump_to_hash_signed ruby22_x64 ruby22_ctbl 100
              (compiled tree_mem 4096) (RHash (container_of tree_mem 4096))
              ltac:(reflexivity) ltac:(vm_compute; reflexivity))
    as (h & num & info & Ev & _ & _ & _ & _ & Hc & _ & _ & _ & _ & _ & _ & Hh & _).
  apply (f_equal (fun x => match x with RHash d => d | _ => [] end)) in Ev.
  subst h. split; [exact Hc | exact Hh].
Defined.

(** A later call of [m_nodedump_to_hash]: once [@nodeinfo] is set, the
    method answers with [@nodehash] as it stands, [nil] when there is none,
    and looks neither at [@node] nor at the names; it changes nothing but
    the state of the garbage collector.  Every call leaves [@nodeinfo] set,
    also one that raises, which leaves [@nodehash] as it was: after a first
    call that raised, the method returns [nil]. *)
Theorem m_nodedump_to_hash_cached (H : Host) (ctbl : list Z) (fuel : nat)
    (st : dstate) :
  let r := m_nodedump_to_hash H ctbl fuel st in
  (iv_nodeinfo (d_self st) = true ->
     snd r = Ok (match iv_nodehash (d_self st) with
                 | Some h => RHash h
                 | None => RNil
                 end)
     /\ d_self (fst r) = d_self st
     /\ d_mem (fst r) = d_mem st
     /\ d_allocs (fst r) = d_allocs st
     /\ d_gc (fst r) = d_gc st ++ [GcDisable; GcEnable])
  /\ iv_nodeinfo (d_self (fst r)) = true
  /\ (forall e, snd r = Raise e ->
        iv_nodeinfo (d_self st) = false
        /\ iv_nodehash (d_self (fst r)) = iv_nodehash (d_self st)
        /\ d_gc (fst r) = d_gc st ++ [GcDisable]
        /\ (iv_nodehash (d_self st) = None ->
            forall fuel', snd (m_nodedump_to_hash H ctbl fuel' (fst r)) = Ok RNil)).
Proof.
  cbv zeta.
  assert (Hlater : forall st1 fuel1,
            iv_nodeinfo (d_self st1) = true ->
            m_nodedump_to_hash H ctbl fuel1 st1
            = ({| d_mem := d_mem st1; d_allocs := d_allocs st1; d_self := d_self st1;
                  d_gc := (d_gc st1 ++ [GcDisable]) ++ [GcEnable] |},
               Ok (match iv_nodehash (d_self st1) with
                   | Some h => RHash h
                   | None => RNil
                   end))).
  { intros st1 fuel1 Hset.
    unfold m_nodedump_to_hash, dbind, d_get_self, rb_gc_disable, rb_gc_enable,
      d_gc_call, dret.
    cbn [fst snd d_self d_mem d_allocs d_gc]. rewrite Hset. cbn [negb].
    reflexivity. }
  split.
  { intros Hset. rewrite (Hlater st fuel Hset). cbn [fst snd d_self d_mem d_allocs d_gc].
    rewrite <- app_assoc. repeat split; reflexivity. }
  destruct (iv_nodeinfo (d_self st)) eqn:Hinfo.
  { rewrite (Hlater st fuel Hinfo). cbn [fst snd d_self].
    split; [exact Hinfo |]. intros e E. discriminate E. }
  assert (Hfirst :
    iv_nodeinfo (d_self (fst (m_nodedump_to_hash H ctbl fuel st))) = true
    /\ (forall e, snd (m_nodedump_to_hash H ctbl fuel st) = Raise e ->
          iv_nodehash (d_self (fst (m_nodedump_to_hash H ctbl fuel st)))
          = iv_nodehash (d_self st)
          /\ d_gc (fst (m_nodedump_to_hash H ctbl fuel st)) = d_gc st ++ [GcDisable])).
  { unfold m_nodedump_to_hash, dbind, d_get_self, rb_gc_disable, rb_gc_enable,
      d_gc_call, d_alloc, d_set_self, d_memory, dlift, dret.
    cbn [fst snd d_self d_mem d_allocs d_gc].
    rewrite Hinfo. cbn [negb].
    cbn [fst snd d_self d_mem d_allocs d_gc].
    set (node := match iv_node (d_self st) with Some a => a | None => Qnil H end).
    destruct (count_num_of_nodes H ctbl fuel (d_mem st) node node NODEInfo_init)
      as [[num info] | e0]; cbn [fst snd d_self d_gc];
      [| split; [reflexivity | intros e _; split; reflexivity]].
    destruct (NODEInfo_toHash H ctbl (d_mem st) info) as [ans | e0];
      cbn [fst snd d_self d_gc];
      [split; [reflexivity | intros e E; discriminate E]
      | split; [reflexivity | intros e _; split; reflexivity]]. }
  destruct Hfirst as [Hset Hraise].
  split; [exact Hset |].
  intros e E. destruct (Hraise e E) as [Hh Hg].
  split; [reflexivity |]. split; [exact Hh |]. split; [exact Hg |].
  intros Hnone fuel'. rewrite (Hlater _ fuel' Hset). cbn [snd].
  rewrite Hh, Hnone. reflexivity.
Qed.

Lemma m_nodedump_to_hash_cached_witness :
  (let r := m_nodedump_to_hash ruby22_x64 ruby22_ctbl 100 (compiled unknown_mem 4096) in
   snd r = Raise (ArgError "Cannot interpret node %d (%s)")
   /\ snd (m_nodedump_to_hash ruby22_x64 ruby22_ctbl 100 (fst r)) = Ok RNil)
  /\ (let r := m_nodedump_to_hash ruby22_x64 ruby22_ctbl 100 (compiled tree_mem 4096) in
      snd (m_nodedump_to_hash ruby22_x64 ruby22_ctbl 100 (fst r))
      = Ok (RHash (container_of tree_mem 4096))).
Proof.
  split; cbv zeta.
  - split; [vm_compute; reflexivity |].
    destruct (proj2 (proj2 (m_nodedump_to_hash_cached ruby22_x64 ruby22_ctbl 100
                              (compiled unknown_mem 4096)))
                (ArgError "Cannot interpret node %d (%s)")
                ltac:(vm_compute; reflexivity))
      as (_ & _ & _ & Hnil).
    apply Hnil. reflexivity.
  - destruct (proj1 (m_nodedump_to_hash_cached ruby22_x64 ruby22_ctbl 100
                       (fst (m_nodedump_to_hash ruby22_x64 ruby22_ctbl 100
                               (compiled tree_mem 4096))))
                ltac:(vm_compute; reflexivity))
      as (Hr & _).
    rewrite Hr. vm_compute. reflexivity.
Defined.

(** ** Node kinds that the table does not list *)

Lemma init_nodes_table_value (node_name : Z -> list byte) (ctbl : list Z) :
  init_nodes_table node_name = Ok ctbl -> ctbl = ruby22_ctbl.
Proof.
  unfold init_nodes_table, init_nodes_table_of.
  destruct (init_check_rows (S (length nodes_child_info)) node_name
              nodes_child_info 0); cbn [bind]; [| discriminate].
  intros E. vm_compute in E. apply Ok_inj in E. symmetry. exact E.
Qed.

Lemma nd_type_range (n : RNode) : 0 <= nd_type n < 128.
Proof.
  unfold nd_type, NODE_TYPEMASK, NODE_TYPESHIFT.
  rewrite Z.shiftr_land, Z.shiftr_shiftl_l by lia.
  change (Z.shiftl 127 (8 - 8)) with (Z.ones 7).
  rewrite Z.land_ones by lia.
  pose proof (Z.mod_pos_bound (Z.shiftr (flags n) 8) (2 ^ 7) ltac:(lia)) as Hb.
  change (2 ^ 7) with 128 in *.
  rewrite int32_small; [exact Hb |].
  change (2 ^ 31) with 2147483648. lia.
Qed.

Lemma unlisted_kinds (t : Z) :
  0 <= t < 128 ->
  (forall e, In e nodes_child_info -> ci_type e <> t) ->
  In t [26; 29; 34; 68; 73; 74; 86; 98; 99; 100; 101; 106; 107; 108; 109;
        110; 111; 112; 113; 114; 115; 116; 117; 118; 119; 120; 121; 122; 123;
        124; 125; 126; 127].
Proof.
  intros Ht Hno.
  assert (Hall : forallb
            (fun k =>
               existsb (fun e => ci_type e =? Z.of_nat k) nodes_child_info
               || existsb (Z.eqb (Z.of_nat k))
                    [26; 29; 34; 68; 73; 74; 86; 98; 99; 100; 101; 106; 107; 108;
                     109; 110; 111; 112; 113; 114; 115; 116; 117; 118; 119; 120;
                     121; 122; 123; 124; 125; 126; 127])
            (seq 0 128) = true) by (vm_compute; reflexivity).
  rewrite forallb_forall in Hall.
  specialize (Hall (Z.to_nat t)). rewrite Z2Nat.id in Hall by lia.
  assert (Hin : In (Z.to_nat t) (seq 0 128)) by (apply in_seq; lia).
  specialize (Hall Hin). apply orb_true_iff in Hall.
  destruct Hall as [Hl | Hu].
  - apply existsb_exists in Hl. destruct Hl as (e & He & Et).
    apply Z.eqb_eq in Et. exfalso. exact (Hno e He Et).
  - apply existsb_exists in Hu. destruct Hu as (x & Hx & Ex).
    apply Z.eqb_eq in Ex. subst x. exact Hx.
Qed.

(** A node whose kind has no row in [nodes_child_info] is refused by
    [count_num_of_nodes]: in the table that [init_nodes_table] builds, the
    three slots of such a kind are [NT_UNKNOWN]. *)
Theorem count_num_of_nodes_unknown_kind (H : Host) (node_name : Z -> list byte)
    (ctbl : list Z) (fuel : nat) (m : memory) (node parent : VALUE)
    (info : NODEInfo) (n p : RNode) :
  init_nodes_table node_name = Ok ctbl ->
  node <> 0 ->
  TYPE H m node = T_NODE H ->
  load_node m node = Ok n ->
  load_node m parent = Ok p ->
  (forall e, In e nodes_child_info -> ci_type e <> nd_type n) ->
  count_child_types ctbl n p = Raise (ArgError "Cannot interpret node %d (%s)")
  /\ count_num_of_nodes H ctbl (S fuel) m node parent info
     = Raise (ArgError "Cannot interpret node %d (%s)").
Proof.
  intros Hinit Hnz Hty Hn Hp Hno.
  apply init_nodes_table_value in Hinit. subst ctbl.
  assert (Hct : count_child_types ruby22_ctbl n p
                = Raise (ArgError "Cannot interpret node %d (%s)")).
  { pose proof (unlisted_kinds (nd_type n) (nd_type_range n) Hno) as Hin.
    unfold count_child_types. remember (nd_type n) as t eqn:Et. clear Et Hno.
    cbn [In] in Hin.
    repeat (destruct Hin as [<- | Hin]; [reflexivity |]). destruct Hin. }
  split; [exact Hct |].
  cbn [count_num_of_nodes].
  destruct (Z.eqb_spec node 0) as [E0 | _]; [contradiction |].
  rewrite Hty, Z.eqb_refl. cbn [negb]. rewrite Hn, Hp. cbn [bind].
  rewrite Hct. reflexivity.
Qed.


Lemma count_num_of_nodes_unknown_kind_witness :
  count_num_of_nodes ruby22_x64 ruby22_ctbl 1 unknown_mem 4096 4096 NODEInfo_init
  = Raise (ArgError "Cannot interpret node %d (%s)").
Proof.
  apply (count_num_of_nodes_unknown_kind ruby22_x64 (ruby_node_name ruby22_x64)
           ruby22_ctbl 0 unknown_mem 4096 4096 NODEInfo_init
           (mkRNode (node_flags 26 1) 0 0 0 0) (mkRNode (node_flags 26 1) 0 0 0 0)).
  - vm_compute. reflexivity.
  - discriminate.
  - reflexivity.
  - reflexivity.
  - reflexivity.
  - intros e He. vm_compute in He.
    repeat (destruct He as [<- | He]; [vm_compute; discriminate |]). destruct He.
Defined.

(** ** The text that [base85r_encode] writes *)

Lemma digit_in_alphabet (k : nat) :
  (k < 85)%nat -> in_alphabet (nth k val_to_char x00) = true.
Proof.
  intros Hk.
  assert (Hall : forallb (fun k => in_alphabet (nth k val_to_char x00)) (seq 0 85)
                 = true) by (vm_compute; reflexivity).
  rewrite forallb_forall in Hall. apply Hall. apply in_seq. lia.
Qed.

Lemma text_byte_digit (k : nat) :
  (k < 85)%nat -> text_byte (nth k val_to_char x00) = true.
Proof. intros Hk. unfold text_byte. rewrite digit_in_alphabet by exact Hk. reflexivity. Qed.

Lemma encode_group_text (val : Z) :
  Forall (fun c => text_byte c = true) (encode_group val).
Proof.
  unfold encode_group. apply Forall_map. apply Forall_forall. intros d _.
  unfold encode_digit. apply text_byte_digit.
  pose proof (Z.mod_pos_bound (val / d) 85 ltac:(lia)). lia.
Qed.

Lemma encode_loop_text (fuel : nat) :
  forall (inp_len pos : Z) (rest out : list byte),
    Forall (fun c => text_byte c = true) out ->
    Forall (fun c => text_byte c = true) (encode_loop fuel inp_len pos rest out).
Proof.
  induction fuel as [|fuel IH]; intros inp_len pos rest out Hout;
    cbn [encode_loop]; [exact Hout |].
  destruct (pos <? inp_len); [| exact Hout].
  destruct (read_word inp_len pos rest) as [[val pos'] rest'].
  apply IH.
  destruct (Z.rem pos' (4 * BASE85R_STR_WIDTH) =? 0).
  - apply Forall_app. split; [apply Forall_app; split;
      [exact Hout | apply encode_group_text] |].
    repeat constructor.
  - apply Forall_app. split; [exact Hout | apply encode_group_text].
Qed.

Lemma text_byte_plain (c : byte) :
  text_byte c = true -> ~ In c ruby_special /\ byte_to_Z c < 128.
Proof.
  destruct c; intros E; try discriminate E;
    (split; [intros Hin; cbn [ruby_special In] in Hin;
             repeat (destruct Hin as [Hin | Hin]; [discriminate Hin |]); exact Hin
            | vm_compute; reflexivity]).
Qed.

Lemma base85r_encode_shape (b : list byte) :
  Z.of_nat (length b) <= BASE85R_MAX_LEN ->
  exists enc rest,
    base85r_encode b = Ok enc
    /\ enc = x20 :: nth (length b mod 4) val_to_char x00 :: rest
    /\ Forall (fun c => text_byte c = true) enc
    /\ (forall c, In c enc -> ~ In c ruby_special /\ byte_to_Z c < 128)
    /\ 2 + 5 * ((Z.of_nat (length b) + 3) / 4) <= Z.of_nat (length enc)
       <= 2 + 5 * ((Z.of_nat (length b) + 3) / 4) + 2 * (Z.of_nat (length b) / 56).
Proof.
  intros Hn.
  destruct (encode_decode_loop b Hn) as (enc & Henc & _ & Hlow & _).
  assert (Hsmall : int32 (Z.of_nat (length b)) = Z.of_nat (length b)).
  { apply int32_small. unfold BASE85R_MAX_LEN in Hn.
    change (2 ^ 31) with 2147483648. lia. }
  pose proof Henc as Henc'. unfold base85r_encode in Henc'. cbv zeta in Henc'.
  rewrite Hsmall in Henc'.
  destruct (rb_str_new_check (base85_encode_buf_len (Z.of_nat (length b))));
    cbn [bind] in Henc'; [| discriminate Henc'].
  assert (Hrem : Z.rem (Z.of_nat (length b)) 4 = Z.of_nat (length b mod 4)).
  { rewrite Z.rem_mod_nonneg by lia. 
    change 4 with (Z.of_nat 4). rewrite <- Nat2Z.inj_mod. reflexivity. }
  rewrite Hrem in Henc'.
  assert (Hhd : arr_get "val_to_char" val_to_char (Z.of_nat (length b mod 4))
                = Ok (nth (length b mod 4) val_to_char x00)).
  { pose proof (Nat.mod_upper_bound (length b) 4 ltac:(lia)) as Hm.
    unfold arr_get. destruct (Z.ltb_spec (Z.of_nat (length b mod 4)) 0); [lia |].
    rewrite Nat2Z.id.
    destruct (nth_error val_to_char (length b mod 4)) as [x |] eqn:Ex.
    - rewrite (nth_error_nth _ _ _ Ex). reflexivity.
    - apply nth_error_None in Ex. change (length val_to_char) with 86%nat in Ex. lia. }
  rewrite Hhd in Henc'. cbn [bind] in Henc'.
  set (hd := nth (length b mod 4) val_to_char x00) in *.
  set (out := encode_loop (length b) (Z.of_nat (length b)) 0 b [byte_of_Z 32; hd]) in *.
  destruct (Z.of_nat (length out) >=? base85_encode_buf_len (Z.of_nat (length b)));
    [discriminate Henc' |].
  unfold rb_str_resize in Henc'.
  destruct (Z.of_nat (length out) <? 0); [discriminate Henc' |].
  rewrite Nat2Z.id, firstn_all in Henc'. apply Ok_inj in Henc'.
  assert (Htext : Forall (fun c => text_byte c = true) out).
  { subst out. apply encode_loop_text. constructor; [reflexivity |].
    constructor; [| constructor]. subst hd. apply text_byte_digit.
    pose proof (Nat.mod_upper_bound (length b) 4 ltac:(lia)). lia. }
  assert (Hshape : exists rest, out = x20 :: hd :: rest).
  { subst out.
    assert (Hpre : forall fuel inp_len pos rest o,
              exists r, encode_loop fuel inp_len pos rest ([byte_of_Z 32; hd] ++ o)
                        = x20 :: hd :: r).
    { induction fuel as [|fuel IH]; intros inp_len pos rest o; cbn [encode_loop].
      - eexists. reflexivity.
      - destruct (pos <? inp_len); [| eexists; reflexivity].
        destruct (read_word inp_len pos rest) as [[val pos'] rest'].
        destruct (Z.rem pos' (4 * BASE85R_STR_WIDTH) =? 0);
          rewrite <- ?app_assoc; apply IH. }
    apply (Hpre (length b) (Z.of_nat (length b)) 0 b []). }
  destruct Hshape as (rest & Hshape).
  exists enc, rest. split; [exact Henc |]. subst enc.
  split; [exact Hshape |]. split; [exact Htext |]. split.
  { intros c Hc. apply text_byte_plain.
    rewrite Forall_forall in Htext. exact (Htext c Hc). }
  split; [exact Hlow |].
  pose proof (encode_loop_length (length b) b 0 [byte_of_Z 32; hd]
                (Nat.le_refl _) ltac:(lia)) as Hl.
  cbv zeta in Hl. rewrite Z.add_0_l in Hl. fold out in Hl.
  destruct Hl as [Hup _]. cbn [length] in Hup.
  change (0 / 56) with 0 in Hup. lia.
Qed.

(** What [base85r_encode] returns for an input of at most
    [BASE85R_MAX_LEN] bytes: a space and the digit of the input length
    modulo 4, then digits, line feeds and spaces only, all of them below
    128 and none of them a backslash, a double quote, a hash, a brace or a
    single quote; five bytes for each group of four input bytes, and two
    more after each 56 input bytes at most. *)
Theorem base85r_encode_text (b : list byte) :
  Z.of_nat (length b) <= BASE85R_MAX_LEN ->
  exists enc rest,
    base85r_encode b = Ok enc
    /\ enc = x20 :: nth (length b mod 4) val_to_char x00 :: rest
    /\ Forall (fun c => text_byte c = true) enc
    /\ (forall c, In c enc -> ~ In c ruby_special /\ byte_to_Z c < 128)
    /\ 2 + 5 * ((Z.of_nat (length b) + 3) / 4) <= Z.of_nat (length enc)
       <= 2 + 5 * ((Z.of_nat (length b) + 3) / 4) + 2 * (Z.of_nat (length b) / 56).
Proof. apply base85r_encode_shape. Qed.

Lemma base85r_encode_text_witness :
  exists enc rest,
    base85r_encode [x01; x02; x03] = Ok enc
    /\ enc = x20 :: "D"%byte :: rest
    /\ Z.of_nat (length enc) = 7.
Proof.
  destruct (base85r_encode_text [x01; x02; x03] ltac:(vm_compute; discriminate))
    as (enc & rest & E & Hshape & _ & _ & Hlen).
  exists enc, rest. split; [exact E |]. split; [exact Hshape |].
  cbn [length] in Hlen. change ((Z.of_nat 3 + 3) / 4) with 1 in Hlen.
  change (Z.of_nat 3 / 56) with 0 in Hlen. lia.
Defined.

(** ** What [base85r_decode] writes and refuses *)

Lemma word_bytes_length (val : Z) : length (word_bytes val) = 4%nat.
Proof. reflexivity. Qed.

(** One character moves the decoder by four fifths of a byte at most. *)
Lemma decode_step_measure (ctv : list Z) (st st' : dec_state) (c : byte) :
  decode_step ctv st c = Ok st' ->
  0 <= shift st <= 4 ->
  0 <= shift st' <= 4
  /\ 5 * Z.of_nat (length (written st')) + 4 * shift st'
     <= 5 * Z.of_nat (length (written st)) + 4 * shift st + 4.
Proof.
  unfold decode_step. intros E Hsh.
  destruct (arr_get "char_to_val" ctv (byte_to_Z c)) as [digit |];
    cbn [bind] in E; [| discriminate E].
  destruct (digit =? -1); cbn [negb] in E.
  - apply Ok_inj in E. subst st'. lia.
  - destruct (tail_len st =? -1).
    + destruct (digit >? 4); [discriminate E |].
      apply Ok_inj in E. subst st'. cbn [shift written]. lia.
    + destruct (arr_get "di_val" di_val (shift st)) as [d |];
        cbn [bind] in E; [| discriminate E].
      destruct (Z.eqb_spec (shift st + 1) 5) as [E5 | N5];
        apply Ok_inj in E; subst st'; cbn [shift written].
      * rewrite length_app, word_bytes_length. lia.
      * lia.
Qed.

Lemma decode_loop_measure (ctv : list Z) (s : list byte) :
  forall st st',
    decode_loop ctv st s = Ok st' ->
    0 <= shift st <= 4 ->
    0 <= shift st' <= 4
    /\ 5 * Z.of_nat (length (written st')) + 4 * shift st'
       <= 5 * Z.of_nat (length (written st)) + 4 * shift st
          + 4 * Z.of_nat (length s).
Proof.
  induction s as [|c s IH]; intros st st' E Hsh; cbn [decode_loop] in E.
  - apply Ok_inj in E. subst st'. cbn [length]. lia.
  - destruct (decode_step ctv st c) as [st1 |] eqn:E1; cbn [bind] in E;
      [| discriminate E].
    destruct (decode_step_measure ctv st st1 c E1 Hsh) as [Hsh1 Hm1].
    destruct (IH st1 st' E Hsh1) as [Hsh' Hm'].
    split; [exact Hsh' |]. cbn [length]. lia.
Qed.

(** [base85r_decode] allocates as many bytes as its input has and writes
    four bytes for each five digits read: what it has written when the
    loop ends, and so what it returns, is no longer than four fifths of
    the input. *)
Theorem base85r_decode_within_buffer (s out : list byte) :
  base85r_decode s = Ok out ->
  exists st,
    decode_loop char_to_val dec_init s = Ok st
    /\ 5 * Z.of_nat (length (written st)) <= 4 * Z.of_nat (length s)
    /\ (length out <= length (written st))%nat
    /\ 5 * Z.of_nat (length out) <= 4 * Z.of_nat (length s).
Proof.
  unfold base85r_decode, base85r_decode_with. cbv zeta. intros E.
  destruct ((int32 (Z.of_nat (length s)) <? 6)
            && negb (int32 (Z.of_nat (length s)) =? 2)); [discriminate E |].
  destruct (rb_str_new_check (int32 (Z.of_nat (length s)))); cbn [bind] in E;
    [| discriminate E].
  destruct (decode_loop char_to_val dec_init s) as [st |] eqn:El; cbn [bind] in E;
    [| discriminate E].
  destruct (negb (shift st =? 0)); [discriminate E |].
  destruct (decode_loop_measure char_to_val s dec_init st El
              ltac:(cbn [dec_init shift]; lia)) as [Hsh Hm].
  cbn [dec_init written shift length] in Hm.
  assert (Hout : (length out <= length (written st))%nat).
  { unfold rb_str_resize in E.
    match type of E with
    | (if ?c then _ else _) = _ => destruct c; [discriminate E |]
    end.
    apply Ok_inj in E. subst out. rewrite length_firstn. lia. }
  exists st. split; [reflexivity |]. split; [lia |]. split; [exact Hout | lia].
Qed.

Lemma base85r_decode_within_buffer_witness :
  exists st,
    decode_loop char_to_val dec_init
      [x20; "D"; "A"; "b"; "t"; "e"; "G"]%byte = Ok st
    /\ 5 * Z.of_nat (length (written st)) <= 28.
Proof.
  destruct (base85r_decode_within_buffer
              [x20; "D"; "A"; "b"; "t"; "e"; "G"]%byte [x01; x02; x03]
              ltac:(vm_compute; reflexivity))
    as (st & E & Hw & _).
  exists st. split; [exact E | exact Hw].
Defined.

(** The first digit that [base85r_decode] meets is the length of the last
    group; when it is above 4, whatever bytes that are no digits stand
    before it and whatever follows, the input is refused as corrupted. *)
Theorem base85r_decode_bad_header (pre rest : list byte) (k : Z) :
  Forall skipped pre ->
  4 < k < 85 ->
  let s := pre ++ nth (Z.to_nat k) val_to_char x00 :: rest in
  6 <= Z.of_nat (length s) < 2 ^ 31 ->
  base85r_decode s = Raise (ArgError "base85r_decode: input string is corrupted").
Proof.
  intros Hpre Hk s Hlen.
  unfold base85r_decode, base85r_decode_with. cbv zeta.
  rewrite int32_small by (change (2 ^ 31) with 2147483648 in *; lia).
  destruct (Z.ltb_spec (Z.of_nat (length s)) 6); [lia |]. cbn [andb].
  unfold rb_str_new_check. destruct (Z.ltb_spec (Z.of_nat (length s)) 0); [lia |].
  cbn [bind].
  assert (Hloop : decode_loop char_to_val dec_init s
                  = Raise (ArgError "base85r_decode: input string is corrupted")).
  { subst s. rewrite decode_loop_app.
    assert (Eskip : decode_loop char_to_val dec_init pre = Ok dec_init).
    { clear - Hpre. induction Hpre as [|c pre Hc _ IH]; [reflexivity |].
      cbn [decode_loop]. rewrite (skipped_step c dec_init Hc). cbn [bind]. exact IH. }
    rewrite Eskip. cbn [bind decode_loop]. unfold decode_step.
    rewrite char_to_val_digit by lia. cbn [bind].
    destruct (Z.eqb_spec k (-1)); [lia |]. cbn [negb dec_init tail_len].
    change (-1 =? -1) with true. cbv iota.
    destruct (Z.gtb_spec k 4); [| lia]. reflexivity. }
  rewrite Hloop. reflexivity.
Qed.

Lemma base85r_decode_bad_header_witness :
  base85r_decode [x20; "F"; "A"; "A"; "A"; "A"; "A"]%byte
  = Raise (ArgError "base85r_decode: input string is corrupted").
Proof.
  apply (base85r_decode_bad_header [x20] ["A"; "A"; "A"; "A"; "A"]%byte 5).
  - repeat constructor.
  - lia.
  - vm_compute. split; [discriminate | reflexivity].
Defined.

(** One digit more at the end of what [base85r_encode] returned for a
    non-empty input leaves a group unfinished, and [base85r_decode]
    refuses the whole as corrupted. *)
Theorem base85r_decode_extra_digit (b : list byte) (k : Z) :
  b <> [] ->
  Z.of_nat (length b) <= BASE85R_MAX_LEN ->
  0 <= k < 85 ->
  exists enc,
    base85r_encode b = Ok enc
    /\ base85r_decode (enc ++ [nth (Z.to_nat k) val_to_char x00])
       = Raise (ArgError "base85r_decode: input string is corrupted").
Proof.
  intros Hne Hn Hk.
  destruct (encode_decode_loop b Hn) as (enc & Henc & Hdec & Hlow & Hup).
  exists enc. split; [exact Henc |].
  assert (Hb : 0 < Z.of_nat (length b)) by (destruct b; [contradiction | cbn [length]; lia]).
  assert (Hlen7 : 7 <= Z.of_nat (length enc))
    by (Z.to_euclidean_division_equations; lia).
  assert (Hmax : Z.of_nat (length enc) < 2 ^ 31 - 1).
  { destruct (base85r_encode_shape b Hn) as (enc' & rest & Henc' & _ & _ & _ & _ & Hhi).
    rewrite Henc in Henc'. apply Ok_inj in Henc'. subst enc'.
    unfold BASE85R_MAX_LEN in Hn. change (2 ^ 31) with 2147483648.
    Z.to_euclidean_division_equations. lia. }
  unfold base85r_decode, base85r_decode_with. cbv zeta.
  rewrite length_app. cbn [length].
  rewrite int32_small by (change (2 ^ 31) with 2147483648 in *; lia).
  destruct (Z.ltb_spec (Z.of_nat (length enc + 1)) 6); [lia |]. cbn [andb].
  unfold rb_str_new_check.
  destruct (Z.ltb_spec (Z.of_nat (length enc + 1)) 0); [lia |]. cbn [bind].
  rewrite decode_loop_app, Hdec. cbn [bind decode_loop]. unfold decode_step.
  rewrite char_to_val_digit by lia. cbn [bind tail_len shift dval written].
  destruct (Z.eqb_spec k (-1)); [lia |]. cbn [negb].
  pose proof (Z.mod_pos_bound (Z.of_nat (length b)) 4 ltac:(lia)) as Hm.
  destruct (Z.eqb_spec (Z.of_nat (length b) mod 4) (-1)); [lia |].
  reflexivity.
Qed.

Lemma base85r_decode_extra_digit_witness :
  exists enc,
    base85r_encode [x01; x02; x03] = Ok enc
    /\ base85r_decode (enc ++ ["A"%byte])
       = Raise (ArgError "base85r_decode: input string is corrupted").
Proof.
  apply (base85r_decode_extra_digit [x01; x02; x03] 0).
  - discriminate.
  - vm_compute. discriminate.
  - lia.
Defined.

(** ** Inputs of [base85r_decode] that hold no group *)

Lemma decode_loop_skipped (s : list byte) (st : dec_state) :
  Forall skipped s -> decode_loop char_to_val st s = Ok st.
Proof.
  intros Hs. induction Hs as [|c s Hc _ IH]; [reflexivity |].
  cbn [decode_loop]. rewrite (skipped_step c st Hc). cbn [bind]. exact IH.
Qed.

(** An input in which [base85r_decode] finds no digit, or no digit but
    the first one, which tells the length of the last group: with no digit
    at all, or with a first digit of 1, 2 or 3, the length computed for
    the result is negative and [rb_str_resize] refuses it; with a first
    digit of 0 or 4 the result is the empty string. *)
Theorem base85r_decode_no_group (pre post : list byte) (k : Z) :
  Forall skipped pre -> Forall skipped post ->
  0 <= k <= 4 ->
  let s := pre ++ nth (Z.to_nat k) val_to_char x00 :: post in
  (Z.of_nat (length s) = 2 \/ 6 <= Z.of_nat (length s) < 2 ^ 31) ->
  (Z.of_nat (length pre) = 2 \/ 6 <= Z.of_nat (length pre) < 2 ^ 31 ->
   base85r_decode pre = Raise (ArgError "negative string size (or size too big)"))
  /\ base85r_decode s
     = if (k =? 0) || (k =? 4) then Ok []
       else Raise (ArgError "negative string size (or size too big)").
Proof.
  intros Hpre Hpost Hk s Hlen.
  assert (Hguard : forall l : list byte,
            Z.of_nat (length l) = 2 \/ 6 <= Z.of_nat (length l) < 2 ^ 31 ->
            int32 (Z.of_nat (length l)) = Z.of_nat (length l)
            /\ ((Z.of_nat (length l) <? 6) && negb (Z.of_nat (length l) =? 2)) = false
            /\ rb_str_new_check (Z.of_nat (length l)) = Ok tt).
  { intros l Hl. split; [| split].
    - apply int32_small. change (2 ^ 31) with 2147483648 in *. lia.
    - destruct Hl as [-> | Hl]; [reflexivity |].
      destruct (Z.ltb_spec (Z.of_nat (length l)) 6); [lia | reflexivity].
    - unfold rb_str_new_check.
      destruct (Z.ltb_spec (Z.of_nat (length l)) 0); [lia | reflexivity]. }
  split.
  - intros Hl. destruct (Hguard pre Hl) as (E1 & E2 & E3).
    unfold base85r_decode, base85r_decode_with. cbv zeta.
    rewrite E1, E2, E3. cbn [bind].
    rewrite (decode_loop_skipped pre dec_init Hpre). cbn [bind]. reflexivity.
  - destruct (Hguard s Hlen) as (E1 & E2 & E3).
    unfold base85r_decode, base85r_decode_with. cbv zeta.
    rewrite E1, E2, E3. cbn [bind].
    subst s. rewrite decode_loop_app, (decode_loop_skipped pre dec_init Hpre).
    cbn [bind decode_loop]. unfold decode_step at 1.
    rewrite char_to_val_digit by lia. cbn [bind].
    destruct (Z.eqb_spec k (-1)); [lia |]. cbn [negb dec_init tail_len].
    change (-1 =? -1) with true. cbv iota.
    destruct (Z.gtb_spec k 4); [lia |]. cbn [bind shift dval written].
    rewrite decode_loop_skipped by exact Hpost. cbn [bind shift tail_len written].
    assert (Ek : k = 0 \/ k = 1 \/ k = 2 \/ k = 3 \/ k = 4) by lia.
    destruct Ek as [-> | [-> | [-> | [-> | ->]]]]; reflexivity.
Qed.

Lemma base85r_decode_no_group_witness :
  base85r_decode [x20; "A"]%byte = Ok []
  /\ base85r_decode [x20; x20; x20; x20; x20; x20]
     = Raise (ArgError "negative string size (or size too big)").
Proof.
  split.
  - apply (proj2 (base85r_decode_no_group [x20] [] 0
                    ltac:(repeat constructor) ltac:(constructor) ltac:(lia)
                    ltac:(left; reflexivity))).
  - apply (proj1 (base85r_decode_no_group [x20; x20; x20; x20; x20; x20] [] 0
                    ltac:(repeat constructor) ltac:(constructor) ltac:(lia)
                    ltac:(right; vm_compute; split; [discriminate | reflexivity]))).
    right. vm_compute. split; [discriminate | reflexivity].
Defined.

(** ** Renaming a symbol *)

Lemma find_index_Some (l : list rvalue) (s : list byte) (i : nat) :
  find_index l s = Some i ->
  nth_error l i = Some (RStr s) /\ (i < length l)%nat.
Proof.
  revert i. induction l as [|x l IH]; intros i; cbn [find_index]; [discriminate |].
  destruct x as [| n | t | a | h | v]; cbn [nth_error length];
    try (destruct (find_index l s) as [j |]; [| discriminate];
         intros [= <-]; destruct (IH j eq_refl); split; [assumption | lia]).
  destruct (bytes_eqb t s) eqn:E.
  - intros [= <-]. apply bytes_eqb_eq in E. subst t. split; [reflexivity | cbn; lia].
  - destruct (find_index l s) as [j |]; [| discriminate].
    intros [= <-]. destruct (IH j eq_refl). split; [assumption | cbn; lia].
Qed.

Lemma bytes_eqb_refl (s : list byte) : bytes_eqb s s = true.
Proof. apply bytes_eqb_eq. reflexivity. Qed.

Lemma head_match (x : rvalue) (s : list byte) :
  match x with RStr t => bytes_eqb t s | _ => false end = true <-> x = RStr s.
Proof.
  destruct x as [| n | t | a | h | v]; try (split; discriminate).
  rewrite bytes_eqb_eq. split; [intros -> | intros [= ->]]; reflexivity.
Qed.

Lemma find_index_None (l : list rvalue) (s : list byte) :
  find_index l s = None <-> ~ In (RStr s) l.
Proof.
  induction l as [|x l IH]; cbn [find_index In]; [tauto |].
  destruct (match x with RStr t => bytes_eqb t s | _ => false end) eqn:E.
  - apply head_match in E. split; [discriminate |]. intros Hn. exfalso. auto.
  - assert (Hx : x <> RStr s).
    { intros Ex. apply head_match in Ex. rewrite Ex in E. discriminate E. }
    destruct (find_index l s) as [j |].
    + split; [discriminate |]. intros Hn. exfalso.
      assert (Hl : ~ In (RStr s) l) by tauto.
      apply IH in Hl. discriminate Hl.
    + split; [| reflexivity]. intros _ [Ex | Hin]; [exact (Hx Ex) |].
      exact (proj1 IH eq_refl Hin).
Qed.

Lemma find_index_first (l : list rvalue) (s : list byte) (i : nat) :
  find_index l s = Some i -> ~ In (RStr s) (firstn i l).
Proof.
  revert i. induction l as [|x l IH]; intros i; cbn [find_index]; [discriminate |].
  destruct (match x with RStr t => bytes_eqb t s | _ => false end) eqn:E.
  - intros [= <-]. cbn [firstn]. intros [].
  - destruct (find_index l s) as [j |]; [| discriminate].
    intros [= <-]. cbn [firstn In]. intros [Ex | Hin].
    + apply head_match in Ex. rewrite Ex in E. discriminate E.
    + exact (IH j eq_refl Hin).
Qed.

Lemma find_index_intro (l : list rvalue) (s : list byte) (i : nat) :
  nth_error l i = Some (RStr s) -> ~ In (RStr s) (firstn i l) ->
  find_index l s = Some i.
Proof.
  revert i. induction l as [|x l IH]; intros i; [destruct i; discriminate |].
  destruct i as [|i]; cbn [nth_error firstn In find_index].
  - intros [= ->] _. rewrite bytes_eqb_refl. reflexivity.
  - intros Hn Hf.
    destruct (match x with RStr t => bytes_eqb t s | _ => false end) eqn:E.
    + apply head_match in E. exfalso. apply Hf. left. exact E.
    + rewrite (IH i Hn); [reflexivity |]. intros Hin. apply Hf. right. exact Hin.
Qed.

Lemma arr_set_nth_error {A : Type} (l : list A) (i : nat) (x : A) :
  (i < length l)%nat ->
  length (arr_set l i x) = length l
  /\ nth_error (arr_set l i x) i = Some x
  /\ (forall j, j <> i -> nth_error (arr_set l i x) j = nth_error l j).
Proof.
  intros Hi. unfold arr_set.
  assert (Hf : length (firstn i l) = i) by (rewrite length_firstn; lia).
  split; [| split].
  - rewrite length_app. cbn [length]. rewrite Hf, length_skipn. lia.
  - rewrite nth_error_app2 by lia. rewrite Hf, Nat.sub_diag. reflexivity.
  - intros j Hj. destruct (Nat.lt_ge_cases j i) as [Hlt | Hge].
    + rewrite nth_error_app1 by lia. rewrite nth_error_firstn.
      destruct (Nat.ltb_spec j i); [reflexivity | lia].
    + rewrite nth_error_app2 by lia. rewrite Hf.
      destruct (j - i)%nat as [|d] eqn:Ed; [lia |]. cbn [nth_error].
      rewrite nth_error_skipn. f_equal. lia.
Qed.

Lemma arr_set_arr_set {A : Type} (l : list A) (i : nat) (x y : A) :
  nth_error l i = Some y -> arr_set (arr_set l i x) i y = l.
Proof.
  revert i. induction l as [|a l IH]; intros i Hy; [destruct i; discriminate Hy |].
  destruct i as [|i].
  - injection Hy as ->. reflexivity.
  - cbn [nth_error] in Hy. specialize (IH i Hy). unfold arr_set in *.
    cbn [firstn skipn app]. f_equal. exact IH.
Qed.

Lemma arr_set_same {A : Type} (l : list A) (i : nat) (y : A) :
  nth_error l i = Some y -> arr_set l i y = l.
Proof.
  revert i. induction l as [|a l IH]; intros i Hy; [destruct i; discriminate Hy |].
  destruct i as [|i].
  - injection Hy as ->. reflexivity.
  - cbn [nth_error] in Hy. specialize (IH i Hy). unfold arr_set in *.
    cbn [firstn skipn app]. f_equal. exact IH.
Qed.

Lemma NoDup_replace {A : Type} (a b : list A) (o n : A) :
  NoDup (a ++ o :: b) -> ~ In n (a ++ o :: b) -> NoDup (a ++ n :: b).
Proof.
  induction a as [|x a IH]; cbn [app]; intros Hnd Hn.
  - inversion Hnd as [|? ? Ho Hb]; subst. constructor; [| exact Hb].
    intros Hin. apply Hn. right. exact Hin.
  - inversion Hnd as [|? ? Hx Hrest]; subst. constructor.
    + intros Hin. apply in_app_or in Hin. destruct Hin as [Hin | [-> | Hin]].
      * apply Hx. apply in_or_app. left. exact Hin.
      * apply Hn. left. reflexivity.
      * apply Hx. apply in_or_app. right. right. exact Hin.
    + apply IH; [exact Hrest |]. intros Hin. apply Hn. right. exact Hin.
Qed.

Lemma data_aref_store_same (h : list (string * rvalue)) (key : string) (v : rvalue) :
  data_aref h key <> RNil -> data_aref (data_store h key v) key = v.
Proof.
  induction h as [|[k w] h IH]; cbn [data_aref data_store]; [congruence |].
  destruct (String.eqb k key) eqn:E; cbn [data_aref]; rewrite E;
    [reflexivity | exact IH].
Qed.

Lemma data_aref_store_other (h : list (string * rvalue)) (key key' : string)
    (v : rvalue) :
  key' <> key -> data_aref (data_store h key v) key' = data_aref h key'.
Proof.
  intros Hne. induction h as [|[k w] h IH]; cbn [data_aref data_store];
    [reflexivity |].
  destruct (String.eqb k key) eqn:E; cbn [data_aref].
  - apply String.eqb_eq in E. subst k.
    destruct (String.eqb key key') eqn:E'; [| reflexivity].
    apply String.eqb_eq in E'. congruence.
  - destruct (String.eqb k key'); [reflexivity | exact IH].
Qed.

Lemma data_store_store (h : list (string * rvalue)) (key : string) (v w : rvalue) :
  data_store (data_store h key v) key w = data_store h key w.
Proof.
  induction h as [|[k x] h IH]; cbn [data_store]; [reflexivity |].
  destruct (String.eqb k key) eqn:E; cbn [data_store]; rewrite E;
    [reflexivity | f_equal; exact IH].
Qed.

Lemma data_store_same (h : list (string * rvalue)) (key : string) :
  data_store h key (data_aref h key) = h.
Proof.
  induction h as [|[k x] h IH]; cbn [data_store data_aref]; [reflexivity |].
  destruct (String.eqb k key); [reflexivity | f_equal; exact IH].
Qed.

(** [m_nodedump_change_symbol] on a preparsed object whose table of
    symbols is the array [syms]: when [new_sym] is in the table already
    the call is refused (renaming a symbol to itself included); when
    neither name is in the table it returns [nil] and changes nothing;
    otherwise the first occurrence of [old_sym], and nothing else in the
    container, is replaced by [new_sym], and a table without duplicates
    stays without duplicates. *)
Theorem m_nodedump_change_symbol_cases (h : list (string * rvalue))
    (syms : list rvalue) (old new : list byte) :
  data_aref h "symbols" = RAry syms ->
  (In (RStr new) syms ->
     m_nodedump_change_symbol (Some h) (RStr old) (RStr new)
     = Raise (ArgError "new_sym value must be absent in table of symbols"))
  /\ (~ In (RStr new) syms -> ~ In (RStr old) syms ->
      m_nodedump_change_symbol (Some h) (RStr old) (RStr new) = Ok None)
  /\ (~ In (RStr new) syms -> In (RStr old) syms ->
      exists h' syms' i,
        m_nodedump_change_symbol (Some h) (RStr old) (RStr new) = Ok (Some h')
        /\ data_aref h' "symbols" = RAry syms'
        /\ find_index syms old = Some i
        /\ length syms' = length syms
        /\ nth_error syms' i = Some (RStr new)
        /\ (forall j, j <> i -> nth_error syms' j = nth_error syms j)
        /\ (forall key, key <> "symbols"%string ->
              data_aref h' key = data_aref h key)
        /\ (NoDup syms -> NoDup syms')).
Proof.
  intros Hsyms. unfold m_nodedump_change_symbol. rewrite Hsyms.
  split; [| split].
  - intros Hin. destruct (find_index syms new) as [j |] eqn:E; [reflexivity |].
    apply find_index_None in E. contradiction.
  - intros Hnew Hold. apply find_index_None in Hnew, Hold.
    rewrite Hnew, Hold. reflexivity.
  - intros Hnew Hold. pose proof Hnew as Hnew'.
    apply find_index_None in Hnew'. rewrite Hnew'.
    destruct (find_index syms old) as [i |] eqn:Ei;
      [| apply find_index_None in Ei; contradiction].
    destruct (find_index_Some syms old i Ei) as [Hnth Hlt].
    destruct (arr_set_nth_error syms i (RStr new) Hlt) as (Hlen & Hi & Hother).
    eexists. exists (arr_set syms i (RStr new)), i.
    split; [reflexivity |].
    split; [apply data_aref_store_same; rewrite Hsyms; discriminate |].
    split; [reflexivity |]. split; [exact Hlen |]. split; [exact Hi |].
    split; [exact Hother |].
    split; [intros key Hkey; apply data_aref_store_other; exact Hkey |].
    intros Hnd. unfold arr_set.
    apply (NoDup_replace _ _ (RStr old)).
    + fold (arr_set syms i (RStr old)). rewrite (arr_set_same syms i _ Hnth).
      exact Hnd.
    + fold (arr_set syms i (RStr old)). rewrite (arr_set_same syms i _ Hnth).
      exact Hnew.
Qed.


Lemma m_nodedump_change_symbol_cases_witness :
  m_nodedump_change_symbol (Some two_syms_container)
    (RStr (list_byte_of_string "a")) (RStr (list_byte_of_string "b"))
  = Raise (ArgError "new_sym value must be absent in table of symbols").
Proof.
  apply (proj1 (m_nodedump_change_symbol_cases two_syms_container
                  [RStr (list_byte_of_string "a"); RStr (list_byte_of_string "b")]
                  (list_byte_of_string "a") (list_byte_of_string "b")
                  ltac:(reflexivity))).
  right. left. reflexivity.
Defined.

(** Renaming a symbol and renaming it back gives the container it was,
    when the old name occurs only once in the table. *)
Theorem m_nodedump_change_symbol_undo (h : list (string * rvalue))
    (syms : list rvalue) (old new : list byte) (i : nat) :
  data_aref h "symbols" = RAry syms ->
  ~ In (RStr new) syms ->
  find_index syms old = Some i ->
  ~ In (RStr old) (skipn (S i) syms) ->
  exists h',
    m_nodedump_change_symbol (Some h) (RStr old) (RStr new) = Ok (Some h')
    /\ h' = data_store h "symbols" (RAry (arr_set syms i (RStr new)))
    /\ m_nodedump_change_symbol (Some h') (RStr new) (RStr old) = Ok (Some h).
Proof.
  intros Hsyms Hnew Ei Hlater.
  destruct (find_index_Some syms old i Ei) as [Hnth Hlt].
  pose proof (find_index_first syms old i Ei) as Hfirst.
  assert (Hne : old <> new).
  { intros ->. apply Hnew. apply (nth_error_In _ _ Hnth). }
  set (syms' := arr_set syms i (RStr new)).
  exists (data_store h "symbols" (RAry syms')).
  assert (Hsyms' : data_aref (data_store h "symbols" (RAry syms')) "symbols"
                   = RAry syms')
    by (apply data_aref_store_same; rewrite Hsyms; discriminate).
  destruct (arr_set_nth_error syms i (RStr new) Hlt) as (Hlen & Hi & Hother).
  assert (Hprefix : firstn i syms' = firstn i syms).
  { subst syms'. unfold arr_set. rewrite firstn_app, firstn_firstn, Nat.min_id.
    rewrite length_firstn, Nat.min_l by lia. rewrite Nat.sub_diag.
    cbn [firstn]. apply app_nil_r. }
  split; [| split; [reflexivity |]].
  - unfold m_nodedump_change_symbol. rewrite Hsyms.
    apply find_index_None in Hnew. rewrite Hnew, Ei. reflexivity.
  - unfold m_nodedump_change_symbol. rewrite Hsyms'.
    assert (Eold : find_index syms' old = None).
    { apply find_index_None. subst syms'. unfold arr_set. intros Hin.
      apply in_app_or in Hin. destruct Hin as [Hin | [E | Hin]].
      - exact (Hfirst Hin).
      - injection E as E. exact (Hne (eq_sym E)).
      - exact (Hlater Hin). }
    assert (Enew : find_index syms' new = Some i).
    { apply find_index_intro; [exact Hi |]. rewrite Hprefix. intros Hin.
      apply Hnew. rewrite <- (firstn_skipn i syms). apply in_or_app. left.
      exact Hin. }
    rewrite Eold, Enew. rewrite data_store_store.
    subst syms'. rewrite (arr_set_arr_set syms i (RStr new) (RStr old) Hnth).
    rewrite <- Hsyms. rewrite data_store_same. reflexivity.
Qed.

Lemma m_nodedump_change_symbol_undo_witness :
  exists h',
    m_nodedump_change_symbol (Some two_syms_container)
      (RStr (list_byte_of_string "a")) (RStr (list_byte_of_string "c"))
    = Ok (Some h')
    /\ m_nodedump_change_symbol (Some h')
         (RStr (list_byte_of_string "c")) (RStr (list_byte_of_string "a"))
       = Ok (Some two_syms_container).
Proof.
  destruct (m_nodedump_change_symbol_undo two_syms_container
              [RStr (list_byte_of_string "a"); RStr (list_byte_of_string "b")]
              (list_byte_of_string "a") (list_byte_of_string "c") 0%nat)
    as (h' & E1 & _ & E2).
  - reflexivity.
  - cbn [In]. intros [E | [E | []]]; discriminate E.
  - reflexivity.
  - cbn [skipn In]. intros [E | []]. discriminate E.
  - exists h'. split; [exact E1 | exact E2].
Defined.

(** ** Identifiers from the encoder to the loader *)

Lemma fixnum_spec (i : Z) :
  0 <= i < 2 ^ 63 -> fixnum i = if i <? 2 ^ 62 then i else i - 2 ^ 63.
Proof.
  intros Hi. unfold fixnum, INT2FIX, to_long, to_VALUE.
  rewrite Z.shiftr_div_pow2 by lia.
  change (2 ^ 64) with 18446744073709551616.
  change (2 ^ 63) with 9223372036854775808 in *.
  change (2 ^ 62) with 4611686018427387904.
  change (2 ^ 1) with 2.
  destruct (Z.ltb_spec i 4611686018427387904);
    Z.to_euclidean_division_equations; lia.
Qed.

Lemma fixnum_small (i : Z) : 0 <= i < 2 ^ 62 -> fixnum i = i.
Proof.
  intros Hi. rewrite fixnum_spec by (change (2 ^ 63) with (2 * 2 ^ 62); lia).
  destruct (Z.ltb_spec i (2 ^ 62)); [reflexivity | lia].
Qed.

Lemma fixnum_inj (a b : Z) :
  0 <= a < 2 ^ 63 -> 0 <= b < 2 ^ 63 -> fixnum a = fixnum b -> a = b.
Proof.
  intros Ha Hb. rewrite !fixnum_spec by assumption.
  change (2 ^ 63) with 9223372036854775808 in *.
  change (2 ^ 62) with 4611686018427387904.
  destruct (Z.ltb_spec a 4611686018427387904);
    destruct (Z.ltb_spec b 4611686018427387904); lia.
Qed.

Section Syms.

Variable H : Host.

Lemma fold_addIDEntry (ids : list Z) :
  forall t,
    fold_left (fun t id => snd (LeafTableInfo_addIDEntry H t id)) ids t
    = snd (addEntries t (map (fun id => (KFix (fixnum id), id_leaf H id)) ids)).
Proof.
  induction ids as [|id ids IH]; intros t; cbn [fold_left map addEntries];
    [reflexivity |].
  rewrite IH. unfold LeafTableInfo_addIDEntry. fold (id_leaf H id).
  destruct (LeafTableInfo_addEntry t (KFix (fixnum id)) (id_leaf H id)) as [o t1].
  cbn [snd].
  destruct (addEntries t1 (map (fun id0 => (KFix (fixnum id0), id_leaf H id0)) ids));
    reflexivity.
Qed.

Lemma first_value_id (ids : list Z) (id : Z) :
  (forall x, In x ids -> 0 <= x < 2 ^ 63) ->
  In id ids ->
  first_value (KFix (fixnum id)) (map (fun id => (KFix (fixnum id), id_leaf H id)) ids)
  = Some (id_leaf H id).
Proof.
  induction ids as [|x ids IH]; cbn [In map first_value rkey_eqb];
    [intros _ [] |].
  intros Hb Hin.
  destruct (Z.eqb_spec (fixnum x) (fixnum id)) as [E | Hne].
  - assert (Ex : x = id).
    { apply fixnum_inj; [apply Hb; left; reflexivity | | exact E].
      destruct Hin as [<- | Hin]; apply Hb; [left; reflexivity | right; exact Hin]. }
    rewrite Ex. reflexivity.
  - destruct Hin as [E | Hin]; [rewrite E in Hne; contradiction |].
    apply IH; [intros y Hy; apply Hb; right; exact Hy | exact Hin].
Qed.

Lemma dbind_step {A B : Type} (c : D A) (k : A -> D B) (st st1 : dstate) (a : A) :
  c st = (st1, Ok a) -> dbind c k st = k a st1.
Proof. intros E. unfold dbind. rewrite E. reflexivity. Qed.

Lemma d_map_pure {A B : Type} (f : Z -> A -> D B) (g : A -> B) (l : list A) :
  (forall i x, In x l -> f i x = dret (g x)) ->
  forall i st, d_map f i l st = (st, Ok (map g l)).
Proof.
  induction l as [|x l IH]; intros Hf i st; cbn [d_map map]; [reflexivity |].
  unfold dbind. rewrite (Hf i x (or_introl eq_refl)). unfold dret at 1.
  rewrite IH by (intros j y Hy; apply Hf; right; exact Hy). reflexivity.
Qed.


Lemma id_leaf_resolved (id : Z) :
  match rb_id2str H id with
  | Some name => rb_intern H (cstr name) = id
  | None => 0 <= id < 2 ^ 31
  end ->
  (fun (_ : Z) (r_sym : rvalue) =>
     match r_sym with
     | RStr s => dret (rb_intern H (cstr s))
     | RFix _ => dbind (dlift (FIX2INT r_sym)) (fun n => dret (to_VALUE n))
     | _ => draise (ArgError "Symbols table is corrupted")
     end) 0 (id_leaf H id) = dret id.
Proof.
  unfold id_leaf. destruct (rb_id2str H id) as [name |].
  - intros ->. reflexivity.
  - intros Hid. rewrite fixnum_small by (change (2 ^ 62) with (2 ^ 31 * 2 ^ 31); nia).
    cbv beta iota. unfold FIX2INT.
    destruct (Z.ltb_spec id (- 2 ^ 31)); [lia |].
    destruct (Z.leb_spec (2 ^ 31) id); [lia |]. cbn [orb].
    unfold dbind, dlift, dret. unfold to_VALUE.
    rewrite Z.mod_small by lia. reflexivity.
Qed.

Lemma syms_roundtrip (ids : list Z) (data : list (string * rvalue))
    (relocs : NODEObjAddresses) (st : dstate) :
  Z.of_nat (length ids) < 2 ^ 31 ->
  data_aref data "symbols" = RAry (LeafTableInfo_getLeavesTable (syms_of_ids H ids)) ->
  (forall id, In id ids ->
     0 <= id < 2 ^ 63
     /\ match rb_id2str H id with
        | Some name => rb_intern H (cstr name) = id
        | None => id < 2 ^ 31
        end) ->
  exists st' relocs',
    resolve_syms_ords H data relocs st = (st', Ok relocs')
    /\ syms_len relocs' = Z.of_nat (length (syms_adr relocs'))
    /\ forall id, In id ids ->
         let ord := LeafTableInfo_keyToID (syms_of_ids H ids) (KFix (fixnum id)) in
         0 <= ord < syms_len relocs'
         /\ nth_error (syms_adr relocs') (Z.to_nat ord) = Some id
         /\ forall m, resolve_slot H m relocs' VL_ID (to_VALUE ord) = Ok id.
Proof.
  intros Hlen Hdata Hids0.
  assert (Hb : forall x, In x ids -> 0 <= x < 2 ^ 63)
    by (intros x Hx; exact (proj1 (Hids0 x Hx))).
  assert (Hids : forall id, In id ids ->
            match rb_id2str H id with
            | Some name => rb_intern H (cstr name) = id
            | None => 0 <= id < 2 ^ 31
            end).
  { intros id Hid. destruct (Hids0 id Hid) as [Hr Hm].
    destruct (rb_id2str H id); [exact Hm | lia]. }
  set (kvs := map (fun id => (KFix (fixnum id), id_leaf H id)) ids).
  assert (Hkl : Z.of_nat (length kvs) < 2 ^ 31)
    by (subst kvs; rewrite length_map; exact Hlen).
  assert (Et : syms_of_ids H ids = snd (addEntries LeafTableInfo_init kvs))
    by (unfold syms_of_ids; apply fold_addIDEntry).
  destruct (getLeavesTable_first_values kvs Hkl) as [Hleaves Hnth].
  cbv zeta in Hleaves, Hnth. unfold distinct_keys in Hleaves.
  rewrite <- Et in Hleaves, Hnth.
  destruct (addEntries_spec kvs LeafTableInfo_init [] table_inv_init
              ltac:(cbn [length]; lia)) as (ords & t' & E & Hinv & _).
  assert (Et' : syms_of_ids H ids = t') by (rewrite Et, E; reflexivity).
  rewrite <- Et' in Hinv.
  set (dk := fold_left add_key (map fst kvs) []) in *.
  set (leaves := LeafTableInfo_getLeavesTable (syms_of_ids H ids)) in *.
  assert (Hdk : forall k, In k dk -> exists id, k = KFix (fixnum id) /\ In id ids).
  { intros k Hk. subst dk. apply In_fold_add_key in Hk.
    destruct Hk as [[] | Hk]. subst kvs. rewrite map_map in Hk. cbn [fst] in Hk.
    apply in_map_iff in Hk. destruct Hk as (id & <- & Hid). exists id. auto. }
  assert (Hleaf : forall x, In x leaves -> exists id, x = id_leaf H id /\ In id ids).
  { intros x Hx. rewrite Hleaves in Hx. apply in_map_iff in Hx.
    destruct Hx as (k & <- & Hk). destruct (Hdk k Hk) as (id & -> & Hid).
    exists id. subst kvs. rewrite (first_value_id ids id Hb Hid). auto. }
  set (g := fun x : rvalue =>
              match x with
              | RStr s0 => rb_intern H (cstr s0)
              | RFix n => to_VALUE n
              | _ => 0
              end).
  assert (Hg : forall id, In id ids -> g (id_leaf H id) = id).
  { intros id Hid. specialize (Hids id Hid). unfold g, id_leaf.
    destruct (rb_id2str H id) as [name |]; [exact Hids |].
    rewrite fixnum_small by (change (2 ^ 62) with (2 ^ 31 * 2 ^ 31); nia).
    unfold to_VALUE. apply Z.mod_small. lia. }
  assert (Hll : Z.of_nat (length leaves) <= Z.of_nat (length ids)).
  { rewrite Hleaves, length_map. subst dk.
    assert (Hfl : forall ks acc, (length (fold_left add_key ks acc)
                                  <= length acc + length ks)%nat).
    { induction ks as [|k ks IHk]; intros acc; cbn [fold_left length]; [lia |].
      specialize (IHk (add_key acc k)). pose proof (add_key_length acc k). lia. }
    specialize (Hfl (map fst kvs) []). cbn [length] in Hfl.
    subst kvs. rewrite !length_map in Hfl. lia. }
  assert (Hmap : forall st0,
            d_map (fun (_ : Z) (r_sym : rvalue) =>
                     match r_sym with
                     | RStr s => dret (rb_intern H (cstr s))
                     | RFix _ => dbind (dlift (FIX2INT r_sym))
                                   (fun n => dret (to_VALUE n))
                     | _ => draise (ArgError "Symbols table is corrupted")
                     end) 0 leaves st0 = (st0, Ok (map g leaves))).
  { apply d_map_pure. intros i x Hx. destruct (Hleaf x Hx) as (id & -> & Hid).
    rewrite (Hg id Hid). exact (id_leaf_resolved id (Hids id Hid)). }
  assert (Hi32 : int32 (Z.of_nat (length leaves)) = Z.of_nat (length leaves)).
  { apply int32_small. change (2 ^ 31) with 2147483648 in *. lia. }
  unfold resolve_syms_ords. rewrite Hdata. fold leaves. cbv zeta.
  rewrite Hi32. unfold ALLOC_N.
  destruct (Z.ltb_spec (Z.of_nat (length leaves)) 0); [lia |].
  rewrite (dbind_step _ _ st _ tt eq_refl).
  rewrite (dbind_step _ _ _ _ _ (Hmap _)).
  unfold dret. eexists. eexists. split; [reflexivity |].
  cbn [syms_len syms_adr]. rewrite length_map.
  split; [reflexivity |].
  intros id Hid. cbv zeta.
  pose proof (first_value_id ids id Hb Hid) as Hfv. fold kvs in Hfv.
  specialize (Hnth (KFix (fixnum id)) (id_leaf H id) Hfv). fold leaves in Hnth.
  assert (Hord : 0 <= LeafTableInfo_keyToID (syms_of_ids H ids) (KFix (fixnum id))
                 < Z.of_nat (length leaves)).
  { assert (Hsome : nth_error leaves
               (Z.to_nat (LeafTableInfo_keyToID (syms_of_ids H ids) (KFix (fixnum id))))
               <> None) by (rewrite Hnth; discriminate).
    apply nth_error_Some in Hsome.
    rewrite (keyToID_of_table _ dk (KFix (fixnum id)) Hinv) in *.
    assert (Hin : 0 <= index_of (KFix (fixnum id)) dk).
    { subst dk. apply fold_add_key_In. left. subst kvs. rewrite map_map.
      cbn [fst]. apply in_map_iff. exists id. auto. }
    lia. }
  split; [exact Hord |].
  assert (Hres : nth_error (map g leaves)
                   (Z.to_nat (LeafTableInfo_keyToID (syms_of_ids H ids) (KFix (fixnum id))))
                 = Some id).
  { rewrite (map_nth_error g _ leaves Hnth). rewrite (Hg id Hid). reflexivity. }
  split; [exact Hres |].
  intros m. unfold resolve_slot.
  change (VL_ID =? VL_RAW) with false. change (VL_ID =? VL_NODE) with false.
  change (VL_ID =? VL_ID) with true. cbv iota. cbn [syms_len syms_adr].
  rewrite to_VALUE_small by lia.
  rewrite uint32_small by (change (2 ^ 32) with 4294967296;
                           change (2 ^ 31) with 2147483648 in *; lia).
  destruct (Z.geb_spec (LeafTableInfo_keyToID (syms_of_ids H ids) (KFix (fixnum id)))
              (Z.of_nat (length leaves))); [lia |].
  unfold arr_get.
  destruct (Z.ltb_spec (LeafTableInfo_keyToID (syms_of_ids H ids) (KFix (fixnum id))) 0);
    [lia |].
  rewrite Hres. reflexivity.
Qed.

End Syms.

(** The identifiers that the encoder met, put into the table of symbols by
    [LeafTableInfo_addIDEntry] and written to the container as the leaves
    of that table, are found again by [resolve_syms_ords]: the ordinal
    that [LeafTableInfo_keyToID] gives for the Fixnum of an identifier is
    within the table that the loader builds, the table has the identifier
    at that ordinal, and a slot with location code [VL_ID] and that ordinal
    is resolved to the identifier.  This holds for identifiers below 2^63,
    which the Fixnum used as key tells apart, when [rb_intern] gives an
    identifier back from the name [rb_id2str] gave for it, and a nameless
    identifier fits an [int]. *)
Theorem resolve_syms_ords_roundtrip (H : Host) (ids : list Z)
    (data : list (string * rvalue)) (relocs : NODEObjAddresses) (st : dstate) :
  Z.of_nat (length ids) < 2 ^ 31 ->
  data_aref data "symbols" = RAry (LeafTableInfo_getLeavesTable (syms_of_ids H ids)) ->
  (forall id, In id ids ->
     0 <= id < 2 ^ 63
     /\ match rb_id2str H id with
        | Some name => rb_intern H (cstr name) = id
        | None => id < 2 ^ 31
        end) ->
  exists st' relocs',
    resolve_syms_ords H data relocs st = (st', Ok relocs')
    /\ syms_len relocs' = Z.of_nat (length (syms_adr relocs'))
    /\ forall id, In id ids ->
         let ord := LeafTableInfo_keyToID (syms_of_ids H ids) (KFix (fixnum id)) in
         0 <= ord < syms_len relocs'
         /\ nth_error (syms_adr relocs') (Z.to_nat ord) = Some id
         /\ forall m, resolve_slot H m relocs' VL_ID (to_VALUE ord) = Ok id.
Proof. apply syms_roundtrip. Qed.

Lemma resolve_syms_ords_roundtrip_witness :
  exists st' relocs',
    resolve_syms_ords ruby22_x64
      [("symbols"%string,
        RAry (LeafTableInfo_getLeavesTable (syms_of_ids ruby22_x64 [3002; 3001; 3002])))]
      relocs_init (dstate_init (fun _ => None)) = (st', Ok relocs')
    /\ nth_error (syms_adr relocs')
         (Z.to_nat (LeafTableInfo_keyToID (syms_of_ids ruby22_x64 [3002; 3001; 3002])
                      (KFix (fixnum 3001)))) = Some 3001.
Proof.
  destruct (resolve_syms_ords_roundtrip ruby22_x64 [3002; 3001; 3002]
              [("symbols"%string,
                RAry (LeafTableInfo_getLeavesTable
                        (syms_of_ids ruby22_x64 [3002; 3001; 3002])))]
              relocs_init (dstate_init (fun _ => None)))
    as (st' & relocs' & E & _ & Hall).
  - cbn [length]. lia.
  - reflexivity.
  - intros id [<- | [<- | [<- | []]]]; (split; [lia | reflexivity]).
  - exists st', relocs'. split; [exact E |].
    apply (Hall 3001). right. left. reflexivity.
Defined.

(** ** Numbers and special constants in the slots *)

Lemma dump_node_value_inline (H : Host) (m : memory) (info : NODEInfo)
    (node : RNode) (type : Z) (value : VALUE) (child_id : Z) :
  inline_slot H type value ->
  dump_node_value H m info node type value child_id
  = Ok (DUMP_RAW_VALUE VL_RAW value).
Proof.
  intros [-> | [-> | [-> Hv]]]; [reflexivity | reflexivity |].
  unfold dump_node_value.
  change ((NT_VALUE =? NT_NULL) || (NT_VALUE =? NT_LONG)) with false.
  change (NT_VALUE =? NT_NODE) with false. change (NT_VALUE =? NT_VALUE) with true.
  cbv iota. rewrite Hv. reflexivity.
Qed.

(** A slot that holds a number ([NT_LONG]), nothing ([NT_NULL]) or a
    special constant in the place of a literal is written inline, with the
    location code [VL_RAW], and the loader puts the same 64 bits into the
    node it builds. *)
Theorem inline_slots_roundtrip (H : Host) (ctbl : list Z) (m : memory)
    (info : NODEInfo) (data : list (string * rvalue)) (relocs : NODEObjAddresses)
    (st : dstate) (s : list byte) (i : nat) (key : rkey) (n : RNode) (a : VALUE)
    (ut0 ut1 ut2 : Z) :
  dump_nodes H ctbl m info = Ok s ->
  data_aref data "nodes" = RStr s ->
  Z.of_nat (length (vals (nodes info))) <= nodes_len relocs ->
  NoDup (nodes_adr relocs) ->
  snd (load_nodes_from_str H data relocs st) = Ok tt ->
  nth_error (map fst (vals (nodes info))) i = Some key ->
  load_node m (key_address H key) = Ok n ->
  nth_error (nodes_adr relocs) i = Some a ->
  dump_child_types ctbl info n = Ok (ut0, ut1, ut2) ->
  exists n',
    d_mem (fst (load_nodes_from_str H data relocs st)) a = Some (ONode n')
    /\ nd_reserved n' = 0
    /\ (inline_slot H ut0 (u1 n) -> 0 <= u1 n < 2 ^ 64 -> u1 n' = u1 n)
    /\ (inline_slot H ut1 (u2 n) -> 0 <= u2 n < 2 ^ 64 -> u2 n' = u2 n)
    /\ (inline_slot H ut2 (u3 n) -> 0 <= u3 n < 2 ^ 64 -> u3 n' = u3 n).
Proof.
  intros Hdump Hdata Hlen Hnd Hok Hkey Hn Ha Hut.
  destruct (load_nodes_from_str_restored H ctbl m info data relocs st s i key n a
              Hdump Hdata Hlen Hnd Hok Hkey Hn Ha)
    as (n' & Hmem & Hres & _ & vt0 & vt1 & vt2 & vl0 & x0 & vl1 & x1 & vl2 & x2
        & Hut' & S0 & S1 & S2 & P0 & P1 & P2).
  rewrite Hut in Hut'. apply Ok_inj in Hut'.
  assert (E0 : vt0 = ut0) by congruence.
  assert (E1 : vt1 = ut1) by congruence.
  assert (E2 : vt2 = ut2) by congruence.
  subst vt0 vt1 vt2. clear Hut'.
  exists n'. split; [exact Hmem |]. split; [exact Hres |].
  split; [| split].
  - intros Hin Hu. apply P0; [| exact Hu].
    apply (slot_dumped_raw H _ _ _ _ _ _ _ _ S0).
    apply dump_node_value_inline. exact Hin.
  - intros Hin Hu. apply P1; [| exact Hu].
    apply (slot_dumped_raw H _ _ _ _ _ _ _ _ S1).
    apply dump_node_value_inline. exact Hin.
  - intros Hin Hu. apply P2; [| exact Hu].
    apply (slot_dumped_raw H _ _ _ _ _ _ _ _ S2).
    apply dump_node_value_inline. exact Hin.
Qed.

Lemma inline_slots_roundtrip_witness :
  exists n',
    d_mem (fst (load_nodes_from_str ruby22_x64 (container_of lit_mem 4096)
                  (relocs_of (container_of lit_mem 4096))
                  (dstate_init (fun _ => None)))) 8388808 = Some (ONode n')
    /\ u1 n' = 11.
Proof.
  destruct (inline_slots_roundtrip ruby22_x64 ruby22_ctbl lit_mem
              (info_of lit_mem 4096) (container_of lit_mem 4096)
              (relocs_of (container_of lit_mem 4096))
              (dstate_init (fun _ => None))
              [x10; x00; x00; x02; x05; xc8; x0b; x00] 0%nat
              (KStr (list_byte_of_string "1000"))
              (mkRNode (node_flags NODE_LIT 1) 0 11 0 0) 8388808
              NT_VALUE NT_NULL NT_NULL)
    as (n' & Hmem & _ & H1 & _).
  - vm_compute. reflexivity.
  - vm_compute. reflexivity.
  - vm_compute. discriminate.
  - vm_compute. constructor; [intros [] | constructor].
  - vm_compute. reflexivity.
  - vm_compute. reflexivity.
  - vm_compute. reflexivity.
  - vm_compute. reflexivity.
  - vm_compute. reflexivity.
  - exists n'. split; [exact Hmem |]. apply H1.
    + right. right. split; reflexivity.
    + cbn [u1]. lia.
Defined.

(** ** Ordinals in the args entries *)

Lemma always_raises_bind_l {A B : Type} (c : D A) (k : A -> D B) :
  always_raises c -> always_raises (dbind c k).
Proof.
  intros Hc st. destruct (Hc st) as (st' & e & E). unfold dbind. rewrite E.
  eexists. eexists. reflexivity.
Qed.

Lemma always_raises_bind_r {A B : Type} (c : D A) (k : A -> D B) :
  (forall a, always_raises (k a)) -> always_raises (dbind c k).
Proof.
  intros Hk st. unfold dbind. destruct (c st) as [st1 [a | e]].
  - apply Hk.
  - eexists. eexists. reflexivity.
Qed.

Lemma always_raises_bind_dlift {A B : Type} (r : result A) (k : A -> D B) :
  (forall a, r = Ok a -> always_raises (k a)) -> always_raises (dbind (dlift r) k).
Proof.
  intros Hk st. unfold dbind, dlift. destruct r as [a | e].
  - apply (Hk a eq_refl).
  - eexists. eexists. reflexivity.
Qed.

Lemma always_raises_d_map {A B : Type} (f : Z -> A -> D B) (x : A) (l : list A) :
  In x l -> (forall i, always_raises (f i x)) ->
  forall i, always_raises (d_map f i l).
Proof.
  intros Hin Hf. induction l as [|y l IH]; [destruct Hin |].
  intros i. cbn [d_map]. destruct Hin as [-> | Hin].
  - apply always_raises_bind_l. apply Hf.
  - apply always_raises_bind_r. intros b. apply always_raises_bind_l.
    apply IH. exact Hin.
Qed.

Section Args.

Variable H : Host.

Lemma resolve_args_node_bad (relocs : NODEObjAddresses) (x : rvalue) :
  args_node_ord H x < -1 \/ nodes_len relocs <= args_node_ord H x ->
  always_raises (resolve_args_node H relocs x).
Proof.
  intros Hbad st. unfold resolve_args_node. cbv zeta. fold (args_node_ord H x).
  destruct (Z.ltb_spec (args_node_ord H x) (-1));
    [cbn [orb]; eexists; eexists; reflexivity |].
  destruct (Z.geb_spec (args_node_ord H x) (nodes_len relocs));
    [cbn [orb]; eexists; eexists; reflexivity | lia].
Qed.

Lemma resolve_args_sym_bad (msg : string) (relocs : NODEObjAddresses) (n : Z) :
  n < -1 \/ syms_len relocs <= n ->
  always_raises (resolve_args_sym msg relocs n).
Proof.
  intros Hbad st. unfold resolve_args_sym.
  destruct (Z.ltb_spec n (-1)); [cbn [orb]; eexists; eexists; reflexivity |].
  destruct (Z.geb_spec n (syms_len relocs));
    [cbn [orb]; eexists; eexists; reflexivity | lia].
Qed.

Lemma resolve_args_entry_bad (relocs : NODEObjAddresses) (l : list rvalue) :
  bad_args_entry H relocs l ->
  always_raises (resolve_args_entry H relocs (RAry l)).
Proof.
  intros (j & x & Hj & Hbad).
  unfold resolve_args_entry.
  apply always_raises_bind_r. intros k. apply always_raises_bind_r. intros _.
  assert (Hcor : always_raises (@draise VALUE (ArgError "args entry %d is corrupted")))
    by (intros st; eexists; eexists; reflexivity).
  do 10 (destruct l as [|? l]; [exact Hcor |]).
  destruct l as [|? l]; [| exact Hcor].
  apply always_raises_bind_dlift. intros n2 E2.
  apply always_raises_bind_dlift. intros n3 E3.
  apply always_raises_bind_dlift. intros n4 E4.
  apply always_raises_bind_dlift. intros n5 E5.
  apply always_raises_bind_dlift. intros n6 E6.
  destruct Hbad as [[Hin Hord] | [Hin (n & En & Hord)]].
  - pose proof (resolve_args_node_bad relocs x Hord) as Hr.
    cbn [In] in Hin.
    destruct Hin as [<- | [<- | [<- | [<- | [<- | []]]]]];
      cbn [nth_error] in Hj; injection Hj as <-.
    + apply always_raises_bind_l. exact Hr.
    + apply always_raises_bind_r. intros p0. apply always_raises_bind_l. exact Hr.
    + do 2 (apply always_raises_bind_r; intros ?).
      apply always_raises_bind_l. exact Hr.
    + do 3 (apply always_raises_bind_r; intros ?).
      apply always_raises_bind_l. exact Hr.
    + do 4 (apply always_raises_bind_r; intros ?).
      apply always_raises_bind_l. exact Hr.
  - do 5 (apply always_raises_bind_r; intros ?).
    cbn [In] in Hin.
    destruct Hin as [<- | [<- | [<- | []]]];
      cbn [nth_error] in Hj; injection Hj as <-.
    + rewrite En in E4. injection E4 as <-.
      apply always_raises_bind_l. apply resolve_args_sym_bad. exact Hord.
    + rewrite En in E5. injection E5 as <-.
      apply always_raises_bind_r. intros s4.
      apply always_raises_bind_l. apply resolve_args_sym_bad. exact Hord.
    + rewrite En in E6. injection E6 as <-.
      do 2 (apply always_raises_bind_r; intros ?).
      apply always_raises_bind_l. apply resolve_args_sym_bad. exact Hord.
Qed.

End Args.

(** [resolve_args_ords] raises when an args entry of the container has a
    node ordinal (fields 0, 1, 7, 8, 9) or a symbol ordinal (fields 4, 5,
    6) that is below -1 or not below the length of the table it refers to;
    -1 stands for no node and no symbol. *)
Theorem resolve_args_ords_rejects_bad_ordinals (H : Host)
    (data : list (string * rvalue)) (relocs : NODEObjAddresses)
    (tbl l : list rvalue) (st : dstate) :
  data_aref data "args" = RAry tbl ->
  In (RAry l) tbl ->
  bad_args_entry H relocs l ->
  exists st' e, resolve_args_ords H data relocs st = (st', Raise e).
Proof.
  intros Hdata Hin Hbad. revert st.
  change (always_raises (resolve_args_ords H data relocs)).
  unfold resolve_args_ords. rewrite Hdata. cbv zeta.
  apply always_raises_bind_r. intros _. apply always_raises_bind_l.
  apply (always_raises_d_map _ (RAry l)); [exact Hin |].
  intros i. apply resolve_args_entry_bad. exact Hbad.
Qed.

Lemma resolve_args_ords_rejects_bad_ordinals_witness :
  exists st' e,
    resolve_args_ords ruby22_x64
      [("args"%string,
        RAry [RAry [RFix 1; RFix (-1); RFix 0; RFix 0; RFix (-1); RFix (-1);
                    RFix (-1); RFix (-1); RFix (-1); RFix (-1)]])]
      one_node_relocs (dstate_init (fun _ => None)) = (st', Raise e).
Proof.
  apply (resolve_args_ords_rejects_bad_ordinals ruby22_x64 _ one_node_relocs
           [RAry [RFix 1; RFix (-1); RFix 0; RFix 0; RFix (-1); RFix (-1);
                  RFix (-1); RFix (-1); RFix (-1); RFix (-1)]]
           [RFix 1; RFix (-1); RFix 0; RFix 0; RFix (-1); RFix (-1);
            RFix (-1); RFix (-1); RFix (-1); RFix (-1)]).
  - reflexivity.
  - left. reflexivity.
  - exists 0%nat, (RFix 1). split; [reflexivity |]. left.
    split; [left; reflexivity |]. right. vm_compute. discriminate.
Defined.

(** ** The table that [init_nodes_table] builds *)

(** When [init_nodes_table] returns, whatever the names the interpreter
    gives to the node kinds, the table has three entries for each of
    [NODES_CTBL_SIZE] kinds; the entries of a kind are the three child
    types of its row in [nodes_child_info] (no row is overwritten by a
    later one), those of a kind without a row are [NT_UNKNOWN], and the
    three entries that [count_num_of_nodes] and [dump_nodes] read for a
    node are within the table. *)
Theorem init_nodes_table_rows (node_name : Z -> list byte) (ctbl : list Z) :
  init_nodes_table node_name = Ok ctbl ->
  Z.of_nat (length ctbl) = NODES_CTBL_SIZE * 3
  /\ (forall e, In e nodes_child_info -> ci_type e <> -1 ->
        arr_get "nodes_ctbl" ctbl (ci_type e * 3) = Ok (ci_child e 1)
        /\ arr_get "nodes_ctbl" ctbl (ci_type e * 3 + 1) = Ok (ci_child e 2)
        /\ arr_get "nodes_ctbl" ctbl (ci_type e * 3 + 2) = Ok (ci_child e 3))
  /\ (forall t, 0 <= t < NODES_CTBL_SIZE ->
        (forall e, In e nodes_child_info -> ci_type e <> t) ->
        arr_get "nodes_ctbl" ctbl (t * 3) = Ok NT_UNKNOWN
        /\ arr_get "nodes_ctbl" ctbl (t * 3 + 1) = Ok NT_UNKNOWN
        /\ arr_get "nodes_ctbl" ctbl (t * 3 + 2) = Ok NT_UNKNOWN)
  /\ (forall (n : RNode) (j : Z), 0 <= j < 3 ->
        exists v, arr_get "nodes_ctbl" ctbl (nd_type n * 3 + j) = Ok v).
Proof.
  intros Hinit. apply init_nodes_table_value in Hinit. subst ctbl.
  split; [reflexivity |]. split; [| split].
  - intros e He Hne.
    assert (Hall : forallb
              (fun e =>
                 (ci_type e =? -1)
                 || (match arr_get "nodes_ctbl" ruby22_ctbl (ci_type e * 3),
                           arr_get "nodes_ctbl" ruby22_ctbl (ci_type e * 3 + 1),
                           arr_get "nodes_ctbl" ruby22_ctbl (ci_type e * 3 + 2) with
                     | Ok a, Ok b, Ok c =>
                         (a =? ci_child e 1) && (b =? ci_child e 2)
                         && (c =? ci_child e 3)
                     | _, _, _ => false
                     end))
              nodes_child_info = true) by (vm_compute; reflexivity).
    rewrite forallb_forall in Hall. specialize (Hall e He).
    apply orb_true_iff in Hall. destruct Hall as [E | Hall];
      [apply Z.eqb_eq in E; contradiction |].
    destruct (arr_get "nodes_ctbl" ruby22_ctbl (ci_type e * 3)) as [a |];
      [| discriminate Hall].
    destruct (arr_get "nodes_ctbl" ruby22_ctbl (ci_type e * 3 + 1)) as [b |];
      [| discriminate Hall].
    destruct (arr_get "nodes_ctbl" ruby22_ctbl (ci_type e * 3 + 2)) as [c |];
      [| discriminate Hall].
    apply andb_true_iff in Hall. destruct Hall as [Hall Hc].
    apply andb_true_iff in Hall. destruct Hall as [Ha Hb].
    apply Z.eqb_eq in Ha, Hb, Hc. subst a b c. repeat split.
  - intros t Ht Hno. unfold NODES_CTBL_SIZE in Ht.
    assert (Hall : forallb
              (fun k =>
                 existsb (fun e => ci_type e =? Z.of_nat k) nodes_child_info
                 || (match arr_get "nodes_ctbl" ruby22_ctbl (Z.of_nat k * 3),
                           arr_get "nodes_ctbl" ruby22_ctbl (Z.of_nat k * 3 + 1),
                           arr_get "nodes_ctbl" ruby22_ctbl (Z.of_nat k * 3 + 2) with
                     | Ok a, Ok b, Ok c =>
                         (a =? NT_UNKNOWN) && (b =? NT_UNKNOWN) && (c =? NT_UNKNOWN)
                     | _, _, _ => false
                     end))
              (seq 0 256) = true) by (vm_compute; reflexivity).
    rewrite forallb_forall in Hall. specialize (Hall (Z.to_nat t)).
    rewrite Z2Nat.id in Hall by lia.
    specialize (Hall ltac:(apply in_seq; lia)).
    apply orb_true_iff in Hall. destruct Hall as [Hl | Hall].
    { apply existsb_exists in Hl. destruct Hl as (e & He & Et).
      apply Z.eqb_eq in Et. exfalso. exact (Hno e He Et). }
    destruct (arr_get "nodes_ctbl" ruby22_ctbl (t * 3)) as [a |];
      [| discriminate Hall].
    destruct (arr_get "nodes_ctbl" ruby22_ctbl (t * 3 + 1)) as [b |];
      [| discriminate Hall].
    destruct (arr_get "nodes_ctbl" ruby22_ctbl (t * 3 + 2)) as [c |];
      [| discriminate Hall].
    apply andb_true_iff in Hall. destruct Hall as [Hall Hc].
    apply andb_true_iff in Hall. destruct Hall as [Ha Hb].
    apply Z.eqb_eq in Ha, Hb, Hc. subst a b c. repeat split.
  - intros n j Hj. pose proof (nd_type_range n) as Hr.
    unfold arr_get.
    destruct (Z.ltb_spec (nd_type n * 3 + j) 0); [lia |].
    destruct (nth_error ruby22_ctbl (Z.to_nat (nd_type n * 3 + j))) as [v |] eqn:E;
      [eexists; reflexivity |].
    apply nth_error_None in E. change (length ruby22_ctbl) with 768%nat in E. lia.
Qed.

Lemma init_nodes_table_rows_witness :
  arr_get "nodes_ctbl" ruby22_ctbl (NODE_BLOCK * 3) = Ok NT_NODE.
Proof.
  apply (proj1 (proj2 (init_nodes_table_rows (ruby_node_name ruby22_x64) ruby22_ctbl
                         ltac:(vm_compute; reflexivity)))
           (NODE_BLOCK, NT_NODE, NT_NULL, NT_NODE)).
  - apply (nth_error_In _ 0). reflexivity.
  - discriminate.
Defined.

(** ** References from the encoder to the loader *)

Section Resolved.

Variable H : Host.
Variable ctbl : list Z.

Lemma load_nodes_loop_resolved (m : memory) (info : NODEInfo)
    (relocs : NODEObjAddresses) (post : list byte) :
  NoDup (nodes_adr relocs) ->
  forall (keys : list rkey) (bin pre : list byte) (extra : nat) (i0 : Z)
         (st : dstate),
    dump_nodes_loop H ctbl m info keys = Ok bin ->
    0 <= i0 ->
    snd (load_nodes_loop H (length keys + extra) (pre ++ bin ++ post) relocs i0
           (Z.of_nat (length pre)) st) = Ok tt ->
    forall (k : nat) (key : rkey) (n : RNode) (a : VALUE),
      nth_error keys k = Some key ->
      load_node m (key_address H key) = Ok n ->
      nth_error (nodes_adr relocs) (Z.to_nat i0 + k) = Some a ->
      exists n',
        d_mem (fst (load_nodes_loop H (length keys + extra) (pre ++ bin ++ post)
                      relocs i0 (Z.of_nat (length pre)) st)) a = Some (ONode n')
        /\ resolved H ctbl m info relocs n n'.
Proof.
  intros Hnd. induction keys as [|key0 keys IH];
    intros bin pre extra i0 st Hdump Hi0 Hok k key n a Hk Hn Ha;
    [destruct k; discriminate Hk |].
  cbn [dump_nodes_loop] in Hdump.
  destruct (dump_node_record H ctbl m info key0) as [rec |] eqn:Erec;
    cbn [bind] in Hdump; [| discriminate].
  destruct (dump_nodes_loop H ctbl m info keys) as [bin' |] eqn:Ebin;
    cbn [bind] in Hdump; [| discriminate].
  apply Ok_inj in Hdump. subst bin.
  cbn [length Nat.add load_nodes_loop] in Hok |- *. unfold dbind in Hok |- *.
  set (s := pre ++ (rec ++ bin') ++ post) in *.
  destruct (load_node_from_str H s relocs i0 (Z.of_nat (length pre)) st)
    as [st1 [off | e]] eqn:E; [| discriminate Hok].
  destruct (load_node_from_str_ok H s relocs i0 _ st st1 off E)
    as (a0 & w0 & w1 & w2 & Hoff & Ha0 & R0 & R1 & R2 & Hm).
  assert (Es : s = pre ++ rec ++ (bin' ++ post))
    by (subst s; rewrite <- !app_assoc; reflexivity).
  assert (Es' : s = (pre ++ rec) ++ bin' ++ post)
    by (subst s; rewrite <- !app_assoc; reflexivity).
  assert (Eoff : off = Z.of_nat (length (pre ++ rec))).
  { unfold dump_node_record in Erec.
    destruct (load_node m (key_address H key0)) as [n0 |] eqn:En0;
      [| discriminate Erec].
    assert (Erec' : dump_node_record H ctbl m info key0 = Ok rec)
      by (unfold dump_node_record; rewrite En0; exact Erec).
    destruct (record_read H ctbl m info key0 n0 rec pre (bin' ++ post) En0 Erec')
      as (_ & _ & _ & _ & _ & _ & _ & _ & _ & _ & _ & _ & _ & Hend & _).
    rewrite <- Es in Hend. rewrite Hoff, Hend, length_app. lia. }
  rewrite Eoff, Es' in Hok |- *.
  destruct k as [|k].
  - injection Hk as ->.
    rewrite Nat.add_0_r in Ha.
    assert (Eaa : a0 = a).
    { unfold arr_get in Ha0. destruct (i0 <? 0); [discriminate |].
      rewrite Ha in Ha0. injection Ha0 as ->. reflexivity. }
    subst a0.
    rewrite load_nodes_loop_other;
      [| lia | intros j Hj; apply (NoDup_nth_error_later _ (Z.to_nat i0));
               [exact Hnd | exact Ha | lia]].
    rewrite Hm. unfold mem_put. rewrite Z.eqb_refl.
    eexists. split; [reflexivity |].
    destruct (record_read H ctbl m info key n rec pre (bin' ++ post) Hn Erec)
      as (ut0 & ut1 & ut2 & vl0 & x0 & vl1 & x1 & vl2 & x2 & Hut & S0 & S1 & S2
          & _ & Hrt & Hfl & X0 & X1 & X2).
    rewrite <- Es in Hrt, Hfl, X0, X1, X2.
    unfold resolved. cbn [u1 u2 u3].
    exists ut0, ut1, ut2, vl0, x0, vl1, x1, vl2, x2, (d_mem st).
    rewrite Hrt in R0, R1, R2. cbn [fst snd] in R0, R1, R2.
    split; [exact Hut |]. split; [exact S0 |]. split; [exact S1 |].
    split; [exact S2 |].
    split; [| split].
    + intros Hx. rewrite (X0 Hx) in R0. exact R0.
    + intros Hx. rewrite (X1 Hx) in R1. exact R1.
    + intros Hx. rewrite (X2 Hx) in R2. exact R2.
  - cbn [nth_error] in Hk.
    apply (IH bin' (pre ++ rec) extra (i0 + 1) st1 eq_refl ltac:(lia) Hok
             k key n a Hk Hn).
    replace (Z.to_nat (i0 + 1) + k)%nat with (Z.to_nat i0 + S k)%nat by lia.
    exact Ha.
Qed.

Lemma load_nodes_from_str_resolved (m : memory) (info : NODEInfo)
    (data : list (string * rvalue)) (relocs : NODEObjAddresses) (st : dstate)
    (s : list byte) (i : nat) (key : rkey) (n : RNode) (a : VALUE) :
  dump_nodes H ctbl m info = Ok s ->
  data_aref data "nodes" = RStr s ->
  Z.of_nat (length (vals (nodes info))) <= nodes_len relocs ->
  NoDup (nodes_adr relocs) ->
  snd (load_nodes_from_str H data relocs st) = Ok tt ->
  nth_error (map fst (vals (nodes info))) i = Some key ->
  load_node m (key_address H key) = Ok n ->
  nth_error (nodes_adr relocs) i = Some a ->
  exists n',
    d_mem (fst (load_nodes_from_str H data relocs st)) a = Some (ONode n')
    /\ resolved H ctbl m info relocs n n'.
Proof.
  intros Hdump Hdata Hlen Hnd Hok Hkey Hn Ha.
  unfold dump_nodes in Hdump.
  destruct (dump_nodes_loop H ctbl m info (map fst (vals (nodes info))))
    as [bin |] eqn:Ebin; cbn [bind] in Hdump; [| discriminate].
  apply Ok_inj in Hdump. subst s.
  unfold load_nodes_from_str in Hok |- *. rewrite Hdata in Hok |- *.
  set (keys := map fst (vals (nodes info))) in *.
  assert (Hn' : Z.to_nat (nodes_len relocs)
                = (length keys + (Z.to_nat (nodes_len relocs) - length keys))%nat).
  { subst keys. rewrite length_map. lia. }
  rewrite Hn' in Hok |- *.
  apply (load_nodes_loop_resolved m info relocs [beyond H 0] Hnd keys bin []
           _ 0 st Ebin ltac:(lia) Hok i key n a Hkey Hn Ha).
Qed.

(** What was written for a slot settles the number as well as the code. *)
Lemma DUMP_RAW_VALUE_number (vl vl' : Z) (x x' : VALUE) :
  DUMP_RAW_VALUE vl x = DUMP_RAW_VALUE vl' x' ->
  0 <= x < 2 ^ 64 -> 0 <= x' < 2 ^ 64 -> x = x'.
Proof.
  intros E Hx Hx'. assert (Eb := f_equal snd E).
  unfold DUMP_RAW_VALUE in Eb. cbv zeta in Eb. cbn [snd] in Eb.
  rewrite <- (bin_to_value_to_bin x Hx), <- (bin_to_value_to_bin x' Hx'), Eb.
  reflexivity.
Qed.

Lemma to_VALUE_range (z : Z) : 0 <= to_VALUE z < 2 ^ 64.
Proof. unfold to_VALUE. apply Z.mod_pos_bound. lia. Qed.

(** A slot written as a reference to a node. *)
Lemma slot_resolved_node (m m0 : memory) (info : NODEInfo)
    (relocs : NODEObjAddresses) (n : RNode) (v : VALUE) (j vl : Z) (x w : VALUE) :
  slot_dumped H m info n NT_NODE v j vl x ->
  v <> 0 ->
  ~ (nd_type n = NODE_ATTRASGN /\ v = 1 /\ j = 1) ->
  (0 <= x < 2 ^ 64 -> resolve_slot H m0 relocs vl x = Ok w) ->
  nth_error (nodes_adr relocs)
    (Z.to_nat (to_VALUE (LeafTableInfo_keyToID (nodes info) (KStr (value_to_str v)))))
  = Some w.
Proof.
  intros (E & Hvl & _ & Hx) Hv Hself Hres.
  set (id := to_VALUE (LeafTableInfo_keyToID (nodes info) (KStr (value_to_str v)))).
  assert (Ed : dump_node_value H m info n NT_NODE v j
               = Ok (DUMP_RAW_VALUE VL_NODE id)).
  { unfold dump_node_value in E |- *.
    change ((NT_NODE =? NT_NULL) || (NT_NODE =? NT_LONG)) with false in E |- *.
    change (NT_NODE =? NT_NODE) with true in E |- *. cbv iota in E |- *.
    destruct (Z.eqb_spec v 0) as [E0 | _]; [contradiction |].
    assert (Hs : (nd_type n =? NODE_ATTRASGN) && (v =? 1) && (j =? 1) = false).
    { destruct (Z.eqb_spec (nd_type n) NODE_ATTRASGN); [| reflexivity].
      destruct (Z.eqb_spec v 1); [| reflexivity].
      destruct (Z.eqb_spec j 1); [| reflexivity]. exfalso. apply Hself. auto. }
    rewrite Hs in E |- *.
    destruct (negb (TYPE H m v =? T_NODE H)); [discriminate E |].
    cbv zeta in E |- *. fold id in E |- *.
    destruct (id =? to_VALUE (-1)); [discriminate E | reflexivity]. }
  rewrite Ed in E. apply Ok_inj in E.
  assert (Evl : vl = VL_NODE).
  { symmetry. apply (DUMP_RAW_VALUE_code _ _ _ _ E); [unfold VL_NODE; lia | exact Hvl]. }
  subst vl.
  assert (Hxr : 0 <= x < 2 ^ 64) by (apply Hx; discriminate).
  assert (Ex : id = x)
    by (apply (DUMP_RAW_VALUE_number _ _ _ _ E); [apply to_VALUE_range | exact Hxr]).
  specialize (Hres Hxr). rewrite <- Ex in Hres. unfold resolve_slot in Hres.
  change (VL_NODE =? VL_RAW) with false in Hres.
  change (VL_NODE =? VL_NODE) with true in Hres. cbv iota in Hres.
  destruct (id >=? uint32 (nodes_len relocs)); [discriminate Hres |].
  unfold arr_get in Hres. destruct (id <? 0); [discriminate Hres |].
  destruct (nth_error (nodes_adr relocs) (Z.to_nat id)) as [a |];
    [| discriminate Hres].
  cbn [bind] in Hres.
  destruct (negb (TYPE H m0 a =? T_NODE H)); [discriminate Hres |].
  apply Ok_inj in Hres. subst w. reflexivity.
Qed.

(** A slot written as an identifier. *)
Lemma slot_resolved_id (m m0 : memory) (info : NODEInfo)
    (relocs : NODEObjAddresses) (n : RNode) (v : VALUE) (j vl : Z) (x w : VALUE) :
  slot_dumped H m info n NT_ID v j vl x ->
  (0 <= x < 2 ^ 64 -> resolve_slot H m0 relocs vl x = Ok w) ->
  nth_error (syms_adr relocs)
    (Z.to_nat (to_VALUE (LeafTableInfo_keyToID (syms info) (KFix (fixnum v)))))
  = Some w.
Proof.
  intros (E & Hvl & _ & Hx) Hres.
  set (id := to_VALUE (LeafTableInfo_keyToID (syms info) (KFix (fixnum v)))).
  assert (Ed : dump_node_value H m info n NT_ID v j = Ok (DUMP_RAW_VALUE VL_ID id)).
  { unfold dump_node_value in E |- *.
    change ((NT_ID =? NT_NULL) || (NT_ID =? NT_LONG)) with false in E |- *.
    change (NT_ID =? NT_NODE) with false in E |- *.
    change (NT_ID =? NT_VALUE) with false in E |- *.
    change (NT_ID =? NT_ID) with true in E |- *. cbv iota zeta in E |- *.
    fold id in E |- *.
    destruct (id =? to_VALUE (-1)); [discriminate E | reflexivity]. }
  rewrite Ed in E. apply Ok_inj in E.
  assert (Evl : vl = VL_ID).
  { symmetry. apply (DUMP_RAW_VALUE_code _ _ _ _ E); [unfold VL_ID; lia | exact Hvl]. }
  subst vl.
  assert (Hxr : 0 <= x < 2 ^ 64) by (apply Hx; discriminate).
  assert (Ex : id = x)
    by (apply (DUMP_RAW_VALUE_number _ _ _ _ E); [apply to_VALUE_range | exact Hxr]).
  specialize (Hres Hxr). rewrite <- Ex in Hres. unfold resolve_slot in Hres.
  change (VL_ID =? VL_RAW) with false in Hres.
  change (VL_ID =? VL_NODE) with false in Hres.
  change (VL_ID =? VL_ID) with true in Hres. cbv iota in Hres.
  destruct (id >=? uint32 (syms_len relocs)); [discriminate Hres |].
  unfold arr_get in Hres. destruct (id <? 0); [discriminate Hres |].
  destruct (nth_error (syms_adr relocs) (Z.to_nat id)) as [a |];
    [| discriminate Hres].
  apply Ok_inj in Hres. subst w. reflexivity.
Qed.

End Resolved.

(** When [load_nodes_from_str] returns on the string that [dump_nodes]
    wrote, the references of each node are restored under the
    correspondence of the ordinals: where a slot of type [NT_NODE] of the
    [i]-th node written held the address of a node (neither 0 nor the 1 of
    a [NODE_ATTRASGN]), the slot of the [i]-th node built holds the entry
    of [nodes_adr] at the ordinal that the node table gives for that
    address; and where a slot held an identifier ([NT_ID]), the slot of the
    node built holds the entry of [syms_adr] at the ordinal that the table
    of symbols gives for the Fixnum of the identifier. *)
Theorem reference_slots_roundtrip (H : Host) (ctbl : list Z) (m : memory)
    (info : NODEInfo) (data : list (string * rvalue)) (relocs : NODEObjAddresses)
    (st : dstate) (s : list byte) (i : nat) (key : rkey) (n : RNode) (a : VALUE)
    (ut0 ut1 ut2 : Z) :
  dump_nodes H ctbl m info = Ok s ->
  data_aref data "nodes" = RStr s ->
  Z.of_nat (length (vals (nodes info))) <= nodes_len relocs ->
  NoDup (nodes_adr relocs) ->
  snd (load_nodes_from_str H data relocs st) = Ok tt ->
  nth_error (map fst (vals (nodes info))) i = Some key ->
  load_node m (key_address H key) = Ok n ->
  nth_error (nodes_adr relocs) i = Some a ->
  dump_child_types ctbl info n = Ok (ut0, ut1, ut2) ->
  exists n',
    d_mem (fst (load_nodes_from_str H data relocs st)) a = Some (ONode n')
    /\ forall (j ut : Z),
         In (j, ut) [(1, ut0); (2, ut1); (3, ut2)] ->
         (ut = NT_NODE -> nd_slot n j <> 0 ->
          ~ (nd_type n = NODE_ATTRASGN /\ nd_slot n j = 1 /\ j = 1) ->
          nth_error (nodes_adr relocs)
            (Z.to_nat (to_VALUE (LeafTableInfo_keyToID (nodes info)
                                   (KStr (value_to_str (nd_slot n j))))))
          = Some (nd_slot n' j))
         /\ (ut = NT_ID ->
             nth_error (syms_adr relocs)
               (Z.to_nat (to_VALUE (LeafTableInfo_keyToID (syms info)
                                      (KFix (fixnum (nd_slot n j))))))
             = Some (nd_slot n' j)).
Proof.
  intros Hdump Hdata Hlen Hnd Hok Hkey Hn Ha Hut.
  destruct (load_nodes_from_str_resolved H ctbl m info data relocs st s i key n a
              Hdump Hdata Hlen Hnd Hok Hkey Hn Ha)
    as (n' & Hmem & vt0 & vt1 & vt2 & vl0 & x0 & vl1 & x1 & vl2 & x2 & m0
        & Hut' & S0 & S1 & S2 & R0 & R1 & R2).
  rewrite Hut in Hut'. apply Ok_inj in Hut'.
  assert (E0 : vt0 = ut0) by congruence.
  assert (E1 : vt1 = ut1) by congruence.
  assert (E2 : vt2 = ut2) by congruence.
  subst vt0 vt1 vt2. clear Hut'.
  exists n'. split; [exact Hmem |].
  intros j ut Hin. cbn [In] in Hin.
  destruct Hin as [[= <- <-] | [[= <- <-] | [[= <- <-] | []]]];
    unfold nd_slot; cbn [Z.eqb Pos.eqb]; split.
  - intros -> Hv Hself. apply (slot_resolved_node H m m0 info relocs n _ 1 vl0 x0 _ S0 Hv Hself R0).
  - intros ->. apply (slot_resolved_id H m m0 info relocs n _ 1 vl0 x0 _ S0 R0).
  - intros -> Hv Hself. apply (slot_resolved_node H m m0 info relocs n _ 2 vl1 x1 _ S1 Hv Hself R1).
  - intros ->. apply (slot_resolved_id H m m0 info relocs n _ 2 vl1 x1 _ S1 R1).
  - intros -> Hv Hself. apply (slot_resolved_node H m m0 info relocs n _ 3 vl2 x2 _ S2 Hv Hself R2).
  - intros ->. apply (slot_resolved_id H m m0 info relocs n _ 3 vl2 x2 _ S2 R2).
Qed.


Lemma reference_slots_roundtrip_witness :
  exists n',
    d_mem (fst (load_nodes_from_str ruby22_x64 (container_of tree_mem 4096)
                  tree_relocs tree_loading)) 8388648 = Some (ONode n')
    /\ nth_error (nodes_adr tree_relocs) 1 = Some (u1 n')
    /\ nth_error (nodes_adr tree_relocs) 2 = Some (u3 n').
Proof.
  destruct (reference_slots_roundtrip ruby22_x64 ruby22_ctbl tree_mem
              (info_of tree_mem 4096) (container_of tree_mem 4096)
              tree_relocs tree_loading
              [x11; x00; x11; x02; x04; x08; x01; x02;
               x00; x00; x00; x02; x06; xe0;
               x00; x00; x00; x02; x0a; xe0; x00] 0%nat
              (KStr (list_byte_of_string "1000"))
              (mkRNode (node_flags NODE_BLOCK 1) 0 4136 0 4176) 8388648
              NT_NODE NT_NULL NT_NODE)
    as (n' & Hmem & Hslots).
  - vm_compute. reflexivity.
  - vm_compute. reflexivity.
  - vm_compute. discriminate.
  - vm_compute. repeat constructor; cbn [In]; intros Hin;
      repeat (destruct Hin as [Hin | Hin]; [discriminate Hin |]); exact Hin.
  - vm_compute. reflexivity.
  - vm_compute. reflexivity.
  - vm_compute. reflexivity.
  - vm_compute. reflexivity.
  - vm_compute. reflexivity.
  - exists n'. split; [exact Hmem |]. split.
    + apply (proj1 (Hslots 1 NT_NODE ltac:(left; reflexivity)));
        [reflexivity | discriminate | intros (E & _); discriminate E].
    + apply (proj1 (Hslots 3 NT_NODE ltac:(right; right; left; reflexivity)));
        [reflexivity | discriminate | intros (E & _); discriminate E].
Defined.
